(** * Prompt Saver: a shallow embedding of the prompt store and its queries

    The development follows [utils.js]: the JSON-like values the extension
    keeps in [extension_settings], the [PromptDataManager] operations over
    them (validation, repair, save, delete, filter, export, import, content
    diff), the two sorters and the filter of [PromptLibraryUI], and
    [PromptSaverManager.saveCurrentPrompt].

    Conventions of the embedding.
    - A JavaScript value is a [value]; an object is the list of its own
      properties in enumeration order (array-index keys first, ascending,
      then the other keys in insertion order).
    - A property read that finds no own property falls back on the members
      the value inherits ([constructor], [toString], ... of
      [Object.prototype], and the methods of arrays, strings and numbers),
      which read as the opaque value [VNative]. Objects keep the prototype
      they are created with: an assignment to [__proto__] creates no
      property, and the change of prototype it makes is not followed.
    - Numbers are the integers plus [VNaN]; every test the code performs on
      a number ([typeof], [|| default], [< 0]) only looks at its type, at
      whether it is zero or NaN and at its sign.
    - A string is a JavaScript string whose code units are all below 256
      (U+0000 to U+00FF): the character of code [n] is the code unit [n],
      so that [String.length] is [s.length], and [toLowerCase] and [trim]
      are those of JavaScript on such strings. Strings with other
      characters are outside the embedding.
    - An operation that can throw runs in the monad [M], which threads the
      extension's state and carries the [message] of the thrown error.
      [async] methods are run to completion: the code has one thread and
      every [await] is on a method of the same object.
    - The host's [Date], clock, random source and collation are the fields
      of [Host]. *)

From Stdlib Require Import String Ascii List ZArith Bool Lia Arith DecimalString
  Permutation Sorted.
Import ListNotations.
Local Open Scope string_scope.

(** ** Strings *)

Module Str.

(** The white space and line terminators of JavaScript below U+0100: tab,
    line feed, vertical tab, form feed, carriage return, space and the
    no-break space U+00A0. *)
Definition is_space (c : ascii) : bool :=
  match nat_of_ascii c with
  | 9 | 10 | 11 | 12 | 13 | 32 | 160 => true
  | _ => false
  end.

Fixpoint trimStart (s : string) : string :=
  match s with
  | String c s' => if is_space c then trimStart s' else s
  | EmptyString => EmptyString
  end.

Fixpoint rev_onto (s acc : string) : string :=
  match s with
  | EmptyString => acc
  | String c s' => rev_onto s' (String c acc)
  end.

Definition rev (s : string) : string := rev_onto s EmptyString.

(** [s.trim()] *)
Definition trim (s : string) : string := rev (trimStart (rev (trimStart s))).

(** The lower case of a character below U+0100: of [A] to [Z] and of the
    letters U+00C0 to U+00DE, but for the multiplication sign U+00D7. *)
Definition lower_char (c : ascii) : ascii :=
  let n := nat_of_ascii c in
  if ((65 <=? n)%nat && (n <=? 90)%nat) ||
     ((192 <=? n)%nat && (n <=? 222)%nat && negb (n =? 215)%nat)
  then ascii_of_nat (n + 32) else c.

(** [s.toLowerCase()] *)
Fixpoint toLowerCase (s : string) : string :=
  match s with
  | EmptyString => EmptyString
  | String c s' => String (lower_char c) (toLowerCase s')
  end.

(** [s.startsWith(p)] *)
Definition startsWith (s p : string) : bool := String.prefix p s.

(** [s.includes(p)] *)
Fixpoint includes (s p : string) : bool :=
  String.prefix p s ||
  match s with
  | EmptyString => false
  | String _ s' => includes s' p
  end.

(** [s.replace(c, '')] for a one-character pattern: the first occurrence
    is removed. *)
Fixpoint remove_first (c : ascii) (s : string) : string :=
  match s with
  | EmptyString => EmptyString
  | String d s' => if Ascii.eqb c d then s' else String d (remove_first c s')
  end.

(** [s.split(c)] for a one-character separator; the result is never
    empty. [cur] holds the characters of the current piece, reversed. *)
Fixpoint split_onto (c : ascii) (s : string) (cur : string) : list string :=
  match s with
  | EmptyString => [rev cur]
  | String d s' =>
      if Ascii.eqb c d then rev cur :: split_onto c s' EmptyString
      else split_onto c s' (String d cur)
  end.

Definition split (c : ascii) (s : string) : list string :=
  split_onto c s EmptyString.

(** [parts.join(sep)] *)
Fixpoint join (sep : string) (parts : list string) : string :=
  match parts with
  | [] => EmptyString
  | [p] => p
  | p :: rest => p ++ sep ++ join sep rest
  end.

Definition newline : ascii := ascii_of_nat 10.

(** Decimal numerals, as [String(n)] prints an integer. *)
Definition of_N (n : N) : string := NilZero.string_of_uint (N.to_uint n).

Definition of_nat (n : nat) : string := of_N (N.of_nat n).

Definition of_Z (z : Z) : string := NilZero.string_of_int (Z.to_int z).

Definition is_digit (c : ascii) : bool :=
  let n := nat_of_ascii c in (48 <=? n)%nat && (n <=? 57)%nat.

End Str.

(** A string is truthy when it is not empty. *)
Definition nonempty (s : string) : bool := negb (s =? "").

(** ** JavaScript values *)

#[warnings="-register-all"]
Inductive value : Type :=
| VUndefined
| VNull
| VBool (b : bool)
| VNum (n : Z)
| VNaN
| VStr (s : string)
| VArr (items : list value)
| VObj (props : list (string * value))
| VNative.

(** [VNative] is a built-in function or prototype object, as a read of an
    inherited member returns it: it is truthy and has no own enumerable
    property. *)

Definition props : Type := list (string * value).

Definition keys (ps : props) : list string := map fst ps.

Module JS.

(** [!!v] *)
Definition truthy (v : value) : bool :=
  match v with
  | VUndefined | VNull | VNaN => false
  | VBool b => b
  | VNum n => negb (n =? 0)%Z
  | VStr s => negb (s =? "")
  | VArr _ | VObj _ | VNative => true
  end.

(** [a || b] on values *)
Definition or (a b : value) : value := if truthy a then a else b.

Definition is_string (v : value) : bool :=
  match v with VStr _ => true | _ => false end.

Definition is_boolean (v : value) : bool :=
  match v with VBool _ => true | _ => false end.

Definition is_number (v : value) : bool :=
  match v with VNum _ | VNaN => true | _ => false end.

Definition is_undefined (v : value) : bool :=
  match v with VUndefined => true | _ => false end.

Definition is_nullish (v : value) : bool :=
  match v with VUndefined | VNull => true | _ => false end.

(** [Array.isArray(v)] *)
Definition isArray (v : value) : bool :=
  match v with VArr _ => true | _ => false end.

(** [a === b]. Two objects or arrays are equal only when they are the same
    allocation; the values compared by the code come from different ones
    (a filter specification against a stored record), so they differ. *)
Definition strict_equals (a b : value) : bool :=
  match a, b with
  | VUndefined, VUndefined => true
  | VNull, VNull => true
  | VBool x, VBool y => Bool.eqb x y
  | VNum x, VNum y => (x =? y)%Z
  | VStr x, VStr y => (x =? y)
  | _, _ => false
  end.

(** SameValueZero, the equality of [Array.prototype.includes]. *)
Definition same_value_zero (a b : value) : bool :=
  match a, b with
  | VNaN, VNaN => true
  | _, _ => strict_equals a b
  end.

(** [String(v)]; inside [Array.prototype.join] a null or undefined
    element prints as the empty string. *)
Fixpoint to_string (v : value) : string :=
  match v with
  | VUndefined => "undefined"
  | VNull => "null"
  | VBool true => "true"
  | VBool false => "false"
  | VNum n => Str.of_Z n
  | VNaN => "NaN"
  | VStr s => s
  | VArr items =>
      Str.join ","
        (map (fun x => if is_nullish x then "" else to_string x) items)
  | VObj _ => "[object Object]"
  | VNative => "function () { [native code] }"
  end.

(** Own properties *)

Fixpoint lookup (k : string) (ps : props) : option value :=
  match ps with
  | [] => None
  | (k', v) :: ps' => if k =? k' then Some v else lookup k ps'
  end.

Definition has (k : string) (ps : props) : bool :=
  match lookup k ps with Some _ => true | None => false end.

(** An array index is the canonical numeral of an integer below 2^32 - 1. *)
Definition index_of_key (k : string) : option N :=
  match NilZero.uint_of_string k with
  | Some u =>
      let n := N.of_uint u in
      if (Str.of_N n =? k) && (n <? 4294967295)%N then Some n else None
  | None => None
  end.

Fixpoint replace (k : string) (v : value) (ps : props) : props :=
  match ps with
  | [] => []
  | (k', v') :: ps' =>
      if k =? k' then (k, v) :: ps' else (k', v') :: replace k v ps'
  end.

(** Position of a new index key [n]: after the smaller index keys. *)
Fixpoint insert_index (n : N) (k : string) (v : value) (ps : props) : props :=
  match ps with
  | [] => [(k, v)]
  | (k', v') :: ps' =>
      match index_of_key k' with
      | Some m =>
          if (m <? n)%N then (k', v') :: insert_index n k v ps'
          else (k, v) :: ps
      | None => (k, v) :: ps
      end
  end.

(** Defining the own property [k] of an object as [v], as an object
    literal, a spread and [Object.fromEntries] do; an assignment [o[k] = v]
    does the same for every key but [__proto__] (see [put]). *)
Definition set (k : string) (v : value) (ps : props) : props :=
  if has k ps then replace k v ps
  else match index_of_key k with
       | Some n => insert_index n k v ps
       | None => (ps ++ [(k, v)])%list
       end.

(** The assignment [o[k] = v]. Assigning to [__proto__] on an object that
    has no own property of that name runs the setter of [Object.prototype]
    and creates no property. *)
Definition put (k : string) (v : value) (ps : props) : props :=
  if (k =? "__proto__") && negb (has k ps) then ps else set k v ps.

(** [delete o[k]] *)
Fixpoint delete (k : string) (ps : props) : props :=
  match ps with
  | [] => []
  | (k', v') :: ps' =>
      if k =? k' then ps' else (k', v') :: delete k ps'
  end.

Fixpoint indexed (i : nat) (items : list value) : props :=
  match items with
  | [] => []
  | x :: rest => (Str.of_nat i, x) :: indexed (S i) rest
  end.

Fixpoint chars (s : string) : list value :=
  match s with
  | EmptyString => []
  | String c s' => VStr (String c EmptyString) :: chars s'
  end.

(** The own enumerable properties that [Object.entries], [Object.keys]
    and object spread see. *)
Definition own_props (v : value) : props :=
  match v with
  | VObj ps => ps
  | VArr items => indexed 0 items
  | VStr s => indexed 0 (chars s)
  | _ => []
  end.

(** [{ ...acc, ...src }]: the properties of [src] are defined in order. *)
Definition assign (acc : props) (src : props) : props :=
  fold_left (fun o kv => set (fst kv) (snd kv) o) src acc.

Definition spread (acc : props) (src : value) : props :=
  assign acc (own_props src).

(** An object literal [{ k1: v1, ..., kn: vn }] and [Object.fromEntries]. *)
Definition literal (ps : props) : props := assign [] ps.

(** The own property [k] of [v], the [length] of an array or a string
    included. *)
Definition own (v : value) (k : string) : option value :=
  match v with
  | VArr items =>
      if k =? "length" then Some (VNum (Z.of_nat (length items)))
      else lookup k (own_props v)
  | VStr s =>
      if k =? "length" then Some (VNum (Z.of_nat (String.length s)))
      else lookup k (own_props v)
  | _ => lookup k (own_props v)
  end.

(** The names every value inherits from [Object.prototype], and those an
    array, a string and a number inherit from the prototype of their kind
    (ECMAScript 2023). *)
Definition object_members : list string :=
  ["constructor"; "hasOwnProperty"; "isPrototypeOf"; "propertyIsEnumerable";
   "toLocaleString"; "toString"; "valueOf"; "__proto__";
   "__defineGetter__"; "__defineSetter__";
   "__lookupGetter__"; "__lookupSetter__"].

Definition array_members : list string :=
  ["at"; "concat"; "copyWithin"; "entries"; "every"; "fill"; "filter";
   "find"; "findIndex"; "findLast"; "findLastIndex"; "flat"; "flatMap";
   "forEach"; "includes"; "indexOf"; "join"; "keys"; "lastIndexOf"; "map";
   "pop"; "push"; "reduce"; "reduceRight"; "reverse"; "shift"; "slice";
   "some"; "sort"; "splice"; "toReversed"; "toSorted"; "toSpliced";
   "unshift"; "values"; "with"].

Definition string_members : list string :=
  ["anchor"; "at"; "big"; "blink"; "bold"; "charAt"; "charCodeAt";
   "codePointAt"; "concat"; "endsWith"; "fixed"; "fontcolor"; "fontsize";
   "includes"; "indexOf"; "isWellFormed"; "italics"; "lastIndexOf"; "link";
   "localeCompare"; "match"; "matchAll"; "normalize"; "padEnd"; "padStart";
   "repeat"; "replace"; "replaceAll"; "search"; "slice"; "small"; "split";
   "startsWith"; "strike"; "sub"; "substr"; "substring"; "sup";
   "toLocaleLowerCase"; "toLocaleUpperCase"; "toLowerCase"; "toUpperCase";
   "toWellFormed"; "trim"; "trimEnd"; "trimLeft"; "trimRight"; "trimStart"].

Definition number_members : list string :=
  ["toExponential"; "toFixed"; "toPrecision"].

Definition mem (k : string) (names : list string) : bool :=
  existsb (String.eqb k) names.

(** [k] names a member that [v] finds on its prototype chain. *)
Definition inherited (v : value) (k : string) : bool :=
  mem k object_members ||
  match v with
  | VArr _ => mem k array_members
  | VStr _ => mem k string_members
  | VNum _ | VNaN => mem k number_members
  | _ => false
  end.

(** [v.k] and [v[k]] for a [v] that is neither null nor undefined: the own
    property, or else the inherited member, or else [undefined]. *)
Definition prop (v : value) (k : string) : value :=
  match own v k with
  | Some x => x
  | None => if inherited v k then VNative else VUndefined
  end.

Arguments own !v !k /.
Arguments prop !v !k /.

(** [v?.k] *)
Definition opt_prop (v : value) (k : string) : value :=
  if is_nullish v then VUndefined else prop v k.

(** [['user', 'assistant', 'system'].includes(v)] *)
Definition is_role (v : value) : bool :=
  existsb (same_value_zero v) [VStr "user"; VStr "assistant"; VStr "system"].

End JS.

(** [l.push(x)] *)
Definition push {A} (l : list A) (x : A) : list A := (l ++ [x])%list.

(** ** Exceptions and state *)

(** The result of running code that may throw; [Throw] carries
    [error.message]. *)
Inductive outcome (A : Type) : Type :=
| Ok (a : A)
| Throw (message : string).

Arguments Ok {A} a.
Arguments Throw {A} message.

Definition obind {A B} (x : outcome A) (f : A -> outcome B) : outcome B :=
  match x with
  | Ok a => f a
  | Throw m => Throw m
  end.

Notation "'let?' x ':=' e 'in' k" := (obind e (fun x => k))
  (at level 10, x pattern, e at level 100, k at level 200).

(** The state the operations share: [extension_settings[extensionName].prompts]
    ([None] while the namespace or its [prompts] object is missing), the
    numeric setting [extensionSettings.settings?.max_prompts], what the host's
    [getCurrentCompletionPreset()] returns, and how many times the clock and
    the random source have been read. *)
Record state : Type := mkState {
  prompts : option props;
  max_prompts : option Z;
  completion_preset : value;
  tick : nat
}.

Definition M (A : Type) : Type := state -> outcome A * state.

Definition ret {A} (a : A) : M A := fun s => (Ok a, s).

Definition bind {A B} (x : M A) (f : A -> M B) : M B :=
  fun s =>
    match x s with
    | (Ok a, s') => f a s'
    | (Throw m, s') => (Throw m, s')
    end.

Notation "'let*' x ':=' e 'in' k" := (bind e (fun x => k))
  (at level 10, x pattern, e at level 100, k at level 200).

Definition throw {A} (m : string) : M A := fun s => (Throw m, s).

Definition lift {A} (x : outcome A) : M A := fun s => (x, s).

(** [try { body } catch (error) { handler(error.message) }] *)
Definition try_catch {A} (body : M A) (handler : string -> M A) : M A :=
  fun s =>
    match body s with
    | (Ok a, s') => (Ok a, s')
    | (Throw m, s') => handler m s'
    end.

(** The same for code that does not touch the state. *)
Definition otry {A} (body : outcome A) (handler : string -> outcome A) : outcome A :=
  match body with
  | Ok a => Ok a
  | Throw m => handler m
  end.

Definition get_state : M state := fun s => (Ok s, s).

Definition set_prompts (ps : option props) : M unit :=
  fun s => (Ok tt, mkState ps (max_prompts s) (completion_preset s) (tick s)).

Definition next_tick : M nat :=
  fun s => (Ok (tick s),
            mkState (prompts s) (max_prompts s) (completion_preset s) (S (tick s))).

Fixpoint foldM {A B} (f : B -> A -> M B) (l : list A) (b : B) : M B :=
  match l with
  | [] => ret b
  | a :: l' => let* b' := f b a in foldM f l' b'
  end.

Fixpoint ofilter {A} (f : A -> outcome bool) (l : list A) : outcome (list A) :=
  match l with
  | [] => Ok []
  | a :: l' =>
      let? keep := f a in
      let? rest := ofilter f l' in
      Ok (if keep then a :: rest else rest)
  end.

(** [l.some(f)] and [l.every(f)] for a callback that may throw; both stop at
    the first element that decides the answer. *)
Fixpoint osome {A} (f : A -> outcome bool) (l : list A) : outcome bool :=
  match l with
  | [] => Ok false
  | a :: l' => let? b := f a in if b then Ok true else osome f l'
  end.

Fixpoint oevery {A} (f : A -> outcome bool) (l : list A) : outcome bool :=
  match l with
  | [] => Ok true
  | a :: l' => let? b := f a in if b then oevery f l' else Ok false
  end.

(** Reading a property throws a [TypeError] on null and undefined. *)
Definition get (v : value) (k : string) : outcome value :=
  if JS.is_nullish v
  then Throw ("Cannot read properties of " ++ JS.to_string v ++
              " (reading '" ++ k ++ "')")
  else Ok (JS.prop v k).

(** ** The host *)

(** What the code takes from its JavaScript host. [Date_parse s] is the time
    value of [new Date(s)] for a string [s], [None] for an invalid date;
    [Date_now n] is the clock at its [n]-th reading; [Math_random_id n] is
    [Math.random().toString(36).substr(2, 9)] at the [n]-th draw;
    [JSON_parse] returns [None] where [JSON.parse] throws; [localeCompare a b]
    is [a.localeCompare(b)]. *)
Class Host : Type := {
  Date_parse : string -> option Z;
  Date_toISOString : Z -> string;
  Date_now : nat -> Z;
  Math_random_id : nat -> string;
  JSON_parse : string -> option value;
  localeCompare : string -> string -> Z
}.

(** ** [PromptDataManager] *)

(** The receiver of a string method call [expr.meth(...)]: a [TypeError]
    unless the receiver is a string. *)
Definition string_receiver (v : value) (expr meth : string) : outcome string :=
  match v with
  | VStr s => Ok s
  | _ =>
      if JS.is_nullish v
      then Throw ("Cannot read properties of " ++ JS.to_string v ++
                  " (reading '" ++ meth ++ "')")
      else Throw (expr ++ "." ++ meth ++ " is not a function")
  end.

(** The receiver of an array method call. *)
Definition array_receiver (v : value) (expr meth : string) : outcome (list value) :=
  match v with
  | VArr items => Ok items
  | _ =>
      if JS.is_nullish v
      then Throw ("Cannot read properties of " ++ JS.to_string v ++
                  " (reading '" ++ meth ++ "')")
      else Throw (expr ++ "." ++ meth ++ " is not a function")
  end.

(** [/^\d{4}-\d{2}-\d{2}T\d{2}:\d{2}:\d{2}(\.\d{3})?Z?$/.test(s)] *)
Fixpoint eat (pattern : list (ascii -> bool)) (s : string) : option string :=
  match pattern with
  | [] => Some s
  | p :: pattern' =>
      match s with
      | String c s' => if p c then eat pattern' s' else None
      | EmptyString => None
      end
  end.

Definition isoRegex (s : string) : bool :=
  let d := Str.is_digit in
  let lit := Ascii.eqb in
  match eat [d; d; d; d; lit "-"; d; d; lit "-"; d; d; lit "T";
             d; d; lit ":"; d; d; lit ":"; d; d]%char s with
  | None => false
  | Some rest =>
      let rest' := match eat [lit "."; d; d; d]%char rest with
                   | Some r => r
                   | None => rest
                   end in
      (rest' =? "") || (rest' =? "Z")
  end.

Record validation : Type := mkValidation {
  isValid : bool;
  errors : list string
}.

Section DataManager.

Context {host : Host}.

Definition extensionName : string := "prompt-saver-extension".

(** [new Date().toISOString()] *)
Definition now_iso : M string :=
  let* n := next_tick in ret (Date_toISOString (Date_now n)).

Definition generatePromptId : M string :=
  let* n := next_tick in
  ret ("prompt_" ++ Str.of_Z (Date_now n) ++ "_" ++ Math_random_id n).

Definition isValidISODate (dateString : value) : bool :=
  match dateString with
  | VStr s =>
      if s =? "" then false
      else match Date_parse s with
           | None => false
           | Some t =>
               isoRegex s &&
               Str.startsWith (Date_toISOString t) (Str.remove_first "Z" s)
           end
  | _ => false
  end.

Definition push_if (cond : bool) (msg : string) (errs : list string) : list string :=
  if cond then push errs msg else errs.

(** A required text field fails when it is falsy, not a string, or blank. *)
Definition blank (v : value) : bool :=
  negb (JS.truthy v) || negb (JS.is_string v) ||
  match v with
  | VStr s => (String.length (Str.trim s) =? 0)%nat
  | _ => false
  end.

Definition wrong_type (is_type : value -> bool) (v : value) : bool :=
  negb (JS.is_undefined v) && negb (is_type v).

Definition validate_metadata (metadata : value) (errs : list string) : list string :=
  if JS.truthy metadata then
    let created_at := JS.prop metadata "created_at" in
    let last_used := JS.prop metadata "last_used" in
    let favorite := JS.prop metadata "favorite" in
    let usage_count := JS.prop metadata "usage_count" in
    let tags := JS.prop metadata "tags" in
    let source_preset := JS.prop metadata "source_preset" in
    let errs := push_if (JS.truthy created_at && negb (isValidISODate created_at))
      "metadata.created_at must be a valid ISO date string" errs in
    let errs := push_if (JS.truthy last_used && negb (isValidISODate last_used))
      "metadata.last_used must be a valid ISO date string" errs in
    let errs := push_if (wrong_type JS.is_boolean favorite)
      "metadata.favorite must be a boolean" errs in
    let errs := push_if
      (negb (JS.is_undefined usage_count) &&
       (negb (JS.is_number usage_count) ||
        match usage_count with VNum n => (n <? 0)%Z | _ => false end))
      "metadata.usage_count must be a non-negative number" errs in
    let errs := push_if
      (JS.truthy tags &&
       (negb (JS.isArray tags) ||
        match tags with
        | VArr items => negb (forallb JS.is_string items)
        | _ => false
        end))
      "metadata.tags must be an array of strings" errs in
    push_if
      (negb (JS.is_undefined source_preset) &&
       negb (JS.strict_equals source_preset VNull) &&
       negb (JS.is_string source_preset))
      "metadata.source_preset must be a string or null" errs
  else errs.

Definition validatePromptData (promptData : value) : outcome validation :=
  let? id := get promptData "id" in
  let p := JS.prop promptData in
  let errs := push_if (negb (JS.truthy id) || negb (JS.is_string id))
    "Prompt ID is required and must be a string" [] in
  let errs := push_if (blank (p "name"))
    "Prompt name is required and must be a non-empty string" errs in
  let errs := push_if (blank (p "content"))
    "Prompt content is required and must be a non-empty string" errs in
  let errs := push_if (negb (JS.truthy (p "role")) || negb (JS.is_role (p "role")))
    "Prompt role must be one of: user, assistant, system" errs in
  let errs := push_if (wrong_type JS.is_boolean (p "system_prompt"))
    "system_prompt must be a boolean" errs in
  let errs := push_if (wrong_type JS.is_boolean (p "marker"))
    "marker must be a boolean" errs in
  let errs := push_if (wrong_type JS.is_number (p "injection_position"))
    "injection_position must be a number" errs in
  let errs := push_if (wrong_type JS.is_number (p "injection_depth"))
    "injection_depth must be a number" errs in
  let errs := push_if (wrong_type JS.is_number (p "injection_order"))
    "injection_order must be a number" errs in
  let errs := push_if (wrong_type JS.is_boolean (p "forbid_overrides"))
    "forbid_overrides must be a boolean" errs in
  let errs := validate_metadata (p "metadata") errs in
  Ok (mkValidation (length errs =? 0)%nat errs).

(** [v || this.generatePromptId()] *)
Definition or_generated (v : value) : M value :=
  if JS.truthy v then ret v
  else let* id := generatePromptId in ret (VStr id).

(** The object literal of [createPromptData], given the id it settled on
    and the current time. *)
Definition completePromptData (promptData id : value) (now : string) : value :=
  let p := JS.prop promptData in
  let metadata := p "metadata" in
  let m := JS.opt_prop metadata in
  VObj [
    ("id", id);
    ("name", JS.or (p "name") (VStr "Untitled Prompt"));
    ("content", JS.or (p "content") (VStr ""));
    ("role", JS.or (p "role") (VStr "user"));
    ("system_prompt", JS.or (p "system_prompt") (VBool false));
    ("marker", JS.or (p "marker") (VBool false));
    ("injection_position", JS.or (p "injection_position") (VNum 0));
    ("injection_depth", JS.or (p "injection_depth") (VNum 4));
    ("injection_order", JS.or (p "injection_order") (VNum 100));
    ("forbid_overrides", JS.or (p "forbid_overrides") (VBool false));
    ("metadata", VObj (JS.spread [
       ("created_at", JS.or (m "created_at") (VStr now));
       ("last_used", JS.or (m "last_used") VNull);
       ("favorite", JS.or (m "favorite") (VBool false));
       ("usage_count", JS.or (m "usage_count") (VNum 0));
       ("tags", JS.or (m "tags") (VArr []));
       ("source_preset", JS.or (m "source_preset") VNull)] metadata))].

Definition createPromptData (promptData : value) : M value :=
  let* now := now_iso in
  let* id0 := lift (get promptData "id") in
  let* id := or_generated id0 in
  ret (completePromptData promptData id now).

Definition fixDateString (dateStr : value) : value :=
  match dateStr with
  | VStr s =>
      if s =? "" then VNull
      else match Date_parse s with
           | None => VNull
           | Some t => VStr (Date_toISOString t)
           end
  | _ => VNull
  end.

Definition keep_if (is_type : value -> bool) (v default : value) : value :=
  if is_type v then v else default.

(** The object literal [repaired], given the id and the creation date it
    settled on. *)
Definition repaired (promptData id created_at : value) : value :=
  let p := JS.prop promptData in
  let m := JS.opt_prop (p "metadata") in
  VObj [
    ("id", id);
    ("name", JS.or (p "name") (VStr "Recovered Prompt"));
    ("content", JS.or (p "content") (VStr ""));
    ("role", if JS.is_role (p "role") then p "role" else VStr "user");
    ("system_prompt", keep_if JS.is_boolean (p "system_prompt") (VBool false));
    ("marker", keep_if JS.is_boolean (p "marker") (VBool false));
    ("injection_position", keep_if JS.is_number (p "injection_position") (VNum 0));
    ("injection_depth", keep_if JS.is_number (p "injection_depth") (VNum 4));
    ("injection_order", keep_if JS.is_number (p "injection_order") (VNum 100));
    ("forbid_overrides", keep_if JS.is_boolean (p "forbid_overrides") (VBool false));
    ("metadata", VObj [
       ("created_at", created_at);
       ("last_used", fixDateString (m "last_used"));
       ("favorite", keep_if JS.is_boolean (m "favorite") (VBool false));
       ("usage_count", keep_if JS.is_number (m "usage_count") (VNum 0));
       ("tags", keep_if JS.isArray (m "tags") (VArr []));
       ("source_preset", JS.or (m "source_preset") VNull)])].

(** [fixDateString(promptData.metadata?.created_at) || new Date().toISOString()] *)
Definition fixedOrNow (promptData : value) : M value :=
  let fixed := fixDateString (JS.opt_prop (JS.prop promptData "metadata") "created_at") in
  if JS.truthy fixed then ret fixed
  else let* now := now_iso in ret (VStr now).

Definition repairPromptData (promptData : value) : M value :=
  try_catch
    (let* id0 := lift (get promptData "id") in
     let* id := or_generated id0 in
     let* created_at := fixedOrNow promptData in
     let repairedData := repaired promptData id created_at in
     let* validation := lift (validatePromptData repairedData) in
     if isValid validation then ret repairedData else ret VNull)
    (fun _ => ret VNull).

(** *** Filtering *)

(** [recv.includes(x)], defined on arrays and on strings. *)
Definition includes_call (recv x : value) (expr : string) : outcome bool :=
  match recv with
  | VArr items => Ok (existsb (JS.same_value_zero x) items)
  | VStr s => Ok (Str.includes s (JS.to_string x))
  | _ =>
      if JS.is_nullish recv
      then Throw ("Cannot read properties of " ++ JS.to_string recv ++
                  " (reading 'includes')")
      else Throw (expr ++ ".includes is not a function")
  end.

(** [s.toLowerCase().includes(searchTerm)] *)
Definition lower_includes (v : value) (expr searchTerm : string) : outcome bool :=
  let? s := string_receiver v expr "toLowerCase" in
  Ok (Str.includes (Str.toLowerCase s) searchTerm).

Definition matchesSearch (searchTerm : string) (prompt : value) : outcome bool :=
  let? name := get prompt "name" in
  let? in_name := lower_includes name "prompt.name" searchTerm in
  if in_name then Ok true else
  let? in_content := lower_includes (JS.prop prompt "content") "prompt.content" searchTerm in
  if in_content then Ok true else
  let? tags := get (JS.prop prompt "metadata") "tags" in
  let? items := array_receiver tags "prompt.metadata.tags" "some" in
  osome (fun tag => lower_includes tag "tag" searchTerm) items.

Definition matchesRole (role : value) (prompt : value) : outcome bool :=
  let? r := get prompt "role" in Ok (JS.strict_equals r role).

Definition matchesFavorite (favorite : value) (prompt : value) : outcome bool :=
  let? metadata := get prompt "metadata" in
  let? f := get metadata "favorite" in
  Ok (JS.strict_equals f favorite).

Definition hasTag (prompt tag : value) : outcome bool :=
  let? metadata := get prompt "metadata" in
  let? tags := get metadata "tags" in
  includes_call tags tag "prompt.metadata.tags".

(** The tags predicate of [PromptDataManager.applyFilters]. *)
Definition matchesSomeTag (tags : list value) (prompt : value) : outcome bool :=
  osome (hasTag prompt) tags.

(** The tags predicate of [PromptLibraryUI.applyFilters]. *)
Definition matchesEveryTag (tags : list value) (prompt : value) : outcome bool :=
  oevery (hasTag prompt) tags.

(** [Object.fromEntries(Object.entries(filtered).filter(([id, prompt]) => f(prompt)))] *)
Definition filterEntries (f : value -> outcome bool) (filtered : props) : outcome props :=
  let? kept := ofilter (fun kv => f (snd kv)) filtered in
  Ok (JS.literal kept).

(** The search term when the search filter is active: [filters.search &&
    filters.search.trim()] is truthy. *)
Definition activeSearch (filters : value) : outcome (option string) :=
  let? search := get filters "search" in
  if JS.truthy search then
    let? s := string_receiver search "filters.search" "trim" in
    if nonempty (Str.trim s)
    then Ok (Some (Str.trim (Str.toLowerCase s)))
    else Ok None
  else Ok None.

Definition activeRole (filters : value) : option value :=
  let role := JS.prop filters "role" in
  if JS.truthy role && negb (JS.strict_equals role (VStr "all"))
  then Some role else None.

Definition activeFavorite (filters : value) : option value :=
  let favorite := JS.prop filters "favorite" in
  if negb (JS.is_nullish favorite) then Some favorite else None.

Definition activeTags (filters : value) : option (list value) :=
  match JS.prop filters "tags" with
  | VArr (tag :: tags) => Some (tag :: tags)
  | _ => None
  end.

Definition filterWhen {A} (active : option A) (f : A -> value -> outcome bool)
    (filtered : props) : outcome props :=
  match active with
  | Some a => filterEntries (f a) filtered
  | None => Ok filtered
  end.

(** The four filters in sequence; [tagsFilter] is the tags predicate, the
    one place where the two [applyFilters] differ. *)
Definition filterChain (tagsFilter : list value -> value -> outcome bool)
    (prompts filters : value) : outcome props :=
  let filtered := JS.spread [] prompts in
  let? search := activeSearch filters in
  let? filtered := filterWhen search matchesSearch filtered in
  let? filtered := filterWhen (activeRole filters) matchesRole filtered in
  let? filtered := filterWhen (activeFavorite filters) matchesFavorite filtered in
  filterWhen (activeTags filters) tagsFilter filtered.

(** [PromptDataManager.applyFilters] *)
Definition applyFilters (prompts filters : value) : outcome value :=
  let? filtered := filterChain matchesSomeTag prompts filters in
  Ok (VObj filtered).

(** *** The store *)

(** [extension_settings[extensionName].prompts[id] = v]; [savePrompt]
    first creates the namespace and its [prompts] object when missing. *)
Definition store_set (id : string) (v : value) : M unit :=
  let* s := get_state in
  set_prompts (Some (JS.put id v (match prompts s with
                                  | Some store => store
                                  | None => []
                                  end))).

(** [delete extension_settings[extensionName].prompts[id]] *)
Definition store_delete (id : string) : M unit :=
  let* s := get_state in
  set_prompts (option_map (JS.delete id) (prompts s)).

(** One turn of the loop of [getPrompts]. *)
Definition visitPrompt (validPrompts : props) (entry : string * value) : M props :=
  let id := fst entry in
  let promptData := snd entry in
  let* validation := lift (validatePromptData promptData) in
  if isValid validation then ret (JS.put id promptData validPrompts)
  else
    let* repairedData := repairPromptData promptData in
    if JS.truthy repairedData then
      let* _ := store_set id repairedData in
      ret (JS.put id repairedData validPrompts)
    else
      let* _ := store_delete id in
      ret validPrompts.

(** [getPrompts(filters = {})] *)
Definition getPrompts (filters : value) : M value :=
  let filters := if JS.is_undefined filters then VObj [] else filters in
  try_catch
    (let* s := get_state in
     match prompts s with
     | None => ret (VObj [])
     | Some store =>
         let snapshot := JS.spread [] (VObj store) in
         let* validPrompts := foldM visitPrompt snapshot [] in
         if JS.is_nullish filters
         then throw "Cannot convert undefined or null to object"
         else if (0 <? length (JS.own_props filters))%nat
         then lift (applyFilters (VObj validPrompts) filters)
         else ret (VObj validPrompts)
     end)
    (fun _ => ret (VObj [])).

(** [extensionSettings.settings?.max_prompts || 1000] *)
Definition maxPrompts (s : state) : Z :=
  match max_prompts s with
  | Some n => if (n =? 0)%Z then 1000%Z else n
  | None => 1000%Z
  end.

Definition savePrompt (promptData : value) : M value :=
  try_catch
    (let* completePromptData := createPromptData promptData in
     let* validation := lift (validatePromptData completePromptData) in
     if negb (isValid validation)
     then throw ("Prompt validation failed: " ++ Str.join ", " (errors validation))
     else
       let* currentPrompts := getPrompts VUndefined in
       let* s := get_state in
       let id := JS.to_string (JS.prop completePromptData "id") in
       if (maxPrompts s <=? Z.of_nat (length (JS.own_props currentPrompts)))%Z &&
          negb (JS.truthy (JS.prop currentPrompts id))
       then throw ("Storage limit reached. Maximum " ++ Str.of_Z (maxPrompts s) ++
                   " prompts allowed.")
       else
         let* _ := store_set id completePromptData in
         ret (VObj [("success", VBool true);
                    ("promptData", completePromptData);
                    ("message", VStr "Prompt saved successfully")]))
    (fun message =>
       ret (VObj [("success", VBool false);
                  ("error", VStr message);
                  ("message", VStr "Failed to save prompt")])).

Definition loadPrompt (promptId : value) : M value :=
  try_catch
    (let* s := get_state in
     match prompts s with
     | None => ret VNull
     | Some store =>
         let id := JS.to_string promptId in
         let promptData := JS.prop (VObj store) id in
         if negb (JS.truthy promptData) then ret VNull
         else
           let* validation := lift (validatePromptData promptData) in
           if negb (isValid validation) then
             let* repairedData := repairPromptData promptData in
             if JS.truthy repairedData then
               let* _ := store_set id repairedData in
               ret repairedData
             else ret VNull
           else ret promptData
     end)
    (fun _ => ret VNull).

Definition deletePrompt (promptId : value) : M value :=
  try_catch
    (let* s := get_state in
     let id := JS.to_string promptId in
     let stored := match prompts s with
                   | Some store => JS.prop (VObj store) id
                   | None => VUndefined
                   end in
     if negb (JS.truthy stored) then
       ret (VObj [("success", VBool false);
                  ("error", VStr "Prompt not found");
                  ("message", VStr "Prompt does not exist")])
     else
       let* _ := store_delete id in
       ret (VObj [("success", VBool true);
                  ("message", VStr "Prompt deleted successfully")]))
    (fun message =>
       ret (VObj [("success", VBool false);
                  ("error", VStr message);
                  ("message", VStr "Failed to delete prompt")])).

(** [loadPrompt] hands out the stored object itself, so the assignment to
    [promptData.metadata] already changes the store, before validation. *)
Definition updatePromptMetadata (promptId metadata : value) : M value :=
  try_catch
    (let* promptData := loadPrompt promptId in
     if negb (JS.truthy promptData) then
       ret (VObj [("success", VBool false);
                  ("error", VStr "Prompt not found");
                  ("message", VStr "Prompt does not exist")])
     else
       let id := JS.to_string promptId in
       let merged := JS.spread (JS.spread [] (JS.prop promptData "metadata")) metadata in
       let promptData := VObj (JS.set "metadata" (VObj merged) (JS.own_props promptData)) in
       let* _ := store_set id promptData in
       let* validation := lift (validatePromptData promptData) in
       if negb (isValid validation) then
         ret (VObj [("success", VBool false);
                    ("error", VStr ("Validation failed: " ++
                                    Str.join ", " (errors validation)));
                    ("message", VStr "Invalid metadata update")])
       else
         let* _ := store_set id promptData in
         ret (VObj [("success", VBool true);
                    ("promptData", promptData);
                    ("message", VStr "Prompt metadata updated successfully")]))
    (fun message =>
       ret (VObj [("success", VBool false);
                  ("error", VStr message);
                  ("message", VStr "Failed to update prompt metadata")])).

Definition exportPrompts : M value :=
  try_catch
    (let* exported := getPrompts VUndefined in
     let* now := now_iso in
     let exportData := VObj [
       ("version", VStr "1.0.0");
       ("exported_at", VStr now);
       ("prompt_count", VNum (Z.of_nat (length (JS.own_props exported))));
       ("prompts", exported)] in
     ret (VObj [("success", VBool true);
                ("data", exportData);
                ("message", VStr "Prompts exported successfully")]))
    (fun message =>
       ret (VObj [("success", VBool false);
                  ("error", VStr message);
                  ("message", VStr "Failed to export prompts")])).

(** *** Import *)

(** [createAutomaticBackup(reason)], as far as the shared state goes: it
    reads the prompts, then the clock twice (the timestamp and the backup
    id). The copy it writes to [localStorage] and the report it returns
    are not part of [state]; [importPrompts] ignores the report. *)
Definition createAutomaticBackup (reason : string) : M unit :=
  try_catch
    (let* _ := getPrompts VUndefined in
     let* _ := now_iso in
     let* _ := next_tick in
     ret tt)
    (fun _ => ret tt).

Record importResults : Type := mkResults {
  imported : nat;
  skipped : nat;
  import_errors : nat;
  details : list value
}.

Definition detail (promptId : string) (name : value) (status reason : string) : value :=
  VObj [("id", VStr promptId);
        ("name", JS.or name (VStr "Unknown"));
        ("status", VStr status);
        ("reason", VStr reason)].

(** [catch (promptError)] of the loop body. *)
Definition importCaught (res : importResults) (promptId : string)
    (promptData : value) (message : string) : M importResults :=
  let* name := lift (get promptData "name") in
  ret (mkResults (imported res) (skipped res) (S (import_errors res))
         (push (details res) (detail promptId name "error" message))).

(** The import options: the three defaults, then [...options] on top. *)
Definition importOptions (options : value) : props :=
  JS.spread [
    ("overwriteExisting", JS.or (JS.prop options "overwriteExisting") (VBool false));
    ("mergeMetadata",
     VBool (negb (JS.strict_equals (JS.prop options "mergeMetadata") (VBool false))));
    ("validatePrompts",
     VBool (negb (JS.strict_equals (JS.prop options "validatePrompts") (VBool false))))]
    options.

(** One turn of the loop of [importPrompts]. A prompt that fails
    validation has [importResults.errors] incremented and then reads
    [validation.issues.join]; the result of [validatePromptData] has no
    [issues], so this throws into the [catch] of the loop body, which
    counts the error again. *)
Definition importOne (parsedData : value) (opts : props)
    (res : importResults) (entry : string * value) : M importResults :=
  let promptId := fst entry in
  let promptData := snd entry in
  let opt k := JS.prop (VObj opts) k in
  try_catch
    (let* rejected :=
       (if JS.truthy (opt "validatePrompts") then
          let* validation := lift (validatePromptData promptData) in
          ret (negb (isValid validation))
        else ret false) in
     if rejected then
       importCaught
         (mkResults (imported res) (skipped res) (S (import_errors res)) (details res))
         promptId promptData
         "Cannot read properties of undefined (reading 'join')"
     else
       let* existingPrompts := getPrompts VUndefined in
       let existingPrompt := JS.prop existingPrompts promptId in
       if JS.truthy existingPrompt && negb (JS.truthy (opt "overwriteExisting")) then
         let* name := lift (get promptData "name") in
         ret (mkResults (imported res) (S (skipped res)) (import_errors res)
                (push (details res)
                   (detail promptId name "skipped"
                      "Prompt already exists and overwrite is disabled")))
       else
         let finalPromptData := JS.spread [] promptData in
         let* metadata := lift (get promptData "metadata") in
         let merged :=
           if JS.truthy existingPrompt && JS.truthy (opt "mergeMetadata")
           then JS.spread (JS.spread [] metadata) (JS.prop existingPrompt "metadata")
           else JS.spread [] metadata in
         let* now := now_iso in
         let merged := JS.set "imported_at" (VStr now) merged in
         let merged := JS.set "import_source" (JS.prop parsedData "exported_at") merged in
         let finalPromptData := JS.set "metadata" (VObj merged) finalPromptData in
         let* saveResult := savePrompt (VObj finalPromptData) in
         if JS.truthy (JS.prop saveResult "success") then
           ret (mkResults (S (imported res)) (skipped res) (import_errors res)
                  (push (details res)
                     (detail promptId (JS.prop promptData "name") "imported"
                        (if JS.truthy existingPrompt then "Overwritten" else "New prompt"))))
         else
           ret (mkResults (imported res) (skipped res) (S (import_errors res))
                  (push (details res)
                     (detail promptId (JS.prop promptData "name") "error"
                        (JS.to_string (JS.or (JS.prop saveResult "error")
                                             (VStr "Save failed")))))))
    (importCaught res promptId promptData).

Definition importPrompts (importData options : value) : M value :=
  let options := if JS.is_undefined options then VObj [] else options in
  try_catch
    (let* parsedData :=
       match importData with
       | VStr s =>
           match JSON_parse s with
           | Some v => ret v
           | None => throw "Invalid JSON format in import data"
           end
       | VArr _ | VObj _ => ret importData
       | _ => throw "Invalid import data format - must be JSON string or object"
       end in
     let* version := lift (get parsedData "version") in
     if negb (JS.truthy version) ||
        negb (JS.truthy (JS.prop parsedData "exported_at")) ||
        negb (JS.truthy (JS.prop parsedData "prompts"))
     then throw "Invalid import data structure - missing required fields (version, exported_at, prompts)"
     else
       let* createBackup := lift (get options "createBackup") in
       let* _ := (if negb (JS.strict_equals createBackup (VBool false))
                  then createAutomaticBackup "before_import"
                  else ret tt) in
       let opts := importOptions options in
       let* res := foldM (importOne parsedData opts)
                     (JS.own_props (JS.prop parsedData "prompts"))
                     (mkResults 0 0 0 []) in
       let totalProcessed := (imported res + skipped res + import_errors res)%nat in
       let message :=
         "Import completed: " ++ Str.of_nat (imported res) ++ " imported, " ++
         Str.of_nat (skipped res) ++ " skipped, " ++
         Str.of_nat (import_errors res) ++ " errors" in
       ret (VObj [
         ("success", VBool ((0 <? totalProcessed)%nat && (import_errors res =? 0)%nat));
         ("imported", VNum (Z.of_nat (imported res)));
         ("skipped", VNum (Z.of_nat (skipped res)));
         ("errors", VNum (Z.of_nat (import_errors res)));
         ("totalProcessed", VNum (Z.of_nat totalProcessed));
         ("details", VArr (details res));
         ("message", VStr message)]))
    (fun message =>
       ret (VObj [("success", VBool false);
                  ("error", VStr message);
                  ("imported", VNum 0);
                  ("skipped", VNum 0);
                  ("errors", VNum 0);
                  ("message", VStr ("Import failed: " ++ message))])).

End DataManager.

(** ** [PromptLibraryUI]: sorting and filtering *)

(** [Array.prototype.sort(compare)]: a stable sort; a comparison that is
    negative or zero keeps the earlier element first. [oinsert] places [x],
    which comes before every element of [l] in the input, into the sorted
    [l]. *)
Fixpoint oinsert {A} (compare : A -> A -> outcome Z) (x : A) (l : list A)
    : outcome (list A) :=
  match l with
  | [] => Ok [x]
  | y :: l' =>
      let? c := compare x y in
      if (c <=? 0)%Z then Ok (x :: l)
      else let? rest := oinsert compare x l' in Ok (y :: rest)
  end.

Fixpoint osort {A} (compare : A -> A -> outcome Z) (l : list A) : outcome (list A) :=
  match l with
  | [] => Ok []
  | x :: l' => let? sorted := osort compare l' in oinsert compare x sorted
  end.

(** [array.sort(compare)] on values: the undefined elements go to the end
    and are never handed to [compare]. *)
Definition Array_sort (compare : value -> value -> outcome Z) (l : list value)
    : outcome (list value) :=
  let? sorted := osort compare (filter (fun v => negb (JS.is_undefined v)) l) in
  Ok (sorted ++ filter JS.is_undefined l)%list.

Section LibraryUI.

Context {host : Host}.

(** The time value of [new Date(v)]; [None] is an invalid date. *)
Definition Date_of (v : value) : option Z :=
  match v with
  | VStr s => Date_parse s
  | VNum n => if (Z.abs n <=? 8640000000000000)%Z then Some n else None
  | VBool b => Some (if b then 1 else 0)%Z
  | VNull => Some 0%Z
  | VUndefined | VNaN => None
  | VArr _ | VObj _ | VNative => Date_parse (JS.to_string v)
  end.

(** [a - b] on dates, as a sort comparison: NaN compares as zero. *)
Definition date_minus (a b : option Z) : Z :=
  match a, b with
  | Some x, Some y => (x - y)%Z
  | _, _ => 0%Z
  end.

(** [p.metadata.k] *)
Definition metadata_of (p : value) (k : string) : outcome value :=
  let? metadata := get p "metadata" in get metadata k.

(** [a.metadata.last_used || a.metadata.created_at] *)
Definition usedOrCreated (a : value) : outcome value :=
  let? last_used := metadata_of a "last_used" in
  if JS.truthy last_used then Ok last_used else metadata_of a "created_at".

Definition sortPrompts (prompts : list value) (sortBy : value) : outcome (list value) :=
  let sortedPrompts := prompts in
  match sortBy with
  | VStr "latest_used" =>
      Array_sort (fun a b =>
               let? aUsed := usedOrCreated a in
               let? bUsed := usedOrCreated b in
               Ok (date_minus (Date_of bUsed) (Date_of aUsed))) sortedPrompts
  | VStr "oldest_used" =>
      Array_sort (fun a b =>
               let? aUsed := usedOrCreated a in
               let? bUsed := usedOrCreated b in
               Ok (date_minus (Date_of aUsed) (Date_of bUsed))) sortedPrompts
  | VStr "name" =>
      Array_sort (fun a b =>
               let? aName := get a "name" in
               let? _ := get aName "localeCompare" in
               let? bName := get b "name" in
               let? recv := string_receiver aName "a.name" "localeCompare" in
               Ok (localeCompare recv (JS.to_string bName))) sortedPrompts
  | VStr "created" =>
      Array_sort (fun a b =>
               let? bCreated := metadata_of b "created_at" in
               let? aCreated := metadata_of a "created_at" in
               Ok (date_minus (Date_of bCreated) (Date_of aCreated))) sortedPrompts
  | _ => Ok sortedPrompts
  end.

(** [a.metadata.last_used ? new Date(a.metadata.last_used) : new Date(0)] *)
Definition usedOrEpoch (a : value) : outcome (option Z) :=
  let? last_used := metadata_of a "last_used" in
  if JS.truthy last_used then Ok (Date_of last_used) else Ok (Some 0%Z).

Definition compareLatestUsed (a b : value) : outcome Z :=
  let? aUsed := usedOrEpoch a in
  let? bUsed := usedOrEpoch b in
  Ok (date_minus bUsed aUsed).

Definition compareOldestUsed (a b : value) : outcome Z :=
  let? aUsed := usedOrEpoch a in
  let? bUsed := usedOrEpoch b in
  let a_unused := negb (JS.truthy (JS.prop (JS.prop a "metadata") "last_used")) in
  let b_unused := negb (JS.truthy (JS.prop (JS.prop b "metadata") "last_used")) in
  if a_unused && b_unused then Ok 0%Z
  else if a_unused then Ok 1%Z
  else if b_unused then Ok (-1)%Z
  else Ok (date_minus aUsed bUsed).

Definition compareName (a b : value) : outcome Z :=
  let? aName := get a "name" in
  let? aLower := string_receiver aName "a.name" "toLowerCase" in
  let? bName := get b "name" in
  let? bLower := string_receiver bName "b.name" "toLowerCase" in
  Ok (localeCompare (Str.toLowerCase aLower) (Str.toLowerCase bLower)).

Definition compareCreated (a b : value) : outcome Z :=
  let? bCreated := metadata_of b "created_at" in
  let? aCreated := metadata_of a "created_at" in
  Ok (date_minus (Date_of bCreated) (Date_of aCreated)).

(** The [switch] of [applySorting]: [sortedArray]. *)
Definition sortedArray (promptArray : list value) (sortBy : value)
    : outcome (list value) :=
  match sortBy with
  | VStr "latest_used" => Array_sort compareLatestUsed promptArray
  | VStr "oldest_used" => Array_sort compareOldestUsed promptArray
  | VStr "name" => Array_sort compareName promptArray
  | VStr "created" => Array_sort compareCreated promptArray
  | _ => Ok promptArray
  end.

(** [sortedArray.forEach(prompt => { sortedPrompts[prompt.id] = prompt; })] *)
Fixpoint keyById (sortedPrompts : props) (sorted : list value) : outcome props :=
  match sorted with
  | [] => Ok sortedPrompts
  | prompt :: rest =>
      let? id := get prompt "id" in
      keyById (JS.put (JS.to_string id) prompt sortedPrompts) rest
  end.

Definition applySorting (prompts sortBy : value) : value :=
  match
    (if JS.is_nullish prompts
     then Throw "Cannot convert undefined or null to object"
     else
       let promptArray := map snd (JS.own_props prompts) in
       let? sorted := sortedArray promptArray sortBy in
       let? sortedPrompts := keyById [] sorted in
       Ok (VObj [("success", VBool true);
                 ("sortedPrompts", VObj sortedPrompts);
                 ("message", VStr ("Sorted " ++ Str.of_nat (length sorted) ++
                                   " prompts by " ++ JS.to_string sortBy))]))
  with
  | Ok result => result
  | Throw message =>
      VObj [("success", VBool false);
            ("error", VStr message);
            ("sortedPrompts", VObj []);
            ("message", VStr "Failed to apply sorting")]
  end.

(** [PromptLibraryUI.applyFilters]: the same chain, with the tags filter
    requiring every listed tag. *)
Definition applyFiltersUI (prompts filters : value) : value :=
  match filterChain matchesEveryTag prompts filters with
  | Ok filtered =>
      VObj [("success", VBool true);
            ("filteredPrompts", VObj filtered);
            ("message", VStr ("Filtered " ++ Str.of_nat (length filtered) ++ " prompts"))]
  | Throw message =>
      VObj [("success", VBool false);
            ("error", VStr message);
            ("filteredPrompts", VObj []);
            ("message", VStr "Failed to apply filters")]
  end.

End LibraryUI.

(** ** [PromptSaverManager.saveCurrentPrompt] *)

Section SaverManager.

Context {host : Host}.

(** [PresetIntegrator.getCurrentPreset]: the preset the host's
    [getCurrentCompletionPreset()] returns, when it has prompts. The
    fallbacks read further host globals, taken here to be unset. *)
Definition getCurrentPreset : M value :=
  let* s := get_state in
  let preset := completion_preset s in
  if JS.truthy preset && JS.truthy (JS.opt_prop preset "prompts")
  then ret preset else ret VNull.

(** [${presetPrompt.identifier || 'unknown'}] *)
Definition identifierOf (presetPrompt : value) : outcome string :=
  let? identifier := get presetPrompt "identifier" in
  Ok (JS.to_string (JS.or identifier (VStr "unknown"))).

(** [promptName || presetPrompt.name || `Prompt from ${currentPreset.name}`] *)
Definition savedName (promptName currentPreset presetPrompt : value) : value :=
  JS.or promptName
    (JS.or (JS.prop presetPrompt "name")
       (VStr ("Prompt from " ++ JS.to_string (JS.prop currentPreset "name")))).

(** The record built from one preset prompt. *)
Definition promptDataOf (promptId now : string) (promptName currentPreset presetPrompt : value)
    : value :=
  let p := JS.prop presetPrompt in
  VObj [
    ("id", VStr promptId);
    ("name", savedName promptName currentPreset presetPrompt);
    ("content", p "content");
    ("role", p "role");
    ("system_prompt", JS.or (p "system_prompt") (VBool false));
    ("marker", JS.or (p "marker") (VBool false));
    ("injection_position", JS.or (p "injection_position") (VNum 0));
    ("injection_depth", JS.or (p "injection_depth") (VNum 4));
    ("injection_order", JS.or (p "injection_order") (VNum 100));
    ("forbid_overrides", JS.or (p "forbid_overrides") (VBool false));
    ("metadata", VObj [
       ("created_at", VStr now);
       ("last_used", VNull);
       ("favorite", VBool false);
       ("usage_count", VNum 0);
       ("tags", VArr []);
       ("source_preset", JS.or (JS.prop currentPreset "name") (VStr "Unknown Preset"))])].

(** Whether the loop skips the preset prompt as empty:
    [!presetPrompt.content || presetPrompt.content.trim().length === 0]. *)
Definition emptyContent (presetPrompt : value) : outcome bool :=
  let? content := get presetPrompt "content" in
  if negb (JS.truthy content) then Ok true
  else
    let? s := string_receiver content "presetPrompt.content" "trim" in
    Ok (String.length (Str.trim s) =? 0)%nat.

(** One turn of the loop; the accumulator is [(savedPrompts, errors)]. *)
Definition saveOne (promptName currentPreset : value)
    (acc : list value * list string) (presetPrompt : value)
    : M (list value * list string) :=
  let savedPrompts := fst acc in
  let errs := snd acc in
  try_catch
    (let* skip := lift (emptyContent presetPrompt) in
     if skip then ret acc
     else
       let role := JS.prop presetPrompt "role" in
       if negb (JS.truthy role) || negb (JS.is_role role) then
         let* identifier := lift (identifierOf presetPrompt) in
         ret (savedPrompts, push errs ("Invalid role for prompt: " ++ identifier))
       else
         let* promptId := generatePromptId in
         let* now := now_iso in
         let promptData := promptDataOf promptId now promptName currentPreset presetPrompt in
         let* saveResult := savePrompt promptData in
         if JS.truthy (JS.prop saveResult "success")
         then ret (push savedPrompts (JS.prop saveResult "promptData"), errs)
         else ret (savedPrompts,
                   push errs ("Failed to save prompt " ++
                              JS.to_string (JS.prop presetPrompt "identifier") ++ ": " ++
                              JS.to_string (JS.prop saveResult "error"))))
    (fun message =>
       let* identifier := lift (identifierOf presetPrompt) in
       ret (savedPrompts,
            push errs ("Error processing prompt " ++ identifier ++ ": " ++ message))).

(** [saveCurrentPrompt(promptName = null)] *)
Definition saveCurrentPrompt (promptName : value) : M value :=
  let promptName := if JS.is_undefined promptName then VNull else promptName in
  try_catch
    (let* currentPreset := getCurrentPreset in
     if negb (JS.truthy currentPreset) then throw "No current preset available"
     else
       match JS.prop currentPreset "prompts" with
       | VArr (first :: others) =>
           let* acc := foldM (saveOne promptName currentPreset) (first :: others) ([], []) in
           let savedPrompts := fst acc in
           let errs := snd acc in
           match savedPrompts with
           | [] =>
               throw (match errs with
                      | [] => "No valid prompts found to save"
                      | _ => "No prompts could be saved. Errors: " ++ Str.join ", " errs
                      end)
           | saved :: _ =>
               let n := length savedPrompts in
               let successMessage :=
                 "Successfully saved " ++ Str.of_nat n ++ " prompt" ++
                 (if (1 <? n)%nat then "s" else "") in
               ret (VObj [("success", VBool true);
                          ("savedPrompts", VArr savedPrompts);
                          ("promptData", saved);
                          ("message", VStr successMessage);
                          ("errors", match errs with
                                     | [] => VUndefined
                                     | _ => VArr (map VStr errs)
                                     end)])
           end
       | _ => throw "Current preset has no prompts to save"
       end)
    (fun message =>
       ret (VObj [("success", VBool false);
                  ("error", VStr message);
                  ("message", VStr ("Failed to save current prompt: " ++ message))])).

End SaverManager.

(** ** Content diff ([PromptDataManager.generateContentDiff]) *)

Inductive diffType : Type := unchanged | added | removed.

Record diffEntry : Type := mkDiff {
  type : diffType;
  content : string;
  lineNumber : nat
}.

(** The body of the [for] loop at index [i]; [lines[i] || ''] is [nth]
    with default [""]. *)
Definition diffLine (lines1 lines2 : list string) (i : nat) : list diffEntry :=
  let line1 := nth i lines1 "" in
  let line2 := nth i lines2 "" in
  if line1 =? line2 then
    if nonempty line1 then [mkDiff unchanged line1 (i + 1)] else []
  else if negb (nonempty line1) && nonempty line2 then
    [mkDiff added line2 (i + 1)]
  else if nonempty line1 && negb (nonempty line2) then
    [mkDiff removed line1 (i + 1)]
  else
    [mkDiff removed line1 (i + 1); mkDiff added line2 (i + 1)].

Definition generateContentDiff (content1 content2 : string) : list diffEntry :=
  let lines1 := Str.split Str.newline content1 in
  let lines2 := Str.split Str.newline content2 in
  let maxLines := Nat.max (length lines1) (length lines2) in
  flat_map (diffLine lines1 lines2) (seq 0 maxLines).

Definition isChange (e : diffEntry) : bool :=
  match type e with
  | unchanged => false
  | added | removed => true
  end.

(** ** A concrete host

    A host in the UTC time zone, used to run the operations on concrete
    inputs. Its [Date] reads the date-time strings of the shape that
    [isoRegex] accepts, with the proleptic Gregorian calendar, and is an
    invalid date on any other string; its clock starts at
    2024-01-15T10:30:00.000Z and advances by a millisecond per reading; its
    collation orders ASCII letters and digits as the root collation does:
    by the letters without their case, then lower case first. *)

Module UTC.

Local Open Scope Z_scope.

(** Days since 1970-01-01 of a civil date. *)
Definition days_from_civil (y m d : Z) : Z :=
  let y' := if m <=? 2 then y - 1 else y in
  let era := y' / 400 in
  let yoe := y' - era * 400 in
  let doy := (153 * (if 2 <? m then m - 3 else m + 9) + 2) / 5 + d - 1 in
  let doe := yoe * 365 + yoe / 4 - yoe / 100 + doy in
  era * 146097 + doe - 719468.

(** The civil date [(y, m, d)] of a day count. *)
Definition civil_from_days (z : Z) : Z * Z * Z :=
  let z := z + 719468 in
  let era := z / 146097 in
  let doe := z - era * 146097 in
  let yoe := (doe - doe / 1460 + doe / 36524 - doe / 146096) / 365 in
  let doy := doe - (365 * yoe + yoe / 4 - yoe / 100) in
  let mp := (5 * doy + 2) / 153 in
  let d := doy - (153 * mp + 2) / 5 + 1 in
  let m := if mp <? 10 then mp + 3 else mp - 9 in
  ((if m <=? 2 then yoe + era * 400 + 1 else yoe + era * 400), m, d).

Definition digit (n : Z) : ascii := ascii_of_nat (48 + Z.to_nat (n mod 10)).

Definition pad2 (n : Z) : string :=
  String (digit (n / 10)) (String (digit n) EmptyString).

Definition pad3 (n : Z) : string := String (digit (n / 100)) (pad2 n).

Definition pad4 (n : Z) : string := String (digit (n / 1000)) (pad3 n).

Definition pad6 (n : Z) : string := (pad2 (n / 10000) ++ pad4 n)%string.

Definition year_string (y : Z) : string :=
  if (0 <=? y) && (y <=? 9999) then pad4 y
  else if y <? 0 then ("-" ++ pad6 (- y))%string
  else ("+" ++ pad6 y)%string.

Definition toISOString (t : Z) : string :=
  let days := t / 86400000 in
  let ms := t mod 86400000 in
  let '(y, m, d) := civil_from_days days in
  (year_string y ++ "-" ++ pad2 m ++ "-" ++ pad2 d ++ "T" ++
   pad2 (ms / 3600000) ++ ":" ++ pad2 (ms / 60000 mod 60) ++ ":" ++
   pad2 (ms / 1000 mod 60) ++ "." ++ pad3 (ms mod 1000) ++ "Z")%string.

(** The number written by the first [n] characters of [s], and the rest. *)
Fixpoint number (n : nat) (s : string) (acc : Z) : Z * string :=
  match n, s with
  | S n', String c s' => number n' s' (acc * 10 + (Z.of_nat (nat_of_ascii c) - 48))
  | _, _ => (acc, s)
  end.

Definition skip (s : string) : string :=
  match s with
  | String _ s' => s'
  | EmptyString => EmptyString
  end.

Definition is_leap (y : Z) : bool :=
  (y mod 4 =? 0) && (negb (y mod 100 =? 0) || (y mod 400 =? 0)).

Definition days_in_month (y m : Z) : Z :=
  if m =? 2 then (if is_leap y then 29 else 28)
  else if (m =? 4) || (m =? 6) || (m =? 9) || (m =? 11) then 30
  else 31.

Definition parse (s : string) : option Z :=
  if isoRegex s then
    let '(y, s) := number 4 s 0 in
    let '(m, s) := number 2 (skip s) 0 in
    let '(d, s) := number 2 (skip s) 0 in
    let '(hh, s) := number 2 (skip s) 0 in
    let '(mm, s) := number 2 (skip s) 0 in
    let '(ss, s) := number 2 (skip s) 0 in
    let ms := match s with
              | String "." s' => fst (number 3 s' 0)
              | _ => 0
              end in
    if (1 <=? m) && (m <=? 12) && (1 <=? d) && (d <=? days_in_month y m) &&
       (hh <=? 23) && (mm <=? 59) && (ss <=? 59)
    then Some (days_from_civil y m d * 86400000 +
               hh * 3600000 + mm * 60000 + ss * 1000 + ms)
    else None
  else None.

Definition sign (c : comparison) : Z :=
  match c with
  | Lt => -1
  | Eq => 0
  | Gt => 1
  end.

Definition collate (a b : string) : Z :=
  match String.compare (Str.toLowerCase a) (Str.toLowerCase b) with
  | Eq => sign (String.compare b a)
  | c => sign c
  end.

Definition json (s : string) : option value :=
  if (s =? "null")%string then Some VNull
  else if (s =? "{}")%string then Some (VObj [])
  else None.

Definition host : Host := {|
  Date_parse := parse;
  Date_toISOString := toISOString;
  Date_now := fun n => 1705314600000 + Z.of_nat n;
  Math_random_id := fun n => Str.of_N (100000000 + N.of_nat n);
  JSON_parse := json;
  localeCompare := collate
|}.

End UTC.

(** ** Predicates of the statements *)

(** A filter that is switched on holds of the record. *)
Definition holds {A} (active : option A) (f : A -> value -> outcome bool)
    (prompt : value) : Prop :=
  forall a, active = Some a -> f a prompt = Ok true.

(** The record passes each of the four filters that [filters] switches on;
    [tagsFilter] is the tags predicate of the [applyFilters] at hand. *)
Definition passes (tagsFilter : list value -> value -> outcome bool)
    (filters prompt : value) : Prop :=
  (forall term, activeSearch filters = Ok (Some term) ->
                matchesSearch term prompt = Ok true) /\
  holds (activeRole filters) matchesRole prompt /\
  holds (activeFavorite filters) matchesFavorite prompt /\
  holds (activeTags filters) tagsFilter prompt.

(** The records in the store. *)
Definition stored (s : state) : props :=
  match prompts s with
  | Some store => store
  | None => []
  end.

(** [validatePromptData] reports the record valid. *)
Definition is_valid {host : Host} (r : value) : bool :=
  match validatePromptData r with
  | Ok validation => isValid validation
  | Throw _ => false
  end.

(** The store is an object (no key twice) whose records are all valid, and
    no record is kept under the key [__proto__]. *)
Definition valid_store {host : Host} (store : props) : Prop :=
  NoDup (keys store) /\
  Forall (fun kv => is_valid (snd kv) = true) store /\
  ~ In "__proto__" (keys store).

(** The key names no member of [Object.prototype]: on an object, [o[k]] is
    an own property or [undefined]. *)
Definition own_key (k : string) : Prop := JS.mem k JS.object_members = false.

(** The result object has a boolean [success] and a string [message]. *)
Definition result_shape (r : value) : Prop :=
  (exists b, JS.prop r "success" = VBool b) /\
  JS.is_string (JS.prop r "message") = true.

(** A failed result carries a string [error]. *)
Definition failure_has_error (r : value) : Prop :=
  JS.prop r "success" = VBool false -> JS.is_string (JS.prop r "error") = true.

(** A failed import carries a string [error], or no [error] and the number
    of [errors]. *)
Definition import_failure_shape (r : value) : Prop :=
  JS.prop r "success" = VBool false ->
  JS.is_string (JS.prop r "error") = true \/
  (JS.prop r "error" = VUndefined /\ JS.is_number (JS.prop r "errors") = true).

(** Every normal return of [m] satisfies [P]. *)
Definition returns {A} (P : A -> Prop) (m : M A) : Prop :=
  forall s a s', m s = (Ok a, s') -> P a.

(** [m] returns normally from every state, with a result in [P]. *)
Definition total {A} (P : A -> Prop) (m : M A) : Prop :=
  forall s, exists a s', m s = (Ok a, s') /\ P a.

(** [r.metadata?.k] *)
Definition md (r : value) (k : string) : value :=
  JS.opt_prop (JS.prop r "metadata") k.

(** The date string [d] is in the form that [toISOString] writes, as the
    host's [Date] reads it: it passes [isValidISODate] and [fixDateString]
    returns it as it is. *)
Definition iso_form {host : Host} (d : string) : Prop :=
  isValidISODate (VStr d) = true /\ fixDateString (VStr d) = VStr d.

(** The host's [Date] is coherent on the date [v]: when [v] is a string
    that parses, what [fixDateString] makes of it is in that form. *)
Definition reserialises {host : Host} (v : value) : Prop :=
  forall d, fixDateString v = VStr d -> iso_form d.

(** [r'] keeps what the valid record [r] defines: the four required
    fields, every option and counter that is set, an array of tags, a
    non-empty source preset, and the two dates in [toISOString] form. *)
Definition same_prompt {host : Host} (r r' : value) : Prop :=
  (forall k, In k ["id"; "name"; "content"; "role"] -> JS.prop r' k = JS.prop r k) /\
  (forall k, In k ["system_prompt"; "marker"; "injection_position";
                   "injection_depth"; "injection_order"; "forbid_overrides"] ->
             JS.prop r k <> VUndefined -> JS.prop r' k = JS.prop r k) /\
  (forall k, In k ["favorite"; "usage_count"] ->
             md r k <> VUndefined -> md r' k = md r k) /\
  (JS.isArray (md r "tags") = true -> md r' "tags" = md r "tags") /\
  (JS.truthy (md r "source_preset") = true ->
   md r' "source_preset" = md r "source_preset") /\
  (forall k, In k ["created_at"; "last_used"] ->
             JS.truthy (md r k) = true -> md r' k = fixDateString (md r k)).

(** The value of a field, or its default when the record does not define
    the field. *)
Definition defaulted (v default : value) : value :=
  if JS.is_undefined v then default else v.

(** The record of the data model that the valid record [r] stands for at
    the time [now]: the sixteen fields of the data model and no other. The
    four required fields, every option and counter that [r] defines, its
    array of tags and its non-empty source preset are those of [r]; the
    dates that are set are rewritten by [fixDateString]; every other field
    has its default: [false] for a flag, 0, 4 and 100 for the position,
    depth and order of the injection, [now] for [created_at], [null] for
    [last_used] and [source_preset], 0 for [usage_count] and no tags. *)
Definition data_model_record {host : Host} (r : value) (now : string) : value :=
  VObj [
    ("id", JS.prop r "id");
    ("name", JS.prop r "name");
    ("content", JS.prop r "content");
    ("role", JS.prop r "role");
    ("system_prompt", defaulted (JS.prop r "system_prompt") (VBool false));
    ("marker", defaulted (JS.prop r "marker") (VBool false));
    ("injection_position", defaulted (JS.prop r "injection_position") (VNum 0));
    ("injection_depth", defaulted (JS.prop r "injection_depth") (VNum 4));
    ("injection_order", defaulted (JS.prop r "injection_order") (VNum 100));
    ("forbid_overrides", defaulted (JS.prop r "forbid_overrides") (VBool false));
    ("metadata", VObj [
       ("created_at", if JS.truthy (md r "created_at")
                      then fixDateString (md r "created_at") else VStr now);
       ("last_used", if JS.truthy (md r "last_used")
                     then fixDateString (md r "last_used") else VNull);
       ("favorite", defaulted (md r "favorite") (VBool false));
       ("usage_count", defaulted (md r "usage_count") (VNum 0));
       ("tags", if JS.isArray (md r "tags") then md r "tags" else VArr []);
       ("source_preset", if JS.truthy (md r "source_preset")
                         then md r "source_preset" else VNull)])].

(** [p.metadata.last_used], and whether the record lacks it. *)
Definition lastUsed (p : value) : value :=
  JS.prop (JS.prop p "metadata") "last_used".

Definition unused (p : value) : bool := negb (JS.truthy (lastUsed p)).

(** The record's [last_used], if any, is a date after the epoch. *)
Definition used_since_epoch {host : Host} (p : value) : Prop :=
  unused p = false -> exists t, Date_of (lastUsed p) = Some t /\ (0 < t)%Z.

(** The record's [last_used], if any, is a date. *)
Definition used_on_date {host : Host} (p : value) : Prop :=
  unused p = false -> exists t, Date_of (lastUsed p) = Some t.

(** In [l] no record that lacks [last_used] comes before one that has it. *)
Fixpoint unused_last (l : list value) : bool :=
  match l with
  | [] => true
  | p :: l' => (if unused p then forallb unused l' else true) && unused_last l'
  end.

(** The value of an option is of its type, or falsy (and then defaulted). *)
Definition typed_or_unset (is_type : value -> bool) (v : value) : bool :=
  is_type v || negb (JS.truthy v).








(** *** Records of the data model

    A record with every field of the data model, as [createPromptData] lays
    it out; [extra] holds what comes after the six metadata fields. *)
Record promptRecord : Type := mkRecord {
  r_id : string;
  r_name : string;
  r_content : string;
  r_role : string;
  r_system_prompt : bool;
  r_marker : bool;
  r_injection_position : Z;
  r_injection_depth : Z;
  r_injection_order : Z;
  r_forbid_overrides : bool;
  r_created_at : string;
  r_last_used : option string;
  r_favorite : bool;
  r_usage_count : Z;
  r_tags : list string;
  r_source_preset : option string
}.

Definition nullable (x : option string) : value :=
  match x with
  | Some s => VStr s
  | None => VNull
  end.

Definition encode_with (extra : props) (r : promptRecord) : value :=
  VObj [
    ("id", VStr (r_id r));
    ("name", VStr (r_name r));
    ("content", VStr (r_content r));
    ("role", VStr (r_role r));
    ("system_prompt", VBool (r_system_prompt r));
    ("marker", VBool (r_marker r));
    ("injection_position", VNum (r_injection_position r));
    ("injection_depth", VNum (r_injection_depth r));
    ("injection_order", VNum (r_injection_order r));
    ("forbid_overrides", VBool (r_forbid_overrides r));
    ("metadata", VObj (
       ("created_at", VStr (r_created_at r)) ::
       ("last_used", nullable (r_last_used r)) ::
       ("favorite", VBool (r_favorite r)) ::
       ("usage_count", VNum (r_usage_count r)) ::
       ("tags", VArr (map VStr (r_tags r))) ::
       ("source_preset", nullable (r_source_preset r)) :: extra))].

Definition encode (r : promptRecord) : value := encode_with [] r.

(** The record with the two fields an import adds to its metadata. *)
Definition with_import (imported_at import_source : string) (r : promptRecord) : value :=
  encode_with [("imported_at", VStr imported_at);
               ("import_source", VStr import_source)] r.

(** The store that holds the records [rs] under their ids. *)
Definition store_of (rs : list promptRecord) : props :=
  map (fun r => (r_id r, encode r)) rs.

(** The [imported_at] and [import_source] that an earlier import has left
    in the metadata of a record, if any. *)
Definition stamp : Type := option (string * string).

Definition stamped (st : stamp) (r : promptRecord) : value :=
  match st with
  | Some (imported_at, import_source) => with_import imported_at import_source r
  | None => encode r
  end.

(** The store that holds the records [rs], some of them imported before,
    under their ids. *)
Definition stamped_store (rs : list (stamp * promptRecord)) : props :=
  map (fun x => (r_id (snd x), stamped (fst x) (snd x))) rs.

(** A record that validates and whose injection depth and order are set
    (zero is replaced by the default). *)
Definition round_trips {host : Host} (r : promptRecord) : Prop :=
  is_valid (encode r) = true /\
  r_injection_depth r <> 0%Z /\ r_injection_order r <> 0%Z.

(** The store after the import: each record with its import metadata; the
    import of a record reads the clock twice, first for [imported_at]. *)
Fixpoint imported_store {host : Host} (n : nat) (import_source : string)
    (rs : list promptRecord) : props :=
  match rs with
  | [] => []
  | r :: rs' =>
      (r_id r, with_import (Date_toISOString (Date_now n)) import_source r) ::
      imported_store (S (S n)) import_source rs'
  end.

(** The options of the import: overwrite enabled, the rest by default. *)
Definition overwrite : value := VObj [("overwriteExisting", VBool true)].

(** What [validatePromptData] checks outside the metadata. *)
Record valid_fields {host : Host} (r : value) : Prop := {
  valid_not_nullish : JS.is_nullish r = false;
  valid_id : exists id, JS.prop r "id" = VStr id /\ id <> "";
  valid_name : blank (JS.prop r "name") = false;
  valid_content : blank (JS.prop r "content") = false;
  valid_role : JS.is_role (JS.prop r "role") = true;
  valid_system_prompt : wrong_type JS.is_boolean (JS.prop r "system_prompt") = false;
  valid_marker : wrong_type JS.is_boolean (JS.prop r "marker") = false;
  valid_injection_position :
    wrong_type JS.is_number (JS.prop r "injection_position") = false;
  valid_injection_depth :
    wrong_type JS.is_number (JS.prop r "injection_depth") = false;
  valid_injection_order :
    wrong_type JS.is_number (JS.prop r "injection_order") = false;
  valid_forbid_overrides :
    wrong_type JS.is_boolean (JS.prop r "forbid_overrides") = false;
  valid_metadata : validate_metadata (JS.prop r "metadata") [] = []
}.

(** A comparison that ranks a record without [last_used] after a record
    with it, on the records of [pool]. *)
Definition ranks_unused_last (compare : value -> value -> outcome Z)
    (pool : list value) : Prop :=
  forall a b c, In a pool -> In b pool -> compare a b = Ok c ->
    (unused a = true -> unused b = false -> (0 < c)%Z) /\
    (unused a = false -> unused b = true -> (c <= 0)%Z).

(** The state after [savePrompt] has written [complete] under [id]. *)
Definition saved (id : string) (complete : value) (s : state) : state :=
  mkState (Some (JS.put id complete (stored s)))
          (max_prompts s) (completion_preset s) (tick s).

(** A record on which every filter can be evaluated: it has a string name
    and content, and metadata with an array of string tags. *)
Definition searchable (p : value) : Prop :=
  JS.is_nullish p = false /\
  JS.is_string (JS.prop p "name") = true /\
  JS.is_string (JS.prop p "content") = true /\
  JS.is_nullish (JS.prop p "metadata") = false /\
  match JS.prop (JS.prop p "metadata") "tags" with
  | VArr items => forallb JS.is_string items = true
  | _ => False
  end.

(** A filter specification whose search, when set, is a string. *)
Definition well_formed_filters (filters : value) : Prop :=
  JS.is_nullish filters = false /\
  typed_or_unset JS.is_string (JS.prop filters "search") = true.

(** The record has a string id that is neither an array index nor
    [__proto__]: assigning it adds a property at the end of an object. *)
Definition plain_id (p : value) : Prop :=
  exists id,
    JS.prop p "id" = VStr id /\ JS.index_of_key id = None /\ id <> "__proto__".

Definition idOf (p : value) : string := JS.to_string (JS.prop p "id").

(** ** Sample data *)

Module Sample.

(** A record as [savePrompt] stores it. *)
Definition record (id name content role : string) (favorite : bool)
    (last_used : value) (tags : list string) : value :=
  VObj [
    ("id", VStr id);
    ("name", VStr name);
    ("content", VStr content);
    ("role", VStr role);
    ("system_prompt", VBool false);
    ("marker", VBool false);
    ("injection_position", VNum 0);
    ("injection_depth", VNum 4);
    ("injection_order", VNum 100);
    ("forbid_overrides", VBool false);
    ("metadata", VObj [
       ("created_at", VStr "2024-01-10T08:00:00.000Z");
       ("last_used", last_used);
       ("favorite", VBool favorite);
       ("usage_count", VNum 0);
       ("tags", VArr (map VStr tags));
       ("source_preset", VNull)])].

Definition greeting : value :=
  record "p1" "Greeting" "Say hello to the user" "system" true
    (VStr "2024-01-12T09:00:00.000Z") ["work"].

Definition summary : value :=
  record "p2" "summary" "Summarise the chat" "user" false VNull ["work"; "draft"].

Definition persona : value :=
  record "p3" "Persona" "You are a pirate" "system" true
    (VStr "2024-01-11T09:00:00.000Z") ["work"; "draft"].

Definition library : value :=
  VObj [("p1", greeting); ("p2", summary); ("p3", persona)].

(** A store at its cap of two records. *)
Definition full : state :=
  mkState (Some [("p1", greeting); ("p2", summary)]) (Some 2%Z) VNull 0.

(** An edit of [greeting]. *)
Definition edited : value :=
  record "p1" "Greeting" "Say hello, briefly" "system" true VNull ["work"].

(** A record created after [greeting] was last used, and never used. *)
Definition neverUsed : value :=
  VObj [
    ("id", VStr "p4");
    ("name", VStr "Draft");
    ("content", VStr "Outline the plot");
    ("role", VStr "user");
    ("metadata", VObj [
       ("created_at", VStr "2024-02-01T08:00:00.000Z");
       ("last_used", VNull);
       ("favorite", VBool false);
       ("usage_count", VNum 0);
       ("tags", VArr []);
       ("source_preset", VNull)])].

(** A record that is not in [full], under an id that every object inherits
    as a member. *)
Definition inheritedId : value :=
  record "constructor" "Farewell" "Say goodbye to the user" "user" false VNull [].

(** A preset of two prompts: one to store and one that is blank. *)
Definition userPrompt : value :=
  VObj [("identifier", VStr "main");
        ("name", VStr "Main prompt");
        ("content", VStr "Write the next reply");
        ("role", VStr "user");
        ("injection_depth", VNum 4);
        ("enabled", VBool true)].

Definition blankPrompt : value :=
  VObj [("identifier", VStr "spacer");
        ("name", VStr "Spacer");
        ("content", VStr "   ");
        ("role", VStr "user")].

Definition preset : value :=
  VObj [("name", VStr "Default");
        ("prompts", VArr [userPrompt; blankPrompt])].

(** A preset whose first prompt is [null], and one whose first prompt has
    a content of no-break spaces. *)
Definition holedPreset : value :=
  VObj [("name", VStr "Default");
        ("prompts", VArr [VNull; userPrompt])].

Definition paddedPreset : value :=
  VObj [("name", VStr "Default");
        ("prompts",
         VArr [VObj [("identifier", VStr "pad");
                     ("content", VStr (String (ascii_of_nat 160)
                                         (String (ascii_of_nat 160) "")));
                     ("role", VStr "user")]])].

(** The store [full] again, with room for a third record or without, and
    the preset loaded. *)
Definition roomy : state :=
  mkState (Some [("p1", greeting); ("p2", summary)]) None preset 0.


(** Two records of the data model, and the store that holds them. *)
Definition greetingRecord : promptRecord :=
  mkRecord "p1" "Greeting" "Say hello to the user" "system"
    false false 0 4 100 false
    "2024-01-10T08:00:00.000Z" (Some "2024-01-12T09:00:00.000Z") true 0 ["work"] None.

Definition summaryRecord : promptRecord :=
  mkRecord "p2" "summary" "Summarise the chat" "user"
    false true 1 2 50 false
    "2024-01-10T08:00:00.000Z" None false 7 ["work"; "draft"] (Some "Default").

Definition shelf : state :=
  mkState (Some (store_of [greetingRecord; summaryRecord])) None VNull 0.

(** The same two records after an import has stamped the second. *)
Definition restockedRecords : list (stamp * promptRecord) :=
  [(None, greetingRecord);
   (Some ("2024-01-14T12:00:00.000Z", "2024-01-13T18:30:00.000Z"), summaryRecord)].

Definition restocked : state :=
  mkState (Some (stamped_store restockedRecords)) None VNull 0.

(** A valid record with the required fields only, and a valid record with
    every field whose injection depth is zero. *)
Definition minimal : value :=
  VObj [("id", VStr "q1");
        ("name", VStr "Minimal");
        ("content", VStr "Continue the story");
        ("role", VStr "user")].

Definition zeroDepth : value :=
  encode (mkRecord "q2" "Zero depth" "Stay in character" "system"
            false false 0 0 100 false
            "2024-01-10T08:00:00.000Z" None false 0 [] None).

Definition drawer : state :=
  mkState (Some [("q1", minimal); ("q2", zeroDepth)]) None VNull 0.

(** A record stored by an import. *)
Definition imported_record : value :=
  VObj [
    ("id", VStr "p5");
    ("name", VStr "Imported");
    ("content", VStr "Translate the message");
    ("role", VStr "assistant");
    ("system_prompt", VBool false);
    ("marker", VBool false);
    ("injection_position", VNum 0);
    ("injection_depth", VNum 4);
    ("injection_order", VNum 100);
    ("forbid_overrides", VBool false);
    ("metadata", VObj [
       ("created_at", VStr "2024-01-10T08:00:00.000Z");
       ("last_used", VNull);
       ("favorite", VBool false);
       ("usage_count", VNum 3);
       ("tags", VArr []);
       ("source_preset", VStr "Default");
       ("imported_at", VStr "2024-01-14T12:00:00.000Z");
       ("import_source", VStr "2024-01-13T18:30:00.000Z")])].

(** [summary] under another id, with a capital. *)
Definition summaryCapital : value :=
  record "p4" "Summary" "Summarise the chat" "user" false VNull ["work"; "draft"].

(** Two records under ids that are array indices. *)
Definition firstNeverUsed : value :=
  record "1" "First" "Never used" "user" false VNull [].

Definition secondUsed : value :=
  record "2" "Second" "Used once" "user" false (VStr "2024-01-12T09:00:00.000Z") [].

Definition tagsFilter (tags : list string) : value :=
  VObj [("tags", VArr (map VStr tags))].

(** The role filter and a tags filter of two tags. *)
Definition roleAndTags : value :=
  VObj [("role", VStr "system"); ("tags", VArr [VStr "work"; VStr "draft"])].

Definition allFilters : value :=
  VObj [("search", VStr " PIRATE ");
        ("role", VStr "system");
        ("favorite", VBool true);
        ("tags", VArr [VStr "draft"])].

End Sample.

(** * The rest of the storage code *)

(** Between [s] and [s'] only the clock has advanced and the store has
    changed: the settings and the preset are the same. *)
Definition same_settings (s s' : state) : Prop :=
  max_prompts s' = max_prompts s /\ completion_preset s' = completion_preset s.

(** Between [s] and [s'] only the clock has advanced. *)
Definition same_store (s s' : state) : Prop :=
  prompts s' = prompts s /\ same_settings s s'.

(** Every record of the store of [s] is in the store of [s'], unchanged. *)
Definition keeps_records (s s' : state) : Prop :=
  forall k r, JS.lookup k (stored s) = Some r -> JS.lookup k (stored s') = Some r.

(** The record [r] with the properties of [metadata] spread over its own
    metadata, as [updatePromptMetadata] rebuilds it. *)
Definition withMetadata (r metadata : value) : value :=
  VObj (JS.set "metadata"
          (VObj (JS.spread (JS.spread [] (JS.prop r "metadata")) metadata))
          (JS.own_props r)).

(** [s.slice(-n)]: the last [n] characters of [s]. *)
Definition last_chars (n : nat) (s : string) : string :=
  String.substring (String.length s - n) n s.

Section DataManagerMore.

Context {host : Host}.

(** [(p.metadata.usage_count || 0) === 0] *)
Definition isUnused (p : value) : outcome bool :=
  let? metadata := get p "metadata" in
  let? usage_count := get metadata "usage_count" in
  Ok (JS.strict_equals (JS.or usage_count (VNum 0)) (VNum 0)).

(** One turn of the loop of [performAutomaticCleanup]; the accumulator is
    [(deletedCount, deletedPrompts)]. *)
Definition cleanupOne (acc : nat * list value) (prompt : value)
    : M (nat * list value) :=
  let* deleteResult := deletePrompt (JS.prop prompt "id") in
  if JS.truthy (JS.prop deleteResult "success")
  then ret (S (fst acc), push (snd acc) (JS.prop prompt "name"))
  else ret acc.

(** [performAutomaticCleanup]: up to five of the prompts that were never
    used are deleted. *)
Definition performAutomaticCleanup : M value :=
  try_catch
    (let* current := getPrompts VUndefined in
     let* unusedPrompts := lift (ofilter isUnused (map snd (JS.own_props current))) in
     let* acc := foldM cleanupOne (firstn 5 unusedPrompts) (0%nat, []) in
     let deletedCount := fst acc in
     ret (VObj [("success", VBool (0 <? deletedCount)%nat);
                ("deletedCount", VNum (Z.of_nat deletedCount));
                ("deletedPrompts", VArr (snd acc));
                ("message", VStr ("Automatically deleted " ++ Str.of_nat deletedCount ++
                                  " unused prompts"))]))
    (fun message =>
       ret (VObj [("success", VBool false);
                  ("error", VStr message);
                  ("message", VStr "Failed to perform automatic cleanup")])).

(** One turn of the loop of [validateAndFixData], on the entry [id, prompt]
    of what [getPrompts] returned. The class has no method
    [generateDefaultMetadata], so the call for a prompt without metadata
    throws a [TypeError]. Past that test [prompt] is an object (only an
    object has a truthy [metadata]), and it is the very object that the
    store keeps under [id]: an assignment to one of its fields shows in the
    store. *)
Definition fixOne (fixedItems : nat) (entry : string * value) : M nat :=
  let id := fst entry in
  let prompt := snd entry in
  let* metadata := lift (get prompt "metadata") in
  if negb (JS.truthy metadata)
  then throw "this.generateDefaultMetadata is not a function"
  else
    let no_id := negb (JS.truthy (JS.prop prompt "id")) in
    let prompt1 :=
      if no_id then VObj (JS.put "id" (VStr id) (JS.own_props prompt)) else prompt in
    let* _ := (if no_id then store_set id prompt1 else ret tt) in
    let no_name := negb (JS.truthy (JS.prop prompt1 "name")) in
    let prompt2 :=
      if no_name
      then VObj (JS.put "name" (VStr ("Recovered Prompt " ++ last_chars 8 id))
                   (JS.own_props prompt1))
      else prompt1 in
    let* _ := (if no_name then store_set id prompt2 else ret tt) in
    let* _ := (if no_id || no_name
               then let* _ := savePrompt prompt2 in ret tt
               else ret tt) in
    ret (fixedItems + (if no_id then 1 else 0) + (if no_name then 1 else 0))%nat.

Definition validateAndFixData : M value :=
  try_catch
    (let* current := getPrompts VUndefined in
     let* fixedItems := foldM fixOne (JS.own_props current) 0%nat in
     ret (VObj [("success", VBool true);
                ("fixedItems", VNum (Z.of_nat fixedItems));
                ("message", VStr ("Data validation completed - fixed " ++
                                  Str.of_nat fixedItems ++ " items"))]))
    (fun message =>
       ret (VObj [("success", VBool false);
                  ("error", VStr message);
                  ("message", VStr "Data validation failed")])).

End DataManagerMore.

(** [new Error(v).message] *)
Definition Error_message (v : value) : string :=
  if JS.is_undefined v then "" else JS.to_string v.

Section SaverManagerMore.

Context {host : Host}.

(** [PromptSaverManager.toggleFavorite] *)
Definition toggleFavorite (promptId : value) : M value :=
  try_catch
    (let* promptData := loadPrompt promptId in
     if negb (JS.truthy promptData) then throw "Prompt not found"
     else
       let* favorite := lift (get (JS.prop promptData "metadata") "favorite") in
       let newFavoriteStatus := negb (JS.truthy favorite) in
       let* updateResult :=
         updatePromptMetadata promptId (VObj [("favorite", VBool newFavoriteStatus)]) in
       if JS.truthy (JS.prop updateResult "success") then
         ret (VObj [("success", VBool true);
                    ("favorite", VBool newFavoriteStatus);
                    ("message",
                     VStr ("Prompt " ++
                           (if newFavoriteStatus then "added to" else "removed from") ++
                           " favorites"))])
       else throw (Error_message (JS.prop updateResult "error")))
    (fun message =>
       ret (VObj [("success", VBool false);
                  ("error", VStr message);
                  ("message", VStr "Failed to toggle favorite status")])).

End SaverManagerMore.

(** The record [r] with its [favorite] set to [b]. *)
Definition set_favorite (b : bool) (r : promptRecord) : promptRecord :=
  mkRecord (r_id r) (r_name r) (r_content r) (r_role r)
    (r_system_prompt r) (r_marker r) (r_injection_position r)
    (r_injection_depth r) (r_injection_order r) (r_forbid_overrides r)
    (r_created_at r) (r_last_used r) b (r_usage_count r) (r_tags r)
    (r_source_preset r).


(** The order in which an object enumerates its own properties: the array
    indices in ascending order, then the other keys in the order in which
    they were created. [key_before a b]: the property [a] is enumerated
    before the distinct property [b]. *)
Definition key_before (a b : string * value) : Prop :=
  fst a <> fst b /\
  match JS.index_of_key (fst a), JS.index_of_key (fst b) with
  | Some m, Some n => (m < n)%N
  | Some _, None => True
  | None, Some _ => False
  | None, None => True
  end.

Definition enumeration_order (ps : props) : Prop := StronglySorted key_before ps.

Section Dated.

Context {host : Host}.

(** The record and its metadata can be read, and [created_at] is a date. *)
Definition dated (p : value) : Prop :=
  JS.is_nullish p = false /\
  JS.is_nullish (JS.prop p "metadata") = false /\
  Date_of (JS.prop (JS.prop p "metadata") "created_at") <> None.

(** [new Date(p.metadata.created_at).getTime()] of a dated record. *)
Definition createdTime (p : value) : Z :=
  match Date_of (JS.prop (JS.prop p "metadata") "created_at") with
  | Some t => t
  | None => 0%Z
  end.

(** No record of [l] was created before a record that follows it. *)
Definition newest_first (l : list value) : Prop :=
  StronglySorted (fun a b => (createdTime b <= createdTime a)%Z) l.

(** The record and its metadata can be read, and [last_used], when set,
    is a date. *)
Definition usable (p : value) : Prop :=
  JS.is_nullish p = false /\
  JS.is_nullish (JS.prop p "metadata") = false /\
  used_on_date p.

(** The time of the last use; a record never used counts as used at the
    epoch, as in [new Date(0)]. *)
Definition usedTime (p : value) : Z :=
  if JS.truthy (lastUsed p) then
    match Date_of (lastUsed p) with
    | Some t => t
    | None => 0%Z
    end
  else 0%Z.

(** No record of [l] was last used before a record that follows it. *)
Definition latest_used_first (l : list value) : Prop :=
  StronglySorted (fun a b => (usedTime b <= usedTime a)%Z) l.

End Dated.


(** ** Text helpers ([PresetIntegrator] and [PromptLibraryUI] define the
    same [truncateText] and [escapeHtml]) *)

(** [s.replace(/c/g, replacement)] for a character [c] and a replacement
    without [$]. *)
Fixpoint replaceAll (c : ascii) (replacement s : string) : string :=
  match s with
  | EmptyString => EmptyString
  | String a s' =>
      if Ascii.eqb a c then replacement ++ replaceAll c replacement s'
      else String a (replaceAll c replacement s')
  end.

(** The double quote. *)
Definition dquote : ascii := ascii_of_nat 34.

Definition escapeHtml (text : value) : string :=
  match text with
  | VStr s =>
      if nonempty s then
        replaceAll "'" "&#39;"
          (replaceAll dquote "&quot;"
             (replaceAll ">" "&gt;"
                (replaceAll "<" "&lt;"
                   (replaceAll "&" "&amp;" s))))
      else ""
  | _ => ""
  end.

(** [truncateText(text, maxLength)] for an integer [maxLength];
    [substring] takes a negative end as 0. The text is a string of the
    embedding, of characters below U+0100, each one code unit: its
    [String.length] is the [text.length] that the code compares with
    [maxLength], and [substring] counts the same units. *)
Definition truncateText (text : value) (maxLength : Z) : string :=
  match text with
  | VStr s =>
      if nonempty s then
        if (Z.of_nat (String.length s) <=? maxLength)%Z then s
        else String.substring 0 (Z.to_nat (maxLength - 3)) s ++ "..."
      else ""
  | _ => ""
  end.

(** The characters that [escapeHtml] replaces, but for the ampersand. *)
Definition markup (c : ascii) : Prop :=
  c = "<"%char \/ c = ">"%char \/ c = dquote \/ c = "'"%char.

(** ** The lines of a diff *)

(** The entries of a diff that carry a line of the first text, and those
    that carry a line of the second. *)
Definition ofFirst (e : diffEntry) : bool :=
  match type e with
  | added => false
  | unchanged | removed => true
  end.

Definition ofSecond (e : diffEntry) : bool :=
  match type e with
  | removed => false
  | unchanged | added => true
  end.

Definition numbered (e : diffEntry) : nat * string := (lineNumber e, content e).

(** The lines of a text that are not empty, each with its number. *)
Definition numberedLines (text : string) : list (nat * string) :=
  let lines := Str.split Str.newline text in
  filter (fun nl => nonempty (snd nl)) (combine (seq 1 (length lines)) lines).


(** ** The filter cache ([PromptDataManager.promptCache])

    The cache as [enablePromptCaching] creates it, for a configuration
    whose [maxCacheSize] and [ttl] are integers. A [Map] lists its entries
    in insertion order; [set] on a key that is present keeps its place.
    The keys are strings. [readings] counts the readings of the clock. *)

Module Cache.

Record entry : Type := mkEntry {
  results : value;
  metadata : value;
  timestamp : Z;
  accessCount : Z
}.

Record counters : Type := mkCounters {
  hits : Z;
  misses : Z;
  evictions : Z
}.

Record cache : Type := mkCache {
  filters : list (string * entry);
  maxCacheSize : Z;
  ttl : Z;
  stats : counters
}.

Record store : Type := mkStore {
  promptCache : option cache;
  readings : nat
}.

Fixpoint Map_get {V} (k : string) (m : list (string * V)) : option V :=
  match m with
  | [] => None
  | (k', v) :: m' => if k =? k' then Some v else Map_get k m'
  end.

Fixpoint Map_set {V} (k : string) (v : V) (m : list (string * V)) : list (string * V) :=
  match m with
  | [] => [(k, v)]
  | (k', v') :: m' => if k =? k' then (k, v) :: m' else (k', v') :: Map_set k v m'
  end.

Fixpoint Map_delete {V} (k : string) (m : list (string * V)) : list (string * V) :=
  match m with
  | [] => []
  | (k', v) :: m' => if k =? k' then m' else (k', v) :: Map_delete k m'
  end.

Definition with_filters (fs : list (string * entry)) (c : cache) : cache :=
  mkCache fs (maxCacheSize c) (ttl c) (stats c).

Definition with_stats (st : counters) (c : cache) : cache :=
  mkCache (filters c) (maxCacheSize c) (ttl c) st.

Section Operations.

Context {host : Host}.

(** The loop of [evictOldestCacheEntry]: [oldestKey] and
    [oldestTimestamp], starting from [null] and the clock. *)
Definition oldestEntry (now : Z) (entries : list (string * entry)) : option string * Z :=
  fold_left
    (fun oldest ke =>
       if (timestamp (snd ke) <? snd oldest)%Z
       then (Some (fst ke), timestamp (snd ke))
       else oldest)
    entries (None, now).

(** [evictOldestCacheEntry('filters')], its one call: the cache after it
    and the number of clock readings. [if (oldestKey)] is false for no key
    and for the empty key. *)
Definition evictOldestCacheEntry (c : cache) (n : nat) : cache * nat :=
  match filters c with
  | [] => (c, n)
  | _ :: _ =>
      match fst (oldestEntry (Date_now n) (filters c)) with
      | Some oldestKey =>
          if nonempty oldestKey then
            (with_stats (mkCounters (hits (stats c)) (misses (stats c))
                           (evictions (stats c) + 1))
               (with_filters (Map_delete oldestKey (filters c)) c),
             S n)
          else (c, S n)
      | None => (c, S n)
      end
  end.

Definition cacheFilterResults (filterKey : string) (results metadata : value)
    (s : store) : value * store :=
  let metadata := if JS.is_undefined metadata then VObj [] else metadata in
  match promptCache s with
  | None =>
      (VObj [("success", VBool false); ("message", VStr "Caching not enabled")], s)
  | Some c =>
      let cacheEntry := mkEntry results metadata (Date_now (readings s)) 0 in
      let n := S (readings s) in
      let (c, n) :=
        if (maxCacheSize c <=? Z.of_nat (length (filters c)))%Z
        then evictOldestCacheEntry c n
        else (c, n) in
      let s' := mkStore (Some (with_filters (Map_set filterKey cacheEntry (filters c)) c)) n in
      match get results "length" with
      | Ok resultCount =>
          (VObj [("success", VBool true);
                 ("filterKey", VStr filterKey);
                 ("resultCount", resultCount);
                 ("message", VStr "Filter results cached successfully")], s')
      | Throw message =>
          (VObj [("success", VBool false);
                 ("error", VStr message);
                 ("message", VStr "Failed to cache filter results")], s')
      end
  end.

Definition getCachedFilterResults (filterKey : string) (s : store) : value * store :=
  match promptCache s with
  | None => (VNull, s)
  | Some c =>
      let missed :=
        mkCounters (hits (stats c)) (misses (stats c) + 1) (evictions (stats c)) in
      match Map_get filterKey (filters c) with
      | None => (VNull, mkStore (Some (with_stats missed c)) (readings s))
      | Some e =>
          let age := (Date_now (readings s) - timestamp e)%Z in
          if (ttl c <? age)%Z then
            (VNull,
             mkStore (Some (with_stats missed
                              (with_filters (Map_delete filterKey (filters c)) c)))
               (S (readings s)))
          else
            let e' := mkEntry (results e) (metadata e) (timestamp e) (accessCount e + 1) in
            (results e,
             mkStore (Some (with_stats
                              (mkCounters (hits (stats c) + 1) (misses (stats c))
                                 (evictions (stats c)))
                              (with_filters (Map_set filterKey e' (filters c)) c)))
               (S (readings s)))
      end
  end.

End Operations.

End Cache.


Section RepairLoop.

Context {host : Host}.

(** The loop of [getPrompts] on the store [store0], with the entries [l]
    still to visit, [validPrompts] built so far and the state [s]: the
    entries visited are valid in the store and in [validPrompts] alike,
    the others are as they were; where a visited record was not valid,
    the store holds what [repairPromptData] made of it, and nothing when
    that is [null]. *)
Definition repairing (store0 l validPrompts : props) (s : state) : Prop :=
  NoDup (keys (stored s)) /\
  JS.lookup "__proto__" (stored s) = None /\
  Forall (fun kv => is_valid (snd kv) = true) validPrompts /\
  (forall k, In k (keys l) -> JS.lookup k validPrompts = None) /\
  (forall k, ~ In k (keys l) -> JS.lookup k (stored s) = JS.lookup k validPrompts) /\
  (forall k r, In (k, r) l -> JS.lookup k (stored s) = Some r) /\
  (forall k r, JS.lookup k store0 = Some r -> is_valid r = true ->
               JS.lookup k (stored s) = Some r) /\
  (forall k, JS.lookup k store0 = None -> JS.lookup k (stored s) = None) /\
  (forall k r, In (k, r) l -> JS.lookup k store0 = Some r) /\
  (forall k r, JS.lookup k store0 = Some r -> is_valid r = false ->
               ~ In k (keys l) ->
               exists s0 s1 r',
                 repairPromptData r s0 = (Ok r', s1) /\
                 JS.lookup k (stored s) = if JS.truthy r' then Some r' else None).

End RepairLoop.


(** ** [PromptLibraryUI]: the filter state *)

(** [currentFilters] after [resetFilters]. *)
Definition resetFilters : value :=
  VObj [("search", VStr "");
        ("role", VStr "all");
        ("favorite", VNull);
        ("tags", VArr []);
        ("sort", VStr "latest_used")].

Section FiltersAndSorting.

Context {host : Host}.

Definition applyFiltersAndSorting (prompts filters : value) : value :=
  let filterResult := applyFiltersUI prompts filters in
  if negb (JS.truthy (JS.prop filterResult "success")) then filterResult
  else
    match get filters "sort" with
    | Throw message =>
        VObj [("success", VBool false);
              ("error", VStr message);
              ("processedPrompts", VObj []);
              ("message", VStr "Failed to apply filters and sorting")]
    | Ok sort =>
        let sortResult :=
          applySorting (JS.prop filterResult "filteredPrompts")
            (JS.or sort (VStr "latest_used")) in
        if negb (JS.truthy (JS.prop sortResult "success")) then sortResult
        else
          let sortedPrompts := JS.prop sortResult "sortedPrompts" in
          VObj [("success", VBool true);
                ("processedPrompts", sortedPrompts);
                ("message",
                 VStr ("Processed " ++ Str.of_nat (length (JS.own_props sortedPrompts)) ++
                       " prompts"))]
    end.

End FiltersAndSorting.


(** ** Comparing two prompts *)

(** A diff entry as the object that [generateContentDiff] pushes. *)
Definition diffValue (e : diffEntry) : value :=
  VObj [("type", VStr match type e with
                      | unchanged => "unchanged"
                      | added => "added"
                      | removed => "removed"
                      end);
        ("content", VStr (content e));
        ("lineNumber", VNum (Z.of_nat (lineNumber e)))].

(** [new Set(l)], in insertion order. *)
Definition Set_add (k : string) (set : list string) : list string :=
  if existsb (String.eqb k) set then set else (set ++ [k])%list.

Definition Set_of (l : list string) : list string :=
  fold_left (fun set k => Set_add k set) l [].

Section Comparison.

Context {host : Host}.

(** [JSON.stringify(v)]: a string, or [None] for [undefined]. *)
Variable JSON_stringify : value -> option string.

Definition same_json (a b : value) : bool :=
  match JSON_stringify a, JSON_stringify b with
  | Some x, Some y => x =? y
  | None, None => true
  | _, _ => false
  end.

Definition generateMetadataComparison (metadata1 metadata2 : value) : outcome value :=
  if JS.is_nullish metadata1 || JS.is_nullish metadata2
  then Throw "Cannot convert undefined or null to object"
  else
    let allKeys :=
      Set_of (keys (JS.own_props metadata1) ++ keys (JS.own_props metadata2)) in
    Ok (VObj (fold_left
                (fun comparison key =>
                   let value1 := JS.prop metadata1 key in
                   let value2 := JS.prop metadata2 key in
                   JS.put key
                     (VObj [("value1", value1);
                            ("value2", value2);
                            ("different", VBool (negb (same_json value1 value2)))])
                     comparison)
                allKeys [])).

Definition comparePrompts (prompt1Id prompt2Id : value) : M value :=
  try_catch
    (let* prompt1 := loadPrompt prompt1Id in
     let* prompt2 := loadPrompt prompt2Id in
     if negb (JS.truthy prompt1)
     then throw ("First prompt not found: " ++ JS.to_string prompt1Id)
     else if negb (JS.truthy prompt2)
     then throw ("Second prompt not found: " ++ JS.to_string prompt2Id)
     else
       let* content1 :=
         lift (string_receiver (JS.prop prompt1 "content") "content1" "split") in
       let* content2 :=
         lift (string_receiver (JS.prop prompt2 "content") "content2" "split") in
       let differences := generateContentDiff content1 content2 in
       let* metadataComparison :=
         lift (generateMetadataComparison (JS.prop prompt1 "metadata")
                 (JS.prop prompt2 "metadata")) in
       ret (VObj [("success", VBool true);
                  ("data", VObj [("prompt1", prompt1);
                                 ("prompt2", prompt2);
                                 ("differences", VArr (map diffValue differences));
                                 ("metadata_comparison", metadataComparison)]);
                  ("message", VStr "Prompts compared successfully")]))
    (fun message =>
       ret (VObj [("success", VBool false);
                  ("error", VStr message);
                  ("message", VStr "Failed to compare prompts")])).

End Comparison.

Module Fixture.

(** Two metadata updates for [Sample.greeting]: one that validates and one
    whose [favorite] is not a boolean. *)
Definition retag : value :=
  VObj [("favorite", VBool false); ("tags", VArr [VStr "welcome"])].

Definition mistyped : value := VObj [("favorite", VStr "yes")].

(** Three records that were created in the order [a], [c], [b]. *)
Definition created (id created_at : string) : value :=
  VObj [("id", VStr id); ("metadata", VObj [("created_at", VStr created_at)])].

Definition byDate : props :=
  [("a", created "a" "2024-01-10T08:00:00.000Z");
   ("b", created "b" "2024-03-01T08:00:00.000Z");
   ("c", created "c" "2024-02-01T08:00:00.000Z")].

(** A host whose clock does not advance from one reading to the next, as
    within one millisecond. *)
Definition sameMillisecond : Host := {|
  Date_parse := UTC.parse;
  Date_toISOString := UTC.toISOString;
  Date_now := fun _ => 1705314600000%Z;
  Math_random_id := fun n => Str.of_N (100000000 + N.of_nat n);
  JSON_parse := UTC.json;
  localeCompare := UTC.collate
|}.

(** A cache for one entry that holds an entry made at [timestamp]. *)
Definition oneEntry (timestamp : Z) : Cache.store :=
  Cache.mkStore
    (Some (Cache.mkCache
             [("role:system", Cache.mkEntry (VArr [VStr "p1"]) (VObj []) timestamp 0%Z)]
             1%Z 300000%Z (Cache.mkCounters 0%Z 0%Z 0%Z)))
    0.

(** A record whose role is none of the three and whose [favorite] is no
    boolean, and what [repairPromptData] makes of it. *)
Definition miscast : value :=
  VObj [("id", VStr "p5");
        ("name", VStr "Narrator");
        ("content", VStr "Tell the story");
        ("role", VStr "narrator");
        ("metadata", VObj [("created_at", VStr "2024-01-10T08:00:00.000Z");
                           ("favorite", VStr "yes")])].

Definition recast : value :=
  Sample.record "p5" "Narrator" "Tell the story" "user" false VNull [].

(** A store that holds a valid record, a record that can be repaired and
    one without a name or a content, which cannot. *)
Definition damaged : state :=
  mkState (Some [("p1", Sample.greeting); ("p5", miscast);
                 ("p9", VObj [("id", VStr "p9")])])
          None VNull 0.

(** [JSON.stringify] on the values of the model, for strings and keys
    that hold no character that JSON escapes. *)
Fixpoint stringify (v : value) : option string :=
  match v with
  | VUndefined | VNative => None
  | VNull | VNaN => Some "null"
  | VBool b => Some (if b then "true" else "false")
  | VNum n => Some (Str.of_Z n)
  | VStr x => Some (String dquote x ++ String dquote "")
  | VArr items =>
      Some ("[" ++
            Str.join ","
              (map (fun x => match stringify x with Some j => j | None => "null" end)
                 items) ++
            "]")
  | VObj ps =>
      Some ("{" ++
            Str.join ","
              (flat_map
                 (fun kv =>
                    let '(k, x) := kv in
                    match stringify x with
                    | Some j => [String dquote k ++ String dquote ":" ++ j]
                    | None => []
                    end)
                 ps) ++
            "}")
  end.

(** An export that holds [Sample.persona] under its id. *)
Definition payload : props :=
  [("version", VStr "1.0.0");
   ("exported_at", VStr "2024-03-01T00:00:00.000Z");
   ("prompts", VObj [("p3", Sample.persona)])].

End Fixture.

(** * Theorems *)

(** ** The content diff *)

Lemma diffLine_same (lines : list string) (i : nat) :
  filter isChange (diffLine lines lines i) = [].
Proof.
  unfold diffLine. rewrite String.eqb_refl.
  destruct (nonempty (nth i lines "")); reflexivity.
Qed.

Lemma filter_flat_map_nil {A B} (p : B -> bool) (f : A -> list B) (l : list A) :
  (forall a, filter p (f a) = []) -> filter p (flat_map f l) = [].
Proof.
  intros Hf. induction l as [|a l IH]; simpl.
  - reflexivity.
  - rewrite filter_app, Hf, IH. reflexivity.
Qed.

(** C8: the diff of a content string with itself has no entry of type
    [added] and none of type [removed]. *)
Theorem generateContentDiff_same (s : string) :
  filter isChange (generateContentDiff s s) = [] /\
  Forall (fun e => type e = unchanged) (generateContentDiff s s).
Proof.
  assert (H : filter isChange (generateContentDiff s s) = []).
  { unfold generateContentDiff. apply filter_flat_map_nil. intros i.
    apply diffLine_same. }
  split; [exact H|].
  apply Forall_forall. intros e He.
  destruct (isChange e) eqn:E.
  - assert (In e (filter isChange (generateContentDiff s s)))
      by (apply filter_In; split; assumption).
    rewrite H in *. contradiction.
  - unfold isChange in E. destruct (type e); congruence.
Qed.

(** ** Facts about own properties *)

Local Open Scope list_scope.

Section PropsFacts.

Implicit Types (k : string) (v : value) (ps : props).

Lemma lookup_app k ps qs :
  JS.lookup k (ps ++ qs) =
  match JS.lookup k ps with Some v => Some v | None => JS.lookup k qs end.
Proof.
  induction ps as [|[k' v'] ps IH]; simpl; [reflexivity|].
  destruct (k =? k'); [reflexivity|exact IH].
Qed.

Lemma lookup_replace k k' v ps :
  JS.lookup k' (JS.replace k v ps) =
  if JS.has k ps && (k' =? k) then Some v else JS.lookup k' ps.
Proof.
  unfold JS.has.
  induction ps as [|[k0 v0] ps IH]; simpl; [reflexivity|].
  destruct (k =? k0) eqn:E.
  - apply String.eqb_eq in E. subst k0. simpl.
    destruct (k' =? k); reflexivity.
  - simpl. destruct (k' =? k0) eqn:E'.
    + apply String.eqb_eq in E'. subst k0.
      rewrite String.eqb_sym in E. rewrite E.
      rewrite andb_false_r. reflexivity.
    + exact IH.
Qed.

Lemma lookup_insert_index n k k' v ps :
  JS.lookup k ps = None ->
  JS.lookup k' (JS.insert_index n k v ps) =
  if k' =? k then Some v else JS.lookup k' ps.
Proof.
  induction ps as [|[k0 v0] ps IH]; simpl; intros Hk.
  - reflexivity.
  - destruct (k =? k0) eqn:E; [discriminate|].
    destruct (JS.index_of_key k0) as [m|]; [destruct (m <? n)%N|]; simpl;
      try reflexivity.
    destruct (k' =? k0) eqn:E'.
    + apply String.eqb_eq in E'. subst k0.
      rewrite String.eqb_sym in E. rewrite E. reflexivity.
    + apply IH, Hk.
Qed.

Lemma lookup_set k k' v ps :
  JS.lookup k' (JS.set k v ps) = if k' =? k then Some v else JS.lookup k' ps.
Proof.
  unfold JS.set, JS.has.
  destruct (JS.lookup k ps) eqn:Hk.
  - rewrite lookup_replace. unfold JS.has. rewrite Hk. reflexivity.
  - destruct (JS.index_of_key k) as [n|].
    + apply lookup_insert_index, Hk.
    + rewrite lookup_app. simpl.
      destruct (k' =? k) eqn:E.
      * apply String.eqb_eq in E. subst k'. rewrite Hk. reflexivity.
      * destruct (JS.lookup k' ps); reflexivity.
Qed.

Lemma lookup_None_keys k ps : JS.lookup k ps = None <-> ~ In k (keys ps).
Proof.
  induction ps as [|[k0 v0] ps IH]; simpl.
  - tauto.
  - destruct (k =? k0) eqn:E.
    + apply String.eqb_eq in E. subst. split; [discriminate|tauto].
    + apply String.eqb_neq in E. rewrite IH. split; [intros H [?|?]|]; try tauto.
      congruence.
Qed.

Lemma lookup_Some_In k v ps : JS.lookup k ps = Some v -> In (k, v) ps.
Proof.
  induction ps as [|[k0 v0] ps IH]; simpl; [discriminate|].
  destruct (k =? k0) eqn:E.
  - apply String.eqb_eq in E. intros [= <-]. subst. now left.
  - intros H. right. apply IH, H.
Qed.

Lemma In_lookup k v ps : NoDup (keys ps) -> In (k, v) ps -> JS.lookup k ps = Some v.
Proof.
  induction ps as [|[k0 v0] ps IH]; simpl; [tauto|].
  intros Hnd [H|H].
  - injection H as -> ->. rewrite String.eqb_refl. reflexivity.
  - inversion Hnd as [|? ? Hnot Hnd']; subst.
    destruct (k =? k0) eqn:E.
    + apply String.eqb_eq in E. subst. exfalso. apply Hnot.
      apply (in_map fst) in H. exact H.
    + apply IH; assumption.
Qed.

Lemma NoDup_keys_lookup k ps :
  NoDup (keys ps) -> forall v v', In (k, v) ps -> In (k, v') ps -> v = v'.
Proof.
  intros Hnd v v' H H'.
  apply (In_lookup _ _ _ Hnd) in H. apply (In_lookup _ _ _ Hnd) in H'.
  congruence.
Qed.

(** A list of properties with distinct keys is determined, up to order,
    by its lookups. *)
Lemma keys_replace k v ps : keys (JS.replace k v ps) = keys ps.
Proof.
  unfold keys. induction ps as [|[k0 v0] ps IH]; simpl; [reflexivity|].
  destruct (k =? k0) eqn:E; simpl.
  - apply String.eqb_eq in E. subst. reflexivity.
  - f_equal. exact IH.
Qed.

Lemma In_keys_insert_index n k v ps x :
  In x (keys (JS.insert_index n k v ps)) <-> x = k \/ In x (keys ps).
Proof.
  unfold keys. induction ps as [|[k0 v0] ps IH]; simpl.
  - intuition.
  - destruct (JS.index_of_key k0) as [m|]; [destruct (m <? n)%N|]; simpl;
      rewrite ?IH; intuition.
Qed.

Lemma NoDup_insert_index n k v ps :
  ~ In k (keys ps) -> NoDup (keys ps) -> NoDup (keys (JS.insert_index n k v ps)).
Proof.
  induction ps as [|[k0 v0] ps IH]; simpl; intros Hk Hnd.
  - constructor; [tauto|constructor].
  - inversion Hnd as [|? ? Hnot Hnd']; subst.
    assert (Hcons : NoDup (k :: k0 :: keys ps)).
    { constructor; [simpl; tauto|exact Hnd]. }
    destruct (JS.index_of_key k0) as [m|]; [destruct (m <? n)%N|]; simpl;
      try exact Hcons.
    constructor.
    + fold (keys (JS.insert_index n k v ps)).
      rewrite In_keys_insert_index. intros [->|H]; tauto.
    + apply IH; tauto.
Qed.

Lemma keys_app ps qs : keys (ps ++ qs) = keys ps ++ keys qs.
Proof. apply map_app. Qed.

Lemma NoDup_set k v ps : NoDup (keys ps) -> NoDup (keys (JS.set k v ps)).
Proof.
  intros Hnd. unfold JS.set, JS.has.
  destruct (JS.lookup k ps) eqn:Hk.
  - rewrite keys_replace. exact Hnd.
  - apply lookup_None_keys in Hk.
    destruct (JS.index_of_key k) as [n|].
    + apply NoDup_insert_index; assumption.
    + rewrite keys_app. simpl. apply NoDup_app. 
      repeat split; try assumption.
      * constructor; [tauto|constructor].
      * intros x Hx [<-|[]]. contradiction.
Qed.

Lemma NoDup_assign acc src : NoDup (keys acc) -> NoDup (keys (JS.assign acc src)).
Proof.
  unfold JS.assign. revert acc.
  induction src as [|[k v] src IH]; simpl; intros acc Hnd; [exact Hnd|].
  apply IH, NoDup_set, Hnd.
Qed.

Lemma lookup_assign k acc src :
  NoDup (keys src) ->
  JS.lookup k (JS.assign acc src) =
  match JS.lookup k src with Some v => Some v | None => JS.lookup k acc end.
Proof.
  unfold JS.assign. revert acc.
  induction src as [|[k0 v0] src IH]; simpl; intros acc Hnd; [reflexivity|].
  inversion Hnd as [|? ? Hnot Hnd']; subst.
  rewrite IH by exact Hnd'. rewrite lookup_set.
  destruct (k =? k0) eqn:E.
  - apply String.eqb_eq in E. subst.
    apply lookup_None_keys in Hnot. rewrite Hnot. reflexivity.
  - reflexivity.
Qed.

Lemma NoDup_literal ps : NoDup (keys (JS.literal ps)).
Proof. apply NoDup_assign. constructor. Qed.

Lemma NoDup_spread acc x : NoDup (keys acc) -> NoDup (keys (JS.spread acc x)).
Proof. apply NoDup_assign. Qed.

Lemma lookup_literal k ps :
  NoDup (keys ps) -> JS.lookup k (JS.literal ps) = JS.lookup k ps.
Proof.
  intros Hnd. unfold JS.literal. rewrite lookup_assign by exact Hnd.
  destruct (JS.lookup k ps); reflexivity.
Qed.

Lemma In_replace (k k' : string) (v v' : value) (ps : props) :
  In (k', v') (JS.replace k v ps) -> (k', v') = (k, v) \/ In (k', v') ps.
Proof.
  induction ps as [|[k0 v0] ps IH]; simpl; [tauto|].
  destruct (k =? k0); simpl; intros [H|H]; auto.
  destruct (IH H); auto.
Qed.

Lemma In_insert_index (n : N) (k k' : string) (v v' : value) (ps : props) :
  In (k', v') (JS.insert_index n k v ps) -> (k', v') = (k, v) \/ In (k', v') ps.
Proof.
  induction ps as [|[k0 v0] ps IH]; simpl.
  - intros [H|[]]. left. congruence.
  - destruct (JS.index_of_key k0) as [m|]; [destruct (m <? n)%N|]; simpl;
      intros [H|H]; auto; try (left; congruence).
    destruct (IH H); auto.
Qed.

Lemma In_set (k k' : string) (v v' : value) (ps : props) :
  In (k', v') (JS.set k v ps) -> (k', v') = (k, v) \/ In (k', v') ps.
Proof.
  unfold JS.set. destruct (JS.has k ps); [apply In_replace|].
  destruct (JS.index_of_key k) as [n|]; [apply In_insert_index|].
  intros H. apply in_app_or in H.
  destruct H as [H|[H|[]]]; auto; try (left; congruence).
Qed.

Lemma In_assign (k : string) (v : value) (src acc : props) :
  In (k, v) (JS.assign acc src) -> In (k, v) acc \/ In (k, v) src.
Proof.
  unfold JS.assign. revert acc.
  induction src as [|[k0 v0] src IH]; simpl; intros acc H; [now left|].
  destruct (IH _ H) as [Hin|Hin]; [|now right; right].
  destruct (In_set _ _ _ _ _ Hin) as [Heq|Hin']; [right; left; congruence|now left].
Qed.

End PropsFacts.

(** ** Filtering *)

Section FilterFacts.

Lemma ofilter_Ok {A} (f : A -> outcome bool) (l out : list A) :
  ofilter f l = Ok out ->
  out = filter (fun a => match f a with Ok true => true | _ => false end) l /\
  Forall (fun a => exists b, f a = Ok b) l.
Proof.
  revert out. induction l as [|a l IH]; simpl; intros out H.
  - injection H as <-. split; constructor.
  - destruct (f a) as [b|m] eqn:Ha; simpl in H; [|discriminate].
    destruct (ofilter f l) as [rest|m] eqn:Hl; simpl in H; [|discriminate].
    injection H as <-. destruct (IH rest eq_refl) as [-> HF].
    split.
    + destruct b; reflexivity.
    + constructor; [exists b; exact Ha|exact HF].
Qed.

Lemma keys_filter_incl (g : string * value -> bool) (l : props) (k : string) :
  In k (keys (filter g l)) -> In k (keys l).
Proof.
  unfold keys. rewrite !in_map_iff. intros [x [Hx Hin]].
  apply filter_In in Hin. exists x. tauto.
Qed.

Lemma NoDup_keys_filter (g : string * value -> bool) (l : props) :
  NoDup (keys l) -> NoDup (keys (filter g l)).
Proof.
  induction l as [|[k v] l IH]; simpl; intros Hnd; [constructor|].
  inversion Hnd as [|? ? Hnot Hnd']; subst.
  destruct (g (k, v)); simpl; [|apply IH, Hnd'].
  constructor; [|apply IH, Hnd'].
  intros Hin. apply Hnot. eapply keys_filter_incl, Hin.
Qed.

Lemma lookup_filter (g : value -> bool) (l : props) (k : string) :
  NoDup (keys l) ->
  JS.lookup k (filter (fun kv => g (snd kv)) l) =
  match JS.lookup k l with
  | Some v => if g v then Some v else None
  | None => None
  end.
Proof.
  induction l as [|[k0 v0] l IH]; simpl; intros Hnd; [reflexivity|].
  inversion Hnd as [|? ? Hnot Hnd']; subst.
  destruct (k =? k0) eqn:E.
  - apply String.eqb_eq in E. subst k0.
    destruct (g v0); simpl.
    + rewrite String.eqb_refl. reflexivity.
    + rewrite IH by exact Hnd'.
      apply lookup_None_keys in Hnot. rewrite Hnot. reflexivity.
  - destruct (g v0); simpl; [rewrite E|]; apply IH, Hnd'.
Qed.

Lemma filterEntries_spec (f : value -> outcome bool) (l out : props) :
  NoDup (keys l) ->
  filterEntries f l = Ok out ->
  NoDup (keys out) /\
  forall k p, JS.lookup k out = Some p <-> JS.lookup k l = Some p /\ f p = Ok true.
Proof.
  intros Hnd H. unfold filterEntries in H.
  destruct (ofilter _ l) as [kept|m] eqn:Hk; simpl in H; [|discriminate].
  injection H as <-. split; [apply NoDup_literal|].
  apply ofilter_Ok in Hk. destruct Hk as [-> _].
  intros k p.
  rewrite lookup_literal by (apply NoDup_keys_filter, Hnd).
  rewrite (lookup_filter (fun v => match f v with Ok true => true | _ => false end))
    by exact Hnd.
  destruct (JS.lookup k l) as [v|]; [|split; [discriminate|intros [? _]; discriminate]].
  destruct (f v) as [[|]|m] eqn:Hf; split.
  - intros [= <-]. split; [reflexivity|exact Hf].
  - intros [[= <-] _]. reflexivity.
  - discriminate.
  - intros [[= <-] Hp]. congruence.
  - discriminate.
  - intros [[= <-] Hp]. congruence.
Qed.

Lemma filterWhen_spec {A} (active : option A) (f : A -> value -> outcome bool)
    (l out : props) :
  NoDup (keys l) ->
  filterWhen active f l = Ok out ->
  NoDup (keys out) /\
  forall k p, JS.lookup k out = Some p <-> JS.lookup k l = Some p /\ holds active f p.
Proof.
  intros Hnd H. destruct active as [a|]; simpl in H.
  - destruct (filterEntries_spec _ _ _ Hnd H) as [Hnd' Hl].
    split; [exact Hnd'|]. intros k p. rewrite Hl. unfold holds.
    split; intros [H1 H2]; split; try exact H1.
    + intros a' [= <-]. exact H2.
    + apply H2. reflexivity.
  - injection H as <-. split; [exact Hnd|].
    intros k p. unfold holds.
    split; [intros H; split; [exact H|discriminate]|intros [H _]; exact H].
Qed.

Lemma filterChain_spec tagsFilter (prompts filters : value) (out : props) :
  filterChain tagsFilter prompts filters = Ok out ->
  forall id p,
    JS.lookup id out = Some p <->
    JS.lookup id (JS.spread [] prompts) = Some p /\ passes tagsFilter filters p.
Proof.
  unfold filterChain. intros H.
  destruct (activeSearch filters) as [search|m] eqn:Hs; simpl in H; [|discriminate].
  destruct (filterWhen search _ _) as [l1|m] eqn:H1; simpl in H; [|discriminate].
  destruct (filterWhen (activeRole filters) _ _) as [l2|m] eqn:H2; simpl in H;
    [|discriminate].
  destruct (filterWhen (activeFavorite filters) _ _) as [l3|m] eqn:H3; simpl in H;
    [|discriminate].
  assert (Hnd0 : NoDup (keys (JS.spread [] prompts)))
    by (apply NoDup_spread; constructor).
  destruct (filterWhen_spec _ _ _ _ Hnd0 H1) as [Hnd1 E1].
  destruct (filterWhen_spec _ _ _ _ Hnd1 H2) as [Hnd2 E2].
  destruct (filterWhen_spec _ _ _ _ Hnd2 H3) as [Hnd3 E3].
  destruct (filterWhen_spec _ _ _ _ Hnd3 H) as [_ E4].
  intros id p. rewrite E4, E3, E2, E1. unfold passes. rewrite Hs.
  assert (Hsearch : holds search matchesSearch p <->
                    forall term, Ok search = Ok (Some term) ->
                                 matchesSearch term p = Ok true).
  { unfold holds. split; intros Hh t Ht; apply Hh; congruence. }
  rewrite Hsearch. tauto.
Qed.

Lemma ofilter_total {A} (f : A -> outcome bool) (l : list A) :
  Forall (fun a => exists b, f a = Ok b) l ->
  exists out, ofilter f l = Ok out /\ incl out l.
Proof.
  induction 1 as [|a l [b Hb] Hl [out [Hout Hincl]]]; simpl.
  - exists []. split; [reflexivity|apply incl_refl].
  - rewrite Hb, Hout. simpl. destruct b.
    + exists (a :: out). split; [reflexivity|].
      intros x [<-|Hx]; [now left|right; apply Hincl, Hx].
    + exists out. split; [reflexivity|]. intros x Hx. right. apply Hincl, Hx.
Qed.

Lemma filterWhen_total {A} (active : option A) (f : A -> value -> outcome bool)
    (l : props) :
  (forall a p, In p (map snd l) -> exists b, f a p = Ok b) ->
  exists out, filterWhen active f l = Ok out /\ incl (map snd out) (map snd l).
Proof.
  intros Hf. destruct active as [a|]; simpl.
  - unfold filterEntries.
    destruct (ofilter_total (fun kv => f a (snd kv)) l) as [kept [Hkept Hincl]].
    { apply Forall_forall. intros [k v] Hin. apply Hf.
      apply (in_map snd) in Hin. exact Hin. }
    rewrite Hkept. simpl. eexists. split; [reflexivity|].
    intros v Hv. apply in_map_iff in Hv. destruct Hv as [[k v'] [<- Hin]].
    apply In_assign in Hin. destruct Hin as [[]|Hin].
    apply Hincl in Hin. apply (in_map snd) in Hin. exact Hin.
  - exists l. split; [reflexivity|apply incl_refl].
Qed.

Lemma osome_total {A} (f : A -> outcome bool) (l : list A) :
  Forall (fun a => exists b, f a = Ok b) l -> exists b, osome f l = Ok b.
Proof.
  induction 1 as [|a l [b Hb] Hl [b' Hb']]; simpl.
  - eexists. reflexivity.
  - rewrite Hb. simpl. destruct b; eexists; [reflexivity|exact Hb'].
Qed.

Lemma matchesSearch_total (term : string) (p : value) :
  searchable p -> exists b, matchesSearch term p = Ok b.
Proof.
  intros (Hn & Hname & Hcontent & Hm & Htags).
  unfold matchesSearch, get, lower_includes. rewrite Hn. simpl.
  destruct (JS.prop p "name") as [| |b|n| |name|items|ps|]; try discriminate. simpl.
  destruct (Str.includes (Str.toLowerCase name) term); [eexists; reflexivity|].
  destruct (JS.prop p "content") as [| |b|n| |content|items|ps|]; try discriminate.
  simpl.
  destruct (Str.includes (Str.toLowerCase content) term); [eexists; reflexivity|].
  rewrite Hm. simpl.
  destruct (JS.prop (JS.prop p "metadata") "tags") as [| |b|n| |x|items|ps|];
    try contradiction.
  simpl. apply osome_total. apply Forall_forall. intros tag Hin.
  rewrite forallb_forall in Htags. specialize (Htags tag Hin).
  destruct tag; try discriminate. simpl. eexists. reflexivity.
Qed.

Lemma matchesRole_total (role p : value) :
  searchable p -> exists b, matchesRole role p = Ok b.
Proof.
  intros (Hn & _). unfold matchesRole, get. rewrite Hn. simpl. eexists. reflexivity.
Qed.

Lemma matchesFavorite_total (favorite p : value) :
  searchable p -> exists b, matchesFavorite favorite p = Ok b.
Proof.
  intros (Hn & _ & _ & Hm & _). unfold matchesFavorite, get. rewrite Hn. simpl.
  rewrite Hm. simpl. eexists. reflexivity.
Qed.

Lemma hasTag_total (p tag : value) :
  searchable p -> exists b, hasTag p tag = Ok b.
Proof.
  intros (Hn & _ & _ & Hm & Htags). unfold hasTag, get. rewrite Hn. simpl.
  rewrite Hm. simpl.
  destruct (JS.prop (JS.prop p "metadata") "tags") as [| |b|n| |x|items|ps|];
    try contradiction.
  simpl. eexists. reflexivity.
Qed.

Lemma matchesSomeTag_total (tags : list value) (p : value) :
  searchable p -> exists b, matchesSomeTag tags p = Ok b.
Proof.
  intros Hp. unfold matchesSomeTag. apply osome_total.
  apply Forall_forall. intros tag _. apply hasTag_total, Hp.
Qed.

Lemma activeSearch_total (filters : value) :
  well_formed_filters filters -> exists search, activeSearch filters = Ok search.
Proof.
  intros [Hn Hs]. unfold activeSearch, get. rewrite Hn. simpl.
  unfold typed_or_unset in Hs.
  destruct (JS.truthy (JS.prop filters "search")) eqn:Ht; [|eexists; reflexivity].
  rewrite orb_false_r in Hs.
  destruct (JS.prop filters "search") as [| |b|n| |x|items|ps|]; try discriminate.
  simpl. destruct (nonempty (Str.trim x)); eexists; reflexivity.
Qed.

(** On records that are [searchable], and for a specification that is
    well formed, the chain of [PromptDataManager.applyFilters] returns. *)
Lemma filterChain_total (prompts filters : value) :
  well_formed_filters filters ->
  Forall searchable (map snd (JS.own_props prompts)) ->
  exists out, filterChain matchesSomeTag prompts filters = Ok out.
Proof.
  intros Hf Hall. unfold filterChain.
  destruct (activeSearch_total filters Hf) as [search ->]. simpl.
  assert (H0 : incl (map snd (JS.spread [] prompts)) (map snd (JS.own_props prompts))).
  { intros v Hv. apply in_map_iff in Hv. destruct Hv as [[k v'] [<- Hin]].
    apply In_assign in Hin. destruct Hin as [[]|Hin].
    apply (in_map snd) in Hin. exact Hin. }
  rewrite Forall_forall in Hall.
  destruct (filterWhen_total search matchesSearch (JS.spread [] prompts))
    as [l1 [-> H1]].
  { intros a p Hp. apply matchesSearch_total, Hall, H0, Hp. }
  simpl.
  destruct (filterWhen_total (activeRole filters) matchesRole l1) as [l2 [-> H2]].
  { intros a p Hp. apply matchesRole_total, Hall, H0, H1, Hp. }
  simpl.
  destruct (filterWhen_total (activeFavorite filters) matchesFavorite l2)
    as [l3 [-> H3]].
  { intros a p Hp. apply matchesFavorite_total, Hall, H0, H1, H2, Hp. }
  simpl.
  destruct (filterWhen_total (activeTags filters) matchesSomeTag l3) as [l4 [-> _]].
  { intros a p Hp. apply matchesSomeTag_total, Hall, H0, H1, H2, H3, Hp. }
  eexists. reflexivity.
Qed.

End FilterFacts.

(** Filtering by role ["system"] returns only records of the input whose
    role is ["system"]. *)
Lemma applyFilters_role_system (prompts filters out : value) :
  applyFilters prompts filters = Ok out ->
  JS.prop filters "role" = VStr "system" ->
  forall id p,
    JS.lookup id (JS.own_props out) = Some p ->
    JS.lookup id (JS.spread [] prompts) = Some p /\
    JS.prop p "role" = VStr "system".
Proof.
  unfold applyFilters. intros H Hrole id p Hp.
  destruct (filterChain _ _ _) as [l|m] eqn:Hc; simpl in H; [|discriminate].
  injection H as <-. simpl in Hp.
  apply (filterChain_spec _ _ _ _ Hc) in Hp. destruct Hp as [Hin (_ & Hr & _)].
  split; [exact Hin|].
  specialize (Hr (VStr "system")). unfold activeRole in Hr. rewrite Hrole in Hr.
  specialize (Hr eq_refl). unfold matchesRole, get in Hr.
  destruct (JS.is_nullish p); simpl in Hr; [discriminate|].
  injection Hr as Hr. destruct (JS.prop p "role"); simpl in Hr; try discriminate.
  apply String.eqb_eq in Hr. congruence.
Qed.

Lemma Sample_library_searchable :
  Forall searchable (map snd (JS.own_props Sample.library)).
Proof. repeat constructor. Qed.

(** C7: the filters are not combined as a conjunction. With the role
    ["system"] and the tags [work] and [draft] asked for,
    [PromptDataManager.applyFilters] returns the record [p1], whose role is
    ["system"] and whose only tag is [work]: it passes the role filter and
    not the tags filter, which asks for both tags.
    [PromptLibraryUI.applyFilters] returns [p3] alone, the one record that
    passes both. *)
Theorem applyFilters_role_and_tags :
  applyFilters Sample.library Sample.roleAndTags =
    Ok (VObj [("p1", Sample.greeting); ("p3", Sample.persona)]) /\
  JS.prop Sample.greeting "role" = VStr "system" /\
  JS.prop (JS.prop Sample.greeting "metadata") "tags" = VArr [VStr "work"] /\
  JS.prop (applyFiltersUI Sample.library Sample.roleAndTags) "filteredPrompts" =
    VObj [("p3", Sample.persona)].
Proof. repeat split; reflexivity. Qed.

(** C1: with the tags [work] and [draft] listed, [PromptDataManager.applyFilters]
    returns the record tagged [work] alone, which lacks [draft]; the tags
    filter of [PromptLibraryUI.applyFilters] returns only the two records
    that carry both. *)
Theorem applyFilters_tags_any :
  applyFilters Sample.library (Sample.tagsFilter ["work"; "draft"]) =
    Ok Sample.library /\
  JS.prop (applyFiltersUI Sample.library (Sample.tagsFilter ["work"; "draft"]))
    "filteredPrompts" = VObj [("p2", Sample.summary); ("p3", Sample.persona)].
Proof. split; reflexivity. Qed.

(** ** The store under [getPrompts] and [savePrompt] *)

Section StoreFacts.

Context {host : Host}.

Lemma In_keys_lookup (k : string) (ps : props) :
  In k (keys ps) <-> JS.lookup k ps <> None.
Proof.
  split.
  - intros Hin Hnone. apply lookup_None_keys in Hnone. contradiction.
  - intros Hne. destruct (in_dec string_dec k (keys ps)) as [Hin|Hin]; [exact Hin|].
    apply lookup_None_keys in Hin. contradiction.
Qed.

(** Two property lists with distinct keys and the same lookups have the
    same number of properties. *)
Lemma same_lookups_length (a b : props) :
  NoDup (keys a) -> NoDup (keys b) ->
  (forall k, JS.lookup k a = JS.lookup k b) ->
  length a = length b.
Proof.
  intros Ha Hb Hl.
  assert (Hp : Permutation (keys a) (keys b)).
  { apply NoDup_Permutation; try assumption.
    intros k. rewrite !In_keys_lookup, Hl. tauto. }
  apply Permutation_length in Hp.
  unfold keys in Hp. rewrite !length_map in Hp. exact Hp.
Qed.

Lemma length_set (k : string) (v : value) (ps : props) :
  NoDup (keys ps) ->
  length (JS.set k v ps) = if JS.has k ps then length ps else S (length ps).
Proof.
  intros Hnd. unfold JS.has.
  destruct (JS.lookup k ps) eqn:Hk.
  - assert (H : length (keys (JS.set k v ps)) = length (keys ps)).
    { unfold JS.set, JS.has. rewrite Hk, keys_replace. reflexivity. }
    unfold keys in H. rewrite !length_map in H. exact H.
  - unfold JS.set, JS.has. rewrite Hk.
    destruct (JS.index_of_key k) as [n|].
    + clear Hk Hnd. induction ps as [|[k0 v0] ps IH]; simpl; [reflexivity|].
      destruct (JS.index_of_key k0) as [m|]; [destruct (m <? n)%N|]; simpl;
        try reflexivity.
      rewrite IH. reflexivity.
    + rewrite length_app. simpl. lia.
Qed.

Lemma In_literal (k : string) (v : value) (ps : props) :
  NoDup (keys ps) -> In (k, v) (JS.literal ps) -> In (k, v) ps.
Proof.
  intros Hnd Hin. apply lookup_Some_In.
  rewrite <- (lookup_literal k ps Hnd).
  apply In_lookup; [apply NoDup_literal|exact Hin].
Qed.

Lemma length_literal (ps : props) :
  NoDup (keys ps) -> length (JS.literal ps) = length ps.
Proof.
  intros Hnd. apply same_lookups_length; [apply NoDup_literal|exact Hnd|].
  intros k. apply lookup_literal, Hnd.
Qed.

Lemma put_set (k : string) (v : value) (ps : props) :
  k <> "__proto__" -> JS.put k v ps = JS.set k v ps.
Proof.
  intros Hk. unfold JS.put. apply String.eqb_neq in Hk. rewrite Hk. reflexivity.
Qed.

Lemma own_key_assignable (k : string) : own_key k -> k <> "__proto__".
Proof. intros Hk ->. discriminate. Qed.

Lemma prop_own_key (k : string) (ps : props) :
  own_key k ->
  JS.prop (VObj ps) k = match JS.lookup k ps with Some x => x | None => VUndefined end.
Proof.
  intros Hk. unfold JS.prop, JS.own, JS.inherited, JS.own_props.
  destruct (JS.lookup k ps); [reflexivity|].
  unfold own_key in Hk. rewrite Hk. reflexivity.
Qed.

Lemma prop_own (k : string) (v : value) (ps : props) :
  JS.lookup k ps = Some v -> JS.prop (VObj ps) k = v.
Proof.
  intros Hk. unfold JS.prop, JS.own, JS.own_props. rewrite Hk. reflexivity.
Qed.

Lemma generated_own_key (suffix : string) : own_key ("prompt_" ++ suffix)%string.
Proof. reflexivity. Qed.

Lemma put_set_store (k : string) (v : value) (s : state) :
  k <> "__proto__" ->
  store_set k v s =
    (Ok tt, mkState (Some (JS.set k v (stored s)))
                    (max_prompts s) (completion_preset s) (tick s)).
Proof.
  intros Hk. unfold store_set, bind, get_state, set_prompts, stored.
  rewrite (put_set k v _ Hk). reflexivity.
Qed.

Lemma visitPrompt_valid (acc : props) (k : string) (r : value) (s : state) :
  is_valid r = true ->
  visitPrompt acc (k, r) s = (Ok (JS.put k r acc), s).
Proof.
  unfold is_valid, visitPrompt, bind, lift. simpl.
  destruct (validatePromptData r) as [v|m]; [|discriminate].
  intros ->. reflexivity.
Qed.

Lemma foldM_visitPrompt_valid (l acc : props) (s : state) :
  Forall (fun kv => is_valid (snd kv) = true) l ->
  ~ In "__proto__" (keys l) ->
  foldM visitPrompt l acc s = (Ok (JS.assign acc l), s).
Proof.
  revert acc. induction l as [|[k r] l IH]; intros acc Hl Hk; simpl.
  - reflexivity.
  - inversion Hl as [|? ? Hr Hl']; subst. simpl in Hr, Hk.
    unfold bind. rewrite (visitPrompt_valid acc k r s Hr).
    rewrite put_set by (intros ->; apply Hk; left; reflexivity).
    rewrite IH; [reflexivity|exact Hl'|].
    intros Hin. apply Hk. right. exact Hin.
Qed.

Lemma keys_literal (k : string) (ps : props) :
  NoDup (keys ps) -> In k (keys (JS.literal ps)) -> In k (keys ps).
Proof.
  intros Hnd. rewrite !In_keys_lookup, (lookup_literal k ps Hnd). tauto.
Qed.

(** On a store of valid records [getPrompts()] changes nothing and returns
    the store rebuilt twice: once by the spread, once by the loop. *)
Lemma getPrompts_rebuilds (s : state) (store : props) :
  prompts s = Some store ->
  valid_store store ->
  getPrompts VUndefined s = (Ok (VObj (JS.literal (JS.literal store))), s).
Proof.
  intros Hs (Hnd & Hvalid & Hproto). unfold getPrompts, try_catch, bind, get_state.
  simpl. rewrite Hs.
  assert (Hsnap : Forall (fun kv => is_valid (snd kv) = true) (JS.literal store)).
  { apply Forall_forall. intros [k r] Hin.
    apply (In_literal k r store Hnd) in Hin.
    rewrite Forall_forall in Hvalid. apply (Hvalid (k, r) Hin). }
  assert (Hkeys : ~ In "__proto__" (keys (JS.literal store))).
  { intros Hin. apply Hproto, (keys_literal _ _ Hnd Hin). }
  unfold JS.spread. simpl. fold (JS.literal store).
  rewrite (foldM_visitPrompt_valid _ [] s Hsnap Hkeys). reflexivity.
Qed.

(** On a store of valid records [getPrompts()] changes nothing and returns
    a copy of the store. *)
Lemma getPrompts_valid (s : state) :
  valid_store (stored s) ->
  exists current,
    getPrompts VUndefined s = (Ok (VObj current), s) /\
    NoDup (keys current) /\
    (forall k, JS.lookup k current = JS.lookup k (stored s)) /\
    length current = length (stored s).
Proof.
  intros (Hnd & Hvalid & Hproto).
  unfold getPrompts, try_catch, bind, get_state, stored in *.
  simpl. destruct (prompts s) as [store|] eqn:Hs.
  - assert (Hsnap : Forall (fun kv => is_valid (snd kv) = true) (JS.literal store)).
    { apply Forall_forall. intros [k r] Hin.
      apply (In_literal k r store Hnd) in Hin.
      rewrite Forall_forall in Hvalid. apply (Hvalid (k, r) Hin). }
    assert (Hkeys : ~ In "__proto__" (keys (JS.literal store))).
    { intros Hin. apply Hproto, (keys_literal _ _ Hnd Hin). }
    unfold JS.spread. simpl. fold (JS.literal store).
    rewrite (foldM_visitPrompt_valid _ [] s Hsnap Hkeys). simpl.
    exists (JS.assign [] (JS.literal store)). fold (JS.literal (JS.literal store)).
    split; [reflexivity|]. split; [apply NoDup_literal|]. split.
    + intros k. rewrite !lookup_literal; [reflexivity|exact Hnd|apply NoDup_literal].
    + rewrite !length_literal; [reflexivity|exact Hnd|apply NoDup_literal].
  - exists []. simpl. repeat split; constructor.
Qed.

(** [createPromptData] only reads the clock and the random source. *)
Lemma createPromptData_frame (promptData : value) (s s1 : state) (r : outcome value) :
  createPromptData promptData s = (r, s1) ->
  prompts s1 = prompts s /\ max_prompts s1 = max_prompts s /\
  completion_preset s1 = completion_preset s.
Proof.
  unfold createPromptData, now_iso, or_generated, generatePromptId, bind, lift,
    next_tick, ret.
  simpl. destruct (get promptData "id") as [id0|m]; simpl.
  - destruct (JS.truthy id0); simpl; intros [= <- <-]; simpl; auto.
  - intros [= <- <-]; simpl; auto.
Qed.

(** [createPromptData] on data that has an id. *)
Lemma createPromptData_run (promptData : value) (id : string) (s : state) :
  JS.prop promptData "id" = VStr id -> id <> "" ->
  createPromptData promptData s =
    (Ok (completePromptData promptData (VStr id)
           (Date_toISOString (Date_now (tick s)))),
     mkState (prompts s) (max_prompts s) (completion_preset s) (S (tick s))).
Proof.
  intros Hid Hne.
  unfold createPromptData, now_iso, or_generated, bind, lift, next_tick, ret, get.
  destruct (JS.is_nullish promptData) eqn:Hn; [destruct promptData; discriminate|].
  rewrite Hid. simpl. apply String.eqb_neq in Hne. rewrite Hne. reflexivity.
Qed.

Lemma createPromptData_id (promptData complete : value) (s s1 : state) (id : string) :
  JS.prop promptData "id" = VStr id -> id <> "" ->
  createPromptData promptData s = (Ok complete, s1) ->
  JS.prop complete "id" = VStr id.
Proof.
  intros Hid Hne.
  unfold createPromptData, now_iso, or_generated, generatePromptId, bind, lift,
    next_tick, ret, get.
  simpl. destruct (JS.is_nullish promptData) eqn:Hn.
  - destruct promptData; discriminate.
  - simpl. rewrite Hid. simpl.
    apply String.eqb_neq in Hne. rewrite Hne. simpl.
    intros [= <- <-]. reflexivity.
Qed.

(** The id of the record [createPromptData] builds is the one given or a
    generated one. *)
Lemma createPromptData_id_cases (promptData complete : value) (s s1 : state)
    (id : string) :
  createPromptData promptData s = (Ok complete, s1) ->
  JS.prop complete "id" = VStr id ->
  JS.prop promptData "id" = VStr id \/ exists suffix, id = ("prompt_" ++ suffix)%string.
Proof.
  unfold createPromptData, now_iso, or_generated, generatePromptId, bind, lift,
    next_tick, ret, get.
  simpl. destruct (JS.is_nullish promptData) eqn:Hn; [discriminate|]. simpl.
  destruct (JS.truthy (JS.prop promptData "id")); simpl; intros [= <- <-] Hid.
  - left. exact Hid.
  - right. injection Hid as <-. eexists. reflexivity.
Qed.

Lemma push_if_nil (cond : bool) (msg : string) (errs : list string) :
  push_if cond msg errs = [] -> cond = false /\ errs = [].
Proof.
  unfold push_if, push. destruct cond; [|tauto].
  intros H. apply app_eq_nil in H. destruct H as [_ H]. discriminate.
Qed.

Lemma is_valid_inv (r : value) : is_valid r = true -> valid_fields r.
Proof.
  unfold is_valid, validatePromptData, get.
  destruct (JS.is_nullish r) eqn:Hn; simpl; [discriminate|].
  intros H. apply Nat.eqb_eq, length_zero_iff_nil in H.
  assert (Hmono : forall m e, validate_metadata m e = [] -> e = []).
  { intros m e. unfold validate_metadata. destruct (JS.truthy m); [|tauto].
    intros He. repeat (apply push_if_nil in He; destruct He as [_ He]). exact He. }
  pose proof (Hmono _ _ H) as H0.
  rewrite H0 in H.
  repeat match type of H0 with
         | push_if _ _ _ = [] =>
             let Hc := fresh "Hc" in
             apply push_if_nil in H0; destruct H0 as [Hc H0]
         end.
  apply orb_false_iff in Hc8. destruct Hc8 as [Ht Hs].
  apply negb_false_iff in Ht, Hs.
  apply orb_false_iff in Hc5. destruct Hc5 as [_ Hrole]. apply negb_false_iff in Hrole.
  constructor; try assumption.
  destruct (JS.prop r "id") as [| |b|n| |id|items|ps|]; try discriminate.
  exists id. split; [reflexivity|]. intros ->. discriminate.
Qed.

Lemma is_valid_truthy (r : value) : is_valid r = true -> JS.truthy r = true.
Proof.
  intros H. apply is_valid_inv in H. destruct H as [Hn [id [Hid Hne]] _].
  destruct r as [| |b|n| |s|items|ps|]; try reflexivity; try discriminate.
  destruct s; [discriminate|reflexivity].
Qed.

Lemma stored_set_prompts (s : state) (ps : props) :
  stored (mkState (Some ps) (max_prompts s) (completion_preset s) (tick s)) = ps.
Proof. reflexivity. Qed.

End StoreFacts.

(** On a store of valid records that holds at most [maxPrompts] records,
    saving a record whose id names no member of [Object.prototype] returns
    a result and leaves at most [maxPrompts] records. At the cap, a record
    with an id that is not in the store is refused and the store is left as
    it was; a valid record with an id that is in the store is saved in its
    place, at the cap as below it. *)
Lemma savePrompt_capped_own_key {host : Host} (promptData : value) (s : state) :
  valid_store (stored s) ->
  (Z.of_nat (length (stored s)) <= maxPrompts s)%Z ->
  (forall id, JS.prop promptData "id" = VStr id -> own_key id) ->
  exists result s',
    savePrompt promptData s = (Ok result, s') /\
    maxPrompts s' = maxPrompts s /\
    (Z.of_nat (length (stored s')) <= maxPrompts s')%Z /\
    (forall id,
        JS.prop promptData "id" = VStr id -> id <> "" ->
        JS.lookup id (stored s) = None ->
        Z.of_nat (length (stored s)) = maxPrompts s ->
        JS.prop result "success" = VBool false /\ prompts s' = prompts s) /\
    (forall id complete s1,
        JS.prop promptData "id" = VStr id -> id <> "" ->
        JS.lookup id (stored s) <> None ->
        createPromptData promptData s = (Ok complete, s1) ->
        is_valid complete = true ->
        JS.prop result "success" = VBool true /\
        JS.prop result "promptData" = complete /\
        stored s' = JS.replace id complete (stored s) /\
        length (stored s') = length (stored s)).
Proof.
  intros Hstore Hcap Hown.
  unfold savePrompt, try_catch, bind.
  destruct (createPromptData promptData s) as [[complete|m] s1] eqn:Hc.
  2:{ destruct (createPromptData_frame _ _ _ _ Hc) as (Hp & Hm & _).
      eexists _, _. split; [reflexivity|].
      assert (Hst : stored s1 = stored s) by (unfold stored; rewrite Hp; reflexivity).
      unfold maxPrompts. rewrite Hst, Hm.
      refine (conj eq_refl (conj Hcap (conj _ _))).
      - intros. split; [reflexivity|exact Hp].
      - intros; discriminate. }
  destruct (createPromptData_frame _ _ _ _ Hc) as (Hp & Hm & _).
  assert (Hst : stored s1 = stored s) by (unfold stored; rewrite Hp; reflexivity).
  assert (Hmax : maxPrompts s1 = maxPrompts s) by (unfold maxPrompts; rewrite Hm; reflexivity).
  unfold lift.
  destruct (validatePromptData complete) as [validation|m] eqn:Hv.
  2:{ eexists _, _. split; [reflexivity|]. rewrite Hst, Hmax.
      refine (conj eq_refl (conj Hcap (conj _ _))).
      - intros. split; [reflexivity|exact Hp].
      - intros id c s2 _ _ _ [= <- <-] Hvalid.
        unfold is_valid in Hvalid. rewrite Hv in Hvalid. discriminate. }
  destruct (isValid validation) eqn:Hvalid; simpl.
  2:{ unfold throw. eexists _, _. split; [reflexivity|]. rewrite Hst, Hmax.
      refine (conj eq_refl (conj Hcap (conj _ _))).
      - intros. split; [reflexivity|exact Hp].
      - intros id c s2 _ _ _ [= <- <-] Hvalid'.
        unfold is_valid in Hvalid'. rewrite Hv in Hvalid'. congruence. }
  assert (Hstore1 : valid_store (stored s1)) by (rewrite Hst; exact Hstore).
  destruct (getPrompts_valid s1 Hstore1) as (current & Hget & Hnd & Hlook & Hlen).
  rewrite Hget. unfold get_state.
  assert (Hcv : is_valid complete = true) by (unfold is_valid; rewrite Hv; exact Hvalid).
  destruct (is_valid_inv _ Hcv) as [_ [cid [Hcid Hcne]] _ _ _ _ _ _ _ _ _ _].
  assert (Hkey : own_key cid).
  { destruct (createPromptData_id_cases _ _ _ _ _ Hc Hcid) as [Hgiven|[suffix ->]].
    - apply Hown, Hgiven.
    - apply generated_own_key. }
  rewrite Hcid.
  change (JS.to_string (VStr cid)) with cid.
  rewrite (prop_own_key cid current Hkey).
  change (JS.own_props (VObj current)) with current.
  rewrite Hlen, Hst, Hmax.
  assert (Hprop : JS.truthy match JS.lookup cid current with
                            | Some x => x
                            | None => VUndefined
                            end = JS.has cid (stored s)).
  { rewrite Hlook, Hst. unfold JS.has.
    destruct (JS.lookup cid (stored s)) as [old|] eqn:Hold; [|reflexivity].
    apply lookup_Some_In in Hold. destruct Hstore as (_ & Hall & _).
    rewrite Forall_forall in Hall. apply is_valid_truthy, (Hall (cid, old) Hold). }
  rewrite Hprop.
  destruct ((maxPrompts s <=? Z.of_nat (length (stored s)))%Z &&
            negb (JS.has cid (stored s))) eqn:Hfull.
  - (* the limit is reached and the id is new *)
    unfold throw. eexists _, _. split; [reflexivity|]. rewrite Hst, Hmax.
    refine (conj eq_refl (conj Hcap (conj _ _))).
    { intros. split; [reflexivity|exact Hp]. }
    apply andb_true_iff in Hfull. destruct Hfull as [_ Hnew].
    apply negb_true_iff in Hnew.
    intros id c s2 Hid Hne Hin [= <- <-] _.
    rewrite (createPromptData_id _ _ _ _ _ Hid Hne Hc) in Hcid.
    injection Hcid as <-. unfold JS.has in Hnew.
    destruct (JS.lookup id (stored s)); [discriminate|congruence].
  - (* the record is written *)
    unfold store_set, bind, get_state, set_prompts, ret. simpl.
    rewrite (put_set cid complete _ (own_key_assignable cid Hkey)).
    eexists _, _. split; [reflexivity|].
    fold (stored s1). rewrite (stored_set_prompts s1), Hst.
    destruct Hstore as (Hnds & Hall & _).
    split; [unfold maxPrompts; simpl; rewrite Hm; reflexivity|].
    split.
    { unfold maxPrompts at 1. simpl. rewrite Hm. fold (maxPrompts s).
      rewrite (length_set _ _ _ Hnds).
      apply andb_false_iff in Hfull.
      destruct (JS.has cid (stored s)); [exact Hcap|].
      destruct Hfull as [Hlt|Hf]; [|discriminate].
      apply Z.leb_gt in Hlt. lia. }
    split.
    { intros id Hid Hne Hnone Heq.
      rewrite (createPromptData_id _ _ _ _ _ Hid Hne Hc) in Hcid.
      injection Hcid as <-. unfold JS.has in Hfull. rewrite Hnone, Heq in Hfull.
      rewrite Z.leb_refl in Hfull. discriminate. }
    intros id c s2 Hid Hne Hin [= <- <-] _.
    rewrite (createPromptData_id _ _ _ _ _ Hid Hne Hc) in Hcid.
    injection Hcid as <-.
    assert (Hhas : JS.has id (stored s) = true).
    { unfold JS.has. destruct (JS.lookup id (stored s)); congruence. }
    refine (conj eq_refl (conj eq_refl (conj _ _))).
    + unfold JS.set. rewrite Hhas. reflexivity.
    + rewrite (length_set _ _ _ Hnds), Hhas. reflexivity.
Qed.

Lemma Sample_full_valid : valid_store (host := UTC.host) (stored Sample.full).
Proof.
  refine (conj _ (conj _ _)).
  - repeat constructor; simpl; intuition discriminate.
  - repeat constructor.
  - simpl. intuition discriminate.
Qed.

(** The lemma at a store of two records with [max_prompts = 2], saving an
    edit of the first record: the edit takes the place of the record. *)
Lemma savePrompt_capped_edit :
  exists result s',
    savePrompt (host := UTC.host) Sample.edited Sample.full = (Ok result, s') /\
    JS.prop result "success" = VBool true /\
    length (stored s') = 2%nat /\
    JS.prop (JS.prop (VObj (stored s')) "p1") "content" = VStr "Say hello, briefly".
Proof.
  destruct (savePrompt_capped_own_key (host := UTC.host) Sample.edited Sample.full)
    as (result & s' & Hrun & _ & _ & _ & Hedit).
  - exact Sample_full_valid.
  - vm_compute. discriminate.
  - intros id [= <-]. reflexivity.
  - exists result, s'. split; [exact Hrun|].
    destruct (Hedit "p1" _ _ eq_refl ltac:(discriminate) ltac:(discriminate) eq_refl
                eq_refl) as (Hok & _ & Hstored & Hlen).
    rewrite Hlen, Hstored. split; [exact Hok|]. split; reflexivity.
Qed.

(** C10: the limit test of [savePrompt] reads [currentPrompts[id]], which
    for an id such as [constructor] is the member every object inherits.
    With the store at its cap of two records, saving a record under the new
    id [constructor] succeeds and leaves three records in the store. *)
Theorem savePrompt_inherited_id_exceeds_cap :
  Z.of_nat (length (stored Sample.full)) = maxPrompts Sample.full /\
  JS.lookup "constructor" (stored Sample.full) = None /\
  exists result s',
    savePrompt (host := UTC.host) Sample.inheritedId Sample.full = (Ok result, s') /\
    JS.prop result "success" = VBool true /\
    maxPrompts s' = 2%Z /\
    keys (stored s') = ["p1"; "p2"; "constructor"].
Proof.
  split; [reflexivity|]. split; [reflexivity|].
  eexists _, _. split; [vm_compute; reflexivity|].
  repeat split.
Qed.

(** ** Results of the data operations *)

Section Results.

Context {host : Host}.

Lemma returns_ret {A} (P : A -> Prop) (a : A) : P a -> returns P (ret a).
Proof. intros H s a' s' [= <- _]. exact H. Qed.

Lemma returns_throw {A} (P : A -> Prop) (m : string) : returns P (throw m).
Proof. intros s a s' H. discriminate. Qed.

Lemma returns_bind {A B} (P : B -> Prop) (x : M A) (f : A -> M B) :
  (forall a, returns P (f a)) -> returns P (bind x f).
Proof.
  intros Hf s b s'. unfold bind.
  destruct (x s) as [[a|m] s1]; [apply Hf|discriminate].
Qed.

Lemma returns_try_catch {A} (P : A -> Prop) (body : M A) (handler : string -> M A) :
  returns P body -> (forall m, returns P (handler m)) ->
  returns P (try_catch body handler).
Proof.
  intros Hb Hh s a s'. unfold try_catch.
  destruct (body s) as [[a'|m] s1] eqn:E.
  - intros [= <- <-]. apply (Hb _ _ _ E).
  - apply Hh.
Qed.

Lemma total_ret {A} (P : A -> Prop) (a : A) : P a -> total P (ret a).
Proof. intros H s. exists a, s. split; [reflexivity|exact H]. Qed.

Lemma total_try_catch {A} (P : A -> Prop) (body : M A) (handler : string -> M A) :
  returns P body -> (forall m, total P (handler m)) ->
  total P (try_catch body handler).
Proof.
  intros Hb Hh s. unfold try_catch.
  destruct (body s) as [[a|m] s1] eqn:E.
  - exists a, s1. split; [reflexivity|apply (Hb _ _ _ E)].
  - apply Hh.
Qed.

End Results.

(** Splits the goal [returns P m] along the code of [m]. *)
Ltac returns_step :=
  first
    [ apply returns_ret
    | apply returns_throw
    | apply returns_bind; intros
    | match goal with
      | |- returns _ (if ?c then _ else _) => destruct c
      | |- returns _ (match ?x with _ => _ end) => destruct x
      | |- returns _ (let _ := _ in _) => cbv zeta
      end ].

Ltac shape :=
  repeat first [ split | eexists; reflexivity | reflexivity | discriminate
               | intros _ | left; reflexivity | right; split; reflexivity ].

(** C9, as the code has it: each data operation returns, from every state
    and on every input, an object with a boolean [success] and a string
    [message]. A failed [savePrompt], [deletePrompt], [exportPrompts] or
    [updatePromptMetadata] also carries a string [error]; a failed
    [importPrompts] carries a string [error] or, when the import ran to its
    end, none and the number of [errors]. *)
Theorem data_operations_return {host : Host} :
  (forall promptData,
      total (fun r => result_shape r /\ failure_has_error r) (savePrompt promptData)) /\
  (forall promptId,
      total (fun r => result_shape r /\ failure_has_error r) (deletePrompt promptId)) /\
  total (fun r => result_shape r /\ failure_has_error r) exportPrompts /\
  (forall promptId metadata,
      total (fun r => result_shape r /\ failure_has_error r)
        (updatePromptMetadata promptId metadata)) /\
  (forall importData options,
      total (fun r => result_shape r /\ import_failure_shape r)
        (importPrompts importData options)).
Proof.
  unfold result_shape, failure_has_error, import_failure_shape.
  repeat apply conj; intros.
  - unfold savePrompt. apply total_try_catch.
    + repeat returns_step. simpl. shape.
    + intros m. apply total_ret. simpl. shape.
  - unfold deletePrompt. apply total_try_catch.
    + repeat returns_step; simpl; shape.
    + intros m. apply total_ret. simpl. shape.
  - unfold exportPrompts. apply total_try_catch.
    + repeat returns_step; simpl; shape.
    + intros m. apply total_ret. simpl. shape.
  - unfold updatePromptMetadata. apply total_try_catch.
    + repeat returns_step; simpl; shape.
    + intros m. apply total_ret. simpl. shape.
  - unfold importPrompts. apply total_try_catch.
    + repeat returns_step; simpl; shape.
    + intros m. apply total_ret. simpl. shape.
Qed.

(** Exporting an empty library and importing the export fails, and the
    failure carries no [error]. *)
Lemma importPrompts_failure_without_error :
  exists r s',
    (let* exported := exportPrompts (host := UTC.host) in
     importPrompts (host := UTC.host) (JS.prop exported "data") VUndefined)
      (mkState (Some []) None VNull 0) = (Ok r, s') /\
    result_shape r /\ ~ failure_has_error r.
Proof.
  eexists _, _. split; [vm_compute; reflexivity|].
  split; [split; [eexists|]; reflexivity|].
  intros H. specialize (H eq_refl). discriminate.
Qed.

(** ** Repairing a valid record *)

Section RepairFacts.

Context {host : Host}.

Lemma blank_or (v default : value) : blank v = false -> JS.or v default = v.
Proof.
  unfold blank, JS.or. destruct (JS.truthy v); [reflexivity|discriminate].
Qed.

Lemma or_idempotent (v default : value) :
  JS.or (JS.or v default) default = JS.or v default.
Proof.
  unfold JS.or. destruct (JS.truthy v) eqn:E; [rewrite E; reflexivity|].
  destruct (JS.truthy default); reflexivity.
Qed.

Lemma keep_if_again (is_type : value -> bool) (v default : value) :
  keep_if is_type (keep_if is_type v default) default = keep_if is_type v default.
Proof.
  unfold keep_if. destruct (is_type v) eqn:E; [rewrite E; reflexivity|].
  destruct (is_type default); reflexivity.
Qed.


Lemma wrong_type_keep_if (is_type : value -> bool) (v default : value) :
  is_type default = true -> JS.is_undefined default = false ->
  wrong_type is_type (keep_if is_type v default) = false.
Proof.
  unfold wrong_type, keep_if. intros Hd Hu.
  destruct (is_type v) eqn:E; [rewrite E|rewrite Hd]; apply andb_false_r.
Qed.

Lemma keep_if_defined (is_type : value -> bool) (v default : value) :
  wrong_type is_type v = false -> v <> VUndefined -> keep_if is_type v default = v.
Proof.
  unfold wrong_type, keep_if. intros H Hv.
  destruct (is_type v); [reflexivity|].
  destruct v; try discriminate. contradiction.
Qed.

(** What [validatePromptData] checks in the metadata. *)
Lemma validate_metadata_inv (m : value) :
  validate_metadata m [] = [] ->
  (JS.truthy (JS.opt_prop m "created_at") = true ->
   isValidISODate (JS.opt_prop m "created_at") = true) /\
  (JS.truthy (JS.opt_prop m "last_used") = true ->
   isValidISODate (JS.opt_prop m "last_used") = true) /\
  wrong_type JS.is_boolean (JS.opt_prop m "favorite") = false /\
  wrong_type JS.is_number (JS.opt_prop m "usage_count") = false /\
  match JS.opt_prop m "usage_count" with VNum n => (0 <= n)%Z | _ => True end /\
  match JS.opt_prop m "tags" with
  | VArr items => forallb JS.is_string items = true
  | _ => True
  end /\
  match JS.opt_prop m "source_preset" with
  | VUndefined | VNull | VStr _ => True
  | _ => False
  end.
Proof.
  unfold validate_metadata.
  destruct (JS.truthy m) eqn:Ht.
  - assert (Ho : forall k, JS.opt_prop m k = JS.prop m k).
    { intros k. unfold JS.opt_prop. destruct m; try reflexivity; discriminate. }
    rewrite !Ho. intros H.
    repeat match type of H with
           | push_if _ _ _ = [] =>
               let Hc := fresh "Hc" in
               apply push_if_nil in H; destruct H as [Hc H]
           end.
    repeat apply conj.
    + intros Hc'. rewrite Hc' in Hc4. simpl in Hc4. apply negb_false_iff in Hc4. exact Hc4.
    + intros Hc'. rewrite Hc' in Hc3. simpl in Hc3. apply negb_false_iff in Hc3. exact Hc3.
    + exact Hc2.
    + unfold wrong_type. destruct (JS.prop m "usage_count"); try reflexivity; discriminate.
    + destruct (JS.prop m "usage_count") as [| |b|n| |x|items|ps|]; try exact I.
      simpl in Hc1. apply Z.ltb_ge in Hc1. exact Hc1.
    + destruct (JS.prop m "tags") as [| |b|n| |x|items|ps|]; try exact I.
      simpl in Hc0. apply negb_false_iff in Hc0. exact Hc0.
    + destruct (JS.prop m "source_preset") as [| |b|n| |x|items|ps|];
        try exact I; discriminate.
  - intros _.
    destruct m as [| |b|n| |x|items|ps|]; try discriminate;
      try (destruct x; [|discriminate]); simpl; repeat split; discriminate.
Qed.

(** A record of the layout [repairPromptData] writes is valid when each of
    its fields is. *)
Lemma built_record_valid (id name content role sp mk ip idp io fo : value)
    (created last fav usage tags src : value) :
  JS.truthy id = true -> JS.is_string id = true ->
  blank name = false -> blank content = false -> JS.is_role role = true ->
  wrong_type JS.is_boolean sp = false -> wrong_type JS.is_boolean mk = false ->
  wrong_type JS.is_number ip = false -> wrong_type JS.is_number idp = false ->
  wrong_type JS.is_number io = false -> wrong_type JS.is_boolean fo = false ->
  (JS.truthy created = true -> isValidISODate created = true) ->
  (JS.truthy last = true -> isValidISODate last = true) ->
  wrong_type JS.is_boolean fav = false ->
  wrong_type JS.is_number usage = false ->
  match usage with VNum n => (0 <= n)%Z | _ => True end ->
  match tags with
  | VArr items => forallb JS.is_string items = true
  | _ => JS.truthy tags = false
  end ->
  match src with VUndefined | VNull | VStr _ => True | _ => False end ->
  is_valid (VObj [
    ("id", id); ("name", name); ("content", content); ("role", role);
    ("system_prompt", sp); ("marker", mk); ("injection_position", ip);
    ("injection_depth", idp); ("injection_order", io); ("forbid_overrides", fo);
    ("metadata", VObj [
       ("created_at", created); ("last_used", last); ("favorite", fav);
       ("usage_count", usage); ("tags", tags); ("source_preset", src)])]) = true.
Proof.
  intros Hid Hids Hname Hcontent Hrole Hsp Hmk Hip Hidp Hio Hfo Hc Hl Hf Hu Hu' Ht Hs.
  unfold is_valid, validatePromptData, get. simpl.
  rewrite Hid, Hids, Hname, Hcontent, Hrole, Hsp, Hmk, Hip, Hidp, Hio, Hfo. simpl.
  assert (Hrt : JS.truthy role = true).
  { destruct role as [| |b|n| |x|items|ps|]; try discriminate.
    destruct x; [discriminate|reflexivity]. }
  rewrite Hrt. simpl. unfold validate_metadata. simpl.
  rewrite Hf.
  assert (E1 : JS.truthy created && negb (isValidISODate created) = false).
  { destruct (JS.truthy created); [rewrite Hc; reflexivity|reflexivity]. }
  assert (E2 : JS.truthy last && negb (isValidISODate last) = false).
  { destruct (JS.truthy last); [rewrite Hl; reflexivity|reflexivity]. }
  rewrite E1, E2. 
  assert (E3 : negb (JS.is_undefined usage) &&
               (negb (JS.is_number usage) ||
                match usage with VNum n => (n <? 0)%Z | _ => false end) = false).
  { destruct usage as [| |b|n| |x|items|ps|]; try reflexivity; try discriminate.
    simpl. apply Z.ltb_ge. exact Hu'. }
  rewrite E3.
  assert (E4 : JS.truthy tags &&
               (negb (JS.isArray tags) ||
                match tags with
                | VArr items => negb (forallb JS.is_string items)
                | _ => false
                end) = false).
  { destruct tags as [| |b|n| |x|items|ps|];
      first [rewrite Ht; reflexivity | simpl; rewrite Ht; reflexivity]. }
  rewrite E4.
  destruct src as [| |b|n| |x|items|ps|]; try contradiction; reflexivity.
Qed.

End RepairFacts.

Section RepairValid.

Context {host : Host}.

Lemma isValidISODate_truthy (v : value) : isValidISODate v = true -> JS.truthy v = true.
Proof.
  destruct v as [| |b|n| |x|items|ps|]; try discriminate.
  simpl. destruct (x =? ""); [discriminate|reflexivity].
Qed.

Lemma fixDateString_cases (v : value) :
  fixDateString v = VNull \/ exists d, fixDateString v = VStr d.
Proof.
  unfold fixDateString. destruct v as [| |b|n| |x|items|ps|]; try (left; reflexivity).
  destruct (x =? ""); [left; reflexivity|].
  destruct (Date_parse x); [right; eexists; reflexivity|left; reflexivity].
Qed.

(** A date that validates is one that [fixDateString] rewrites. *)
Lemma fixDateString_valid (v : value) :
  isValidISODate v = true -> exists d, fixDateString v = VStr d.
Proof.
  unfold isValidISODate, fixDateString.
  destruct v as [| |b|n| |x|items|ps|]; try discriminate.
  destruct (x =? ""); [discriminate|].
  destruct (Date_parse x); [eexists; reflexivity|discriminate].
Qed.

Lemma reserialises_fixed (v : value) :
  reserialises v ->
  JS.truthy (fixDateString v) = true -> isValidISODate (fixDateString v) = true.
Proof.
  intros Hv. destruct (fixDateString_cases v) as [->|[d Hd]]; [discriminate|].
  rewrite Hd. intros _. apply (Hv d Hd).
Qed.

(** [fixDateString] leaves what it has rewritten as it is. *)
Lemma reserialises_settled (v : value) :
  reserialises v -> fixDateString (fixDateString v) = fixDateString v.
Proof.
  intros Hv. destruct (fixDateString_cases v) as [->|[d Hd]]; [reflexivity|].
  rewrite Hd. apply (Hv d Hd).
Qed.

Lemma fixedOrNow_valid (r : value) (s : state) :
  reserialises (md r "created_at") ->
  iso_form (Date_toISOString (Date_now (tick s))) ->
  exists c s',
    fixedOrNow r s = (Ok c, s') /\
    isValidISODate c = true /\
    fixDateString c = c /\
    (isValidISODate (md r "created_at") = true -> c = fixDateString (md r "created_at")).
Proof.
  intros Hc [Hnow Hfix]. unfold fixedOrNow. fold (md r "created_at").
  destruct (JS.truthy (fixDateString (md r "created_at"))) eqn:Ht.
  - eexists _, _. split; [reflexivity|].
    refine (conj _ (conj _ (fun _ => eq_refl))).
    + apply reserialises_fixed; assumption.
    + apply reserialises_settled, Hc.
  - eexists _, _. split; [reflexivity|].
    refine (conj Hnow (conj Hfix _)).
    intros Hv. apply fixDateString_valid in Hv. destruct Hv as [d Hd].
    rewrite Hd in Ht. pose proof (proj1 (Hc d Hd)) as Hd'.
    apply isValidISODate_truthy in Hd'. congruence.
Qed.

(** Repairing what [repairPromptData] has built changes nothing. *)
Lemma repaired_again (r : value) (id : string) (c : value) :
  JS.is_role (JS.prop r "role") = true ->
  fixDateString (fixDateString (md r "last_used")) = fixDateString (md r "last_used") ->
  repaired (repaired r (VStr id) c) (VStr id) c = repaired r (VStr id) c.
Proof.
  intros Hrole Hlast. unfold repaired at 1.
  cbn -[JS.or keep_if fixDateString JS.is_role md].
  unfold repaired.
  cbn -[JS.or keep_if fixDateString JS.is_role md].
  fold (md r "last_used") (md r "favorite") (md r "usage_count") (md r "tags")
       (md r "source_preset").
  rewrite Hrole, Hrole, Hlast, !or_idempotent, !keep_if_again. reflexivity.
Qed.

Lemma repairPromptData_again (r : value) (id : string) (c : value) (s : state) :
  id <> "" ->
  JS.is_role (JS.prop r "role") = true ->
  fixDateString (fixDateString (md r "last_used")) = fixDateString (md r "last_used") ->
  JS.truthy c = true -> fixDateString c = c ->
  is_valid (repaired r (VStr id) c) = true ->
  repairPromptData (repaired r (VStr id) c) s = (Ok (repaired r (VStr id) c), s).
Proof.
  intros Hid Hrole Hlast Hct Hcf Hv.
  unfold repairPromptData, try_catch, bind, lift, get, or_generated, fixedOrNow.
  change (JS.is_nullish (repaired r (VStr id) c)) with false.
  change (JS.prop (repaired r (VStr id) c) "id") with (VStr id).
  change (JS.opt_prop (JS.prop (repaired r (VStr id) c) "metadata") "created_at")
    with c.
  cbn -[validatePromptData repaired fixDateString].
  apply String.eqb_neq in Hid. rewrite Hid.
  cbn -[validatePromptData repaired fixDateString].
  rewrite Hcf, Hct. cbn -[validatePromptData repaired].
  rewrite (repaired_again r id c Hrole Hlast).
  unfold is_valid in Hv.
  destruct (validatePromptData (repaired r (VStr id) c)) as [v|m]; [|discriminate].
  rewrite Hv. reflexivity.
Qed.

Lemma keep_if_defaulted (is_type : value -> bool) (v default : value) :
  is_type VUndefined = false ->
  wrong_type is_type v = false -> keep_if is_type v default = defaulted v default.
Proof.
  unfold wrong_type, keep_if, defaulted. intros Hu H.
  destruct v; simpl in *; try (rewrite Hu; reflexivity);
    match goal with
    | |- (if ?b then _ else _) = _ =>
        destruct b; [reflexivity|simpl in H; discriminate]
    end.
Qed.

Lemma fixDateString_falsy (v : value) :
  JS.truthy v = false -> fixDateString v = VNull.
Proof.
  destruct v as [| |b|n| |x|items|ps|]; try reflexivity.
  simpl. destruct (x =? ""); [reflexivity|discriminate].
Qed.

(** The creation date that [repairPromptData] settles on. *)
Lemma fixedOrNow_value (r : value) (s : state) (c : value) (s' : state) :
  (JS.truthy (md r "created_at") = true -> isValidISODate (md r "created_at") = true) ->
  reserialises (md r "created_at") ->
  fixedOrNow r s = (Ok c, s') ->
  c = if JS.truthy (md r "created_at") then fixDateString (md r "created_at")
      else VStr (Date_toISOString (Date_now (tick s))).
Proof.
  intros Mc Hc. unfold fixedOrNow. fold (md r "created_at").
  destruct (JS.truthy (md r "created_at")) eqn:Ht.
  - destruct (fixDateString_valid _ (Mc eq_refl)) as [d Hd]. rewrite Hd.
    rewrite (isValidISODate_truthy _ (proj1 (Hc d Hd))).
    unfold ret. intros H. injection H as <- _. reflexivity.
  - rewrite (fixDateString_falsy _ Ht). simpl.
    unfold now_iso, bind, next_tick, ret. intros H. injection H as <- _.
    reflexivity.
Qed.

End RepairValid.

(** C3, as the code has it: on a record that [validatePromptData] reports
    valid, and on a host whose [Date] is coherent on the record's dates and
    on the clock, [repairPromptData] returns a valid record that keeps what
    its input defines, has the default of every field the input lacks and
    no field outside the data model (it is [data_model_record] of the
    input), and that it returns unchanged when repairing it again. *)
Theorem repairPromptData_valid {host : Host} (r : value) (s : state) :
  is_valid r = true ->
  reserialises (md r "created_at") ->
  reserialises (md r "last_used") ->
  iso_form (Date_toISOString (Date_now (tick s))) ->
  exists r' s',
    repairPromptData r s = (Ok r', s') /\
    is_valid r' = true /\
    same_prompt r r' /\
    r' = data_model_record r (Date_toISOString (Date_now (tick s))) /\
    (forall s2, repairPromptData r' s2 = (Ok r', s2)).
Proof.
  intros Hv Hc Hl Hnow.
  destruct (is_valid_inv r Hv)
    as [Hn [id [Hid Hne]] Hname Hcontent Hrole Hsp Hmk Hip Hidp Hio Hfo Hmd].
  destruct (validate_metadata_inv _ Hmd) as (Mc & Ml & Mf & Mu & Mu' & Mt & Ms).
  fold (md r "source_preset") in Ms.
  fold (md r "created_at") in Mc. fold (md r "last_used") in Ml.
  fold (md r "favorite") in Mf. fold (md r "usage_count") in Mu, Mu'.
  fold (md r "tags") in Mt.
  pose proof Hne as Hne'. apply String.eqb_neq in Hne.
  unfold repairPromptData, try_catch, bind, lift, get, or_generated.
  rewrite Hn, Hid. cbn -[validatePromptData repaired fixedOrNow]. rewrite Hne.
  cbn -[validatePromptData repaired fixedOrNow].
  destruct (fixedOrNow_valid r s Hc Hnow) as (c & s' & Hrun & Hcv & Hcs & Hcf).
  rewrite Hrun.
  assert (Hlv : JS.truthy (fixDateString (md r "last_used")) = true ->
                isValidISODate (fixDateString (md r "last_used")) = true)
    by (apply reserialises_fixed, Hl).
  assert (Hr : is_valid (repaired r (VStr id) c) = true).
  { unfold repaired.
    fold (md r "last_used") (md r "favorite") (md r "usage_count") (md r "tags")
         (md r "source_preset").
    rewrite Hrole, (blank_or _ _ Hname), (blank_or _ _ Hcontent).
    apply built_record_valid; try assumption; try reflexivity;
      try (apply wrong_type_keep_if; reflexivity).
    - simpl. rewrite Hne. reflexivity.
    - intros _. exact Hcv.
    - unfold keep_if. destruct (md r "usage_count"); simpl; try exact I; try lia.
    - unfold keep_if. destruct (md r "tags"); simpl; try reflexivity; exact Mt.
    - unfold JS.or. destruct (md r "source_preset") as [| |b|n| |x|items|ps|];
        simpl; try exact I; try contradiction.
      destruct (negb (x =? "")); exact I. }
  pose proof Hr as Hr'. unfold is_valid in Hr'.
  destruct (validatePromptData (repaired r (VStr id) c)) as [v|m] eqn:Hval;
    [|discriminate].
  rewrite Hr'. exists (repaired r (VStr id) c), s'.
  split; [reflexivity|]. split; [exact Hr|].
  split; [|split].
  3:{ intros s2. apply repairPromptData_again; try assumption.
      - apply reserialises_settled, Hl.
      - apply isValidISODate_truthy, Hcv. }
  2:{ unfold repaired, data_model_record.
      fold (md r "last_used") (md r "favorite") (md r "usage_count") (md r "tags")
           (md r "source_preset").
      rewrite Hid, Hrole, (blank_or _ _ Hname), (blank_or _ _ Hcontent).
      rewrite (keep_if_defaulted _ _ _ eq_refl Hsp),
        (keep_if_defaulted _ _ _ eq_refl Hmk),
        (keep_if_defaulted _ _ _ eq_refl Hip),
        (keep_if_defaulted _ _ _ eq_refl Hidp),
        (keep_if_defaulted _ _ _ eq_refl Hio),
        (keep_if_defaulted _ _ _ eq_refl Hfo),
        (keep_if_defaulted _ _ _ eq_refl Mf),
        (keep_if_defaulted _ _ _ eq_refl Mu).
      rewrite (fixedOrNow_value r s c s' Mc Hc Hrun).
      unfold keep_if, JS.or.
      destruct (JS.truthy (md r "last_used")) eqn:Ht;
        [|rewrite (fixDateString_falsy _ Ht)]; reflexivity. }
  unfold same_prompt, md, repaired. simpl.
  fold (md r "created_at") (md r "last_used") (md r "favorite")
       (md r "usage_count") (md r "tags") (md r "source_preset").
  rewrite Hrole, (blank_or _ _ Hname), (blank_or _ _ Hcontent).
  repeat apply conj.
  - intros k [<-|[<-|[<-|[<-|[]]]]]; simpl; congruence.
  - intros k [<-|[<-|[<-|[<-|[<-|[<-|[]]]]]]] Hk; simpl;
      apply keep_if_defined; assumption.
  - intros k [<-|[<-|[]]] Hk; simpl; apply keep_if_defined; assumption.
  - intros Ht. unfold keep_if. rewrite Ht. reflexivity.
  - intros Ht. unfold JS.or. rewrite Ht. reflexivity.
  - intros k [<-|[<-|[]]] Hk; simpl; [|reflexivity].
    apply Hcf, Mc, Hk.
Qed.

Lemma Sample_greeting_reserialises :
  reserialises (host := UTC.host) (md Sample.greeting "created_at") /\
  reserialises (host := UTC.host) (md Sample.greeting "last_used") /\
  iso_form (host := UTC.host)
    (UTC.toISOString (1705314600000 + Z.of_nat (tick Sample.full))).
Proof.
  refine (conj _ (conj _ _)).
  - intros d H. vm_compute in H. injection H as <-. split; vm_compute; reflexivity.
  - intros d H. vm_compute in H. injection H as <-. split; vm_compute; reflexivity.
  - split; vm_compute; reflexivity.
Qed.

(** The theorem at the sample record [greeting], from the state [full]. *)
Lemma repairPromptData_valid_witness :
  is_valid (host := UTC.host) Sample.greeting = true /\
  reserialises (host := UTC.host) (md Sample.greeting "created_at") /\
  reserialises (host := UTC.host) (md Sample.greeting "last_used") /\
  iso_form (host := UTC.host)
    (UTC.toISOString (1705314600000 + Z.of_nat (tick Sample.full))) /\
  exists r' s',
    repairPromptData (host := UTC.host) Sample.greeting Sample.full = (Ok r', s') /\
    is_valid (host := UTC.host) r' = true /\
    same_prompt (host := UTC.host) Sample.greeting r' /\
    r' = data_model_record (host := UTC.host) Sample.greeting
           (UTC.toISOString (1705314600000 + Z.of_nat (tick Sample.full))) /\
    (forall s2, repairPromptData (host := UTC.host) r' s2 = (Ok r', s2)).
Proof.
  destruct Sample_greeting_reserialises as (Hc & Hl & Hnow).
  split; [vm_compute; reflexivity|].
  split; [exact Hc|]. split; [exact Hl|]. split; [exact Hnow|].
  apply (repairPromptData_valid (host := UTC.host) Sample.greeting Sample.full).
  - vm_compute. reflexivity.
  - exact Hc.
  - exact Hl.
  - exact Hnow.
Defined.

(** A valid record with the required fields only comes back with the
    default of every other field. *)
Lemma repairPromptData_fills_defaults :
  is_valid (host := UTC.host) Sample.minimal = true /\
  repairPromptData (host := UTC.host) Sample.minimal Sample.full =
    (Ok (VObj [
           ("id", VStr "q1");
           ("name", VStr "Minimal");
           ("content", VStr "Continue the story");
           ("role", VStr "user");
           ("system_prompt", VBool false);
           ("marker", VBool false);
           ("injection_position", VNum 0);
           ("injection_depth", VNum 4);
           ("injection_order", VNum 100);
           ("forbid_overrides", VBool false);
           ("metadata", VObj [
              ("created_at", VStr "2024-01-15T10:30:00.000Z");
              ("last_used", VNull);
              ("favorite", VBool false);
              ("usage_count", VNum 0);
              ("tags", VArr []);
              ("source_preset", VNull)])]),
     mkState (prompts Sample.full) (max_prompts Sample.full)
             (completion_preset Sample.full) 1).
Proof. split; vm_compute; reflexivity. Qed.

(** A valid record that an import stored loses [imported_at] and
    [import_source] when repaired. *)
Lemma repairPromptData_drops_import_metadata :
  is_valid (host := UTC.host) Sample.imported_record = true /\
  exists r' s',
    repairPromptData (host := UTC.host) Sample.imported_record Sample.full = (Ok r', s') /\
    md Sample.imported_record "import_source" = VStr "2024-01-13T18:30:00.000Z" /\
    md r' "import_source" = VUndefined /\
    md r' "imported_at" = VUndefined /\
    r' <> Sample.imported_record.
Proof.
  split; [vm_compute; reflexivity|].
  eexists _, _. split; [vm_compute; reflexivity|].
  repeat (split; [reflexivity|]). discriminate.
Qed.

(** ** Sorting *)

Section SortFacts.

Context {A : Type} (compare : A -> A -> outcome Z).

Lemma oinsert_Permutation (x : A) (l out : list A) :
  oinsert compare x l = Ok out -> Permutation (x :: l) out.
Proof.
  revert out. induction l as [|y l IH]; simpl; intros out H.
  - injection H as <-. apply Permutation_refl.
  - destruct (compare x y) as [c|m]; simpl in H; [|discriminate].
    destruct (c <=? 0)%Z.
    + injection H as <-. apply Permutation_refl.
    + destruct (oinsert compare x l) as [rest|m]; simpl in H; [|discriminate].
      injection H as <-.
      eapply Permutation_trans; [apply perm_swap|].
      apply perm_skip, IH. reflexivity.
Qed.

Lemma osort_Permutation (l out : list A) :
  osort compare l = Ok out -> Permutation l out.
Proof.
  revert out. induction l as [|x l IH]; simpl; intros out H.
  - injection H as <-. apply Permutation_refl.
  - destruct (osort compare l) as [sorted|m]; simpl in H; [|discriminate].
    eapply Permutation_trans; [apply perm_skip, IH; reflexivity|].
    apply oinsert_Permutation, H.
Qed.

(** A comparison that returns on the elements to sort makes [sort]
    return. *)
Lemma oinsert_returns (P : A -> Prop) :
  (forall a b, P a -> P b -> exists c, compare a b = Ok c) ->
  forall x l, P x -> Forall P l -> exists out, oinsert compare x l = Ok out.
Proof.
  intros Hc x l Hx Hl. induction Hl as [|y l Hy Hl IH]; simpl.
  - eexists. reflexivity.
  - destruct (Hc x y Hx Hy) as [c ->]. simpl.
    destruct (c <=? 0)%Z; [eexists; reflexivity|].
    destruct IH as [rest ->]. simpl. eexists. reflexivity.
Qed.

Lemma osort_returns (P : A -> Prop) :
  (forall a b, P a -> P b -> exists c, compare a b = Ok c) ->
  forall l, Forall P l -> exists out, osort compare l = Ok out.
Proof.
  intros Hc l Hl. induction Hl as [|x l Hx Hl [sorted Hs]]; simpl.
  - eexists. reflexivity.
  - rewrite Hs. simpl. apply (oinsert_returns P Hc x sorted Hx).
    apply (Permutation_Forall (osort_Permutation l sorted Hs)), Hl.
Qed.

End SortFacts.

Lemma filter_split_Permutation {A} (f : A -> bool) (l : list A) :
  Permutation l (filter (fun x => negb (f x)) l ++ filter f l).
Proof.
  induction l as [|x l IH]; simpl; [constructor|].
  destruct (f x); simpl.
  - apply Permutation_cons_app, IH.
  - apply perm_skip, IH.
Qed.

Lemma Array_sort_Permutation (compare : value -> value -> outcome Z)
    (l out : list value) :
  Array_sort compare l = Ok out -> Permutation l out.
Proof.
  unfold Array_sort. intros H.
  destruct (osort compare _) as [sorted|m] eqn:Hs; simpl in H; [|discriminate].
  injection H as <-.
  eapply Permutation_trans; [apply (filter_split_Permutation JS.is_undefined)|].
  apply Permutation_app_tail, (osort_Permutation compare), Hs.
Qed.

Lemma Array_sort_returns (compare : value -> value -> outcome Z)
    (P : value -> Prop) (l : list value) :
  (forall a b, P a -> P b -> exists c, compare a b = Ok c) ->
  Forall P l -> exists out, Array_sort compare l = Ok out.
Proof.
  intros Hc Hl. unfold Array_sort.
  destruct (osort_returns compare P Hc
              (filter (fun v => negb (JS.is_undefined v)) l)) as [sorted ->].
  - apply Forall_forall. intros x Hx. apply filter_In in Hx.
    rewrite Forall_forall in Hl. apply Hl, Hx.
  - simpl. eexists. reflexivity.
Qed.

Section UnusedLast.

Variable compare : value -> value -> outcome Z.

Lemma forallb_unused_Permutation (l l' : list value) :
  Permutation l l' -> forallb unused l = true -> forallb unused l' = true.
Proof.
  intros Hp. rewrite !forallb_forall. intros H x Hx.
  apply H. eapply Permutation_in; [apply Permutation_sym, Hp|exact Hx].
Qed.

Lemma oinsert_unused_last (pool : list value) (x : value) (l out : list value) :
  ranks_unused_last compare pool ->
  In x pool -> incl l pool ->
  unused_last l = true ->
  oinsert compare x l = Ok out ->
  unused_last out = true.
Proof.
  intros Hrank Hx. revert out.
  induction l as [|y l IH]; simpl; intros out Hincl Hl H.
  - injection H as <-. simpl. destruct (unused x); reflexivity.
  - assert (Hy : In y pool) by (apply Hincl; now left).
    assert (Hincl' : incl l pool) by (intros z Hz; apply Hincl; now right).
    apply andb_true_iff in Hl. destruct Hl as [Hhead Htail].
    destruct (compare x y) as [c|m] eqn:Hc; simpl in H; [|discriminate].
    destruct (Hrank x y c Hx Hy Hc) as [H1 H2].
    destruct (c <=? 0)%Z eqn:Hle.
    + injection H as <-. simpl. rewrite Hhead, Htail, !andb_true_r.
      destruct (unused x) eqn:Ux; [|reflexivity].
      destruct (unused y) eqn:Uy.
      * simpl. exact Hhead.
      * apply Z.leb_le in Hle. specialize (H1 eq_refl eq_refl). lia.
    + destruct (oinsert compare x l) as [rest|m] eqn:Hrest; simpl in H; [|discriminate].
      injection H as <-. simpl.
      rewrite (IH rest Hincl' Htail eq_refl), andb_true_r.
      destruct (unused y) eqn:Uy; [|reflexivity].
      destruct (unused x) eqn:Ux.
      * apply (forallb_unused_Permutation (x :: l)).
        -- apply (oinsert_Permutation compare), Hrest.
        -- simpl. rewrite Ux. exact Hhead.
      * apply Z.leb_gt in Hle. specialize (H2 eq_refl eq_refl). lia.
Qed.

Lemma osort_unused_last (pool l out : list value) :
  ranks_unused_last compare pool ->
  incl l pool ->
  osort compare l = Ok out ->
  unused_last out = true.
Proof.
  intros Hrank. revert out.
  induction l as [|x l IH]; simpl; intros out Hincl H.
  - injection H as <-. reflexivity.
  - destruct (osort compare l) as [sorted|m] eqn:Hs; simpl in H; [|discriminate].
    assert (Hincl' : incl l pool) by (intros z Hz; apply Hincl; now right).
    apply (oinsert_unused_last pool x sorted out Hrank).
    + apply Hincl. now left.
    + intros z Hz. apply Hincl'.
      eapply Permutation_in;
        [apply Permutation_sym, (osort_Permutation compare), Hs|exact Hz].
    + apply (IH sorted Hincl' eq_refl).
    + exact H.
Qed.

Lemma unused_last_app (a b : list value) :
  unused_last a = true -> forallb unused b = true -> unused_last (a ++ b) = true.
Proof.
  intros Ha Hb. induction a as [|p a IH]; simpl in *.
  - induction b as [|q b IHb]; simpl in *; [reflexivity|].
    apply andb_true_iff in Hb. destruct Hb as [Hq Hb].
    rewrite Hq, Hb. apply IHb, Hb.
  - apply andb_true_iff in Ha. destruct Ha as [Hhead Htail].
    rewrite (IH Htail), andb_true_r.
    destruct (unused p); [|reflexivity].
    rewrite forallb_app, Hhead, Hb. reflexivity.
Qed.

Lemma Array_sort_unused_last (pool l out : list value) :
  ranks_unused_last compare pool ->
  incl l pool ->
  Array_sort compare l = Ok out ->
  unused_last out = true.
Proof.
  intros Hrank Hincl. unfold Array_sort. intros H.
  destruct (osort compare _) as [sorted|m] eqn:Hs; simpl in H; [|discriminate].
  injection H as <-. apply unused_last_app.
  - apply (osort_unused_last pool
             (filter (fun v => negb (JS.is_undefined v)) l) sorted Hrank);
      [|exact Hs].
    intros x Hx. apply Hincl. apply filter_In in Hx. tauto.
  - apply forallb_forall. intros x Hx. apply filter_In in Hx.
    destruct x; try (destruct Hx; discriminate). reflexivity.
Qed.

End UnusedLast.

Lemma unused_last_split (l : list value) :
  unused_last l = true ->
  exists front back,
    l = front ++ back /\
    Forall (fun p => unused p = false) front /\
    Forall (fun p => unused p = true) back.
Proof.
  induction l as [|p l IH]; simpl; intros H.
  - exists [], []. repeat split; constructor.
  - apply andb_true_iff in H. destruct H as [Hhead Htail].
    destruct (unused p) eqn:Up.
    + exists [], (p :: l). repeat split; [constructor|].
      constructor; [exact Up|]. apply Forall_forall.
      rewrite forallb_forall in Hhead. exact Hhead.
    + destruct (IH Htail) as (front & back & -> & Hf & Hb).
      exists (p :: front), back. repeat split; [|exact Hb].
      constructor; assumption.
Qed.

Section UsageOrders.

Context {host : Host}.

Lemma usedOrEpoch_Ok (a : value) (d : option Z) :
  usedOrEpoch a = Ok d ->
  d = if unused a then Some 0%Z else Date_of (lastUsed a).
Proof.
  unfold usedOrEpoch, metadata_of, get, unused, lastUsed.
  destruct (JS.is_nullish a); simpl; [discriminate|].
  destruct (JS.is_nullish (JS.prop a "metadata")); simpl; [discriminate|].
  destruct (JS.truthy (JS.prop (JS.prop a "metadata") "last_used"));
    simpl; intros [= <-]; reflexivity.
Qed.

Lemma compareOldestUsed_ranks (pool : list value) :
  ranks_unused_last compareOldestUsed pool.
Proof.
  intros a b c _ _. unfold compareOldestUsed.
  destruct (usedOrEpoch a) as [da|m]; simpl; [|discriminate].
  destruct (usedOrEpoch b) as [db|m]; simpl; [|discriminate].
  fold (lastUsed a) (lastUsed b). fold (unused a) (unused b).
  destruct (unused a), (unused b); simpl; intros [= <-]; split; intros; 
    try discriminate; lia.
Qed.

Lemma compareLatestUsed_ranks (pool : list value) :
  Forall used_since_epoch pool ->
  ranks_unused_last compareLatestUsed pool.
Proof.
  intros Hpool a b c Ha Hb. rewrite Forall_forall in Hpool.
  pose proof (Hpool a Ha) as Ea. pose proof (Hpool b Hb) as Eb.
  unfold compareLatestUsed.
  destruct (usedOrEpoch a) as [da|m] eqn:Hda; simpl; [|discriminate].
  destruct (usedOrEpoch b) as [db|m] eqn:Hdb; simpl; [|discriminate].
  apply usedOrEpoch_Ok in Hda, Hdb. intros [= <-]. subst da db.
  split; intros Ua Ub; rewrite Ua, Ub.
  - destruct (Eb Ub) as (t & -> & Ht). simpl. lia.
  - destruct (Ea Ua) as (t & -> & Ht). simpl. lia.
Qed.

Lemma usedOrEpoch_returns (a : value) :
  usable a -> exists d, usedOrEpoch a = Ok d.
Proof.
  intros (Ha & Hm & _). unfold usedOrEpoch, metadata_of, get.
  rewrite Ha. simpl. rewrite Hm. simpl.
  destruct (JS.truthy _); eexists; reflexivity.
Qed.

Lemma compareLatestUsed_returns (a b : value) :
  usable a -> usable b -> exists c, compareLatestUsed a b = Ok c.
Proof.
  intros Ha Hb. unfold compareLatestUsed.
  destruct (usedOrEpoch_returns a Ha) as [da ->].
  destruct (usedOrEpoch_returns b Hb) as [db ->].
  simpl. eexists. reflexivity.
Qed.

Lemma compareOldestUsed_returns (a b : value) :
  usable a -> usable b -> exists c, compareOldestUsed a b = Ok c.
Proof.
  intros Ha Hb. unfold compareOldestUsed.
  destruct (usedOrEpoch_returns a Ha) as [da ->].
  destruct (usedOrEpoch_returns b Hb) as [db ->].
  simpl.
  destruct (negb (JS.truthy (JS.prop (JS.prop a "metadata") "last_used")));
    destruct (negb (JS.truthy (JS.prop (JS.prop b "metadata") "last_used")));
    simpl; eexists; reflexivity.
Qed.

(** On records that can be read, the two orders by use return the input
    in an order that has the records without [last_used] last. *)
Lemma sortedArray_unused_last (l : list value) (sortBy : value) :
  Forall usable l ->
  (sortBy = VStr "latest_used" /\ Forall used_since_epoch l) \/
  sortBy = VStr "oldest_used" ->
  exists sorted,
    sortedArray l sortBy = Ok sorted /\
    Permutation l sorted /\
    unused_last sorted = true.
Proof.
  intros Hl [[-> Hpool]| ->].
  - destruct (Array_sort_returns compareLatestUsed usable l
                compareLatestUsed_returns Hl) as [sorted Hs].
    exists sorted. split; [exact Hs|].
    split; [apply (Array_sort_Permutation _ _ _ Hs)|].
    apply (Array_sort_unused_last compareLatestUsed l l sorted);
      [apply compareLatestUsed_ranks, Hpool|apply incl_refl|exact Hs].
  - destruct (Array_sort_returns compareOldestUsed usable l
                compareOldestUsed_returns Hl) as [sorted Hs].
    exists sorted. split; [exact Hs|].
    split; [apply (Array_sort_Permutation _ _ _ Hs)|].
    apply (Array_sort_unused_last compareOldestUsed l l sorted);
      [apply compareOldestUsed_ranks|apply incl_refl|exact Hs].
Qed.

End UsageOrders.

(** *** The result object of [applySorting] *)

Lemma keyById_appends (sorted : list value) :
  Forall plain_id sorted ->
  forall acc,
    NoDup (keys acc ++ map idOf sorted) ->
    keyById acc sorted = Ok (acc ++ map (fun p => (idOf p, p)) sorted).
Proof.
  induction 1 as [|p sorted (id & Hid & Hidx & Hproto) Hrest IH]; intros acc Hnd;
    simpl.
  - rewrite app_nil_r. reflexivity.
  - assert (Hidp : idOf p = id) by (unfold idOf; rewrite Hid; reflexivity).
    simpl in Hnd. rewrite Hidp in *.
    unfold get. destruct (JS.is_nullish p) eqn:Hn; [destruct p; discriminate|].
    simpl. rewrite Hid. simpl.
    assert (Hset : JS.put id p acc = acc ++ [(id, p)]).
    { rewrite (put_set id p acc Hproto). unfold JS.set, JS.has.
      assert (Hnone : JS.lookup id acc = None).
      { apply lookup_None_keys. intros Hin.
        apply NoDup_remove_2 in Hnd. apply Hnd, in_or_app. now left. }
      rewrite Hnone, Hidx. reflexivity. }
    rewrite Hset, IH.
    + rewrite <- app_assoc. reflexivity.
    + rewrite keys_app, <- app_assoc. exact Hnd.
Qed.

(** When the records have distinct plain ids, the object that
    [applySorting] returns lists them in the order of [sortedArray]. *)
Lemma applySorting_keeps_order {host : Host} (prompts : props) (sortBy : value)
    (sorted : list value) :
  Forall plain_id (map snd prompts) ->
  NoDup (map idOf (map snd prompts)) ->
  sortedArray (map snd prompts) sortBy = Ok sorted ->
  Permutation (map snd prompts) sorted ->
  JS.prop (applySorting (VObj prompts) sortBy) "success" = VBool true /\
  JS.prop (applySorting (VObj prompts) sortBy) "sortedPrompts" =
    VObj (map (fun p => (idOf p, p)) sorted).
Proof.
  intros Hplain Hnd Hsort Hperm. unfold applySorting. simpl. rewrite Hsort. simpl.
  rewrite (keyById_appends sorted).
  - split; reflexivity.
  - apply Forall_forall. intros p Hp. rewrite Forall_forall in Hplain.
    apply Hplain. eapply Permutation_in; [apply Permutation_sym, Hperm|exact Hp].
  - simpl. eapply Permutation_NoDup; [apply Permutation_map, Hperm|exact Hnd].
Qed.

(** C4, as the code has it: the object that [applySorting] returns by
    [latest_used] and by [oldest_used] alike lists every record that lacks
    [last_used] after all the records that have one. The records have
    distinct ids that are plain strings (an id that is an array index is
    enumerated before the others whatever the sort made of it, and
    [__proto__] is no property), their [last_used], when set, is a date
    (with a value that does not parse the comparison is no order, and what
    [sort] returns is left to the engine), and under [latest_used] a date
    after the epoch. *)
Theorem applySorting_unused_last {host : Host} (prompts : props) (sortBy : value) :
  Forall plain_id (map snd prompts) ->
  NoDup (map idOf (map snd prompts)) ->
  Forall usable (map snd prompts) ->
  (sortBy = VStr "latest_used" /\ Forall used_since_epoch (map snd prompts)) \/
  sortBy = VStr "oldest_used" ->
  exists front back,
    JS.prop (applySorting (VObj prompts) sortBy) "success" = VBool true /\
    JS.prop (applySorting (VObj prompts) sortBy) "sortedPrompts" =
      VObj (map (fun p => (idOf p, p)) (front ++ back)) /\
    Permutation (map snd prompts) (front ++ back) /\
    Forall (fun p => unused p = false) front /\
    Forall (fun p => unused p = true) back.
Proof.
  intros Hplain Hnd Husable Hsort.
  destruct (sortedArray_unused_last (map snd prompts) sortBy Husable Hsort)
    as (sorted & Hs & Hperm & Hlast).
  destruct (unused_last_split sorted Hlast) as (front & back & -> & Hf & Hb).
  destruct (applySorting_keeps_order prompts sortBy (front ++ back)
              Hplain Hnd Hs Hperm) as [Hok Hout].
  exists front, back. repeat split; assumption.
Qed.

(** The theorem at the sample library, most recently used first. *)
Lemma applySorting_unused_last_witness :
  Forall plain_id (map snd (JS.own_props Sample.library)) /\
  NoDup (map idOf (map snd (JS.own_props Sample.library))) /\
  Forall (usable (host := UTC.host)) (map snd (JS.own_props Sample.library)) /\
  ((VStr "latest_used" = VStr "latest_used" /\
    Forall (used_since_epoch (host := UTC.host))
      (map snd (JS.own_props Sample.library))) \/
   VStr "latest_used" = VStr "oldest_used") /\
  exists front back,
    JS.prop (applySorting (host := UTC.host) Sample.library (VStr "latest_used"))
      "success" = VBool true /\
    JS.prop (applySorting (host := UTC.host) Sample.library (VStr "latest_used"))
      "sortedPrompts" = VObj (map (fun p => (idOf p, p)) (front ++ back)) /\
    Permutation (map snd (JS.own_props Sample.library)) (front ++ back) /\
    Forall (fun p => unused p = false) front /\
    Forall (fun p => unused p = true) back.
Proof.
  assert (Hplain : Forall plain_id (map snd (JS.own_props Sample.library))).
  { simpl.
    constructor; [exists "p1"|constructor; [exists "p2"|constructor; [exists "p3"|constructor]]];
      (split; [reflexivity|split; [reflexivity|discriminate]]). }
  assert (Hnd : NoDup (map idOf (map snd (JS.own_props Sample.library)))).
  { repeat constructor; simpl; intuition discriminate. }
  assert (Husable : Forall (usable (host := UTC.host))
                      (map snd (JS.own_props Sample.library))).
  { simpl. repeat constructor; intros Hu; try discriminate Hu;
      eexists; vm_compute; reflexivity. }
  assert (Hpool : Forall (used_since_epoch (host := UTC.host))
                    (map snd (JS.own_props Sample.library))).
  { simpl. repeat constructor; intros Hu; try discriminate;
      eexists; (split; [vm_compute; reflexivity|reflexivity]). }
  split; [exact Hplain|]. split; [exact Hnd|]. split; [exact Husable|].
  split; [left; split; [reflexivity|exact Hpool]|].
  apply (applySorting_unused_last (host := UTC.host) (JS.own_props Sample.library)
           (VStr "latest_used") Hplain Hnd Husable).
  left. split; [reflexivity|exact Hpool].
Defined.

(** Least recently used first: in the object that [applySorting] returns
    the record without [last_used] comes after the record with one, not
    before it. *)
Lemma applySorting_oldest_used_unused_last :
  unused Sample.summary = true /\ unused Sample.greeting = false /\
  applySorting (host := UTC.host)
    (VObj [("p2", Sample.summary); ("p1", Sample.greeting)]) (VStr "oldest_used") =
    VObj [("success", VBool true);
          ("sortedPrompts", VObj [("p1", Sample.greeting); ("p2", Sample.summary)]);
          ("message", VStr "Sorted 2 prompts by oldest_used")].
Proof. repeat split; vm_compute; reflexivity. Qed.

(** With ids that are array indices the object that [applySorting] returns
    is in the order of the indices, whatever the sort made of the records:
    most recently used first, the record never used is sorted last and
    listed first. *)
Lemma applySorting_index_ids :
  unused Sample.firstNeverUsed = true /\ unused Sample.secondUsed = false /\
  sortedArray (host := UTC.host) [Sample.firstNeverUsed; Sample.secondUsed]
    (VStr "latest_used") = Ok [Sample.secondUsed; Sample.firstNeverUsed] /\
  JS.prop (applySorting (host := UTC.host)
             (VObj [("1", Sample.firstNeverUsed); ("2", Sample.secondUsed)])
             (VStr "latest_used")) "sortedPrompts" =
    VObj [("1", Sample.firstNeverUsed); ("2", Sample.secondUsed)].
Proof. repeat split; vm_compute; reflexivity. Qed.

(** [PromptLibraryUI.sortPrompts] ranks a record without [last_used] by
    its [created_at] instead: most recently used first, a record created
    after the others were last used comes first, where [applySorting] puts
    it last. *)
Lemma sortPrompts_ranks_unused_by_creation :
  unused Sample.neverUsed = true /\ unused Sample.greeting = false /\
  sortPrompts (host := UTC.host) [Sample.greeting; Sample.neverUsed]
    (VStr "latest_used") = Ok [Sample.neverUsed; Sample.greeting] /\
  sortedArray (host := UTC.host) [Sample.greeting; Sample.neverUsed]
    (VStr "latest_used") = Ok [Sample.greeting; Sample.neverUsed].
Proof. repeat split; vm_compute; reflexivity. Qed.

(** [applySorting] by name compares the lowercased names: two names that
    differ only in letter case compare as equal on any host whose collation
    finds a string equal to itself. *)
Lemma compareName_ignores_case {host : Host} (a b : value) (x y : string) :
  (forall z, localeCompare z z = 0%Z) ->
  JS.prop a "name" = VStr x -> JS.prop b "name" = VStr y ->
  Str.toLowerCase x = Str.toLowerCase y ->
  compareName a b = Ok 0%Z.
Proof.
  intros Hrefl Ha Hb Hxy. unfold compareName, get.
  destruct (JS.is_nullish a) eqn:Na; [destruct a; discriminate|].
  destruct (JS.is_nullish b) eqn:Nb; [destruct b; discriminate|].
  simpl. rewrite Ha, Hb. simpl. rewrite Hxy, Hrefl. reflexivity.
Qed.

(** C5: [sortPrompts] by name does not treat ["Summary"] and ["summary"] as
    equal: it moves the lower-case name in front, where [applySorting], which
    lowercases both names, leaves the two records in their input order. *)
Theorem sortPrompts_name_case :
  sortPrompts (host := UTC.host) [Sample.summaryCapital; Sample.summary] (VStr "name") =
    Ok [Sample.summary; Sample.summaryCapital] /\
  sortedArray (host := UTC.host) [Sample.summaryCapital; Sample.summary] (VStr "name") =
    Ok [Sample.summaryCapital; Sample.summary].
Proof. split; vm_compute; reflexivity. Qed.

(** ** A successful save *)

Section SaveFacts.

Context {host : Host}.

Lemma valid_store_set (k : string) (v : value) (ps : props) :
  valid_store ps -> is_valid v = true -> k <> "__proto__" ->
  valid_store (JS.set k v ps).
Proof.
  intros (Hnd & Hall & Hproto) Hv Hk.
  refine (conj (NoDup_set _ _ _ Hnd) (conj _ _)).
  - apply Forall_forall. intros [k' v'] Hin.
    destruct (In_set _ _ _ _ _ Hin) as [[= -> ->]|Hin']; [exact Hv|].
    rewrite Forall_forall in Hall. apply (Hall _ Hin').
  - intros Hin. apply in_map_iff in Hin. destruct Hin as ([k' v'] & Hk' & Hin).
    simpl in Hk'. subst k'.
    destruct (In_set _ _ _ _ _ Hin) as [[= <- _]|Hin']; [apply Hk; reflexivity|].
    apply Hproto. apply in_map_iff. exists ("__proto__", v'). split; [reflexivity|exact Hin'].
Qed.

Lemma valid_store_put (k : string) (v : value) (ps : props) :
  valid_store ps -> is_valid v = true -> valid_store (JS.put k v ps).
Proof.
  intros Hstore Hv. unfold JS.put.
  destruct (k =? "__proto__") eqn:Hk; simpl.
  - apply String.eqb_eq in Hk. subst k.
    destruct Hstore as (Hnd & Hall & Hproto).
    assert (Hhas : JS.has "__proto__" ps = false).
    { unfold JS.has. rewrite (proj2 (lookup_None_keys _ _) Hproto). reflexivity. }
    rewrite Hhas. simpl. exact (conj Hnd (conj Hall Hproto)).
  - apply String.eqb_neq in Hk. apply valid_store_set; assumption.
Qed.

Lemma savePrompt_success (promptData complete : value) (id : string) (s s1 : state) :
  valid_store (stored s) ->
  createPromptData promptData s = (Ok complete, s1) ->
  is_valid complete = true ->
  JS.prop complete "id" = VStr id ->
  JS.has id (stored s) = true \/ (Z.of_nat (length (stored s)) < maxPrompts s)%Z ->
  savePrompt promptData s =
    (Ok (VObj [("success", VBool true);
               ("promptData", complete);
               ("message", VStr "Prompt saved successfully")]),
     saved id complete s1) /\
  stored s1 = stored s /\
  valid_store (stored (saved id complete s1)).
Proof.
  intros Hstore Hc Hv Hid Hroom.
  destruct (createPromptData_frame _ _ _ _ Hc) as (Hp & Hm & _).
  assert (Hst : stored s1 = stored s) by (unfold stored; rewrite Hp; reflexivity).
  assert (Hmax : maxPrompts s1 = maxPrompts s) by (unfold maxPrompts; rewrite Hm; reflexivity).
  assert (Hstore1 : valid_store (stored s1)) by (rewrite Hst; exact Hstore).
  split; [|split; [exact Hst|]].
  2:{ unfold saved. simpl. apply valid_store_put; assumption. }
  unfold savePrompt, try_catch, bind. rewrite Hc. unfold lift.
  pose proof Hv as Hv'. unfold is_valid in Hv'.
  destruct (validatePromptData complete) as [validation|m]; [|discriminate].
  rewrite Hv'. simpl.
  destruct (getPrompts_valid s1 Hstore1) as (current & Hget & Hnd & Hlook & Hlen).
  rewrite Hget. unfold get_state. simpl.
  rewrite Hlen, Hst, Hmax, Hid. simpl.
  assert (Hfull : (maxPrompts s <=? Z.of_nat (length (stored s)))%Z &&
                  negb (JS.truthy (JS.prop (VObj current) id)) = false).
  { destruct Hroom as [Hhas|Hlt].
    - unfold JS.has in Hhas. unfold JS.prop, JS.own, JS.own_props.
      rewrite Hlook, Hst.
      destruct (JS.lookup id (stored s)) as [old|] eqn:Hold; [|discriminate].
      apply lookup_Some_In in Hold. destruct Hstore as (_ & Hall & _).
      rewrite Forall_forall in Hall.
      pose proof (is_valid_truthy _ (Hall (id, old) Hold)) as Ht. simpl in Ht.
      rewrite Ht. apply andb_false_r.
    - apply Z.leb_gt in Hlt. rewrite Hlt. reflexivity. }
  unfold JS.prop, JS.own, JS.own_props in Hfull |- *. rewrite Hfull.
  unfold store_set, bind, get_state, set_prompts, ret, saved. simpl.
  fold (stored s1). reflexivity.
Qed.

End SaveFacts.

(** ** Saving from the current preset *)

Section SaverFacts.

Context {host : Host}.





















End SaverFacts.



(** On the sample preset the call stores one record, that of the user
    prompt, after the two records of the store. *)
Lemma saveCurrentPrompt_sample :
  exists result s' record,
    saveCurrentPrompt (host := UTC.host) VUndefined Sample.roomy = (Ok result, s') /\
    JS.prop result "success" = VBool true /\
    JS.prop result "message" = VStr "Successfully saved 1 prompt" /\
    stored s' = stored Sample.roomy ++ [("prompt_1705314600000_100000000", record)] /\
    JS.prop record "content" = VStr "Write the next reply" /\
    JS.prop record "role" = VStr "user" /\
    md record "usage_count" = VNum 0 /\
    md record "favorite" = VBool false.
Proof.
  eexists _, _, _. split; [vm_compute; reflexivity|].
  repeat split.
Qed.

(** A content of no-break spaces is white space: the prompt is skipped
    and nothing is saved. *)
Lemma saveCurrentPrompt_skips_no_break_spaces :
  exists result s',
    saveCurrentPrompt (host := UTC.host) VUndefined
      (mkState (Some []) None Sample.paddedPreset 0) = (Ok result, s') /\
    JS.prop result "success" = VBool false /\
    JS.prop result "error" = VStr "No valid prompts found to save" /\
    stored s' = [].
Proof. eexists _, _. split; [vm_compute; reflexivity|]. repeat split. Qed.

(** A preset prompt that is [null] ends the whole call: the handler of the
    loop reads its [identifier] and throws, and the prompt after it is not
    saved. *)
Lemma saveCurrentPrompt_null_prompt :
  exists result s',
    saveCurrentPrompt (host := UTC.host) VUndefined
      (mkState (Some []) None Sample.holedPreset 0) = (Ok result, s') /\
    JS.prop result "success" = VBool false /\
    JS.prop result "error" =
      VStr "Cannot read properties of null (reading 'identifier')" /\
    stored s' = [].
Proof. eexists _, _. split; [vm_compute; reflexivity|]. repeat split. Qed.


(** ** Export, then import *)

Section RoundTrip.

Context {host : Host}.

Lemma lookup_middle (k : string) (v : value) (pre post : props) :
  ~ In k (keys pre) -> JS.lookup k (pre ++ (k, v) :: post) = Some v.
Proof.
  intros Hk. rewrite lookup_app.
  apply lookup_None_keys in Hk. rewrite Hk. simpl.
  rewrite String.eqb_refl. reflexivity.
Qed.

Lemma replace_middle (k : string) (v v' : value) (pre post : props) :
  ~ In k (keys pre) ->
  JS.replace k v' (pre ++ (k, v) :: post) = pre ++ (k, v') :: post.
Proof.
  induction pre as [|[k0 v0] pre IH]; simpl; intros Hk.
  - rewrite String.eqb_refl. reflexivity.
  - destruct (k =? k0) eqn:E.
    + apply String.eqb_eq in E. subst. tauto.
    + rewrite IH by tauto. reflexivity.
Qed.

Lemma set_middle (k : string) (v v' : value) (pre post : props) :
  ~ In k (keys pre) ->
  JS.set k v' (pre ++ (k, v) :: post) = pre ++ (k, v') :: post.
Proof.
  intros Hk. unfold JS.set, JS.has. rewrite (lookup_middle k v pre post Hk).
  apply replace_middle, Hk.
Qed.

Lemma round_trips_inv (r : promptRecord) :
  round_trips r ->
  r_id r <> "" /\ r_name r <> "" /\ r_content r <> "" /\ r_role r <> "".
Proof.
  intros [Hv _]. apply is_valid_inv in Hv.
  destruct Hv as [_ [id [Hid Hne]] Hname Hcontent Hrole _ _ _ _ _ _ _].
  simpl in *. injection Hid as <-.
  repeat split; intros E; rewrite E in *; try discriminate.
  apply Hne. reflexivity.
Qed.

(** [createPromptData] leaves a record that [round_trips] as it is, with
    or without the import metadata. *)
Lemma complete_encode_with (extra : props) (r : promptRecord) (now : string) :
  round_trips r ->
  extra = [] \/ (exists a b, extra = [("imported_at", a); ("import_source", b)]) ->
  completePromptData (encode_with extra r) (VStr (r_id r)) now = encode_with extra r.
Proof.
  intros Hr Hextra.
  destruct (round_trips_inv r Hr) as (_ & Hname & Hcontent & Hrole).
  destruct Hr as (_ & Hd & Ho).
  apply String.eqb_neq in Hname, Hcontent, Hrole.
  apply Z.eqb_neq in Hd, Ho.
  unfold completePromptData, encode_with, JS.or.
  destruct Hextra as [->|(a & b & ->)]; cbn;
    rewrite Hname, Hcontent, Hrole, Hd, Ho; cbn;
    destruct (r_system_prompt r), (r_marker r), (r_forbid_overrides r);
    destruct (r_injection_position r =? 0)%Z eqn:Hp;
    try (apply Z.eqb_eq in Hp; rewrite Hp); reflexivity.
Qed.

Lemma is_valid_encode_with (extra : props) (r : promptRecord) :
  is_valid (encode_with extra r) = is_valid (encode r).
Proof. reflexivity. Qed.

Lemma importOne_overwrites (parsedData : value) (src : string) (pre post : props)
    (r : promptRecord) (res : importResults) (s : state) :
  JS.prop parsedData "exported_at" = VStr src ->
  prompts s = Some (pre ++ (r_id r, encode r) :: post) ->
  valid_store (stored s) ->
  round_trips r ->
  importOne parsedData (importOptions overwrite) res (r_id r, encode r) s =
    (Ok (mkResults (S (imported res)) (skipped res) (import_errors res)
           (push (details res)
              (detail (r_id r) (VStr (r_name r)) "imported" "Overwritten"))),
     mkState
       (Some (pre ++ (r_id r, with_import (Date_toISOString (Date_now (tick s))) src r)
                   :: post))
       (max_prompts s) (completion_preset s) (S (S (tick s)))).
Proof.
  intros Hsrc Hp Hstore Hr.
  assert (Hst : stored s = pre ++ (r_id r, encode r) :: post)
    by (unfold stored; rewrite Hp; reflexivity).
  assert (Hk : ~ In (r_id r) (keys pre)).
  { destruct Hstore as [Hnd _]. rewrite Hst, keys_app in Hnd. simpl in Hnd.
    apply NoDup_remove_2 in Hnd. intros Hin. apply Hnd, in_or_app. now left. }
  pose proof Hr as [Hv _]. pose proof Hv as Hv'. unfold is_valid in Hv'.
  destruct (round_trips_inv r Hr) as (Hid & _).
  destruct (getPrompts_valid s Hstore) as (current & Hget & _ & Hlook & _).
  unfold importOne, try_catch, bind, lift.
  cbn -[validatePromptData getPrompts savePrompt encode].
  destruct (validatePromptData (encode r)) as [validation|m]; [|discriminate].
  rewrite Hv'. cbn -[getPrompts savePrompt encode]. rewrite Hget.
  cbn -[getPrompts savePrompt encode JS.lookup].
  assert (Hold : JS.prop (VObj current) (r_id r) = encode r).
  { apply prop_own. rewrite Hlook, Hst. apply lookup_middle, Hk. }
  rewrite Hold.
  cbn -[getPrompts savePrompt]. rewrite Hsrc.
  set (now := Date_toISOString (Date_now (tick s))).
  set (s1 := mkState (prompts s) (max_prompts s) (completion_preset s) (S (tick s))).
  change (VObj _) with (with_import now src r) at 1.
  assert (Hstore1 : valid_store (stored s1)) by exact Hstore.
  assert (Hcreate : createPromptData (with_import now src r) s1 =
                    (Ok (with_import now src r),
                     mkState (prompts s) (max_prompts s) (completion_preset s)
                             (S (S (tick s))))).
  { rewrite (createPromptData_run (with_import now src r) (r_id r) s1 eq_refl Hid).
    unfold with_import. rewrite complete_encode_with; [reflexivity|exact Hr|].
    right. eexists _, _. reflexivity. }
  assert (Hhas : JS.has (r_id r) (stored s1) = true).
  { change (stored s1) with (stored s). rewrite Hst. unfold JS.has.
    rewrite (lookup_middle _ _ _ _ Hk). reflexivity. }
  destruct (savePrompt_success (with_import now src r) (with_import now src r)
              (r_id r) s1 _ Hstore1 Hcreate Hv eq_refl (or_introl Hhas))
    as (Hsave & _ & _).
  rewrite Hsave. cbn -[with_import]. unfold ret, saved. cbn -[with_import].
  f_equal. f_equal. f_equal.
  change (stored _) with (stored s). rewrite Hst.
  rewrite put_set; [apply set_middle, Hk|].
  intros Hproto. destruct Hstore as (_ & _ & Hno). apply Hno.
  rewrite Hst, keys_app, Hproto. apply in_or_app. right. left. reflexivity.
Qed.

(** The same on a record that an earlier import has stamped: the two
    values are replaced in their places. *)
Lemma importOne_overwrites_stamped (parsedData : value) (src a b : string)
    (pre post : props) (r : promptRecord) (res : importResults) (s : state) :
  JS.prop parsedData "exported_at" = VStr src ->
  prompts s = Some (pre ++ (r_id r, with_import a b r) :: post) ->
  valid_store (stored s) ->
  round_trips r ->
  importOne parsedData (importOptions overwrite) res (r_id r, with_import a b r) s =
    (Ok (mkResults (S (imported res)) (skipped res) (import_errors res)
           (push (details res)
              (detail (r_id r) (VStr (r_name r)) "imported" "Overwritten"))),
     mkState
       (Some (pre ++ (r_id r, with_import (Date_toISOString (Date_now (tick s))) src r)
                   :: post))
       (max_prompts s) (completion_preset s) (S (S (tick s)))).
Proof.
  intros Hsrc Hp Hstore Hr.
  assert (Hst : stored s = pre ++ (r_id r, with_import a b r) :: post)
    by (unfold stored; rewrite Hp; reflexivity).
  assert (Hk : ~ In (r_id r) (keys pre)).
  { destruct Hstore as [Hnd _]. rewrite Hst, keys_app in Hnd. simpl in Hnd.
    apply NoDup_remove_2 in Hnd. intros Hin. apply Hnd, in_or_app. now left. }
  pose proof Hr as [Hv _].
  assert (Hv' : is_valid (with_import a b r) = true) by exact Hv.
  unfold is_valid in Hv'.
  destruct (round_trips_inv r Hr) as (Hid & _).
  destruct (getPrompts_valid s Hstore) as (current & Hget & _ & Hlook & _).
  unfold importOne, try_catch, bind, lift.
  cbn -[validatePromptData getPrompts savePrompt with_import].
  destruct (validatePromptData (with_import a b r)) as [validation|m]; [|discriminate].
  rewrite Hv'. cbn -[getPrompts savePrompt with_import]. rewrite Hget.
  cbn -[getPrompts savePrompt with_import JS.lookup].
  assert (Hold : JS.prop (VObj current) (r_id r) = with_import a b r).
  { apply prop_own. rewrite Hlook, Hst. apply lookup_middle, Hk. }
  rewrite Hold.
  cbn -[getPrompts savePrompt]. rewrite Hsrc.
  set (now := Date_toISOString (Date_now (tick s))).
  set (s1 := mkState (prompts s) (max_prompts s) (completion_preset s) (S (tick s))).
  change (VObj _) with (with_import now src r) at 1.
  assert (Hstore1 : valid_store (stored s1)) by exact Hstore.
  assert (Hcreate : createPromptData (with_import now src r) s1 =
                    (Ok (with_import now src r),
                     mkState (prompts s) (max_prompts s) (completion_preset s)
                             (S (S (tick s))))).
  { rewrite (createPromptData_run (with_import now src r) (r_id r) s1 eq_refl Hid).
    unfold with_import. rewrite complete_encode_with; [reflexivity|exact Hr|].
    right. eexists _, _. reflexivity. }
  assert (Hhas : JS.has (r_id r) (stored s1) = true).
  { change (stored s1) with (stored s). rewrite Hst. unfold JS.has.
    rewrite (lookup_middle _ _ _ _ Hk). reflexivity. }
  destruct (savePrompt_success (with_import now src r) (with_import now src r)
              (r_id r) s1 _ Hstore1 Hcreate Hv eq_refl (or_introl Hhas))
    as (Hsave & _ & _).
  rewrite Hsave. cbn -[with_import]. unfold ret, saved. cbn -[with_import].
  f_equal. f_equal. f_equal.
  change (stored _) with (stored s). rewrite Hst.
  rewrite put_set; [apply set_middle, Hk|].
  intros Hproto. destruct Hstore as (_ & _ & Hno). apply Hno.
  rewrite Hst, keys_app, Hproto. apply in_or_app. right. left. reflexivity.
Qed.

Lemma importOne_overwrites_any (parsedData : value) (src : string) (pre post : props)
    (st : stamp) (r : promptRecord) (res : importResults) (s : state) :
  JS.prop parsedData "exported_at" = VStr src ->
  prompts s = Some (pre ++ (r_id r, stamped st r) :: post) ->
  valid_store (stored s) ->
  round_trips r ->
  importOne parsedData (importOptions overwrite) res (r_id r, stamped st r) s =
    (Ok (mkResults (S (imported res)) (skipped res) (import_errors res)
           (push (details res)
              (detail (r_id r) (VStr (r_name r)) "imported" "Overwritten"))),
     mkState
       (Some (pre ++ (r_id r, with_import (Date_toISOString (Date_now (tick s))) src r)
                   :: post))
       (max_prompts s) (completion_preset s) (S (S (tick s)))).
Proof.
  destruct st as [[a b]|]; simpl stamped.
  - apply importOne_overwrites_stamped.
  - apply importOne_overwrites.
Qed.

Lemma createAutomaticBackup_valid (reason : string) (s : state) (store : props) :
  prompts s = Some store ->
  valid_store store ->
  createAutomaticBackup reason s =
    (Ok tt, mkState (prompts s) (max_prompts s) (completion_preset s) (S (S (tick s)))).
Proof.
  intros Hp Hstore.
  unfold createAutomaticBackup, try_catch, bind, now_iso, next_tick, ret.
  rewrite (getPrompts_rebuilds s _ Hp Hstore). reflexivity.
Qed.

Lemma valid_store_middle (k : string) (v v' : value) (pre post : props) :
  valid_store (pre ++ (k, v) :: post) -> is_valid v' = true ->
  valid_store (pre ++ (k, v') :: post).
Proof.
  intros Hstore Hv.
  assert (Hk : ~ In k (keys pre)).
  { destruct Hstore as [Hnd _]. rewrite keys_app in Hnd. simpl in Hnd.
    apply NoDup_remove_2 in Hnd. intros Hin. apply Hnd, in_or_app. now left. }
  rewrite <- (set_middle k v v' pre post Hk).
  apply valid_store_set; [assumption|assumption|].
  intros ->. destruct Hstore as (_ & _ & Hno). apply Hno.
  rewrite keys_app. apply in_or_app. right. left. reflexivity.
Qed.

(** The loop of [importPrompts] over the records [todo], which the store
    holds after the properties [pre]. *)
Lemma import_loop (parsedData : value) (src : string)
    (todo : list (stamp * promptRecord)) :
  JS.prop parsedData "exported_at" = VStr src ->
  Forall (fun x => round_trips (snd x)) todo ->
  forall (pre : props) (res : importResults) (s : state),
    prompts s = Some (pre ++ stamped_store todo) ->
    valid_store (pre ++ stamped_store todo) ->
    foldM (importOne parsedData (importOptions overwrite)) (stamped_store todo) res s =
      (Ok (mkResults (imported res + length todo) (skipped res) (import_errors res)
             (details res ++
              map (fun x => detail (r_id (snd x)) (VStr (r_name (snd x)))
                              "imported" "Overwritten")
                  todo)),
       mkState (Some (pre ++ imported_store (tick s) src (map snd todo)))
               (max_prompts s) (completion_preset s) (tick s + 2 * length todo)).
Proof.
  intros Hsrc Htodo.
  induction Htodo as [|[st r] todo Hr Htodo IH]; intros pre res s Hp Hstore.
  - simpl. unfold ret. rewrite !app_nil_r, !Nat.add_0_r in *.
    rewrite <- Hp. destruct s, res; reflexivity.
  - simpl in Hr. simpl. unfold bind.
    assert (Hstore' : valid_store (stored s))
      by (unfold stored; rewrite Hp; exact Hstore).
    rewrite (importOne_overwrites_any parsedData src pre (stamped_store todo) st r res s
               Hsrc Hp Hstore' Hr).
    set (entry := (r_id r, with_import (Date_toISOString (Date_now (tick s))) src r)).
    specialize (IH (pre ++ [entry])
                  (mkResults (S (imported res)) (skipped res) (import_errors res)
                     (push (details res)
                        (detail (r_id r) (VStr (r_name r)) "imported" "Overwritten")))
                  (mkState (Some (pre ++ entry :: stamped_store todo))
                     (max_prompts s) (completion_preset s) (S (S (tick s))))).
    rewrite <- !app_assoc in IH. simpl in IH. rewrite IH.
    + unfold push. rewrite <- app_assoc. simpl.
      repeat f_equal; lia.
    + reflexivity.
    + apply (valid_store_middle _ (stamped st r)); [exact Hstore|].
      destruct Hr as [Hv _]. exact Hv.
Qed.

End RoundTrip.

(** C2, as the code has it: on a store of data-model records that validate
    and whose injection depth and order are set, some of them with the
    [imported_at] and [import_source] of an earlier import, exporting and
    then importing the export with overwrite enabled imports every record
    and leaves the store with the same records in the same order, each
    with the [imported_at] and [import_source] of this import in its
    metadata and nothing else changed. The store lists its records as an
    object enumerates them ([JS.literal] leaves it as it is). *)
Theorem export_import_overwrite {host : Host}
    (rs : list (stamp * promptRecord)) (s : state) :
  prompts s = Some (stamped_store rs) ->
  JS.literal (stamped_store rs) = stamped_store rs ->
  NoDup (map (fun x => r_id (snd x)) rs) ->
  ~ In "__proto__" (map (fun x => r_id (snd x)) rs) ->
  Forall (fun x => round_trips (snd x)) rs ->
  Date_toISOString (Date_now (tick s)) <> "" ->
  exists exported s1 result s2,
    exportPrompts s = (Ok exported, s1) /\
    importPrompts (JS.prop exported "data") overwrite s1 = (Ok result, s2) /\
    JS.prop result "success" = VBool (negb (length rs =? 0)%nat) /\
    JS.prop result "imported" = VNum (Z.of_nat (length rs)) /\
    JS.prop result "errors" = VNum 0 /\
    prompts s2 =
      Some (imported_store (tick s + 3) (Date_toISOString (Date_now (tick s)))
              (map snd rs)).
Proof.
  intros Hp Hlit Hnd Hproto Hrs Hclock.
  assert (Hstore : valid_store (stamped_store rs)).
  { refine (conj _ (conj _ _)).
    - unfold keys, stamped_store. rewrite map_map. exact Hnd.
    - unfold stamped_store. rewrite Forall_map. simpl.
      eapply Forall_impl; [|exact Hrs]. intros [[[a b]|] r] [Hv _]; exact Hv.
    - unfold keys, stamped_store. rewrite map_map. exact Hproto. }
  set (src := Date_toISOString (Date_now (tick s))) in *.
  set (s1 := mkState (prompts s) (max_prompts s) (completion_preset s) (S (tick s))).
  assert (Hexport : exportPrompts s =
            (Ok (VObj [("success", VBool true);
                       ("data", VObj [("version", VStr "1.0.0");
                                      ("exported_at", VStr src);
                                      ("prompt_count",
                                       VNum (Z.of_nat (length (stamped_store rs))));
                                      ("prompts", VObj (stamped_store rs))]);
                       ("message", VStr "Prompts exported successfully")]), s1)).
  { unfold exportPrompts, try_catch, bind, now_iso, next_tick, ret.
    rewrite (getPrompts_rebuilds s _ Hp Hstore), !Hlit. reflexivity. }
  eexists _, s1, _, _. split; [exact Hexport|].
  assert (Hp1 : prompts s1 = Some (stamped_store rs)) by exact Hp.
  apply String.eqb_neq in Hclock.
  unfold importPrompts, try_catch, bind, lift, ret, get.
  cbn -[createAutomaticBackup importOne importOptions foldM stamped_store].
  rewrite Hclock.
  cbn -[createAutomaticBackup importOne importOptions foldM stamped_store].
  rewrite (createAutomaticBackup_valid _ s1 _ Hp1 Hstore).
  cbn -[importOne importOptions foldM stamped_store].
  match goal with
  | |- context [foldM ?f (stamped_store rs) ?res ?st] =>
      pose proof (import_loop
                    (VObj [("version", VStr "1.0.0");
                           ("exported_at", VStr src);
                           ("prompt_count",
                            VNum (Z.of_nat (length (stamped_store rs))));
                           ("prompts", VObj (stamped_store rs))])
                    src rs eq_refl Hrs [] res st Hp Hstore) as Hloop
  end.
  fold overwrite. rewrite Hloop. cbn -[imported_store Str.of_nat].
  rewrite !Nat.add_0_r.
  split; [reflexivity|].
  refine (conj _ (conj eq_refl (conj eq_refl _))).
  - simpl. destruct rs; reflexivity.
  - replace (tick s + 3) with (S (S (S (tick s)))) by lia. reflexivity.
Qed.

(** The store that an import leaves is again a store of stamped records:
    the theorem applies to it in turn. *)
Lemma imported_store_stamped {host : Host} (src : string) (rs : list promptRecord) :
  forall n, exists rs',
    imported_store n src rs = stamped_store rs' /\ map snd rs' = rs.
Proof.
  induction rs as [|r rs IH]; intros n; simpl.
  - exists []. split; reflexivity.
  - destruct (IH (S (S n))) as (rs' & E & M).
    exists ((Some (Date_toISOString (Date_now n), src), r) :: rs').
    simpl. rewrite E, M. split; reflexivity.
Qed.

Lemma Sample_restocked_round_trips :
  Forall (fun x => round_trips (host := UTC.host) (snd x)) Sample.restockedRecords.
Proof.
  repeat constructor; try (vm_compute; reflexivity); discriminate.
Qed.

(** The theorem at a store of two records, the second of which an earlier
    import has stamped. *)
Lemma export_import_overwrite_witness :
  prompts Sample.restocked = Some (stamped_store Sample.restockedRecords) /\
  JS.literal (stamped_store Sample.restockedRecords) =
    stamped_store Sample.restockedRecords /\
  NoDup (map (fun x => r_id (snd x)) Sample.restockedRecords) /\
  ~ In "__proto__" (map (fun x => r_id (snd x)) Sample.restockedRecords) /\
  Forall (fun x => round_trips (host := UTC.host) (snd x)) Sample.restockedRecords /\
  UTC.toISOString (1705314600000 + Z.of_nat (tick Sample.restocked)) <> "" /\
  exists exported s1 result s2,
    exportPrompts (host := UTC.host) Sample.restocked = (Ok exported, s1) /\
    importPrompts (host := UTC.host) (JS.prop exported "data") overwrite s1 =
      (Ok result, s2) /\
    JS.prop result "success" =
      VBool (negb (length Sample.restockedRecords =? 0)%nat) /\
    JS.prop result "imported" = VNum (Z.of_nat (length Sample.restockedRecords)) /\
    JS.prop result "errors" = VNum 0 /\
    prompts s2 =
      Some (imported_store (host := UTC.host) (tick Sample.restocked + 3)
              (UTC.toISOString (1705314600000 + Z.of_nat (tick Sample.restocked)))
              (map snd Sample.restockedRecords)).
Proof.
  assert (Hnd : NoDup (map (fun x => r_id (snd x)) Sample.restockedRecords)).
  { repeat constructor; simpl; intuition discriminate. }
  split; [reflexivity|].
  split; [vm_compute; reflexivity|].
  assert (Hproto : ~ In "__proto__"
                      (map (fun x => r_id (snd x)) Sample.restockedRecords)).
  { simpl. intuition discriminate. }
  split; [exact Hnd|].
  split; [exact Hproto|].
  split; [exact Sample_restocked_round_trips|].
  split; [vm_compute; discriminate|].
  apply (export_import_overwrite (host := UTC.host)
           Sample.restockedRecords Sample.restocked).
  - reflexivity.
  - vm_compute. reflexivity.
  - exact Hnd.
  - exact Hproto.
  - exact Sample_restocked_round_trips.
  - vm_compute. discriminate.
Defined.

(** Two valid records that the round trip changes beyond their import
    metadata: the one without options comes back with the defaults filled
    in, the one with [injection_depth = 0] comes back with depth 4. *)
Lemma export_import_changes_records :
  valid_store (host := UTC.host) (stored Sample.drawer) /\
  exists exported s1 result s2,
    exportPrompts (host := UTC.host) Sample.drawer = (Ok exported, s1) /\
    importPrompts (host := UTC.host) (JS.prop exported "data") overwrite s1 =
      (Ok result, s2) /\
    JS.prop result "success" = VBool true /\
    (exists q1, JS.lookup "q1" (stored s2) = Some q1 /\
                JS.prop Sample.minimal "system_prompt" = VUndefined /\
                JS.prop q1 "system_prompt" = VBool false /\
                JS.prop Sample.minimal "injection_depth" = VUndefined /\
                JS.prop q1 "injection_depth" = VNum 4) /\
    (exists q2, JS.lookup "q2" (stored s2) = Some q2 /\
                JS.prop Sample.zeroDepth "injection_depth" = VNum 0 /\
                JS.prop q2 "injection_depth" = VNum 4).
Proof.
  split.
  - refine (conj _ (conj _ _));
      [repeat constructor; simpl; intuition discriminate
      |repeat constructor
      |simpl; intuition discriminate].
  - eexists _, _, _, _. split; [vm_compute; reflexivity|].
    split; [vm_compute; reflexivity|].
    split; [reflexivity|].
    split; eexists; (split; [reflexivity|repeat split]).
Qed.

(** * Further properties of the code *)

Section StoreOperations.

Context {host : Host}.

Lemma same_store_refl (s : state) : same_store s s.
Proof. repeat split. Qed.

Lemma same_store_tick (s : state) :
  same_store s (mkState (prompts s) (max_prompts s) (completion_preset s) (S (tick s))).
Proof. repeat split. Qed.

Lemma same_store_trans (s1 s2 s3 : state) :
  same_store s1 s2 -> same_store s2 s3 -> same_store s1 s3.
Proof.
  intros (H1 & H2 & H3) (H4 & H5 & H6). unfold same_store, same_settings.
  repeat split; congruence.
Qed.

Lemma or_generated_run (v : value) (s : state) :
  exists id s', or_generated v s = (Ok id, s') /\ same_store s s'.
Proof.
  unfold or_generated, generatePromptId, bind, next_tick, ret.
  destruct (JS.truthy v).
  - eexists _, _. split; [reflexivity|apply same_store_refl].
  - eexists _, _. split; [reflexivity|apply same_store_tick].
Qed.

Lemma fixedOrNow_run (r : value) (s : state) :
  exists c s', fixedOrNow r s = (Ok c, s') /\ same_store s s'.
Proof.
  unfold fixedOrNow, now_iso, bind, next_tick, ret.
  destruct (JS.truthy _).
  - eexists _, _. split; [reflexivity|apply same_store_refl].
  - eexists _, _. split; [reflexivity|apply same_store_tick].
Qed.

(** [repairPromptData] returns, and what it returns is [null] or a record
    that validates. *)
Lemma repairPromptData_cases (r : value) (s : state) :
  exists r' s',
    repairPromptData r s = (Ok r', s') /\
    (r' = VNull \/ is_valid r' = true) /\
    same_store s s'.
Proof.
  unfold repairPromptData, try_catch, bind, lift.
  destruct (get r "id") as [id0|m].
  2:{ eexists _, _. split; [reflexivity|]. split; [now left|apply same_store_refl]. }
  destruct (or_generated_run id0 s) as (id & s1 & -> & H1).
  destruct (fixedOrNow_run r s1) as (c & s2 & -> & H2).
  pose proof (same_store_trans _ _ _ H1 H2) as H12.
  destruct (validatePromptData (repaired r id c)) as [v|m] eqn:Hv.
  2:{ eexists _, _. split; [reflexivity|]. split; [now left|exact H12]. }
  destruct (isValid v) eqn:Hi.
  - eexists _, _. split; [reflexivity|]. split; [|exact H12].
    right. unfold is_valid. rewrite Hv. exact Hi.
  - eexists _, _. split; [reflexivity|]. split; [now left|exact H12].
Qed.

Lemma In_put (k k' : string) (v v' : value) (ps : props) :
  In (k', v') (JS.put k v ps) -> (k', v') = (k, v) \/ In (k', v') ps.
Proof.
  unfold JS.put. destruct (_ && _); [now right|apply In_set].
Qed.

Lemma store_set_run (k : string) (v : value) (s : state) :
  store_set k v s =
    (Ok tt, mkState (Some (JS.put k v (stored s)))
                    (max_prompts s) (completion_preset s) (tick s)).
Proof. reflexivity. Qed.

Lemma store_delete_run (k : string) (s : state) :
  store_delete k s =
    (Ok tt, mkState (option_map (JS.delete k) (prompts s))
                    (max_prompts s) (completion_preset s) (tick s)).
Proof. reflexivity. Qed.

Lemma same_settings_trans (s1 s2 s3 : state) :
  same_settings s1 s2 -> same_settings s2 s3 -> same_settings s1 s3.
Proof. intros [H1 H2] [H3 H4]. split; congruence. Qed.

Lemma same_store_settings (s s' : state) : same_store s s' -> same_settings s s'.
Proof. intros [_ H]. exact H. Qed.

(** One turn of the loop of [getPrompts] keeps the result valid, whatever
    the entry is. *)
Lemma visitPrompt_cases (acc : props) (k : string) (r : value) (s : state) :
  Forall (fun kv => is_valid (snd kv) = true) acc ->
  exists res s',
    visitPrompt acc (k, r) s = (res, s') /\
    same_settings s s' /\
    match res with
    | Ok acc' => Forall (fun kv => is_valid (snd kv) = true) acc'
    | Throw _ => True
    end.
Proof.
  intros Hacc. unfold visitPrompt, bind, lift. cbn [fst snd].
  assert (Hput : forall v, is_valid v = true ->
                   Forall (fun kv => is_valid (snd kv) = true) (JS.put k v acc)).
  { intros v Hv. apply Forall_forall. intros [k' v'] Hin.
    destruct (In_put _ _ _ _ _ Hin) as [[= -> ->]|Hin']; [exact Hv|].
    rewrite Forall_forall in Hacc. apply (Hacc _ Hin'). }
  destruct (validatePromptData r) as [v|m] eqn:Hv.
  2:{ eexists _, _. split; [reflexivity|]. split; [split; reflexivity|exact I]. }
  destruct (isValid v) eqn:Hi.
  - eexists _, _. split; [reflexivity|]. split; [split; reflexivity|].
    apply Hput. unfold is_valid. rewrite Hv. exact Hi.
  - destruct (repairPromptData_cases r s) as (r' & s1 & -> & Hr' & H1).
    apply same_store_settings in H1.
    destruct (JS.truthy r') eqn:Ht.
    + rewrite store_set_run. eexists _, _. split; [reflexivity|].
      split; [exact H1|]. apply Hput.
      destruct Hr' as [->|Hr']; [discriminate|exact Hr'].
    + rewrite store_delete_run. eexists _, _. split; [reflexivity|].
      split; [exact H1|exact Hacc].
Qed.

Lemma foldM_visitPrompt_cases (l acc : props) (s : state) :
  Forall (fun kv => is_valid (snd kv) = true) acc ->
  exists res s',
    foldM visitPrompt l acc s = (res, s') /\
    same_settings s s' /\
    match res with
    | Ok acc' => Forall (fun kv => is_valid (snd kv) = true) acc'
    | Throw _ => True
    end.
Proof.
  revert acc s. induction l as [|[k r] l IH]; intros acc s Hacc; simpl.
  - eexists _, _. split; [reflexivity|]. split; [split; reflexivity|exact Hacc].
  - unfold bind.
    destruct (visitPrompt_cases acc k r s Hacc) as ([acc'|m] & s1 & -> & H1 & Hres).
    + destruct (IH acc' s1 Hres) as (res & s2 & -> & H2 & Hres2).
      eexists _, _. split; [reflexivity|].
      split; [exact (same_settings_trans _ _ _ H1 H2)|exact Hres2].
    + eexists _, _. split; [reflexivity|]. split; [exact H1|exact I].
Qed.

Lemma filterEntries_In (f : value -> outcome bool) (l out : props) :
  filterEntries f l = Ok out -> forall kv, In kv out -> In kv l.
Proof.
  unfold filterEntries. intros H [k v] Hin.
  destruct (ofilter _ l) as [kept|m] eqn:Hk; simpl in H; [|discriminate].
  injection H as <-. apply ofilter_Ok in Hk. destruct Hk as [-> _].
  destruct (In_assign _ _ _ _ Hin) as [[]|Hin'].
  apply filter_In in Hin'. tauto.
Qed.

Lemma filterWhen_In {A} (active : option A) (f : A -> value -> outcome bool)
    (l out : props) :
  filterWhen active f l = Ok out -> forall kv, In kv out -> In kv l.
Proof.
  destruct active as [a|]; simpl.
  - apply filterEntries_In.
  - intros [= <-] kv H. exact H.
Qed.

Lemma filterChain_In tagsFilter (prompts filters : value) (out : props) :
  filterChain tagsFilter prompts filters = Ok out ->
  forall kv, In kv out -> In kv (JS.own_props prompts).
Proof.
  unfold filterChain. intros H.
  destruct (activeSearch filters) as [search|m]; simpl in H; [|discriminate].
  destruct (filterWhen search _ _) as [l1|m] eqn:H1; simpl in H; [|discriminate].
  destruct (filterWhen (activeRole filters) _ _) as [l2|m] eqn:H2; simpl in H;
    [|discriminate].
  destruct (filterWhen (activeFavorite filters) _ _) as [l3|m] eqn:H3; simpl in H;
    [|discriminate].
  intros [k v] Hin.
  apply (filterWhen_In _ _ _ _ H) in Hin.
  apply (filterWhen_In _ _ _ _ H3) in Hin.
  apply (filterWhen_In _ _ _ _ H2) in Hin.
  apply (filterWhen_In _ _ _ _ H1) in Hin.
  unfold JS.spread in Hin. destruct (In_assign _ _ _ _ Hin) as [[]|Hin']. exact Hin'.
Qed.

(** [getPrompts] returns from every state, and every record it returns
    validates. *)
Lemma getPrompts_cases (filters : value) (s : state) :
  exists out s',
    getPrompts filters s = (Ok (VObj out), s') /\
    Forall (fun kv => is_valid (snd kv) = true) out /\
    same_settings s s'.
Proof.
  unfold getPrompts, try_catch, bind, get_state.
  destruct (prompts s) as [store|] eqn:Hs.
  2:{ eexists _, _. split; [reflexivity|]. split; [constructor|split; reflexivity]. }
  destruct (foldM_visitPrompt_cases (JS.spread [] (VObj store)) [] s (Forall_nil _))
    as ([validPrompts|m] & s1 & -> & H1 & Hres).
  2:{ eexists _, _. split; [reflexivity|]. split; [constructor|exact H1]. }
  set (filters' := if JS.is_undefined filters then VObj [] else filters).
  destruct (JS.is_nullish filters').
  { eexists _, _. split; [reflexivity|]. split; [constructor|exact H1]. }
  destruct (0 <? length (JS.own_props filters'))%nat.
  2:{ eexists _, _. split; [reflexivity|]. split; [exact Hres|exact H1]. }
  unfold lift, applyFilters.
  destruct (filterChain matchesSomeTag (VObj validPrompts) filters') as [out|m] eqn:Hf.
  2:{ eexists _, _. split; [reflexivity|]. split; [constructor|exact H1]. }
  eexists _, _. split; [reflexivity|]. split; [|exact H1].
  apply Forall_forall. intros kv Hin.
  apply (filterChain_In _ _ _ _ Hf) in Hin. rewrite Forall_forall in Hres.
  apply (Hres _ Hin).
Qed.

Lemma lookup_delete (k k' : string) (ps : props) :
  NoDup (keys ps) ->
  JS.lookup k' (JS.delete k ps) = if k' =? k then None else JS.lookup k' ps.
Proof.
  induction ps as [|[k0 v0] ps IH]; simpl; intros Hnd.
  - destruct (k' =? k); reflexivity.
  - inversion Hnd as [|? ? Hnot Hnd']; subst.
    destruct (k =? k0) eqn:E.
    + apply String.eqb_eq in E. subst k0.
      destruct (k' =? k) eqn:E'; [|reflexivity].
      apply String.eqb_eq in E'. subst k'. apply lookup_None_keys, Hnot.
    + simpl. rewrite IH by exact Hnd'.
      destruct (k' =? k0) eqn:E0; [|reflexivity].
      apply String.eqb_eq in E0. subst k0.
      rewrite String.eqb_sym, E. reflexivity.
Qed.

Lemma length_delete (k : string) (v : value) (ps : props) :
  JS.lookup k ps = Some v -> S (length (JS.delete k ps)) = length ps.
Proof.
  induction ps as [|[k0 v0] ps IH]; simpl; [discriminate|].
  destruct (k =? k0); [reflexivity|].
  intros H. simpl. rewrite IH by exact H. reflexivity.
Qed.

Lemma delete_absent (k : string) (ps : props) :
  JS.lookup k ps = None -> JS.delete k ps = ps.
Proof.
  induction ps as [|[k0 v0] ps IH]; simpl; [reflexivity|].
  destruct (k =? k0); [discriminate|].
  intros H. rewrite IH by exact H. reflexivity.
Qed.

Lemma delete_set_new (k : string) (v : value) (ps : props) :
  JS.lookup k ps = None -> JS.delete k (JS.set k v ps) = ps.
Proof.
  intros Hk. unfold JS.set, JS.has. rewrite Hk.
  destruct (JS.index_of_key k) as [n|].
  - induction ps as [|[k0 v0] ps IH]; simpl.
    + rewrite String.eqb_refl. reflexivity.
    + simpl in Hk. destruct (k =? k0) eqn:E; [discriminate|].
      destruct (JS.index_of_key k0) as [m|]; [destruct (m <? n)%N|]; simpl;
        rewrite ?E, ?String.eqb_refl; try reflexivity.
      rewrite IH by exact Hk. reflexivity.
  - induction ps as [|[k0 v0] ps IH]; simpl.
    + rewrite String.eqb_refl. reflexivity.
    + simpl in Hk. destruct (k =? k0) eqn:E; [discriminate|].
      rewrite IH by exact Hk. reflexivity.
Qed.

Lemma lookup_put_other (k k' : string) (v : value) (ps : props) :
  k' <> k -> JS.lookup k' (JS.put k v ps) = JS.lookup k' ps.
Proof.
  intros Hk. unfold JS.put. destruct (_ && _); [reflexivity|].
  rewrite lookup_set. apply String.eqb_neq in Hk. rewrite Hk. reflexivity.
Qed.

Lemma valid_store_truthy (store : props) (k : string) (r : value) :
  valid_store store -> JS.lookup k store = Some r -> is_valid r = true.
Proof.
  intros (_ & Hall & _) Hk. apply lookup_Some_In in Hk.
  rewrite Forall_forall in Hall. apply (Hall (k, r) Hk).
Qed.

(** [loadPrompt] on a store of valid records: the record under the id, as
    it is, or [null]; nothing changes. *)
Lemma loadPrompt_valid (id : string) (s : state) :
  valid_store (stored s) -> own_key id ->
  loadPrompt (VStr id) s =
    (Ok match JS.lookup id (stored s) with Some r => r | None => VNull end, s).
Proof.
  intros Hstore Hkey. unfold loadPrompt, try_catch, bind, get_state, stored in *.
  destruct (prompts s) as [store|] eqn:Hs; [|reflexivity].
  cbn [JS.to_string]. rewrite (prop_own_key id store Hkey).
  destruct (JS.lookup id store) as [r|] eqn:Hr; [|reflexivity].
  pose proof (valid_store_truthy _ _ _ Hstore Hr) as Hv.
  rewrite (is_valid_truthy _ Hv). simpl. unfold lift, is_valid in *.
  destruct (validatePromptData r) as [v|m]; [|discriminate].
  rewrite Hv. reflexivity.
Qed.

(** [loadPrompt] of a record that is in the store, whatever its id is. *)
Lemma loadPrompt_stored (id : string) (r : value) (s : state) :
  valid_store (stored s) -> JS.lookup id (stored s) = Some r ->
  loadPrompt (VStr id) s = (Ok r, s).
Proof.
  intros Hstore Hr. unfold loadPrompt, try_catch, bind, get_state, stored in *.
  destruct (prompts s) as [store|] eqn:Hs; [|discriminate].
  cbn [JS.to_string]. rewrite (prop_own id r store Hr).
  pose proof (valid_store_truthy _ _ _ Hstore Hr) as Hv.
  rewrite (is_valid_truthy _ Hv). simpl. unfold lift, is_valid in *.
  destruct (validatePromptData r) as [v|m]; [|discriminate].
  rewrite Hv. reflexivity.
Qed.

(** What [savePrompt] does on a store of valid records: it fails and
    leaves the store, or it has validated the record that
    [createPromptData] built and assigns it under its id. *)
Lemma savePrompt_created (promptData : value) (s : state) :
  valid_store (stored s) ->
  exists result s',
    savePrompt promptData s = (Ok result, s') /\
    same_settings s s' /\
    ((JS.prop result "success" = VBool false /\ prompts s' = prompts s) \/
     (exists complete cid s1,
         createPromptData promptData s = (Ok complete, s1) /\
         result = VObj [("success", VBool true);
                        ("promptData", complete);
                        ("message", VStr "Prompt saved successfully")] /\
         is_valid complete = true /\
         JS.prop complete "id" = VStr cid /\
         stored s' = JS.put cid complete (stored s))).
Proof.
  intros Hstore. unfold savePrompt, try_catch, bind.
  destruct (createPromptData promptData s) as [[complete|m] s1] eqn:Hc;
    destruct (createPromptData_frame _ _ _ _ Hc) as (Hp & Hm & Hcp).
  2:{ eexists _, _. split; [reflexivity|]. split; [split; assumption|].
      left. split; [reflexivity|exact Hp]. }
  assert (Hst : stored s1 = stored s) by (unfold stored; rewrite Hp; reflexivity).
  unfold lift.
  destruct (validatePromptData complete) as [validation|m] eqn:Hv.
  2:{ eexists _, _. split; [reflexivity|]. split; [split; assumption|].
      left. split; [reflexivity|exact Hp]. }
  destruct (isValid validation) eqn:Hvalid; cbn [negb].
  2:{ unfold throw. eexists _, _. split; [reflexivity|]. split; [split; assumption|].
      left. split; [reflexivity|exact Hp]. }
  assert (Hstore1 : valid_store (stored s1)) by (rewrite Hst; exact Hstore).
  destruct (getPrompts_valid s1 Hstore1) as (current & Hget & _).
  rewrite Hget. unfold get_state.
  assert (Hcv : is_valid complete = true) by (unfold is_valid; rewrite Hv; exact Hvalid).
  destruct (is_valid_inv _ Hcv) as [_ [cid [Hcid _]] _ _ _ _ _ _ _ _ _ _].
  rewrite Hcid. cbn [JS.to_string].
  destruct (_ && _).
  - unfold throw. eexists _, _. split; [reflexivity|]. split; [split; assumption|].
    left. split; [reflexivity|exact Hp].
  - rewrite store_set_run. unfold ret. eexists _, _. split; [reflexivity|].
    split; [split; assumption|].
    right. exists complete, cid, s1. rewrite Hst.
    repeat split; assumption.
Qed.

Lemma savePrompt_cases (promptData : value) (s : state) :
  valid_store (stored s) ->
  exists result s',
    savePrompt promptData s = (Ok result, s') /\
    same_settings s s' /\
    ((JS.prop result "success" = VBool false /\ prompts s' = prompts s) \/
     (exists complete cid,
         result = VObj [("success", VBool true);
                        ("promptData", complete);
                        ("message", VStr "Prompt saved successfully")] /\
         is_valid complete = true /\
         JS.prop complete "id" = VStr cid /\
         stored s' = JS.put cid complete (stored s))).
Proof.
  intros Hstore.
  destruct (savePrompt_created promptData s Hstore)
    as (result & s' & Hrun & Hset & [Hfail|(complete & cid & s1 & _ & H)]).
  - exists result, s'. split; [exact Hrun|]. split; [exact Hset|]. left. exact Hfail.
  - exists result, s'. split; [exact Hrun|]. split; [exact Hset|]. right.
    exists complete, cid. exact H.
Qed.

End StoreOperations.

(** X1: [repairPromptData] never throws: from every state and on every
    input it returns [null] or a record that [validatePromptData] reports
    valid, and it changes nothing but the clock. *)
Theorem repairPromptData_null_or_valid {host : Host} (promptData : value) (s : state) :
  exists repaired s',
    repairPromptData promptData s = (Ok repaired, s') /\
    (repaired = VNull \/ is_valid repaired = true) /\
    same_store s s'.
Proof. apply repairPromptData_cases. Qed.

(** X2: [getPrompts] never throws, whatever the store holds and whatever
    the filters are, and every record in the object it returns is one that
    [validatePromptData] reports valid. *)
Theorem getPrompts_only_valid {host : Host} (filters : value) (s : state) :
  exists out s',
    getPrompts filters s = (Ok (VObj out), s') /\
    forall id p, In (id, p) out -> is_valid p = true.
Proof.
  destruct (getPrompts_cases filters s) as (out & s' & Hrun & Hvalid & _).
  exists out, s'. split; [exact Hrun|].
  intros id p Hin. rewrite Forall_forall in Hvalid. apply (Hvalid (id, p) Hin).
Qed.

(** X3: on a store of valid records, [loadPrompt] returns the record kept
    under the id, as it is, and [null] for an id that is not in the store;
    the state stays as it was. (The id names no member of
    [Object.prototype].) *)
Theorem loadPrompt_returns_stored {host : Host} (id : string) (s : state) :
  valid_store (stored s) -> own_key id ->
  (forall r, JS.lookup id (stored s) = Some r -> loadPrompt (VStr id) s = (Ok r, s)) /\
  (JS.lookup id (stored s) = None -> loadPrompt (VStr id) s = (Ok VNull, s)).
Proof.
  intros Hstore Hkey. pose proof (loadPrompt_valid id s Hstore Hkey) as H.
  split.
  - intros r Hr. rewrite Hr in H. exact H.
  - intros Hr. rewrite Hr in H. exact H.
Qed.

Lemma loadPrompt_returns_stored_witness :
  valid_store (host := UTC.host) (stored Sample.full) /\ own_key "p1" /\
  (forall r, JS.lookup "p1" (stored Sample.full) = Some r ->
             loadPrompt (host := UTC.host) (VStr "p1") Sample.full = (Ok r, Sample.full)) /\
  (JS.lookup "p1" (stored Sample.full) = None ->
   loadPrompt (host := UTC.host) (VStr "p1") Sample.full = (Ok VNull, Sample.full)).
Proof.
  split; [exact Sample_full_valid|]. split; [reflexivity|].
  apply (loadPrompt_returns_stored (host := UTC.host) "p1" Sample.full).
  - exact Sample_full_valid.
  - reflexivity.
Defined.

(** X4: what [savePrompt] reports as saved can be loaded back: after a
    successful save on a store of valid records, [loadPrompt] of the id of
    the saved record returns that record. *)
Theorem savePrompt_then_loadPrompt {host : Host}
    (promptData result : value) (id : string) (s s' : state) :
  valid_store (stored s) ->
  savePrompt promptData s = (Ok result, s') ->
  JS.prop result "success" = VBool true ->
  JS.prop (JS.prop result "promptData") "id" = VStr id ->
  id <> "__proto__" ->
  loadPrompt (VStr id) s' = (Ok (JS.prop result "promptData"), s').
Proof.
  intros Hstore Hrun Hok Hid Hproto.
  destruct (savePrompt_cases promptData s Hstore)
    as (result' & s1 & Hrun' & _ & [[Hfail _]|(complete & cid & -> & Hv & Hcid & Hst)]);
    rewrite Hrun in Hrun'; injection Hrun' as -> ->.
  - rewrite Hok in Hfail. discriminate.
  - cbn in Hid |- *. rewrite Hcid in Hid. injection Hid as ->.
    apply loadPrompt_stored.
    + rewrite Hst. apply valid_store_put; assumption.
    + rewrite Hst, (put_set id complete _ Hproto), lookup_set, String.eqb_refl.
      reflexivity.
Qed.

Lemma savePrompt_then_loadPrompt_witness :
  exists result s',
    valid_store (host := UTC.host) (stored Sample.full) /\
    savePrompt (host := UTC.host) Sample.edited Sample.full = (Ok result, s') /\
    JS.prop result "success" = VBool true /\
    JS.prop (JS.prop result "promptData") "id" = VStr "p1" /\
    "p1" <> "__proto__" /\
    loadPrompt (host := UTC.host) (VStr "p1") s' = (Ok (JS.prop result "promptData"), s').
Proof.
  eexists _, _.
  split; [exact Sample_full_valid|].
  split; [vm_compute; reflexivity|].
  split; [reflexivity|]. split; [reflexivity|]. split; [discriminate|].
  eapply (savePrompt_then_loadPrompt (host := UTC.host) Sample.edited _ "p1" Sample.full).
  - exact Sample_full_valid.
  - vm_compute. reflexivity.
  - reflexivity.
  - reflexivity.
  - discriminate.
Defined.

(** X5: [deletePrompt] of an id that is in the store succeeds and removes
    that record and no other: the id is no longer in the store, every
    other id keeps its record, and the store holds one record less. *)
Theorem deletePrompt_removes_one {host : Host} (id : string) (r : value) (s : state) :
  valid_store (stored s) ->
  JS.lookup id (stored s) = Some r ->
  exists s',
    deletePrompt (VStr id) s =
      (Ok (VObj [("success", VBool true);
                 ("message", VStr "Prompt deleted successfully")]), s') /\
    JS.lookup id (stored s') = None /\
    (forall k, k <> id -> JS.lookup k (stored s') = JS.lookup k (stored s)) /\
    S (length (stored s')) = length (stored s) /\
    same_settings s s'.
Proof.
  intros Hstore Hr. pose proof Hstore as (Hnd & _ & _).
  pose proof (is_valid_truthy _ (valid_store_truthy _ _ _ Hstore Hr)) as Ht.
  unfold deletePrompt, try_catch, bind, get_state, stored in *.
  destruct (prompts s) as [store|] eqn:Hs; [|discriminate].
  cbn [JS.to_string]. rewrite (prop_own id r store Hr), Ht. cbn [negb].
  rewrite store_delete_run. unfold ret. rewrite Hs. cbn [option_map prompts].
  eexists. split; [reflexivity|]. cbn [prompts].
  split; [rewrite (lookup_delete id id store Hnd), String.eqb_refl; reflexivity|].
  split.
  { intros k Hk. rewrite (lookup_delete id k store Hnd).
    apply String.eqb_neq in Hk. rewrite Hk. reflexivity. }
  split; [apply (length_delete id r store Hr)|split; reflexivity].
Qed.

Lemma deletePrompt_removes_one_witness :
  valid_store (host := UTC.host) (stored Sample.full) /\
  JS.lookup "p1" (stored Sample.full) = Some Sample.greeting /\
  exists s',
    deletePrompt (VStr "p1") Sample.full =
      (Ok (VObj [("success", VBool true);
                 ("message", VStr "Prompt deleted successfully")]), s') /\
    JS.lookup "p1" (stored s') = None /\
    (forall k, k <> "p1" -> JS.lookup k (stored s') = JS.lookup k (stored Sample.full)) /\
    S (length (stored s')) = length (stored Sample.full) /\
    same_settings Sample.full s'.
Proof.
  split; [exact Sample_full_valid|]. split; [reflexivity|].
  apply (deletePrompt_removes_one (host := UTC.host) "p1" Sample.greeting Sample.full).
  - exact Sample_full_valid.
  - reflexivity.
Defined.

(** X6: [deletePrompt] of an id that is not in the store changes nothing.
    It reports ['Prompt not found'], unless the id names a member of
    [Object.prototype] (such as [constructor]): the test
    [prompts?.[promptId]] then reads the inherited member, and the report
    is a success although nothing was deleted. *)
Theorem deletePrompt_absent (id : string) (store : props) (s : state) :
  prompts s = Some store ->
  JS.lookup id store = None ->
  deletePrompt (VStr id) s =
    (Ok (if JS.mem id JS.object_members
         then VObj [("success", VBool true);
                    ("message", VStr "Prompt deleted successfully")]
         else VObj [("success", VBool false);
                    ("error", VStr "Prompt not found");
                    ("message", VStr "Prompt does not exist")]), s).
Proof.
  intros Hs Hid. unfold deletePrompt, try_catch, bind, get_state.
  rewrite Hs. cbn [JS.to_string].
  unfold JS.prop, JS.own, JS.own_props, JS.inherited. rewrite Hid.
  rewrite orb_false_r.
  destruct (JS.mem id JS.object_members); cbn [JS.truthy negb].
  - rewrite store_delete_run. unfold ret. rewrite Hs. cbn [option_map].
    rewrite (delete_absent id store Hid), <- Hs. destruct s; reflexivity.
  - reflexivity.
Qed.

Lemma deletePrompt_absent_witness :
  prompts Sample.full = Some (stored Sample.full) /\
  JS.lookup "constructor" (stored Sample.full) = None /\
  deletePrompt (VStr "constructor") Sample.full =
    (Ok (if JS.mem "constructor" JS.object_members
         then VObj [("success", VBool true);
                    ("message", VStr "Prompt deleted successfully")]
         else VObj [("success", VBool false);
                    ("error", VStr "Prompt not found");
                    ("message", VStr "Prompt does not exist")]), Sample.full).
Proof.
  split; [reflexivity|]. split; [reflexivity|].
  apply (deletePrompt_absent "constructor" (stored Sample.full) Sample.full);
    reflexivity.
Defined.

(** X7: saving a record under a new id and deleting that id again leaves
    the store as it was before the save. *)
Theorem savePrompt_then_deletePrompt {host : Host}
    (promptData result : value) (id : string) (s s1 : state) :
  valid_store (stored s) ->
  savePrompt promptData s = (Ok result, s1) ->
  JS.prop result "success" = VBool true ->
  JS.prop (JS.prop result "promptData") "id" = VStr id ->
  JS.lookup id (stored s) = None ->
  id <> "__proto__" ->
  exists s2,
    deletePrompt (VStr id) s1 =
      (Ok (VObj [("success", VBool true);
                 ("message", VStr "Prompt deleted successfully")]), s2) /\
    stored s2 = stored s.
Proof.
  intros Hstore Hrun Hok Hid Hnew Hproto.
  destruct (savePrompt_cases promptData s Hstore)
    as (result' & s1' & Hrun' & _ & [[Hfail _]|(complete & cid & -> & Hv & Hcid & Hst)]);
    rewrite Hrun in Hrun'; injection Hrun' as -> ->.
  - rewrite Hok in Hfail. discriminate.
  - cbn in Hid. rewrite Hcid in Hid. injection Hid as ->.
    rewrite (put_set id complete _ Hproto) in Hst.
    assert (Hstore1 : valid_store (stored s1'))
      by (rewrite Hst; apply valid_store_set; assumption).
    assert (Hr : JS.lookup id (stored s1') = Some complete)
      by (rewrite Hst, lookup_set, String.eqb_refl; reflexivity).
    pose proof (is_valid_truthy _ Hv) as Ht.
    unfold deletePrompt, try_catch, bind, get_state.
    unfold stored in Hr, Hst.
    destruct (prompts s1') as [store1|] eqn:Hs1; [|discriminate].
    cbn [JS.to_string]. rewrite (prop_own id complete store1 Hr), Ht. cbn [negb].
    rewrite store_delete_run. unfold ret. rewrite Hs1. cbn [option_map].
    eexists. split; [reflexivity|].
    unfold stored at 1. cbn [prompts]. rewrite Hst.
    apply delete_set_new, Hnew.
Qed.

Lemma savePrompt_then_deletePrompt_witness :
  exists result s1,
    valid_store (host := UTC.host) (stored Sample.roomy) /\
    savePrompt (host := UTC.host) Sample.persona Sample.roomy = (Ok result, s1) /\
    JS.prop result "success" = VBool true /\
    JS.prop (JS.prop result "promptData") "id" = VStr "p3" /\
    JS.lookup "p3" (stored Sample.roomy) = None /\
    "p3" <> "__proto__" /\
    exists s2,
      deletePrompt (VStr "p3") s1 =
        (Ok (VObj [("success", VBool true);
                   ("message", VStr "Prompt deleted successfully")]), s2) /\
      stored s2 = stored Sample.roomy.
Proof.
  eexists _, _.
  split; [exact Sample_full_valid|].
  split; [vm_compute; reflexivity|].
  split; [reflexivity|]. split; [reflexivity|]. split; [reflexivity|].
  split; [discriminate|].
  eapply (savePrompt_then_deletePrompt (host := UTC.host) Sample.persona _ "p3"
            Sample.roomy).
  - exact Sample_full_valid.
  - vm_compute. reflexivity.
  - reflexivity.
  - reflexivity.
  - reflexivity.
  - discriminate.
Defined.

(** X8: [savePrompt] keeps the store one of valid records, whatever it is
    given: it returns a result, and either reports a failure and leaves the
    store as it was, or reports as saved a record that [validatePromptData]
    reports valid, which the store then holds under the record's id, the
    record of every other id being as it was. The one id under which a
    reported record is not stored is [__proto__]: the assignment sets no
    property, and the store is as it was. *)
Theorem savePrompt_keeps_store_valid {host : Host} (promptData : value) (s : state) :
  valid_store (stored s) ->
  exists result s',
    savePrompt promptData s = (Ok result, s') /\
    valid_store (stored s') /\
    ((JS.prop result "success" = VBool false /\ stored s' = stored s) \/
     (JS.prop result "success" = VBool true /\
      is_valid (JS.prop result "promptData") = true /\
      exists id,
        JS.prop (JS.prop result "promptData") "id" = VStr id /\
        (id <> "__proto__" ->
         JS.lookup id (stored s') = Some (JS.prop result "promptData")) /\
        (id = "__proto__" -> stored s' = stored s) /\
        forall k, k <> id -> JS.lookup k (stored s') = JS.lookup k (stored s))).
Proof.
  intros Hstore.
  destruct (savePrompt_cases promptData s Hstore)
    as (result & s' & Hrun & _ & [[Hfail Hp]|(complete & cid & -> & Hv & Hcid & Hst)]).
  - exists result, s'. split; [exact Hrun|].
    assert (Hst : stored s' = stored s) by (unfold stored; rewrite Hp; reflexivity).
    split; [rewrite Hst; exact Hstore|]. left. split; assumption.
  - eexists _, s'. split; [exact Hrun|].
    split; [rewrite Hst; apply valid_store_put; assumption|].
    right. split; [reflexivity|]. split; [exact Hv|].
    exists cid. split; [exact Hcid|]. split; [|split].
    + intros Hproto. rewrite Hst, (put_set cid complete _ Hproto), lookup_set,
        String.eqb_refl. reflexivity.
    + intros ->. rewrite Hst. unfold JS.put, JS.has.
      destruct Hstore as (_ & _ & Hproto).
      rewrite (proj2 (lookup_None_keys _ _) Hproto). reflexivity.
    + intros k Hk. rewrite Hst. apply lookup_put_other, Hk.
Qed.

(** The theorem at the sample record [persona], saved into a store with
    room for it: the call reports success. *)
Lemma savePrompt_keeps_store_valid_witness :
  valid_store (host := UTC.host) (stored Sample.roomy) /\
  fst (savePrompt (host := UTC.host) Sample.persona Sample.roomy) =
    Ok (VObj [("success", VBool true);
              ("promptData", Sample.persona);
              ("message", VStr "Prompt saved successfully")]) /\
  exists result s',
    savePrompt (host := UTC.host) Sample.persona Sample.roomy = (Ok result, s') /\
    valid_store (host := UTC.host) (stored s') /\
    ((JS.prop result "success" = VBool false /\ stored s' = stored Sample.roomy) \/
     (JS.prop result "success" = VBool true /\
      is_valid (host := UTC.host) (JS.prop result "promptData") = true /\
      exists id,
        JS.prop (JS.prop result "promptData") "id" = VStr id /\
        (id <> "__proto__" ->
         JS.lookup id (stored s') = Some (JS.prop result "promptData")) /\
        (id = "__proto__" -> stored s' = stored Sample.roomy) /\
        forall k, k <> id -> JS.lookup k (stored s') = JS.lookup k (stored Sample.roomy))).
Proof.
  split; [exact Sample_full_valid|].
  split; [vm_compute; reflexivity|].
  apply (savePrompt_keeps_store_valid (host := UTC.host) Sample.persona Sample.roomy).
  exact Sample_full_valid.
Defined.

(** Under the id [__proto__] [savePrompt] reports success and stores
    nothing. *)
Lemma savePrompt_proto_id :
  exists result s',
    savePrompt (host := UTC.host)
      (Sample.record "__proto__" "Proto" "Stored nowhere" "user" false VNull [])
      Sample.roomy = (Ok result, s') /\
    JS.prop result "success" = VBool true /\
    stored s' = stored Sample.roomy.
Proof. eexists _, _. split; [vm_compute; reflexivity|]. split; reflexivity. Qed.

Section MetadataUpdates.

Context {host : Host}.

Lemma replace_replace (k : string) (v w : value) (ps : props) :
  JS.replace k w (JS.replace k v ps) = JS.replace k w ps.
Proof.
  induction ps as [|[k0 v0] ps IH]; simpl; [reflexivity|].
  destruct (k =? k0) eqn:E; simpl.
  - rewrite String.eqb_refl. reflexivity.
  - rewrite E, IH. reflexivity.
Qed.

Lemma has_replace (k : string) (v : value) (ps : props) :
  JS.has k ps = true -> JS.has k (JS.replace k v ps) = true.
Proof.
  unfold JS.has. intros H. rewrite lookup_replace. unfold JS.has.
  destruct (JS.lookup k ps); [|discriminate]. rewrite String.eqb_refl. reflexivity.
Qed.

Lemma put_stored (k : string) (v r : value) (ps : props) :
  JS.lookup k ps = Some r -> JS.put k v ps = JS.replace k v ps.
Proof.
  intros H. unfold JS.put, JS.set, JS.has. rewrite H.
  rewrite andb_false_r. reflexivity.
Qed.

Lemma lookup_replace_stored (k k' : string) (v r : value) (ps : props) :
  JS.lookup k ps = Some r ->
  JS.lookup k' (JS.replace k v ps) = if k' =? k then Some v else JS.lookup k' ps.
Proof.
  intros H. rewrite lookup_replace. unfold JS.has. rewrite H. reflexivity.
Qed.

(** [updatePromptMetadata] on a record of a store of valid records: the
    rebuilt record is written to the store before it is validated. *)
Lemma updatePromptMetadata_run (id : string) (r metadata : value) (s : state) :
  valid_store (stored s) ->
  JS.lookup id (stored s) = Some r ->
  exists validation,
    validatePromptData (withMetadata r metadata) = Ok validation /\
    updatePromptMetadata (VStr id) metadata s =
      (Ok (if isValid validation
           then VObj [("success", VBool true);
                      ("promptData", withMetadata r metadata);
                      ("message", VStr "Prompt metadata updated successfully")]
           else VObj [("success", VBool false);
                      ("error", VStr ("Validation failed: " ++
                                      Str.join ", " (errors validation))%string);
                      ("message", VStr "Invalid metadata update")]),
       mkState (Some (JS.replace id (withMetadata r metadata) (stored s)))
               (max_prompts s) (completion_preset s) (tick s)).
Proof.
  intros Hstore Hr.
  pose proof (is_valid_truthy _ (valid_store_truthy _ _ _ Hstore Hr)) as Ht.
  unfold updatePromptMetadata, try_catch, bind.
  rewrite (loadPrompt_stored id r s Hstore Hr), Ht. cbn [negb JS.to_string].
  fold (withMetadata r metadata).
  rewrite store_set_run. unfold lift.
  destruct (validatePromptData (withMetadata r metadata)) as [validation|m] eqn:Hv.
  2:{ unfold validatePromptData, get in Hv. discriminate. }
  exists validation. split; [reflexivity|].
  rewrite (put_stored id _ r _ Hr).
  destruct (isValid validation); cbn [negb].
  - rewrite store_set_run. unfold ret, stored at 1. cbn [prompts].
    assert (Hr' : JS.lookup id (JS.replace id (withMetadata r metadata) (stored s)) =
                  Some (withMetadata r metadata)).
    { rewrite (lookup_replace_stored id id _ r _ Hr), String.eqb_refl. reflexivity. }
    rewrite (put_stored id _ _ _ Hr'), replace_replace. reflexivity.
  - reflexivity.
Qed.

End MetadataUpdates.

(** X9: an accepted [updatePromptMetadata] changes the metadata of that
    record and nothing else. When the record with the update spread over
    its metadata validates, the call succeeds; afterwards the store holds
    that record under the id, every other id keeps its record, every field
    of the record but [metadata] is as before, and each metadata property
    has the value the update gives it, or else the value it had. *)
Theorem updatePromptMetadata_merges {host : Host}
    (id : string) (ps : props) (metadata : value) (s : state) :
  valid_store (stored s) ->
  JS.lookup id (stored s) = Some (VObj ps) ->
  NoDup (keys (JS.own_props (JS.prop (VObj ps) "metadata"))) ->
  NoDup (keys (JS.own_props metadata)) ->
  is_valid (withMetadata (VObj ps) metadata) = true ->
  exists updated s',
    updatePromptMetadata (VStr id) metadata s =
      (Ok (VObj [("success", VBool true);
                 ("promptData", updated);
                 ("message", VStr "Prompt metadata updated successfully")]), s') /\
    JS.lookup id (stored s') = Some updated /\
    (forall k, k <> id -> JS.lookup k (stored s') = JS.lookup k (stored s)) /\
    (forall k, k <> "metadata" -> JS.prop updated k = JS.prop (VObj ps) k) /\
    (forall k,
        JS.lookup k (JS.own_props (JS.prop updated "metadata")) =
        match JS.lookup k (JS.own_props metadata) with
        | Some v => Some v
        | None => JS.lookup k (JS.own_props (JS.prop (VObj ps) "metadata"))
        end).
Proof.
  intros Hstore Hr Hnd0 Hnd Hv.
  destruct (updatePromptMetadata_run id (VObj ps) metadata s Hstore Hr)
    as (validation & Hval & Hrun).
  unfold is_valid in Hv. rewrite Hval in Hv. rewrite Hv in Hrun.
  eexists _, _. split; [exact Hrun|].
  rewrite !(stored_set_prompts s).
  split; [rewrite (lookup_replace_stored id id _ _ _ Hr), String.eqb_refl; reflexivity|].
  split.
  { intros k Hk. rewrite (lookup_replace_stored id k _ _ _ Hr).
    apply String.eqb_neq in Hk. rewrite Hk. reflexivity. }
  split.
  { intros k Hk. unfold withMetadata, JS.prop, JS.own, JS.own_props, JS.inherited.
    rewrite lookup_set. apply String.eqb_neq in Hk. rewrite Hk. reflexivity. }
  intros k.
  assert (Hm : JS.prop (withMetadata (VObj ps) metadata) "metadata" =
               VObj (JS.spread (JS.spread [] (JS.prop (VObj ps) "metadata")) metadata)).
  { unfold withMetadata. apply prop_own. rewrite lookup_set, String.eqb_refl.
    reflexivity. }
  rewrite Hm. cbn [JS.own_props]. unfold JS.spread at 1.
  rewrite (lookup_assign k _ _ Hnd).
  destruct (JS.lookup k (JS.own_props metadata)); [reflexivity|].
  unfold JS.spread. fold (JS.literal (JS.own_props (JS.prop (VObj ps) "metadata"))).
  apply lookup_literal, Hnd0.
Qed.

(** X10: a rejected [updatePromptMetadata] has already changed the store.
    [loadPrompt] hands out the stored object and the update is assigned to
    its [metadata] before it is validated: when the rebuilt record does not
    validate, the call reports ['Invalid metadata update'] and the store
    holds the rebuilt, invalid record under the id. *)
Theorem updatePromptMetadata_rejected_writes {host : Host}
    (id : string) (r metadata : value) (s : state) :
  valid_store (stored s) ->
  JS.lookup id (stored s) = Some r ->
  is_valid (withMetadata r metadata) = false ->
  exists result s',
    updatePromptMetadata (VStr id) metadata s = (Ok result, s') /\
    JS.prop result "success" = VBool false /\
    JS.prop result "message" = VStr "Invalid metadata update" /\
    JS.lookup id (stored s') = Some (withMetadata r metadata) /\
    withMetadata r metadata <> r /\
    ~ valid_store (stored s').
Proof.
  intros Hstore Hr Hv.
  destruct (updatePromptMetadata_run id r metadata s Hstore Hr)
    as (validation & Hval & Hrun).
  unfold is_valid in Hv. rewrite Hval in Hv. rewrite Hv in Hrun.
  eexists _, _. split; [exact Hrun|].
  split; [reflexivity|]. split; [reflexivity|].
  assert (Hl : JS.lookup id (JS.replace id (withMetadata r metadata) (stored s)) =
               Some (withMetadata r metadata)).
  { rewrite (lookup_replace_stored id id _ _ _ Hr), String.eqb_refl. reflexivity. }
  rewrite !(stored_set_prompts s).
  split; [exact Hl|].
  assert (Hinv : is_valid (withMetadata r metadata) = false)
    by (unfold is_valid; rewrite Hval; exact Hv).
  split.
  - intros E. rewrite E in Hinv.
    rewrite (valid_store_truthy _ _ _ Hstore Hr) in Hinv. discriminate.
  - intros Hbad. rewrite (valid_store_truthy _ _ _ Hbad Hl) in Hinv. discriminate.
Qed.

Lemma updatePromptMetadata_merges_witness :
  valid_store (host := UTC.host) (stored Sample.full) /\
  JS.lookup "p1" (stored Sample.full) = Some (VObj (JS.own_props Sample.greeting)) /\
  NoDup (keys (JS.own_props (JS.prop (VObj (JS.own_props Sample.greeting)) "metadata"))) /\
  NoDup (keys (JS.own_props Fixture.retag)) /\
  is_valid (host := UTC.host)
    (withMetadata (VObj (JS.own_props Sample.greeting)) Fixture.retag) = true /\
  exists updated s',
    updatePromptMetadata (host := UTC.host) (VStr "p1") Fixture.retag Sample.full =
      (Ok (VObj [("success", VBool true);
                 ("promptData", updated);
                 ("message", VStr "Prompt metadata updated successfully")]), s') /\
    JS.lookup "p1" (stored s') = Some updated /\
    (forall k, k <> "p1" -> JS.lookup k (stored s') = JS.lookup k (stored Sample.full)) /\
    (forall k, k <> "metadata" ->
               JS.prop updated k = JS.prop (VObj (JS.own_props Sample.greeting)) k) /\
    (forall k,
        JS.lookup k (JS.own_props (JS.prop updated "metadata")) =
        match JS.lookup k (JS.own_props Fixture.retag) with
        | Some v => Some v
        | None => JS.lookup k (JS.own_props
                                 (JS.prop (VObj (JS.own_props Sample.greeting)) "metadata"))
        end).
Proof.
  assert (H1 : NoDup (keys (JS.own_props
                (JS.prop (VObj (JS.own_props Sample.greeting)) "metadata")))).
  { repeat constructor; simpl; intuition discriminate. }
  assert (H2 : NoDup (keys (JS.own_props Fixture.retag))).
  { repeat constructor; simpl; intuition discriminate. }
  split; [exact Sample_full_valid|]. split; [reflexivity|].
  split; [exact H1|]. split; [exact H2|]. split; [vm_compute; reflexivity|].
  apply (updatePromptMetadata_merges (host := UTC.host) "p1"
           (JS.own_props Sample.greeting) Fixture.retag Sample.full).
  - exact Sample_full_valid.
  - reflexivity.
  - exact H1.
  - exact H2.
  - vm_compute. reflexivity.
Defined.

Lemma updatePromptMetadata_rejected_writes_witness :
  valid_store (host := UTC.host) (stored Sample.full) /\
  JS.lookup "p1" (stored Sample.full) = Some Sample.greeting /\
  is_valid (host := UTC.host) (withMetadata Sample.greeting Fixture.mistyped) = false /\
  exists result s',
    updatePromptMetadata (host := UTC.host) (VStr "p1") Fixture.mistyped Sample.full =
      (Ok result, s') /\
    JS.prop result "success" = VBool false /\
    JS.prop result "message" = VStr "Invalid metadata update" /\
    JS.lookup "p1" (stored s') = Some (withMetadata Sample.greeting Fixture.mistyped) /\
    withMetadata Sample.greeting Fixture.mistyped <> Sample.greeting /\
    ~ valid_store (host := UTC.host) (stored s').
Proof.
  split; [exact Sample_full_valid|]. split; [reflexivity|].
  split; [vm_compute; reflexivity|].
  apply (updatePromptMetadata_rejected_writes (host := UTC.host) "p1" Sample.greeting
           Fixture.mistyped Sample.full).
  - exact Sample_full_valid.
  - reflexivity.
  - vm_compute. reflexivity.
Defined.

Section Favorites.

Context {host : Host}.

Lemma withMetadata_favorite (b : bool) (r : promptRecord) :
  withMetadata (encode r) (VObj [("favorite", VBool b)]) = encode (set_favorite b r).
Proof. reflexivity. Qed.

Lemma is_valid_set_favorite (b : bool) (r : promptRecord) :
  is_valid (encode (set_favorite b r)) = is_valid (encode r).
Proof. reflexivity. Qed.

(** One [toggleFavorite] on a record of the data model. *)
Lemma toggleFavorite_run (r : promptRecord) (pre post : props) (s : state) :
  prompts s = Some (pre ++ (r_id r, encode r) :: post) ->
  valid_store (pre ++ (r_id r, encode r) :: post) ->
  toggleFavorite (VStr (r_id r)) s =
    (Ok (VObj [("success", VBool true);
               ("favorite", VBool (negb (r_favorite r)));
               ("message",
                VStr ("Prompt " ++
                      (if negb (r_favorite r) then "added to" else "removed from") ++
                      " favorites")%string)]),
     mkState (Some (pre ++ (r_id r, encode (set_favorite (negb (r_favorite r)) r)) :: post))
             (max_prompts s) (completion_preset s) (tick s)).
Proof.
  intros Hp Hstore.
  assert (Hst : stored s = pre ++ (r_id r, encode r) :: post)
    by (unfold stored; rewrite Hp; reflexivity).
  assert (Hk : ~ In (r_id r) (keys pre)).
  { destruct Hstore as [Hnd _]. rewrite keys_app in Hnd. simpl in Hnd.
    apply NoDup_remove_2 in Hnd. intros Hin. apply Hnd, in_or_app. now left. }
  assert (Hr : JS.lookup (r_id r) (stored s) = Some (encode r))
    by (rewrite Hst; apply lookup_middle, Hk).
  rewrite <- Hst in Hstore.
  unfold toggleFavorite, try_catch, bind.
  rewrite (loadPrompt_stored _ _ s Hstore Hr).
  cbn [JS.truthy encode encode_with negb]. unfold lift.
  change (get (JS.prop (encode r) "metadata") "favorite") with (Ok (VBool (r_favorite r))).
  cbn [JS.truthy].
  destruct (updatePromptMetadata_run (r_id r) (encode r)
              (VObj [("favorite", VBool (negb (r_favorite r)))]) s Hstore Hr)
    as (validation & Hval & ->).
  rewrite withMetadata_favorite in Hval |- *.
  assert (Hv : isValid validation = true).
  { pose proof (valid_store_truthy _ _ _ Hstore Hr) as Hv.
    rewrite <- (is_valid_set_favorite (negb (r_favorite r))) in Hv.
    unfold is_valid in Hv. rewrite Hval in Hv. exact Hv. }
  rewrite Hv. cbn [JS.prop JS.own JS.own_props JS.lookup String.eqb Ascii.eqb Bool.eqb
                   JS.truthy].
  unfold ret. rewrite Hst, (replace_middle _ _ _ _ _ Hk). reflexivity.
Qed.

End Favorites.

(** X11: [toggleFavorite] is its own inverse. On a record of the data
    model in a store of valid records, toggling the favorite flag twice
    reports the negated flag and then the original flag, and leaves the
    state exactly as it was. *)
Theorem toggleFavorite_twice {host : Host}
    (r : promptRecord) (pre post : props) (s : state) :
  prompts s = Some (pre ++ (r_id r, encode r) :: post) ->
  valid_store (pre ++ (r_id r, encode r) :: post) ->
  exists first s1 second,
    toggleFavorite (VStr (r_id r)) s = (Ok first, s1) /\
    JS.prop first "favorite" = VBool (negb (r_favorite r)) /\
    JS.lookup (r_id r) (stored s1) =
      Some (encode (set_favorite (negb (r_favorite r)) r)) /\
    toggleFavorite (VStr (r_id r)) s1 = (Ok second, s) /\
    JS.prop second "favorite" = VBool (r_favorite r).
Proof.
  intros Hp Hstore.
  assert (Hk : ~ In (r_id r) (keys pre)).
  { destruct Hstore as [Hnd _]. rewrite keys_app in Hnd. simpl in Hnd.
    apply NoDup_remove_2 in Hnd. intros Hin. apply Hnd, in_or_app. now left. }
  set (r1 := set_favorite (negb (r_favorite r)) r).
  assert (Hstore1 : valid_store (pre ++ (r_id r1, encode r1) :: post)).
  { apply (valid_store_middle _ (encode r)); [exact Hstore|].
    unfold r1. rewrite is_valid_set_favorite.
    apply (valid_store_truthy _ (r_id r) _ Hstore), lookup_middle, Hk. }
  set (s1 := mkState (Some (pre ++ (r_id r, encode r1) :: post))
                     (max_prompts s) (completion_preset s) (tick s)).
  eexists _, s1, _.
  split; [apply (toggleFavorite_run r pre post s Hp Hstore)|].
  split; [reflexivity|].
  split; [apply lookup_middle, Hk|].
  split.
  - change (r_id r) with (r_id r1) at 1.
    rewrite (toggleFavorite_run r1 pre post s1 eq_refl Hstore1).
    assert (Hback : set_favorite (negb (r_favorite r1)) r1 = r).
    { unfold r1. destruct r. cbn. rewrite negb_involutive. reflexivity. }
    rewrite Hback. change (r_id r1) with (r_id r).
    unfold s1. cbn [max_prompts completion_preset tick]. rewrite <- Hp.
    destruct s; reflexivity.
  - cbn. rewrite negb_involutive. reflexivity.
Qed.

Lemma toggleFavorite_twice_witness :
  prompts Sample.shelf =
    Some ([] ++ (r_id Sample.greetingRecord, encode Sample.greetingRecord)
             :: store_of [Sample.summaryRecord]) /\
  valid_store (host := UTC.host)
    ([] ++ (r_id Sample.greetingRecord, encode Sample.greetingRecord)
        :: store_of [Sample.summaryRecord]) /\
  exists first s1 second,
    toggleFavorite (host := UTC.host) (VStr (r_id Sample.greetingRecord)) Sample.shelf =
      (Ok first, s1) /\
    JS.prop first "favorite" = VBool (negb (r_favorite Sample.greetingRecord)) /\
    JS.lookup (r_id Sample.greetingRecord) (stored s1) =
      Some (encode (set_favorite (negb (r_favorite Sample.greetingRecord))
                      Sample.greetingRecord)) /\
    toggleFavorite (host := UTC.host) (VStr (r_id Sample.greetingRecord)) s1 =
      (Ok second, Sample.shelf) /\
    JS.prop second "favorite" = VBool (r_favorite Sample.greetingRecord).
Proof.
  assert (Hstore : valid_store (host := UTC.host)
            ([] ++ (r_id Sample.greetingRecord, encode Sample.greetingRecord)
                :: store_of [Sample.summaryRecord])).
  { refine (conj _ (conj _ _));
      [repeat constructor; simpl; intuition discriminate
      |repeat constructor
      |simpl; intuition discriminate]. }
  split; [reflexivity|]. split; [exact Hstore|].
  apply (toggleFavorite_twice (host := UTC.host) Sample.greetingRecord []
           (store_of [Sample.summaryRecord]) Sample.shelf).
  - reflexivity.
  - exact Hstore.
Defined.

Section Cleanup.

Context {host : Host}.

Lemma NoDup_delete (k : string) (ps : props) :
  NoDup (keys ps) -> NoDup (keys (JS.delete k ps)).
Proof.
  induction ps as [|[k0 v0] ps IH]; simpl; intros Hnd; [constructor|].
  inversion Hnd as [|? ? Hnot Hnd']; subst.
  destruct (k =? k0); [exact Hnd'|]. simpl. constructor; [|apply IH, Hnd'].
  intros Hin. apply Hnot. apply In_keys_lookup in Hin. apply In_keys_lookup.
  rewrite (lookup_delete k k0 ps Hnd') in Hin.
  destruct (k0 =? k); [contradiction|exact Hin].
Qed.

(** The store after deleting the records [doomed]. *)
Lemma lookup_fold_delete (doomed : list promptRecord) (store : props) (k : string) :
  NoDup (keys store) ->
  JS.lookup k (fold_left (fun st r => JS.delete (r_id r) st) doomed store) =
  if existsb (fun r => k =? r_id r) doomed then None else JS.lookup k store.
Proof.
  revert store. induction doomed as [|r doomed IH]; simpl; intros store Hnd.
  - reflexivity.
  - rewrite IH by (apply NoDup_delete, Hnd).
    rewrite (lookup_delete (r_id r) k store Hnd).
    destruct (k =? r_id r); simpl; [|reflexivity].
    destruct (existsb _ doomed); reflexivity.
Qed.

Lemma isUnused_encode (r : promptRecord) :
  isUnused (encode r) = Ok (r_usage_count r =? 0)%Z.
Proof.
  unfold isUnused, get. cbn. unfold JS.or. cbn.
  destruct (r_usage_count r =? 0)%Z eqn:E; cbn; [reflexivity|rewrite E; reflexivity].
Qed.

Lemma ofilter_isUnused (rs : list promptRecord) :
  ofilter isUnused (map snd (store_of rs)) =
  Ok (map encode (filter (fun r => (r_usage_count r =? 0)%Z) rs)).
Proof.
  induction rs as [|r rs IH]; [reflexivity|].
  cbn [store_of map snd ofilter filter]. unfold store_of in IH.
  rewrite isUnused_encode, IH. cbn [obind].
  destruct (r_usage_count r =? 0)%Z; reflexivity.
Qed.

(** The loop of [performAutomaticCleanup] over records that the store holds
    under their ids. *)
Lemma cleanup_loop (doomed : list promptRecord) :
  forall (store : props) (n : nat) (names : list value) (s : state),
    prompts s = Some store ->
    NoDup (keys store) ->
    NoDup (map r_id doomed) ->
    (forall r, In r doomed -> JS.lookup (r_id r) store = Some (encode r)) ->
    foldM cleanupOne (map encode doomed) (n, names) s =
      (Ok ((n + length doomed)%nat, names ++ map (fun r => VStr (r_name r)) doomed),
       mkState (Some (fold_left (fun st r => JS.delete (r_id r) st) doomed store))
               (max_prompts s) (completion_preset s) (tick s)).
Proof.
  induction doomed as [|r doomed IH]; intros store n names s Hp Hnd Hids Hin.
  - cbn. unfold ret. rewrite Nat.add_0_r, app_nil_r, <- Hp. destruct s; reflexivity.
  - cbn [map foldM]. unfold bind at 1, cleanupOne at 1, bind at 1.
    change (JS.prop (encode r) "id") with (VStr (r_id r)).
    change (JS.prop (encode r) "name") with (VStr (r_name r)).
    unfold deletePrompt, try_catch, bind, get_state. rewrite Hp.
    cbn [JS.to_string].
    rewrite (prop_own _ _ _ (Hin r (or_introl eq_refl))).
    cbn [JS.truthy encode encode_with negb]. rewrite store_delete_run. unfold ret.
    cbn [JS.prop JS.own JS.own_props JS.lookup String.eqb Ascii.eqb Bool.eqb JS.truthy
         fst snd].
    rewrite Hp. cbn [option_map].
    inversion Hids as [|? ? Hnot Hids']; subst.
    match goal with
    | |- context [foldM cleanupOne _ _ ?st] =>
        rewrite (IH (JS.delete (r_id r) store) (S n) (push names (VStr (r_name r))) st
                   eq_refl (NoDup_delete _ _ Hnd) Hids')
    end.
    + cbn [max_prompts completion_preset tick length map fold_left].
      unfold push. rewrite <- app_assoc, Nat.add_succ_r. reflexivity.
    + intros r' Hr'. rewrite (lookup_delete (r_id r) (r_id r') store Hnd).
      destruct (r_id r' =? r_id r) eqn:E; [|apply Hin; now right].
      apply String.eqb_eq in E. exfalso. apply Hnot. rewrite <- E.
      apply in_map, Hr'.
Qed.

Lemma map_VStr_injective (a b : list string) : map VStr a = map VStr b -> a = b.
Proof.
  revert b. induction a as [|x a IH]; intros [|y b]; simpl; try discriminate.
  - reflexivity.
  - intros [= -> H]. rewrite (IH b H). reflexivity.
Qed.

Lemma nullable_injective (a b : option string) : nullable a = nullable b -> a = b.
Proof. destruct a, b; simpl; congruence. Qed.

Lemma encode_injective (r r' : promptRecord) : encode r = encode r' -> r = r'.
Proof.
  destruct r, r'. unfold encode, encode_with. cbn.
  intros [= -> -> -> -> -> -> -> -> -> -> -> Hl -> -> Ht Hs].
  apply nullable_injective in Hl, Hs. apply map_VStr_injective in Ht.
  subst. reflexivity.
Qed.

Lemma lookup_store_of (rs : list promptRecord) (r : promptRecord) :
  NoDup (map r_id rs) -> In r rs -> JS.lookup (r_id r) (store_of rs) = Some (encode r).
Proof.
  intros Hnd Hin. apply In_lookup.
  - unfold keys, store_of. rewrite map_map. exact Hnd.
  - unfold store_of. apply in_map_iff. exists r. split; [reflexivity|exact Hin].
Qed.

Lemma In_firstn_In {A} (n : nat) (x : A) (l : list A) :
  In x (firstn n l) -> In x l.
Proof.
  revert n. induction l as [|a l IH]; intros [|n]; simpl; try tauto.
  intros [H|H]; [now left|right; apply (IH n), H].
Qed.

Lemma NoDup_map_firstn {A B} (f : A -> B) (n : nat) (l : list A) :
  NoDup (map f l) -> NoDup (map f (firstn n l)).
Proof.
  revert n. induction l as [|a l IH]; intros [|n] Hnd; simpl; try constructor.
  - inversion Hnd as [|? ? Hnot Hnd']; subst.
    intros Hin. apply Hnot. apply in_map_iff in Hin. destruct Hin as (x & Hx & Hin).
    apply in_map_iff. exists x. split; [exact Hx|apply (In_firstn_In n), Hin].
  - inversion Hnd; subst. apply IH. assumption.
Qed.

Lemma NoDup_map_filter {A B} (f : A -> B) (g : A -> bool) (l : list A) :
  NoDup (map f l) -> NoDup (map f (filter g l)).
Proof.
  induction l as [|a l IH]; simpl; intros Hnd; [constructor|].
  inversion Hnd as [|? ? Hnot Hnd']; subst.
  destruct (g a); simpl; [|apply IH, Hnd'].
  constructor; [|apply IH, Hnd'].
  intros Hin. apply Hnot. apply in_map_iff in Hin. destruct Hin as (x & Hx & Hin).
  apply filter_In in Hin. apply in_map_iff. exists x. tauto.
Qed.

(** [performAutomaticCleanup] on a store of records of the data model. *)
Lemma performAutomaticCleanup_run (rs : list promptRecord) (s : state) :
  prompts s = Some (store_of rs) ->
  valid_store (store_of rs) ->
  JS.literal (store_of rs) = store_of rs ->
  let doomed := firstn 5 (filter (fun r => (r_usage_count r =? 0)%Z) rs) in
  performAutomaticCleanup s =
    (Ok (VObj [("success", VBool (0 <? length doomed)%nat);
               ("deletedCount", VNum (Z.of_nat (length doomed)));
               ("deletedPrompts", VArr (map (fun r => VStr (r_name r)) doomed));
               ("message", VStr ("Automatically deleted " ++ Str.of_nat (length doomed) ++
                                 " unused prompts")%string)]),
     mkState (Some (fold_left (fun st r => JS.delete (r_id r) st) doomed (store_of rs)))
             (max_prompts s) (completion_preset s) (tick s)).
Proof.
  intros Hp Hstore Hlit doomed.
  pose proof Hstore as (Hnd & _ & _).
  assert (Hids : NoDup (map r_id rs)).
  { unfold keys, store_of in Hnd. rewrite map_map in Hnd. exact Hnd. }
  unfold performAutomaticCleanup, try_catch, bind, lift.
  rewrite (getPrompts_rebuilds s _ Hp Hstore), !Hlit.
  cbn [JS.own_props]. rewrite ofilter_isUnused. cbn [obind]. rewrite firstn_map.
  fold doomed.
  rewrite (cleanup_loop doomed (store_of rs) 0 [] s Hp Hnd).
  - reflexivity.
  - apply NoDup_map_firstn, NoDup_map_filter, Hids.
  - intros r Hr. apply lookup_store_of; [exact Hids|].
    apply In_firstn_In in Hr. apply filter_In in Hr. tauto.
Qed.

End Cleanup.

(** X12: [performAutomaticCleanup] deletes the first five (or fewer)
    records that were never used, in the order of the store, and nothing
    else. On a store of valid records of the data model it reports their
    number and names; afterwards those records are gone and every other
    record, so every record with a positive [usage_count], is still stored. *)
Theorem performAutomaticCleanup_deletes_unused {host : Host}
    (rs : list promptRecord) (s : state) :
  prompts s = Some (store_of rs) ->
  valid_store (store_of rs) ->
  JS.literal (store_of rs) = store_of rs ->
  let unused := filter (fun r => (r_usage_count r =? 0)%Z) rs in
  let doomed := firstn 5 unused in
  exists result s',
    performAutomaticCleanup s = (Ok result, s') /\
    JS.prop result "success" = VBool (0 <? length unused)%nat /\
    JS.prop result "deletedCount" = VNum (Z.of_nat (Nat.min 5 (length unused))) /\
    JS.prop result "deletedPrompts" = VArr (map (fun r => VStr (r_name r)) doomed) /\
    (forall r, In r doomed -> JS.lookup (r_id r) (stored s') = None) /\
    (forall r, In r rs -> ~ In r doomed ->
               JS.lookup (r_id r) (stored s') = Some (encode r)) /\
    (forall r, In r rs -> r_usage_count r <> 0%Z ->
               JS.lookup (r_id r) (stored s') = Some (encode r)).
Proof.
  intros Hp Hstore Hlit unused doomed.
  pose proof Hstore as (Hnd & _ & _).
  assert (Hids : NoDup (map r_id rs)).
  { unfold keys, store_of in Hnd. rewrite map_map in Hnd. exact Hnd. }
  eexists _, _. split; [apply (performAutomaticCleanup_run rs s Hp Hstore Hlit)|].
  fold unused. fold doomed. rewrite stored_set_prompts.
  assert (Hlen : length doomed = Nat.min 5 (length unused))
    by (unfold doomed; apply length_firstn).
  assert (Hkeep : forall r, In r rs -> ~ In r doomed ->
                    JS.lookup (r_id r)
                      (fold_left (fun st r => JS.delete (r_id r) st) doomed (store_of rs)) =
                    Some (encode r)).
  { intros r Hr Hnot. rewrite (lookup_fold_delete doomed _ _ Hnd).
    destruct (existsb (fun r0 => r_id r =? r_id r0) doomed) eqn:E.
    - apply existsb_exists in E. destruct E as (r0 & Hr0 & E).
      apply String.eqb_eq in E. exfalso. apply Hnot.
      assert (Hr0' : In r0 rs).
      { apply In_firstn_In in Hr0. apply filter_In in Hr0. tauto. }
      pose proof (lookup_store_of rs r Hids Hr) as L1.
      pose proof (lookup_store_of rs r0 Hids Hr0') as L2.
      rewrite E in L1. rewrite L1 in L2.
      assert (Henc : encode r = encode r0) by congruence.
      apply encode_injective in Henc. subst. exact Hr0.
    - apply lookup_store_of; assumption. }
  refine (conj _ (conj _ (conj eq_refl (conj _ (conj Hkeep _))))).
  - change (VBool (0 <? length doomed)%nat = VBool (0 <? length unused)%nat).
    rewrite Hlen. destruct (length unused); reflexivity.
  - change (VNum (Z.of_nat (length doomed)) =
            VNum (Z.of_nat (Nat.min 5 (length unused)))).
    rewrite Hlen. reflexivity.
  - intros r Hr. rewrite (lookup_fold_delete doomed _ _ Hnd).
    assert (E : existsb (fun r0 => r_id r =? r_id r0) doomed = true).
    { apply existsb_exists. exists r. split; [exact Hr|apply String.eqb_refl]. }
    rewrite E. reflexivity.
  - intros r Hr Hused. apply Hkeep; [exact Hr|].
    intros Hd. apply In_firstn_In in Hd. apply filter_In in Hd.
    destruct Hd as [_ Hd]. apply Z.eqb_eq in Hd. contradiction.
Qed.

Lemma performAutomaticCleanup_deletes_unused_witness :
  prompts Sample.shelf = Some (store_of [Sample.greetingRecord; Sample.summaryRecord]) /\
  valid_store (host := UTC.host) (store_of [Sample.greetingRecord; Sample.summaryRecord]) /\
  JS.literal (store_of [Sample.greetingRecord; Sample.summaryRecord]) =
    store_of [Sample.greetingRecord; Sample.summaryRecord] /\
  exists result s',
    performAutomaticCleanup (host := UTC.host) Sample.shelf = (Ok result, s') /\
    JS.prop result "success" = VBool true /\
    JS.prop result "deletedCount" = VNum 1 /\
    JS.prop result "deletedPrompts" = VArr [VStr "Greeting"] /\
    (forall r, In r [Sample.greetingRecord] -> JS.lookup (r_id r) (stored s') = None) /\
    (forall r, In r [Sample.greetingRecord; Sample.summaryRecord] ->
               ~ In r [Sample.greetingRecord] ->
               JS.lookup (r_id r) (stored s') = Some (encode r)) /\
    (forall r, In r [Sample.greetingRecord; Sample.summaryRecord] ->
               r_usage_count r <> 0%Z ->
               JS.lookup (r_id r) (stored s') = Some (encode r)).
Proof.
  assert (Hstore : valid_store (host := UTC.host)
                     (store_of [Sample.greetingRecord; Sample.summaryRecord])).
  { refine (conj _ (conj _ _));
      [repeat constructor; simpl; intuition discriminate
      |repeat constructor
      |simpl; intuition discriminate]. }
  split; [reflexivity|]. split; [exact Hstore|]. split; [vm_compute; reflexivity|].
  apply (performAutomaticCleanup_deletes_unused (host := UTC.host)
           [Sample.greetingRecord; Sample.summaryRecord] Sample.shelf).
  - reflexivity.
  - exact Hstore.
  - vm_compute. reflexivity.
Defined.

Section FixData.

Context {host : Host}.

Lemma is_valid_named (p : value) :
  is_valid p = true ->
  JS.is_nullish p = false /\
  JS.truthy (JS.prop p "id") = true /\ JS.truthy (JS.prop p "name") = true.
Proof.
  intros Hv. destruct (is_valid_inv p Hv) as [Hn [id [Hid Hne]] Hname _ _ _ _ _ _ _ _ _].
  split; [exact Hn|]. split.
  - rewrite Hid. simpl. apply String.eqb_neq in Hne. rewrite Hne. reflexivity.
  - unfold blank in Hname. destruct (JS.truthy (JS.prop p "name")); [reflexivity|].
    discriminate.
Qed.

Lemma fixOne_valid (k : string) (p : value) (n : nat) (s : state) :
  is_valid p = true ->
  fixOne n (k, p) s =
    if JS.truthy (JS.prop p "metadata") then (Ok n, s)
    else (Throw "this.generateDefaultMetadata is not a function", s).
Proof.
  intros Hp. destruct (is_valid_named p Hp) as (Hn & Hid & Hname).
  unfold fixOne, bind, lift, get. cbn [fst snd].
  rewrite Hn. destruct (JS.truthy (JS.prop p "metadata")); cbn [negb]; [|reflexivity].
  rewrite Hid. cbn [negb]. unfold ret. rewrite Hname. cbn [negb orb].
  rewrite !Nat.add_0_r. reflexivity.
Qed.

(** The loop of [validateAndFixData] over valid records: it stops at the
    first record without metadata, and otherwise fixes nothing. *)
Lemma fix_loop (l : props) (n : nat) (s : state) :
  Forall (fun kv => is_valid (snd kv) = true) l ->
  foldM fixOne l n s = (Ok n, s) \/
  foldM fixOne l n s = (Throw "this.generateDefaultMetadata is not a function", s).
Proof.
  induction l as [|[k p] l IH]; intros Hl; [left; reflexivity|].
  inversion Hl as [|? ? Hp Hl']; subst. cbn [snd] in Hp.
  cbn [foldM]. unfold bind. rewrite (fixOne_valid k p n s Hp).
  destruct (JS.truthy (JS.prop p "metadata")); [apply IH, Hl'|right; reflexivity].
Qed.

End FixData.

(** X13: [validateAndFixData] fixes nothing. The records it walks over are
    those [getPrompts] returns, which all have an id and a name; a record
    without metadata makes it call [generateDefaultMetadata], which the
    class does not define. So from every state it either reports success
    with [fixedItems = 0] or fails with that [TypeError], and the state is
    the one [getPrompts] leaves. *)
Theorem validateAndFixData_fixes_nothing {host : Host} (s : state) :
  exists result current s',
    validateAndFixData s = (Ok result, s') /\
    getPrompts VUndefined s = (Ok current, s') /\
    (result = VObj [("success", VBool true);
                    ("fixedItems", VNum 0);
                    ("message", VStr "Data validation completed - fixed 0 items")] \/
     result = VObj [("success", VBool false);
                    ("error", VStr "this.generateDefaultMetadata is not a function");
                    ("message", VStr "Data validation failed")]).
Proof.
  destruct (getPrompts_cases VUndefined s) as (out & s' & Hrun & Hvalid & _).
  unfold validateAndFixData, try_catch, bind. rewrite Hrun. cbn [JS.own_props].
  destruct (fix_loop out 0 s' Hvalid) as [-> | ->].
  - eexists _, _, _. split; [reflexivity|]. split; [reflexivity|]. left. reflexivity.
  - eexists _, _, _. split; [reflexivity|]. split; [reflexivity|]. right. reflexivity.
Qed.

Section ImportKeeps.

Context {host : Host}.

Lemma importCaught_frame (res : importResults) (k : string) (p : value)
    (m : string) (s : state) :
  exists out, importCaught res k p m s = (out, s).
Proof.
  unfold importCaught, bind, lift, ret.
  destruct (get p "name"); eexists; reflexivity.
Qed.

Lemma createAutomaticBackup_frame (reason : string) (s : state) :
  valid_store (stored s) ->
  exists s', createAutomaticBackup reason s = (Ok tt, s') /\ same_store s s'.
Proof.
  intros Hstore. destruct (getPrompts_valid s Hstore) as (current & Hget & _).
  unfold createAutomaticBackup, try_catch, bind, now_iso, next_tick, ret.
  rewrite Hget. eexists. split; [reflexivity|]. repeat split.
Qed.

Lemma stored_same_store (s s' : state) : same_store s s' -> stored s' = stored s.
Proof. intros [H _]. unfold stored. rewrite H. reflexivity. Qed.

Lemma prop_spread_metadata (p : value) (k : string) (m : value) :
  NoDup (keys (JS.own_props p)) -> k <> "metadata" ->
  JS.lookup k (JS.own_props p) <> None ->
  JS.prop (VObj (JS.set "metadata" m (JS.spread [] p))) k =
  match JS.lookup k (JS.own_props p) with Some v => v | None => VUndefined end.
Proof.
  intros Hnd Hk Hsome. unfold JS.prop, JS.own, JS.own_props at 1.
  rewrite lookup_set. apply String.eqb_neq in Hk. rewrite Hk.
  unfold JS.spread. fold (JS.literal (JS.own_props p)).
  rewrite (lookup_literal k _ Hnd).
  destruct (JS.lookup k (JS.own_props p)); [reflexivity|contradiction].
Qed.

(** One turn of the loop of a default import keeps the store valid and
    keeps every record that was there. *)
Lemma importOne_keeps (parsedData : value) (res : importResults)
    (k : string) (p : value) (s0 s : state) :
  valid_store (stored s) -> keeps_records s0 s ->
  (is_valid p = true ->
   JS.prop p "id" = VStr k /\ NoDup (keys (JS.own_props p))) ->
  exists out s',
    importOne parsedData (importOptions (VObj [])) res (k, p) s = (out, s') /\
    valid_store (stored s') /\ keeps_records s0 s'.
Proof.
  intros Hstore Hkeep Hkey.
  unfold importOne, try_catch, bind. cbn [fst snd].
  change (JS.truthy (JS.prop (VObj (importOptions (VObj []))) "validatePrompts"))
    with true.
  change (JS.truthy (JS.prop (VObj (importOptions (VObj []))) "overwriteExisting"))
    with false.
  cbn [negb andb]. unfold lift.
  destruct (validatePromptData p) as [validation|m] eqn:Hval.
  2:{ destruct (importCaught_frame res k p m s) as (out & ->).
      exists out, s. split; [reflexivity|split; assumption]. }
  unfold ret at 1.
  destruct (isValid validation) eqn:Hv; cbn [negb].
  2:{ match goal with
      | |- context [importCaught ?r k p ?m s] =>
          destruct (importCaught_frame r k p m s) as (out & Hout)
      end.
      rewrite Hout. destruct out as [out|m].
      - exists (Ok out), s. split; [reflexivity|split; assumption].
      - destruct (importCaught_frame res k p m s) as (out' & ->).
        exists out', s. split; [reflexivity|split; assumption]. }
  assert (Hp : is_valid p = true) by (unfold is_valid; rewrite Hval; exact Hv).
  destruct (Hkey Hp) as [Hid Hnd].
  destruct (is_valid_named p Hp) as (Hn & _ & _).
  destruct (getPrompts_valid s Hstore) as (current & Hget & _ & Hlook & _).
  rewrite Hget. rewrite andb_true_r.
  destruct (JS.truthy (JS.prop (VObj current) k)) eqn:Hex.
  { unfold get. rewrite Hn. unfold ret. eexists _, s.
    split; [reflexivity|]. split; assumption. }
  assert (Hnew : JS.lookup k (stored s) = None).
  { destruct (JS.lookup k (stored s)) as [r|] eqn:Hr; [|reflexivity].
    rewrite <- Hlook in Hr. rewrite (prop_own k r current Hr) in Hex.
    rewrite Hlook in Hr.
    rewrite (is_valid_truthy _ (valid_store_truthy _ _ _ Hstore Hr)) in Hex.
    discriminate. }
  unfold get at 1. rewrite Hn. unfold now_iso, next_tick, ret at 1. cbn [andb].
  unfold bind. cbv beta iota.
  set (s2 := mkState (prompts s) (max_prompts s) (completion_preset s) (S (tick s))).
  match goal with
  | |- context [savePrompt ?final s2] => set (finalPromptData := final)
  end.
  assert (Hstore2 : valid_store (stored s2)) by exact Hstore.
  destruct (savePrompt_created finalPromptData s2 Hstore2)
    as (saveResult & s3 & -> & _ &
        [[Hfail Hp3]|(complete & cid & s1 & Hc & -> & Hcv & Hcid & Hst)]).
  - rewrite Hfail. cbn [JS.truthy]. unfold ret. eexists _, s3.
    split; [reflexivity|].
    assert (Hst : stored s3 = stored s) by (unfold stored; rewrite Hp3; reflexivity).
    unfold keeps_records. rewrite Hst. split; assumption.
  - change (JS.truthy (JS.prop (VObj [("success", VBool true);
                                       ("promptData", complete);
                                       ("message", VStr "Prompt saved successfully")])
                          "success")) with true.
    unfold ret. eexists _, s3.
    split; [reflexivity|].
    assert (Hfid : JS.prop finalPromptData "id" = VStr k).
    { unfold finalPromptData.
      assert (Hown : JS.lookup "id" (JS.own_props p) = Some (VStr k)).
      { unfold JS.prop, JS.own in Hid.
        destruct p as [| |b|n| |x|items|ps|]; try discriminate; cbn in Hid |- *.
        - destruct (JS.lookup "id" (JS.indexed 0 (JS.chars x))) eqn:E;
            [congruence|discriminate].
        - destruct (JS.lookup "id" (JS.indexed 0 items)) eqn:E;
            [congruence|discriminate].
        - destruct (JS.lookup "id" ps) eqn:E; [congruence|discriminate]. }
      rewrite (prop_spread_metadata p "id" _ Hnd); [rewrite Hown; reflexivity
                                                   |discriminate
                                                   |rewrite Hown; discriminate]. }
    assert (Hkne : k <> "").
    { destruct (is_valid_inv p Hp) as [_ [id [Hid' Hne]] _ _ _ _ _ _ _ _ _ _].
      rewrite Hid in Hid'. injection Hid' as <-. exact Hne. }
    rewrite (createPromptData_id _ _ _ _ _ Hfid Hkne Hc) in Hcid.
    injection Hcid as <-.
    split; [rewrite Hst; apply valid_store_put; assumption|].
    intros k0 r Hr. rewrite Hst.
    specialize (Hkeep k0 r Hr). change (stored s2) with (stored s).
    rewrite lookup_put_other; [exact Hkeep|].
    intros ->. rewrite Hnew in Hkeep. discriminate.
Qed.

Lemma import_loop_keeps (parsedData : value) (entries : props) :
  (forall k p, In (k, p) entries -> is_valid p = true ->
               JS.prop p "id" = VStr k /\ NoDup (keys (JS.own_props p))) ->
  forall (res : importResults) (s0 s : state),
    valid_store (stored s) -> keeps_records s0 s ->
    exists out s',
      foldM (importOne parsedData (importOptions (VObj []))) entries res s = (out, s') /\
      valid_store (stored s') /\ keeps_records s0 s'.
Proof.
  induction entries as [|[k p] entries IH]; intros Hkeys res s0 s Hstore Hkeep.
  - eexists _, s. split; [reflexivity|]. split; assumption.
  - cbn [foldM]. unfold bind.
    destruct (importOne_keeps parsedData res k p s0 s Hstore Hkeep
                (Hkeys k p (or_introl eq_refl)))
      as ([res1|m] & s1 & -> & Hstore1 & Hkeep1).
    + apply IH; [|assumption|assumption].
      intros k' p' Hin. apply Hkeys. now right.
    + eexists _, s1. split; [reflexivity|]. split; assumption.
Qed.

End ImportKeeps.

(** X14: an import with the default options never changes or removes a
    record that is in the store. For a store of valid records and a payload
    whose valid records are objects listed under their own id,
    [importPrompts] returns a result, the store is still one of valid
    records, and every id that was in the store has the record it had. *)
Theorem importPrompts_keeps_existing {host : Host} (payload : props) (s : state) :
  valid_store (stored s) ->
  (forall k p, In (k, p) (JS.own_props (JS.prop (VObj payload) "prompts")) ->
               is_valid p = true ->
               JS.prop p "id" = VStr k /\ NoDup (keys (JS.own_props p))) ->
  exists result s',
    importPrompts (VObj payload) VUndefined s = (Ok result, s') /\
    valid_store (stored s') /\
    forall k r, JS.lookup k (stored s) = Some r -> JS.lookup k (stored s') = Some r.
Proof.
  intros Hstore Hkeys.
  assert (Hrefl : keeps_records s s) by (intros k r H; exact H).
  unfold importPrompts, try_catch, bind. cbn [JS.is_undefined].
  unfold ret at 1, lift, get. cbn [JS.is_nullish].
  destruct (_ || _).
  { unfold throw, ret. eexists _, s. split; [reflexivity|]. split; assumption. }
  change (negb (JS.strict_equals (JS.prop (VObj []) "createBackup") (VBool false)))
    with true. cbv iota.
  destruct (createAutomaticBackup_frame "before_import" s Hstore) as (s1 & -> & Hs1).
  pose proof (stored_same_store _ _ Hs1) as Hst1.
  assert (Hstore1 : valid_store (stored s1)) by (rewrite Hst1; exact Hstore).
  assert (Hkeep1 : keeps_records s s1) by (unfold keeps_records; rewrite Hst1; auto).
  destruct (import_loop_keeps (VObj payload) _ Hkeys (mkResults 0 0 0 []) s s1
              Hstore1 Hkeep1) as ([res|m] & s2 & -> & Hstore2 & Hkeep2);
    unfold ret; eexists _, s2; (split; [reflexivity|]); split; assumption.
Qed.

Lemma importPrompts_keeps_existing_witness :
  valid_store (host := UTC.host) (stored Sample.roomy) /\
  exists result s',
    importPrompts (host := UTC.host) (VObj Fixture.payload) VUndefined Sample.roomy =
      (Ok result, s') /\
    valid_store (host := UTC.host) (stored s') /\
    forall k r, JS.lookup k (stored Sample.roomy) = Some r ->
                JS.lookup k (stored s') = Some r.
Proof.
  split; [exact Sample_full_valid|].
  apply (importPrompts_keeps_existing (host := UTC.host) Fixture.payload Sample.roomy).
  - exact Sample_full_valid.
  - intros k p Hin _. simpl in Hin. destruct Hin as [[= <- <-]|[]].
    split; [reflexivity|]. repeat constructor; simpl; intuition discriminate.
Defined.

Section EnumerationOrder.

Lemma index_of_key_injective (k k' : string) (n : N) :
  JS.index_of_key k = Some n -> JS.index_of_key k' = Some n -> k = k'.
Proof.
  unfold JS.index_of_key.
  destruct (NilZero.uint_of_string k) as [u|]; [|discriminate].
  destruct (NilZero.uint_of_string k') as [u'|]; [|discriminate].
  destruct ((Str.of_N (N.of_uint u) =? k)%string && _) eqn:E; [|discriminate].
  destruct ((Str.of_N (N.of_uint u') =? k')%string && _) eqn:E'; [|discriminate].
  apply andb_true_iff in E, E'. destruct E as [E _], E' as [E' _].
  apply String.eqb_eq in E, E'. intros [= <-] [= H]. congruence.
Qed.

Lemma StronglySorted_app_inv {A} (R : A -> A -> Prop) (a b : list A) :
  StronglySorted R (a ++ b) ->
  StronglySorted R a /\ StronglySorted R b /\ Forall (fun x => Forall (R x) b) a.
Proof.
  induction a as [|x a IH]; simpl; intros H.
  - repeat split; [constructor|exact H|constructor].
  - apply StronglySorted_inv in H. destruct H as [H Hx].
    destruct (IH H) as (Ha & Hb & Hab).
    rewrite Forall_app in Hx. destruct Hx as [Hxa Hxb].
    repeat split; [constructor; assumption|exact Hb|constructor; assumption].
Qed.

Lemma StronglySorted_snoc {A} (R : A -> A -> Prop) (l : list A) (y : A) :
  StronglySorted R l -> Forall (fun x => R x y) l -> StronglySorted R (l ++ [y]).
Proof.
  induction 1 as [|x l Hl IH Hx]; intros Hy; simpl.
  - repeat constructor.
  - inversion Hy as [|? ? Hxy Hly]; subst.
    constructor; [apply IH, Hly|].
    apply Forall_app. split; [exact Hx|repeat constructor; exact Hxy].
Qed.

Lemma ordered_NoDup (ps : props) : enumeration_order ps -> NoDup (keys ps).
Proof.
  induction 1 as [|a ps Hps IH Ha]; simpl; constructor; [|exact IH].
  intros Hin. apply in_map_iff in Hin. destruct Hin as (b & Hb & Hin).
  rewrite Forall_forall in Ha. destruct (Ha b Hin) as [Hne _]. congruence.
Qed.

Lemma insert_index_last (n : N) (k : string) (v : value) (acc : props) :
  JS.index_of_key k = Some n ->
  Forall (fun a => key_before a (k, v)) acc ->
  JS.insert_index n k v acc = acc ++ [(k, v)].
Proof.
  intros Hk. induction 1 as [|[k' v'] acc [_ Hb] _ IH]; simpl; [reflexivity|].
  simpl in Hb. rewrite Hk in Hb.
  destruct (JS.index_of_key k') as [m|]; [|contradiction].
  apply N.ltb_lt in Hb. rewrite Hb, IH. reflexivity.
Qed.

Lemma before_absent (k : string) (v : value) (acc : props) :
  Forall (fun a => key_before a (k, v)) acc -> JS.lookup k acc = None.
Proof.
  intros H. apply lookup_None_keys. intros Hin.
  apply in_map_iff in Hin. destruct Hin as (a & Ha & Hin).
  rewrite Forall_forall in H. destruct (H a Hin) as [Hne _]. apply Hne, Ha.
Qed.

Lemma set_last (k : string) (v : value) (acc : props) :
  Forall (fun a => key_before a (k, v)) acc -> JS.set k v acc = acc ++ [(k, v)].
Proof.
  intros H. unfold JS.set, JS.has. rewrite (before_absent k v acc H).
  destruct (JS.index_of_key k) as [n|] eqn:Hk; [|reflexivity].
  apply insert_index_last; assumption.
Qed.

Lemma assign_ordered (l : props) :
  forall acc, enumeration_order (acc ++ l) -> JS.assign acc l = acc ++ l.
Proof.
  unfold JS.assign.
  induction l as [|[k v] l IH]; intros acc H; simpl.
  - rewrite app_nil_r. reflexivity.
  - cbn [fst snd]. rewrite set_last.
    + rewrite IH; rewrite <- app_assoc; [reflexivity|exact H].
    + destruct (StronglySorted_app_inv _ _ _ H) as (_ & _ & Hall).
      eapply Forall_impl; [|exact Hall].
      intros a Ha. inversion Ha; assumption.
Qed.

(** Building an object from the entries of an object gives that object. *)
Lemma literal_ordered (ps : props) : enumeration_order ps -> JS.literal ps = ps.
Proof. intros H. apply (assign_ordered ps []), H. Qed.

Lemma replace_ordered (k : string) (v : value) (ps : props) :
  enumeration_order ps -> enumeration_order (JS.replace k v ps).
Proof.
  induction 1 as [|[k0 v0] ps Hps IH Ha]; simpl; [constructor|].
  assert (Hall : forall x, Forall (key_before x) ps ->
                           Forall (key_before x) (JS.replace k v ps)).
  { intros x Hx. clear - Hx. induction Hx as [|[k1 v1] ps H1 Hps IH']; simpl;
      [constructor|].
    destruct (k =? k1)%string eqn:E; constructor; try assumption.
    apply String.eqb_eq in E. subst k1. exact H1. }
  destruct (k =? k0)%string eqn:E.
  - apply String.eqb_eq in E. subst k0. constructor; [exact Hps|exact Ha].
  - constructor; [exact IH|apply Hall, Ha].
Qed.

Lemma insert_index_ordered (n : N) (k : string) (v : value) (ps : props) :
  JS.index_of_key k = Some n -> JS.lookup k ps = None ->
  enumeration_order ps -> enumeration_order (JS.insert_index n k v ps).
Proof.
  intros Hk Hno Hps. induction Hps as [|[k0 v0] ps Hps IH Ha]; simpl.
  - repeat constructor.
  - simpl in Hno. destruct (k =? k0)%string eqn:E; [discriminate|].
    apply String.eqb_neq in E.
    assert (Hfirst : (match JS.index_of_key k0 with
                      | Some m => (n < m)%N | None => True end) ->
                     enumeration_order ((k, v) :: (k0, v0) :: ps)).
    { intros Hm. constructor; [constructor; assumption|].
      constructor.
      - split; [exact E|]. simpl. rewrite Hk.
        destruct (JS.index_of_key k0); exact Hm.
      - rewrite Forall_forall in Ha |- *. intros [k1 v1] Hin.
        destruct (Ha _ Hin) as [_ Hb]. simpl in Hb |- *.
        split.
        + simpl. intros ->. apply (in_map fst) in Hin.
          apply lookup_None_keys in Hno. apply Hno, Hin.
        + simpl. rewrite Hk.
          destruct (JS.index_of_key k0) as [m|], (JS.index_of_key k1) as [m1|];
            try exact I; try contradiction. lia. }
    destruct (JS.index_of_key k0) as [m|] eqn:Hk0; [|apply Hfirst; exact I].
    destruct (m <? n)%N eqn:Hlt.
    + apply N.ltb_lt in Hlt. constructor; [apply IH, Hno|].
      rewrite Forall_forall in Ha |- *. intros [k1 v1] Hin.
      apply In_insert_index in Hin. destruct Hin as [[= -> ->]|Hin];
        [|apply Ha, Hin].
      split; [simpl; congruence|]. simpl. rewrite Hk0, Hk. exact Hlt.
    + apply N.ltb_ge in Hlt. apply Hfirst.
      assert (m <> n) by (intros ->; apply E;
                          apply (index_of_key_injective k k0 n); assumption).
      lia.
Qed.

Lemma set_ordered (k : string) (v : value) (ps : props) :
  enumeration_order ps -> enumeration_order (JS.set k v ps).
Proof.
  intros Hps. unfold JS.set, JS.has.
  destruct (JS.lookup k ps) eqn:Hno; [apply replace_ordered, Hps|].
  destruct (JS.index_of_key k) as [n|] eqn:Hk;
    [apply insert_index_ordered; assumption|].
  apply StronglySorted_snoc; [exact Hps|].
  apply Forall_forall. intros [k1 v1] Hin. split.
  - simpl. intros ->. apply (in_map fst) in Hin.
    apply lookup_None_keys in Hno. apply Hno, Hin.
  - simpl. rewrite Hk. destruct (JS.index_of_key k1); exact I.
Qed.

Lemma assign_keeps_order (l : props) :
  forall acc, enumeration_order acc -> enumeration_order (JS.assign acc l).
Proof.
  unfold JS.assign. induction l as [|[k v] l IH]; intros acc H; simpl;
    [exact H|apply IH, set_ordered, H].
Qed.

Lemma literal_is_ordered (ps : props) : enumeration_order (JS.literal ps).
Proof. apply assign_keeps_order. constructor. Qed.

Lemma ofilter_all {A} (f : A -> outcome bool) (l : list A) :
  Forall (fun a => f a = Ok true) l -> ofilter f l = Ok l.
Proof.
  induction 1 as [|a l Ha _ IH]; simpl; [reflexivity|].
  rewrite Ha, IH. reflexivity.
Qed.

Lemma filterWhen_ordered {A} (active : option A) (f : A -> value -> outcome bool)
    (l out : props) :
  enumeration_order l -> filterWhen active f l = Ok out -> enumeration_order out.
Proof.
  intros Hl H. destruct active as [a|]; simpl in H; [|congruence].
  unfold filterEntries in H. destruct (ofilter _ l); simpl in H; [|discriminate].
  injection H as <-. apply literal_is_ordered.
Qed.

Lemma filterWhen_again {A} (active : option A) (f : A -> value -> outcome bool)
    (out : props) :
  enumeration_order out ->
  (forall k p, In (k, p) out -> holds active f p) ->
  filterWhen active f out = Ok out.
Proof.
  intros Hord Hall. destruct active as [a|]; simpl; [|reflexivity].
  unfold filterEntries. rewrite ofilter_all.
  - simpl. rewrite literal_ordered by exact Hord. reflexivity.
  - apply Forall_forall. intros [k p] Hin. simpl.
    apply (Hall k p Hin a). reflexivity.
Qed.

(** The object that the chain of filters returns passes the chain again,
    unchanged. *)
Lemma filterChain_again (tagsFilter : list value -> value -> outcome bool)
    (prompts filters : value) (out : props) :
  filterChain tagsFilter prompts filters = Ok out ->
  filterChain tagsFilter (VObj out) filters = Ok out.
Proof.
  intros H. pose proof (filterChain_spec _ _ _ _ H) as Hspec.
  assert (Hord : enumeration_order out).
  { unfold filterChain in H.
    destruct (activeSearch filters) as [search|m]; simpl in H; [|discriminate].
    destruct (filterWhen search _ _) as [l1|m] eqn:H1; simpl in H; [|discriminate].
    destruct (filterWhen (activeRole filters) _ _) as [l2|m] eqn:H2; simpl in H;
      [|discriminate].
    destruct (filterWhen (activeFavorite filters) _ _) as [l3|m] eqn:H3; simpl in H;
      [|discriminate].
    eapply filterWhen_ordered; [|exact H].
    eapply filterWhen_ordered; [|exact H3].
    eapply filterWhen_ordered; [|exact H2].
    eapply filterWhen_ordered; [|exact H1].
    apply literal_is_ordered. }
  assert (Hpass : forall k p, In (k, p) out -> passes tagsFilter filters p).
  { intros k p Hin. apply (Hspec k p).
    apply In_lookup; [apply ordered_NoDup, Hord|exact Hin]. }
  unfold filterChain in H |- *.
  destruct (activeSearch filters) as [search|m] eqn:Hs; simpl in H; [|discriminate].
  simpl.
  change (JS.spread [] (VObj out)) with (JS.literal out).
  rewrite (literal_ordered out Hord).
  rewrite (filterWhen_again search matchesSearch out Hord).
  2:{ intros k p Hin term ->. apply (Hpass k p Hin). exact Hs. }
  simpl. rewrite (filterWhen_again (activeRole filters) matchesRole out Hord).
  2:{ intros k p Hin. apply (Hpass k p Hin). }
  simpl. rewrite (filterWhen_again (activeFavorite filters) matchesFavorite out Hord).
  2:{ intros k p Hin. apply (Hpass k p Hin). }
  simpl. apply (filterWhen_again (activeTags filters) tagsFilter out Hord).
  intros k p Hin. apply (Hpass k p Hin).
Qed.

Lemma ofilter_ext {A} (f g : A -> outcome bool) (l : list A) :
  (forall a, f a = g a) -> ofilter f l = ofilter g l.
Proof.
  intros H. induction l as [|a l IH]; simpl; [reflexivity|].
  rewrite H, IH. reflexivity.
Qed.

Lemma one_tag_some_every (prompt tag : value) :
  matchesSomeTag [tag] prompt = matchesEveryTag [tag] prompt.
Proof.
  unfold matchesSomeTag, matchesEveryTag. simpl.
  destruct (hasTag prompt tag) as [[|]|m]; reflexivity.
Qed.

Lemma filterChain_one_tag (prompts filters : value) :
  (forall t1 t2 rest, JS.prop filters "tags" <> VArr (t1 :: t2 :: rest)) ->
  filterChain matchesEveryTag prompts filters =
  filterChain matchesSomeTag prompts filters.
Proof.
  intros Hone. unfold filterChain.
  destruct (activeSearch filters) as [search|m]; simpl; [|reflexivity].
  destruct (filterWhen search _ _) as [l1|m]; simpl; [|reflexivity].
  destruct (filterWhen (activeRole filters) _ _) as [l2|m]; simpl; [|reflexivity].
  destruct (filterWhen (activeFavorite filters) _ _) as [l3|m]; simpl; [|reflexivity].
  unfold activeTags.
  destruct (JS.prop filters "tags") as [| |b|n| |x|items|ps|] eqn:Ht; try reflexivity.
  destruct items as [|t1 [|t2 rest]]; [reflexivity| |destruct (Hone t1 t2 rest eq_refl)].
  simpl. unfold filterEntries.
  rewrite (ofilter_ext _ (fun kv => matchesSomeTag [t1] (snd kv))); [reflexivity|].
  intros a. symmetry. apply one_tag_some_every.
Qed.

End EnumerationOrder.

(** X15: filtering is idempotent. The object that [applyFilters] returns,
    filtered again by the same specification, comes back as it is, with
    the same records in the same order; the same holds of the
    [filteredPrompts] of a successful [PromptLibraryUI.applyFilters]. *)
Theorem applyFilters_idempotent (prompts filters : value) :
  (forall out, applyFilters prompts filters = Ok out ->
               applyFilters out filters = Ok out) /\
  (JS.prop (applyFiltersUI prompts filters) "success" = VBool true ->
   applyFiltersUI (JS.prop (applyFiltersUI prompts filters) "filteredPrompts") filters =
   applyFiltersUI prompts filters).
Proof.
  split.
  - intros out. unfold applyFilters.
    destruct (filterChain _ prompts filters) as [l|m] eqn:H; simpl; [|discriminate].
    intros [= <-]. rewrite (filterChain_again _ _ _ _ H). reflexivity.
  - unfold applyFiltersUI.
    destruct (filterChain _ prompts filters) as [l|m] eqn:H; [|discriminate].
    intros _.
    change (JS.prop (VObj [("success", VBool true); ("filteredPrompts", VObj l);
                           ("message",
                            VStr ("Filtered " ++ Str.of_nat (length l) ++ " prompts")%string)])
              "filteredPrompts") with (VObj l).
    rewrite (filterChain_again _ _ _ _ H). reflexivity.
Qed.

Lemma applyFilters_idempotent_witness :
  applyFilters Sample.library Sample.allFilters = Ok (VObj [("p3", Sample.persona)]) /\
  applyFilters (VObj [("p3", Sample.persona)]) Sample.allFilters =
    Ok (VObj [("p3", Sample.persona)]) /\
  JS.prop (applyFiltersUI Sample.library Sample.allFilters) "success" = VBool true /\
  applyFiltersUI (JS.prop (applyFiltersUI Sample.library Sample.allFilters)
                    "filteredPrompts") Sample.allFilters =
  applyFiltersUI Sample.library Sample.allFilters.
Proof.
  split; [reflexivity|]. split.
  - apply (proj1 (applyFilters_idempotent Sample.library Sample.allFilters)).
    reflexivity.
  - split; [reflexivity|].
    apply (proj2 (applyFilters_idempotent Sample.library Sample.allFilters)).
    reflexivity.
Defined.

(** X16: the two [applyFilters] differ only when two or more tags are
    listed. For a specification whose [tags] is not an array of at least
    two elements, [PromptLibraryUI.applyFilters] reports exactly what
    [PromptDataManager.applyFilters] returns, and fails with the message
    of the exception that the latter throws. *)
Theorem applyFilters_agree_on_one_tag (prompts filters : value) :
  (forall t1 t2 rest, JS.prop filters "tags" <> VArr (t1 :: t2 :: rest)) ->
  (forall filtered,
      applyFilters prompts filters = Ok filtered ->
      JS.prop (applyFiltersUI prompts filters) "success" = VBool true /\
      JS.prop (applyFiltersUI prompts filters) "filteredPrompts" = filtered) /\
  (forall message,
      applyFilters prompts filters = Throw message ->
      JS.prop (applyFiltersUI prompts filters) "success" = VBool false /\
      JS.prop (applyFiltersUI prompts filters) "error" = VStr message).
Proof.
  intros Hone. unfold applyFiltersUI, applyFilters.
  rewrite (filterChain_one_tag prompts filters Hone).
  destruct (filterChain matchesSomeTag prompts filters) as [l|m]; simpl; split.
  - intros filtered [= <-]. split; reflexivity.
  - discriminate.
  - discriminate.
  - intros message [= <-]. split; reflexivity.
Qed.

Lemma applyFilters_agree_on_one_tag_witness :
  (forall t1 t2 rest,
      JS.prop (Sample.tagsFilter ["draft"]) "tags" <> VArr (t1 :: t2 :: rest)) /\
  applyFilters Sample.library (Sample.tagsFilter ["draft"]) =
    Ok (VObj [("p2", Sample.summary); ("p3", Sample.persona)]) /\
  JS.prop (applyFiltersUI Sample.library (Sample.tagsFilter ["draft"])) "success" =
    VBool true /\
  JS.prop (applyFiltersUI Sample.library (Sample.tagsFilter ["draft"]))
    "filteredPrompts" = VObj [("p2", Sample.summary); ("p3", Sample.persona)].
Proof.
  split; [discriminate|]. split; [reflexivity|].
  apply (proj1 (applyFilters_agree_on_one_tag Sample.library
                  (Sample.tagsFilter ["draft"]) ltac:(discriminate))).
  reflexivity.
Defined.

Section Descending.

Context {A : Type} (compare : A -> A -> outcome Z) (key : A -> Z) (pool : A -> Prop).

Hypothesis compare_key :
  forall a b, pool a -> pool b -> compare a b = Ok (key b - key a)%Z.

Lemma oinsert_descending (x : A) (l : list A) :
  pool x -> Forall pool l ->
  StronglySorted (fun a b => (key b <= key a)%Z) l ->
  exists out,
    oinsert compare x l = Ok out /\
    StronglySorted (fun a b => (key b <= key a)%Z) out /\
    (forall y, In y out -> y = x \/ In y l).
Proof.
  intros Hx Hl Hs. induction Hs as [|y l Hs IH Hy]; simpl.
  - exists [x]. repeat split; [repeat constructor|].
    intros y [<-|[]]. now left.
  - inversion Hl as [|? ? Hpy Hpl]; subst.
    rewrite (compare_key x y Hx Hpy). simpl.
    destruct (key y - key x <=? 0)%Z eqn:Hc.
    + apply Z.leb_le in Hc. exists (x :: y :: l).
      split; [reflexivity|]. split; [|intros z [<-|Hz]; [now left|now right]].
      constructor; [constructor; assumption|].
      constructor; [lia|].
      eapply Forall_impl; [|exact Hy]. simpl. intros z Hz. lia.
    + apply Z.leb_gt in Hc.
      destruct (IH Hpl) as (rest & -> & Hrest & Hin). simpl.
      exists (y :: rest). split; [reflexivity|]. split.
      * constructor; [exact Hrest|].
        apply Forall_forall. intros z Hz. destruct (Hin z Hz) as [->|Hz'].
        -- lia.
        -- rewrite Forall_forall in Hy. apply Hy, Hz'.
      * intros z [<-|Hz]; [right; now left|].
        destruct (Hin z Hz) as [->|Hz']; [now left|right; now right].
Qed.

Lemma osort_descending (l : list A) :
  Forall pool l ->
  exists out,
    osort compare l = Ok out /\
    StronglySorted (fun a b => (key b <= key a)%Z) out.
Proof.
  induction 1 as [|x l Hx Hl IH]; simpl.
  - exists []. split; [reflexivity|constructor].
  - destruct IH as (sorted & Hsort & Hs). rewrite Hsort. simpl.
    assert (Hpool : Forall pool sorted).
    { apply Forall_forall. intros y Hy. rewrite Forall_forall in Hl. apply Hl.
      eapply Permutation_in;
        [apply Permutation_sym, (osort_Permutation compare), Hsort|exact Hy]. }
    destruct (oinsert_descending x sorted Hx Hpool Hs) as (out & Hout & Hso & _).
    exists out. split; assumption.
Qed.

End Descending.

Section SortedByDate.

Context {host : Host}.

Lemma compareCreated_dated (a b : value) :
  dated a -> dated b -> compareCreated a b = Ok (createdTime b - createdTime a)%Z.
Proof.
  intros (Ha & Hma & Hda) (Hb & Hmb & Hdb).
  unfold compareCreated, metadata_of, get, createdTime.
  rewrite Ha, Hb. simpl. rewrite Hma, Hmb. simpl.
  destruct (Date_of (JS.prop (JS.prop a "metadata") "created_at")); [|contradiction].
  destruct (Date_of (JS.prop (JS.prop b "metadata") "created_at")); [|contradiction].
  reflexivity.
Qed.

Lemma dated_defined (l : list value) :
  Forall dated l ->
  filter (fun v => negb (JS.is_undefined v)) l = l /\ filter JS.is_undefined l = [].
Proof.
  induction 1 as [|p l (Hp & _) _ [IH1 IH2]]; simpl; [split; reflexivity|].
  assert (Hu : JS.is_undefined p = false) by (destruct p; try reflexivity; discriminate).
  rewrite Hu. simpl. rewrite IH1, IH2. split; reflexivity.
Qed.

Lemma sortedArray_created (l : list value) :
  Forall dated l ->
  exists sorted,
    sortedArray l (VStr "created") = Ok sorted /\
    Permutation l sorted /\ newest_first sorted.
Proof.
  intros Hl.
  change (sortedArray l (VStr "created")) with (Array_sort compareCreated l).
  destruct (dated_defined l Hl) as [E1 E2].
  destruct (osort_descending compareCreated createdTime dated compareCreated_dated l Hl)
    as (sorted & Hsort & Hs).
  assert (Hrun : Array_sort compareCreated l = Ok sorted).
  { unfold Array_sort. rewrite E1, E2, Hsort. simpl. rewrite app_nil_r. reflexivity. }
  exists sorted. split; [exact Hrun|].
  split; [apply (Array_sort_Permutation _ _ _ Hrun)|exact Hs].
Qed.

End SortedByDate.

(** X17: sorting by [created] lists the newest record first. For records
    with distinct plain ids whose [created_at] is a date, [applySorting]
    succeeds and its [sortedPrompts] lists the records of the input, each
    under its id, in an order in which no record was created before a
    record that follows it; [sortPrompts] returns them in that order. *)
Theorem applySorting_created_newest_first {host : Host} (prompts : props) :
  Forall plain_id (map snd prompts) ->
  NoDup (map idOf (map snd prompts)) ->
  Forall dated (map snd prompts) ->
  exists sorted,
    sortPrompts (map snd prompts) (VStr "created") = Ok sorted /\
    JS.prop (applySorting (VObj prompts) (VStr "created")) "success" = VBool true /\
    JS.prop (applySorting (VObj prompts) (VStr "created")) "sortedPrompts" =
      VObj (map (fun p => (idOf p, p)) sorted) /\
    Permutation (map snd prompts) sorted /\
    newest_first sorted.
Proof.
  intros Hplain Hnd Hdated.
  destruct (sortedArray_created (map snd prompts) Hdated) as (sorted & Hsort & Hperm & Hs).
  exists sorted. split; [exact Hsort|].
  destruct (applySorting_keeps_order prompts (VStr "created") sorted
              Hplain Hnd Hsort Hperm) as [Hok Hout].
  repeat split; assumption.
Qed.

Lemma applySorting_created_newest_first_witness :
  Forall plain_id (map snd Fixture.byDate) /\
  NoDup (map idOf (map snd Fixture.byDate)) /\
  Forall (dated (host := UTC.host)) (map snd Fixture.byDate) /\
  exists sorted,
    sortPrompts (host := UTC.host) (map snd Fixture.byDate) (VStr "created") =
      Ok sorted /\
    JS.prop (applySorting (host := UTC.host) (VObj Fixture.byDate) (VStr "created"))
      "success" = VBool true /\
    JS.prop (applySorting (host := UTC.host) (VObj Fixture.byDate) (VStr "created"))
      "sortedPrompts" = VObj (map (fun p => (idOf p, p)) sorted) /\
    Permutation (map snd Fixture.byDate) sorted /\
    newest_first (host := UTC.host) sorted.
Proof.
  assert (Hplain : Forall plain_id (map snd Fixture.byDate)).
  { simpl.
    constructor; [exists "a"|constructor; [exists "b"|constructor; [exists "c"|constructor]]];
      (split; [reflexivity|split; [reflexivity|discriminate]]). }
  assert (Hnd : NoDup (map idOf (map snd Fixture.byDate))).
  { repeat constructor; simpl; intuition discriminate. }
  assert (Hdated : Forall (dated (host := UTC.host)) (map snd Fixture.byDate)).
  { repeat constructor; vm_compute; discriminate. }
  split; [exact Hplain|]. split; [exact Hnd|]. split; [exact Hdated|].
  exact (applySorting_created_newest_first (host := UTC.host) Fixture.byDate
           Hplain Hnd Hdated).
Defined.

Section DiffLines.

Lemma nonempty_false (s : string) : nonempty s = false -> s = "".
Proof.
  unfold nonempty. intros H. apply negb_false_iff in H. apply String.eqb_eq, H.
Qed.

Lemma diffLine_first (lines1 lines2 : list string) (i : nat) :
  map numbered (filter ofFirst (diffLine lines1 lines2 i)) =
  if nonempty (nth i lines1 "") then [(i + 1, nth i lines1 "")] else [].
Proof.
  unfold diffLine.
  set (line1 := nth i lines1 ""). set (line2 := nth i lines2 "").
  destruct (line1 =? line2)%string eqn:E.
  - destruct (nonempty line1); reflexivity.
  - destruct (nonempty line1) eqn:N1, (nonempty line2) eqn:N2; try reflexivity.
    apply nonempty_false in N1, N2. apply String.eqb_neq in E. congruence.
Qed.

Lemma diffLine_second (lines1 lines2 : list string) (i : nat) :
  map numbered (filter ofSecond (diffLine lines1 lines2 i)) =
  if nonempty (nth i lines2 "") then [(i + 1, nth i lines2 "")] else [].
Proof.
  unfold diffLine.
  set (line1 := nth i lines1 ""). set (line2 := nth i lines2 "").
  destruct (line1 =? line2)%string eqn:E.
  - apply String.eqb_eq in E. rewrite <- E. destruct (nonempty line1); reflexivity.
  - destruct (nonempty line1) eqn:N1, (nonempty line2) eqn:N2; try reflexivity.
    apply nonempty_false in N1, N2. apply String.eqb_neq in E. congruence.
Qed.

Lemma map_filter_flat_map {A B C} (g : B -> C) (p : B -> bool) (f : A -> list B)
    (l : list A) :
  map g (filter p (flat_map f l)) = flat_map (fun a => map g (filter p (f a))) l.
Proof.
  induction l as [|a l IH]; simpl; [reflexivity|].
  rewrite filter_app, map_app, IH. reflexivity.
Qed.

Lemma flat_map_ext_In {A B} (f g : A -> list B) (l : list A) :
  (forall a, In a l -> f a = g a) -> flat_map f l = flat_map g l.
Proof.
  induction l as [|a l IH]; simpl; intros H; [reflexivity|].
  rewrite (H a) by now left. rewrite IH; [reflexivity|].
  intros b Hb. apply H. now right.
Qed.

(** The non-empty lines among [lines[0 .. n)], read with [lines[i] || '']. *)
Lemma lines_numbered (lines : list string) :
  forall k extra,
    flat_map (fun i => if nonempty (nth (i - k) lines "")
                       then [(i + 1, nth (i - k) lines "")] else [])
      (seq k (length lines + extra)) =
    filter (fun nl => nonempty (snd nl)) (combine (seq (k + 1) (length lines)) lines).
Proof.
  induction lines as [|x lines IH]; intros k extra.
  - simpl. induction (seq k extra) as [|i l IHl]; simpl; [reflexivity|].
    destruct (i - k); simpl; exact IHl.
  - cbn [length Nat.add seq flat_map combine filter snd].
    rewrite Nat.sub_diag. cbn [nth].
    rewrite (flat_map_ext_In _
               (fun i => if nonempty (nth (i - S k) lines "")
                         then [(i + 1, nth (i - S k) lines "")] else [])).
    + rewrite IH. replace (S k + 1) with (S (k + 1)) by lia.
      destruct (nonempty x); reflexivity.
    + intros i Hi. apply in_seq in Hi.
      replace (i - k) with (S (i - S k)) by lia. reflexivity.
Qed.

Lemma flat_map_lines (lines : list string) (n : nat) :
  length lines <= n ->
  flat_map (fun i => if nonempty (nth i lines "") then [(i + 1, nth i lines "")] else [])
    (seq 0 n) =
  filter (fun nl => nonempty (snd nl)) (combine (seq 1 (length lines)) lines).
Proof.
  intros Hn. replace n with (length lines + (n - length lines)) by lia.
  pose proof (lines_numbered lines 0 (n - length lines)) as H.
  change (0 + 1) with 1 in H. rewrite <- H.
  apply flat_map_ext_In. intros i _. rewrite Nat.sub_0_r. reflexivity.
Qed.

End DiffLines.

(** X18: the diff loses no line of either text. The entries of type
    [removed] or [unchanged] are, in order, the non-empty lines of the
    first text with their line numbers, and the entries of type [added] or
    [unchanged] are those of the second. *)
Theorem generateContentDiff_keeps_lines (content1 content2 : string) :
  map numbered (filter ofFirst (generateContentDiff content1 content2)) =
    numberedLines content1 /\
  map numbered (filter ofSecond (generateContentDiff content1 content2)) =
    numberedLines content2.
Proof.
  unfold generateContentDiff, numberedLines. split; rewrite map_filter_flat_map.
  - rewrite (flat_map_ext_In _ _ _ (fun i _ => diffLine_first _ _ i)).
    apply flat_map_lines, Nat.le_max_l.
  - rewrite (flat_map_ext_In _ _ _ (fun i _ => diffLine_second _ _ i)).
    apply flat_map_lines, Nat.le_max_r.
Qed.

Section TextHelpers.

Lemma chars_append (a b : string) :
  list_ascii_of_string (a ++ b) = (list_ascii_of_string a ++ list_ascii_of_string b)%list.
Proof. induction a as [|c a IH]; simpl; [reflexivity|]. rewrite IH. reflexivity. Qed.

Lemma append_assoc (a b c : string) : ((a ++ b) ++ c = a ++ (b ++ c))%string.
Proof. induction a as [|x a IH]; simpl; [reflexivity|]. rewrite IH. reflexivity. Qed.

Lemma replaceAll_append (c : ascii) (r a b : string) :
  replaceAll c r (a ++ b) = (replaceAll c r a ++ replaceAll c r b)%string.
Proof.
  induction a as [|x a IH]; simpl; [reflexivity|].
  destruct (Ascii.eqb x c); simpl; rewrite IH; [rewrite append_assoc|]; reflexivity.
Qed.

Lemma replaceAll_chars (c : ascii) (r s : string) (x : ascii) :
  In x (list_ascii_of_string (replaceAll c r s)) ->
  (In x (list_ascii_of_string s) /\ x <> c) \/ In x (list_ascii_of_string r).
Proof.
  induction s as [|a s IH]; simpl; [tauto|].
  destruct (Ascii.eqb a c) eqn:E.
  - rewrite chars_append, in_app_iff. intros [H|H]; [now right|].
    destruct (IH H) as [[H1 H2]|H1]; [left; tauto|now right].
  - apply Ascii.eqb_neq in E. simpl. intros [<-|H].
    + left. split; [now left|exact E].
    + destruct (IH H) as [[H1 H2]|H1]; [left; tauto|now right].
Qed.

Lemma replaceAll_absent (c : ascii) (r s : string) :
  ~ In c (list_ascii_of_string s) -> replaceAll c r s = s.
Proof.
  induction s as [|a s IH]; simpl; intros H; [reflexivity|].
  destruct (Ascii.eqb a c) eqn:E.
  - apply Ascii.eqb_eq in E. tauto.
  - rewrite IH by tauto. reflexivity.
Qed.

Lemma length_substring_0 (n : nat) (s : string) :
  String.length (String.substring 0 n s) = Nat.min n (String.length s).
Proof.
  revert n. induction s as [|c s IH]; intros [|n]; simpl; try reflexivity.
  rewrite IH. reflexivity.
Qed.

Lemma length_append (a b : string) :
  String.length (a ++ b) = String.length a + String.length b.
Proof. induction a as [|c a IH]; simpl; [reflexivity|]. rewrite IH. reflexivity. Qed.

Lemma prefix_substring_0 (n : nat) (s : string) :
  String.prefix (String.substring 0 n s) s = true.
Proof.
  revert n. induction s as [|c s IH]; intros [|n]; simpl; try reflexivity.
  destruct (ascii_dec c c); [apply IH|congruence].
Qed.

End TextHelpers.

(** X19: what [escapeHtml] returns holds no [<], [>], double quote or
    single quote, whatever it is given. A string without these and without
    [&] comes back as it is, and the escape of a concatenation is the
    concatenation of the escapes: no pass escapes what an earlier pass
    wrote. *)
Theorem escapeHtml_no_markup (text : value) :
  (forall c, In c (list_ascii_of_string (escapeHtml text)) -> ~ markup c) /\
  (forall s, text = VStr s ->
             (forall c, In c (list_ascii_of_string s) -> c <> "&"%char /\ ~ markup c) ->
             escapeHtml text = s) /\
  (forall a b, text = VStr (a ++ b) ->
               escapeHtml text = (escapeHtml (VStr a) ++ escapeHtml (VStr b))%string).
Proof.
  split; [|split].
  - intros c Hin Hm. unfold escapeHtml in Hin.
    destruct text as [| |b|n| |s|items|ps|]; try contradiction.
    destruct (nonempty s); [|contradiction].
    repeat (apply replaceAll_chars in Hin;
            destruct Hin as [[Hin ?]|Hin];
            [|destruct Hm as [ -> | [ -> | [ -> | -> ] ] ]; simpl in Hin;
              intuition discriminate]).
    destruct Hm as [ -> | [ -> | [ -> | -> ] ] ]; congruence.
  - intros s -> Hplain. unfold escapeHtml.
    destruct (nonempty s) eqn:N; [|symmetry; apply nonempty_false, N].
    rewrite (replaceAll_absent "&" _ s)
      by (intros H; apply (proj1 (Hplain _ H)); reflexivity).
    rewrite (replaceAll_absent "<" _ s)
      by (intros H; apply (proj2 (Hplain _ H)); left; reflexivity).
    rewrite (replaceAll_absent ">" _ s)
      by (intros H; apply (proj2 (Hplain _ H)); right; left; reflexivity).
    rewrite (replaceAll_absent dquote _ s)
      by (intros H; apply (proj2 (Hplain _ H)); right; right; left; reflexivity).
    apply replaceAll_absent. intros H. apply (proj2 (Hplain _ H)).
    right; right; right. reflexivity.
  - intros a b ->. unfold escapeHtml.
    assert (Hempty : forall s, nonempty s = false ->
              replaceAll "'" "&#39;"
                (replaceAll dquote "&quot;"
                   (replaceAll ">" "&gt;"
                      (replaceAll "<" "&lt;" (replaceAll "&" "&amp;" s)))) = "")
      by (intros s N; apply nonempty_false in N; subst s; reflexivity).
    transitivity
      (replaceAll "'" "&#39;"
         (replaceAll dquote "&quot;"
            (replaceAll ">" "&gt;"
               (replaceAll "<" "&lt;" (replaceAll "&" "&amp;" (a ++ b)))))).
    { destruct (nonempty (a ++ b)) eqn:N; [reflexivity|]. symmetry. apply Hempty, N. }
    rewrite !replaceAll_append.
    destruct (nonempty a) eqn:Na, (nonempty b) eqn:Nb;
      try rewrite (Hempty a Na); try rewrite (Hempty b Nb); reflexivity.
Qed.

Lemma escapeHtml_no_markup_witness :
  escapeHtml (VStr "<b>Tom & Jerry</b>") = "&lt;b&gt;Tom &amp; Jerry&lt;/b&gt;" /\
  (forall c, In c (list_ascii_of_string (escapeHtml (VStr "<b>Tom & Jerry</b>"))) ->
             ~ markup c) /\
  escapeHtml (VStr "Tom") = "Tom" /\
  escapeHtml (VStr ("<b>" ++ "Tom")) = (escapeHtml (VStr "<b>") ++ escapeHtml (VStr "Tom"))%string.
Proof.
  split; [reflexivity|]. split.
  - apply (proj1 (escapeHtml_no_markup (VStr "<b>Tom & Jerry</b>"))).
  - split.
    + apply (proj1 (proj2 (escapeHtml_no_markup (VStr "Tom"))) "Tom" eq_refl).
      intros c Hc. simpl in Hc. unfold markup, dquote.
      destruct Hc as [<-|[<-|[<-|[]]]]; split; try discriminate;
        intros [H|[H|[H|H]]]; discriminate.
    + apply (proj2 (proj2 (escapeHtml_no_markup (VStr ("<b>" ++ "Tom")))) "<b>" "Tom").
      reflexivity.
Defined.

(** X20: on a text of characters below U+0100 (every string of the
    embedding, whose length is [text.length] in code units),
    [truncateText] with an integer [maxLength] returns a text that fits as
    it is; a longer text is cut to exactly [maxLength] characters, a
    prefix of the text followed by three dots, when [maxLength] is at
    least 3. Below 3 the result is the three dots alone, which is longer
    than [maxLength]. *)
Theorem truncateText_length (s : string) (maxLength : Z) :
  ((Z.of_nat (String.length s) <= maxLength)%Z -> truncateText (VStr s) maxLength = s) /\
  ((maxLength < Z.of_nat (String.length s))%Z -> (3 <= maxLength)%Z ->
   Z.of_nat (String.length (truncateText (VStr s) maxLength)) = maxLength /\
   exists kept,
     truncateText (VStr s) maxLength = (kept ++ "...")%string /\
     String.prefix kept s = true) /\
  ((maxLength < Z.of_nat (String.length s))%Z -> (maxLength < 3)%Z -> s <> "" ->
   truncateText (VStr s) maxLength = "...").
Proof.
  unfold truncateText. split; [|split].
  - intros Hfit. destruct (nonempty s) eqn:N; [|symmetry; apply nonempty_false, N].
    apply Z.leb_le in Hfit. rewrite Hfit. reflexivity.
  - intros Hlong Hmax.
    assert (N : nonempty s = true).
    { destruct s; [simpl in Hlong; lia|reflexivity]. }
    rewrite N. apply Z.leb_gt in Hlong. rewrite Hlong. apply Z.leb_gt in Hlong.
    split.
    + rewrite length_append, length_substring_0. simpl. lia.
    + eexists. split; [reflexivity|apply prefix_substring_0].
  - intros Hlong Hmax Hs.
    assert (N : nonempty s = true) by (destruct s; [congruence|reflexivity]).
    rewrite N. apply Z.leb_gt in Hlong. rewrite Hlong.
    replace (Z.to_nat (maxLength - 3)) with 0 by lia.
    destruct s; reflexivity.
Qed.

Lemma truncateText_length_witness :
  truncateText (VStr "Say hello") 20 = "Say hello" /\
  (Z.of_nat (String.length (truncateText (VStr "Say hello to the user") 10)) = 10%Z /\
   exists kept,
     truncateText (VStr "Say hello to the user") 10 = (kept ++ "...")%string /\
     String.prefix kept "Say hello to the user" = true) /\
  truncateText (VStr "Say hello") 2 = "...".
Proof.
  split; [|split].
  - apply (proj1 (truncateText_length "Say hello" 20)). simpl. lia.
  - apply (proj1 (proj2 (truncateText_length "Say hello to the user" 10)));
      simpl; lia.
  - apply (proj2 (proj2 (truncateText_length "Say hello" 2)));
      [simpl; lia|lia|discriminate].
Defined.

Section CacheFacts.

Context {host : Host}.

Lemma Map_get_set {V} (k k' : string) (v : V) (m : list (string * V)) :
  Cache.Map_get k' (Cache.Map_set k v m) =
  if (k' =? k)%string then Some v else Cache.Map_get k' m.
Proof.
  induction m as [|[k0 v0] m IH]; simpl.
  - destruct (k' =? k)%string; reflexivity.
  - destruct (k =? k0)%string eqn:E; simpl.
    + apply String.eqb_eq in E. subst k0. destruct (k' =? k)%string; reflexivity.
    + rewrite IH. destruct (k' =? k)%string eqn:E'; [|reflexivity].
      apply String.eqb_eq in E'. subst k'. rewrite E. reflexivity.
Qed.

Lemma Map_get_delete_other {V} (k k' : string) (m : list (string * V)) :
  k' <> k -> Cache.Map_get k' (Cache.Map_delete k m) = Cache.Map_get k' m.
Proof.
  intros Hne. induction m as [|[k0 v0] m IH]; simpl; [reflexivity|].
  destruct (k =? k0)%string eqn:E; simpl.
  - apply String.eqb_eq in E. subst k0.
    apply String.eqb_neq in Hne. rewrite Hne. reflexivity.
  - rewrite IH. reflexivity.
Qed.

Lemma length_Map_delete {V} (k : string) (v : V) (m : list (string * V)) :
  In (k, v) m -> S (length (Cache.Map_delete k m)) = length m.
Proof.
  induction m as [|[k0 v0] m IH]; simpl; [tauto|].
  intros [[= -> ->]|Hin].
  - rewrite String.eqb_refl. reflexivity.
  - destruct (k =? k0)%string; [reflexivity|]. simpl. rewrite IH by exact Hin.
    reflexivity.
Qed.

Lemma length_Map_set {V} (k : string) (v : V) (m : list (string * V)) :
  length (Cache.Map_set k v m) <= S (length m).
Proof.
  induction m as [|[k0 v0] m IH]; simpl; [lia|].
  destruct (k =? k0)%string; simpl; lia.
Qed.

Lemma Map_set_absent {V} (k : string) (v : V) (m : list (string * V)) :
  Cache.Map_get k m = None -> Cache.Map_set k v m = m ++ [(k, v)].
Proof.
  induction m as [|[k0 v0] m IH]; simpl; [reflexivity|].
  destruct (k =? k0)%string; [discriminate|]. intros H. rewrite IH by exact H.
  reflexivity.
Qed.

Lemma Map_get_absent {V} (k : string) (m : list (string * V)) :
  ~ In k (map fst m) -> Cache.Map_get k m = None.
Proof.
  induction m as [|[k0 v0] m IH]; simpl; [reflexivity|]. intros H.
  destruct (k =? k0)%string eqn:E;
    [apply String.eqb_eq in E; subst k0; destruct H; now left|].
  apply IH. tauto.
Qed.

Lemma In_Map_delete {V} (k k' : string) (m : list (string * V)) :
  In k' (map fst (Cache.Map_delete k m)) -> In k' (map fst m).
Proof.
  induction m as [|[k0 v0] m IH]; simpl; [tauto|].
  destruct (k =? k0)%string; simpl; tauto.
Qed.

Lemma NoDup_Map_delete {V} (k : string) (m : list (string * V)) :
  NoDup (map fst m) -> NoDup (map fst (Cache.Map_delete k m)).
Proof.
  induction m as [|[k0 v0] m IH]; simpl; intros H; [constructor|].
  inversion H as [|? ? Hnot Hnd]; subst.
  destruct (k =? k0)%string; [exact Hnd|]. simpl.
  constructor; [|apply IH, Hnd]. intros Hin. apply Hnot, (In_Map_delete k), Hin.
Qed.

Lemma Map_get_delete {V} (k : string) (m : list (string * V)) :
  NoDup (map fst m) -> Cache.Map_get k (Cache.Map_delete k m) = None.
Proof.
  induction m as [|[k0 v0] m IH]; simpl; intros H; [reflexivity|].
  inversion H as [|? ? Hnot Hnd]; subst.
  destruct (k =? k0)%string eqn:E.
  - apply String.eqb_eq in E. subst k0. apply Map_get_absent, Hnot.
  - simpl. rewrite E. apply IH, Hnd.
Qed.

Lemma In_Map_set {V} (k k' : string) (v : V) (m : list (string * V)) :
  In k' (map fst (Cache.Map_set k v m)) -> k' = k \/ In k' (map fst m).
Proof.
  induction m as [|[k0 v0] m IH]; simpl; [intuition congruence|].
  destruct (k =? k0)%string eqn:E; simpl.
  - apply String.eqb_eq in E. subst k0. tauto.
  - intros [H|H]; [tauto|]. destruct (IH H); tauto.
Qed.

Lemma NoDup_Map_set {V} (k : string) (v : V) (m : list (string * V)) :
  NoDup (map fst m) -> NoDup (map fst (Cache.Map_set k v m)).
Proof.
  induction m as [|[k0 v0] m IH]; simpl; intros H;
    [constructor; [simpl; tauto|constructor]|].
  inversion H as [|? ? Hnot Hnd]; subst.
  destruct (k =? k0)%string eqn:E; simpl.
  - apply String.eqb_eq in E. subst k0. constructor; assumption.
  - constructor; [|apply IH, Hnd]. intros Hin.
    destruct (In_Map_set _ _ _ _ Hin) as [->|Hin']; [|tauto].
    rewrite String.eqb_refl in E. discriminate.
Qed.

Lemma evict_frame (c c0 : Cache.cache) (n n0 : nat) :
  Cache.evictOldestCacheEntry c n = (c0, n0) ->
  Cache.ttl c0 = Cache.ttl c /\ Cache.maxCacheSize c0 = Cache.maxCacheSize c /\
  (NoDup (map fst (Cache.filters c)) -> NoDup (map fst (Cache.filters c0))).
Proof.
  unfold Cache.evictOldestCacheEntry.
  destruct (Cache.filters c) eqn:Hf; [intros [= <- _]; rewrite Hf; tauto|].
  destruct (fst _) as [k|]; [|intros [= <- _]; rewrite Hf; tauto].
  destruct (nonempty k); intros [= <- _]; [|rewrite Hf; tauto].
  split; [reflexivity|]. split; [reflexivity|].
  intros Hnd. apply (NoDup_Map_delete k (p :: l) Hnd).
Qed.

(** What the loop of [evictOldestCacheEntry] finds: the earliest
    timestamp below the clock, and the first entry that has it. *)
Lemma oldest_fold (entries : list (string * Cache.entry)) :
  forall (seen : list (string * Cache.entry)) (now : Z) (oldest : option string * Z),
    (snd oldest <= now)%Z ->
    Forall (fun ke => (snd oldest <= Cache.timestamp (snd ke))%Z) seen ->
    match fst oldest with
    | Some k => exists e, In (k, e) seen /\ Cache.timestamp e = snd oldest /\
                          (snd oldest < now)%Z
    | None => snd oldest = now
    end ->
    let found :=
      fold_left
        (fun oldest ke =>
           if (Cache.timestamp (snd ke) <? snd oldest)%Z
           then (Some (fst ke), Cache.timestamp (snd ke))
           else oldest)
        entries oldest in
    (snd found <= now)%Z /\
    Forall (fun ke => (snd found <= Cache.timestamp (snd ke))%Z) (seen ++ entries) /\
    match fst found with
    | Some k => exists e, In (k, e) (seen ++ entries) /\ Cache.timestamp e = snd found /\
                          (snd found < now)%Z
    | None => snd found = now
    end.
Proof.
  induction entries as [|[k e] entries IH]; intros seen now oldest Hle Hall Hkey; simpl.
  - rewrite app_nil_r. repeat split; assumption.
  - replace (seen ++ (k, e) :: entries) with ((seen ++ [(k, e)]) ++ entries)
      by (rewrite <- app_assoc; reflexivity).
    destruct (Cache.timestamp e <? snd oldest)%Z eqn:Hlt.
    + apply Z.ltb_lt in Hlt. apply IH; simpl.
      * lia.
      * apply Forall_app. split; [|repeat constructor; simpl; lia].
        eapply Forall_impl; [|exact Hall]. simpl. intros a Ha. lia.
      * exists e. split; [apply in_or_app; right; now left|]. split; [reflexivity|lia].
    + apply Z.ltb_ge in Hlt. apply IH.
      * exact Hle.
      * apply Forall_app. split; [exact Hall|repeat constructor; exact Hlt].
      * destruct (fst oldest) as [k0|]; [|exact Hkey].
        destruct Hkey as (e0 & Hin & Ht). exists e0.
        split; [apply in_or_app; now left|exact Ht].
Qed.

Lemma oldestEntry_spec (now : Z) (entries : list (string * Cache.entry)) :
  (snd (Cache.oldestEntry now entries) <= now)%Z /\
  Forall (fun ke => (snd (Cache.oldestEntry now entries) <= Cache.timestamp (snd ke))%Z)
    entries /\
  match fst (Cache.oldestEntry now entries) with
  | Some k => exists e, In (k, e) entries /\
                        Cache.timestamp e = snd (Cache.oldestEntry now entries) /\
                        (snd (Cache.oldestEntry now entries) < now)%Z
  | None => snd (Cache.oldestEntry now entries) = now
  end.
Proof.
  apply (oldest_fold entries [] now (None, now)); simpl;
    [lia|constructor|reflexivity].
Qed.

(** On a cache whose entries are all older than the clock and have
    non-empty keys, [evictOldestCacheEntry] deletes an entry with the
    earliest timestamp. *)
Lemma evict_oldest (c : Cache.cache) (n : nat) :
  Cache.filters c <> [] ->
  Forall (fun ke => nonempty (fst ke) = true /\
                    (Cache.timestamp (snd ke) < Date_now n)%Z) (Cache.filters c) ->
  exists k e,
    In (k, e) (Cache.filters c) /\
    Forall (fun ke => (Cache.timestamp e <= Cache.timestamp (snd ke))%Z) (Cache.filters c) /\
    Cache.evictOldestCacheEntry c n =
      (Cache.with_stats
         (Cache.mkCounters (Cache.hits (Cache.stats c)) (Cache.misses (Cache.stats c))
            (Cache.evictions (Cache.stats c) + 1))
         (Cache.with_filters (Cache.Map_delete k (Cache.filters c)) c), S n).
Proof.
  intros Hne Hall. unfold Cache.evictOldestCacheEntry.
  destruct (oldestEntry_spec (Date_now n) (Cache.filters c)) as (_ & Hmin & Hkey).
  destruct (Cache.filters c) as [|p l] eqn:Hf; [congruence|].
  destruct (fst (Cache.oldestEntry (Date_now n) (p :: l))) as [k|].
  - destruct Hkey as (e & Hin & Ht & _). exists k, e.
    rewrite Forall_forall in Hall. destruct (Hall _ Hin) as [Hk _]. simpl in Hk.
    rewrite Hk. split; [exact Hin|]. split; [|reflexivity].
    rewrite Ht. exact Hmin.
  - rewrite Hkey in Hmin. inversion Hmin as [|? ? Hp _]; subst.
    inversion Hall as [|? ? [_ Hp'] _]; subst. lia.
Qed.

(** When no entry is older than the clock, it deletes nothing. *)
Lemma evict_none (c : Cache.cache) (n : nat) :
  Forall (fun ke => (Date_now n <= Cache.timestamp (snd ke))%Z) (Cache.filters c) ->
  exists n', Cache.evictOldestCacheEntry c n = (c, n').
Proof.
  intros Hall. unfold Cache.evictOldestCacheEntry.
  destruct (oldestEntry_spec (Date_now n) (Cache.filters c)) as (_ & _ & Hkey).
  destruct (Cache.filters c) as [|p l] eqn:Hf; [eexists; reflexivity|].
  destruct (fst (Cache.oldestEntry (Date_now n) (p :: l))) as [k|];
    [|eexists; reflexivity].
  destruct Hkey as (e & Hin & Ht & Hlt).
  rewrite Forall_forall in Hall. specialize (Hall _ Hin). simpl in Hall. lia.
Qed.

End CacheFacts.

(** X21: what [cacheFilterResults] caches, [getCachedFilterResults]
    returns until it expires. With caching enabled, on a cache with
    distinct keys and for results that have a [length], the call succeeds and stores the results under the key with
    the time of the clock; a lookup whose clock reading is at most [ttl]
    later returns those results and counts a hit, and a later lookup
    returns [null], counts a miss and drops the entry. *)
Theorem cacheFilterResults_then_get {host : Host}
    (filterKey : string) (results metadata : value) (s : Cache.store) (c : Cache.cache) :
  Cache.promptCache s = Some c ->
  NoDup (map fst (Cache.filters c)) ->
  JS.is_nullish results = false ->
  exists report c1 n1,
    Cache.cacheFilterResults filterKey results metadata s =
      (report, Cache.mkStore (Some c1) n1) /\
    JS.prop report "success" = VBool true /\
    Cache.ttl c1 = Cache.ttl c /\
    (exists e, Cache.Map_get filterKey (Cache.filters c1) = Some e /\
               Cache.results e = results /\
               Cache.timestamp e = Date_now (Cache.readings s)) /\
    ((Date_now n1 - Date_now (Cache.readings s) <= Cache.ttl c)%Z ->
     exists c2,
       Cache.getCachedFilterResults filterKey (Cache.mkStore (Some c1) n1) =
         (results, Cache.mkStore (Some c2) (S n1)) /\
       Cache.hits (Cache.stats c2) = (Cache.hits (Cache.stats c1) + 1)%Z) /\
    ((Cache.ttl c < Date_now n1 - Date_now (Cache.readings s))%Z ->
     exists c2,
       Cache.getCachedFilterResults filterKey (Cache.mkStore (Some c1) n1) =
         (VNull, Cache.mkStore (Some c2) (S n1)) /\
       Cache.Map_get filterKey (Cache.filters c2) = None /\
       Cache.misses (Cache.stats c2) = (Cache.misses (Cache.stats c1) + 1)%Z).
Proof.
  intros Hc Hnd Hres. unfold Cache.cacheFilterResults. rewrite Hc.
  unfold get. rewrite Hres.
  destruct (if (Cache.maxCacheSize c <=? Z.of_nat (length (Cache.filters c)))%Z
            then Cache.evictOldestCacheEntry c (S (Cache.readings s))
            else (c, S (Cache.readings s))) as [c0 n0] eqn:Hev.
  assert (Hframe : Cache.ttl c0 = Cache.ttl c /\ NoDup (map fst (Cache.filters c0))).
  { destruct (_ <=? _)%Z; [|injection Hev as <- _; split; [reflexivity|exact Hnd]].
    destruct (evict_frame _ _ _ _ Hev) as (H1 & _ & H2). split; [exact H1|apply H2, Hnd]. }
  destruct Hframe as [Httl Hnd0].
  eexists _, _, n0. split; [reflexivity|]. split; [reflexivity|].
  split; [exact Httl|]. cbn [Cache.with_filters Cache.filters Cache.ttl Cache.stats].
  split.
  { eexists. rewrite Map_get_set, String.eqb_refl. split; [reflexivity|].
    split; reflexivity. }
  unfold Cache.getCachedFilterResults.
  cbn [Cache.promptCache Cache.readings Cache.with_filters Cache.filters Cache.ttl
       Cache.stats].
  rewrite Map_get_set, String.eqb_refl. cbn [Cache.timestamp Cache.results].
  rewrite Httl. split; intros Hage.
  - apply Z.ltb_ge in Hage. rewrite Hage. eexists. split; reflexivity.
  - apply Z.ltb_lt in Hage. rewrite Hage. eexists. split; [reflexivity|].
    split; [|reflexivity].
    cbn [Cache.with_stats Cache.with_filters Cache.filters].
    apply Map_get_delete, NoDup_Map_set, Hnd0.
Qed.

Lemma cacheFilterResults_then_get_witness :
  exists report c1 n1,
    Cache.cacheFilterResults (host := UTC.host) "favorites" (VArr [VStr "p3"]) VUndefined
      (Fixture.oneEntry 0) = (report, Cache.mkStore (Some c1) n1) /\
    JS.prop report "success" = VBool true /\
    exists c2,
      Cache.getCachedFilterResults (host := UTC.host) "favorites"
        (Cache.mkStore (Some c1) n1) =
        (VArr [VStr "p3"], Cache.mkStore (Some c2) (S n1)) /\
      Cache.hits (Cache.stats c2) = (Cache.hits (Cache.stats c1) + 1)%Z.
Proof.
  destruct (cacheFilterResults_then_get (host := UTC.host) "favorites"
              (VArr [VStr "p3"]) VUndefined (Fixture.oneEntry 0) _ eq_refl
              ltac:(repeat constructor; simpl; tauto) eq_refl)
    as (report & c1 & n1 & Hrun & Hok & Httl & _ & Hhit & _).
  exists report, c1, n1. split; [exact Hrun|]. split; [exact Hok|].
  apply Hhit. vm_compute in Hrun. injection Hrun as _ _ <-. vm_compute. discriminate.
Defined.

(** X22: [cacheFilterResults] keeps the cache within [maxCacheSize] when
    every entry is older than the clock. On a cache within its size of at
    least 1, whose keys are not empty, the call succeeds and the cache is
    still within its size; when the cache was full, an entry with the
    earliest timestamp has been evicted and counted, and every other key
    but the cached one keeps its entry. *)
Theorem cacheFilterResults_evicts_oldest {host : Host}
    (filterKey : string) (results metadata : value) (s : Cache.store) (c : Cache.cache) :
  Cache.promptCache s = Some c ->
  JS.is_nullish results = false ->
  (1 <= Cache.maxCacheSize c)%Z ->
  (Z.of_nat (length (Cache.filters c)) <= Cache.maxCacheSize c)%Z ->
  Forall (fun ke => nonempty (fst ke) = true /\
                    (Cache.timestamp (snd ke) < Date_now (S (Cache.readings s)))%Z)
    (Cache.filters c) ->
  exists report c' n',
    Cache.cacheFilterResults filterKey results metadata s =
      (report, Cache.mkStore (Some c') n') /\
    JS.prop report "success" = VBool true /\
    Cache.maxCacheSize c' = Cache.maxCacheSize c /\
    (Z.of_nat (length (Cache.filters c')) <= Cache.maxCacheSize c)%Z /\
    (Z.of_nat (length (Cache.filters c)) = Cache.maxCacheSize c ->
     exists k e,
       In (k, e) (Cache.filters c) /\
       Forall (fun ke => (Cache.timestamp e <= Cache.timestamp (snd ke))%Z)
         (Cache.filters c) /\
       Cache.evictions (Cache.stats c') = (Cache.evictions (Cache.stats c) + 1)%Z /\
       forall k', k' <> k -> k' <> filterKey ->
                  Cache.Map_get k' (Cache.filters c') = Cache.Map_get k' (Cache.filters c)).
Proof.
  intros Hc Hres Hmax Hsize Hall. unfold Cache.cacheFilterResults. rewrite Hc.
  unfold get. rewrite Hres.
  destruct (Cache.maxCacheSize c <=? Z.of_nat (length (Cache.filters c)))%Z eqn:Hfull.
  - apply Z.leb_le in Hfull.
    assert (Hne : Cache.filters c <> []).
    { intros E. rewrite E in Hfull. simpl in Hfull. lia. }
    destruct (evict_oldest c (S (Cache.readings s)) Hne Hall)
      as (k & e & Hin & Hmin & ->).
    eexists _, _, _. split; [reflexivity|]. split; [reflexivity|].
    split; [reflexivity|].
    cbn [Cache.with_stats Cache.with_filters Cache.filters Cache.stats Cache.evictions].
    pose proof (length_Map_delete k e _ Hin) as Hlen.
    split.
    + match goal with
      | |- context [Cache.Map_set filterKey ?x ?m] =>
          pose proof (length_Map_set filterKey x m)
      end. lia.
    + intros _. exists k, e. split; [exact Hin|]. split; [exact Hmin|].
      split; [reflexivity|].
      intros k' Hk Hkey. rewrite Map_get_set.
      apply String.eqb_neq in Hkey. rewrite Hkey.
      apply Map_get_delete_other, Hk.
  - apply Z.leb_gt in Hfull.
    eexists _, _, _. split; [reflexivity|]. split; [reflexivity|].
    split; [reflexivity|].
    cbn [Cache.with_filters Cache.filters].
    split; [|lia].
    match goal with
    | |- context [Cache.Map_set filterKey ?x ?m] =>
        pose proof (length_Map_set filterKey x m)
    end. lia.
Qed.

Lemma cacheFilterResults_evicts_oldest_witness :
  exists report c' n',
    Cache.cacheFilterResults (host := UTC.host) "favorites" (VArr [VStr "p3"]) VUndefined
      (Fixture.oneEntry 0) = (report, Cache.mkStore (Some c') n') /\
    JS.prop report "success" = VBool true /\
    (Z.of_nat (length (Cache.filters c')) <= 1)%Z /\
    Cache.Map_get "role:system" (Cache.filters c') = None.
Proof.
  destruct (cacheFilterResults_evicts_oldest (host := UTC.host) "favorites"
              (VArr [VStr "p3"]) VUndefined (Fixture.oneEntry 0) _ eq_refl eq_refl
              ltac:(simpl; lia) ltac:(simpl; lia)
              ltac:(repeat constructor; simpl; lia))
    as (report & c' & n' & Hrun & Hok & _ & Hsize & _).
  exists report, c', n'. split; [exact Hrun|]. split; [exact Hok|].
  split; [exact Hsize|].
  vm_compute in Hrun. injection Hrun as _ <- _. reflexivity.
Defined.

(** X23: [cacheFilterResults] lets the cache grow beyond [maxCacheSize]
    when no entry is older than the clock, as when the entries were cached
    within the same millisecond: [evictOldestCacheEntry] then finds nothing
    to delete. On a full cache a new key is added at the end, no entry is
    evicted, and the cache holds more than [maxCacheSize] entries. *)
Theorem cacheFilterResults_same_millisecond {host : Host}
    (filterKey : string) (results metadata : value) (s : Cache.store) (c : Cache.cache) :
  Cache.promptCache s = Some c ->
  JS.is_nullish results = false ->
  (Cache.maxCacheSize c <= Z.of_nat (length (Cache.filters c)))%Z ->
  Cache.Map_get filterKey (Cache.filters c) = None ->
  Forall (fun ke => (Date_now (S (Cache.readings s)) <= Cache.timestamp (snd ke))%Z)
    (Cache.filters c) ->
  exists report c' n' e,
    Cache.cacheFilterResults filterKey results metadata s =
      (report, Cache.mkStore (Some c') n') /\
    JS.prop report "success" = VBool true /\
    Cache.filters c' = Cache.filters c ++ [(filterKey, e)] /\
    Cache.results e = results /\
    Cache.stats c' = Cache.stats c /\
    Cache.maxCacheSize c' = Cache.maxCacheSize c /\
    (Cache.maxCacheSize c' < Z.of_nat (length (Cache.filters c')))%Z.
Proof.
  intros Hc Hres Hfull Hnew Hall. unfold Cache.cacheFilterResults. rewrite Hc.
  unfold get. rewrite Hres.
  apply Z.leb_le in Hfull. rewrite Hfull. apply Z.leb_le in Hfull.
  destruct (evict_none c (S (Cache.readings s)) Hall) as [n' ->].
  eexists _, _, n', _. split; [reflexivity|]. split; [reflexivity|].
  cbn [Cache.with_filters Cache.filters Cache.stats Cache.maxCacheSize].
  rewrite (Map_set_absent _ _ _ Hnew).
  split; [reflexivity|]. split; [reflexivity|]. split; [reflexivity|].
  split; [reflexivity|].
  rewrite length_app. simpl. lia.
Qed.

Lemma cacheFilterResults_same_millisecond_witness :
  exists report c' n' e,
    Cache.cacheFilterResults (host := Fixture.sameMillisecond) "favorites"
      (VArr [VStr "p3"]) VUndefined (Fixture.oneEntry 1705314600000) =
      (report, Cache.mkStore (Some c') n') /\
    JS.prop report "success" = VBool true /\
    Cache.filters c' =
      [("role:system", Cache.mkEntry (VArr [VStr "p1"]) (VObj []) 1705314600000 0);
       ("favorites", e)] /\
    Cache.maxCacheSize c' = 1%Z /\
    (1 < Z.of_nat (length (Cache.filters c')))%Z.
Proof.
  destruct (cacheFilterResults_same_millisecond (host := Fixture.sameMillisecond)
              "favorites" (VArr [VStr "p3"]) VUndefined
              (Fixture.oneEntry 1705314600000) _ eq_refl eq_refl
              ltac:(simpl; lia) eq_refl
              ltac:(repeat constructor; simpl; lia))
    as (report & c' & n' & e & Hrun & Hok & Hf & _ & _ & Hmax & Hlen).
  exists report, c', n', e. split; [exact Hrun|]. split; [exact Hok|].
  split; [exact Hf|]. split; [exact Hmax|]. rewrite Hmax in Hlen. exact Hlen.
Defined.

Section Repairs.

Context {host : Host}.

Lemma validatePromptData_returns (r : value) :
  JS.is_nullish r = false -> exists v, validatePromptData r = Ok v.
Proof.
  intros Hn. unfold validatePromptData, get. rewrite Hn. simpl. eexists. reflexivity.
Qed.

Lemma lookup_put_same (k : string) (v : value) (ps : props) :
  k <> "__proto__" -> JS.lookup k (JS.put k v ps) = Some v.
Proof.
  intros Hk. rewrite (put_set k v ps Hk), lookup_set, String.eqb_refl. reflexivity.
Qed.

Lemma NoDup_put (k : string) (v : value) (ps : props) :
  NoDup (keys ps) -> NoDup (keys (JS.put k v ps)).
Proof.
  intros H. unfold JS.put. destruct (_ && _); [exact H|apply NoDup_set, H].
Qed.

Lemma repair_step (store0 l acc : props) (k : string) (r : value) (s : state) :
  NoDup (keys ((k, r) :: l)) ->
  JS.is_nullish r = false ->
  k <> "__proto__" ->
  repairing store0 ((k, r) :: l) acc s ->
  exists acc' s',
    visitPrompt acc (k, r) s = (Ok acc', s') /\
    same_settings s s' /\
    repairing store0 l acc' s'.
Proof.
  intros Hnd Hr Hk (I1 & I2 & I3 & I4 & I5 & I6 & I7 & I8 & I9 & I10).
  simpl in Hnd. inversion Hnd as [|? ? Hnot Hnd']; subst.
  assert (Hhere : JS.lookup k (stored s) = Some r) by (apply I6; now left).
  assert (Hfirst : JS.lookup k store0 = Some r) by (apply I9; now left).
  assert (Hother : forall k0, In k0 (keys l) -> k0 <> k) by (intros k0 H E; subst k0; exact (Hnot H)).
  assert (Hrest : forall k0, k0 <> k -> ~ In k0 (keys l) -> ~ In k0 (keys ((k, r) :: l))).
  { intros k0 Hne H0. simpl. intros [E|E]; [apply Hne; symmetry; exact E|exact (H0 E)]. }
  assert (I9' : forall k0 r0, In (k0, r0) l -> JS.lookup k0 store0 = Some r0)
    by (intros k0 r0 H0; apply I9; now right).
  assert (Hput : forall v, is_valid v = true ->
                   Forall (fun kv => is_valid (snd kv) = true) (JS.put k v acc)).
  { intros v Hv. apply Forall_forall. intros [k' v'] Hin.
    destruct (In_put _ _ _ _ _ Hin) as [[= -> ->]|Hin']; [exact Hv|].
    rewrite Forall_forall in I3. apply (I3 _ Hin'). }
  unfold visitPrompt, bind, lift. cbn [fst snd].
  destruct (validatePromptData_returns r Hr) as [v Hv]. rewrite Hv.
  destruct (isValid v) eqn:Hi.
  - exists (JS.put k r acc), s. split; [reflexivity|]. split; [split; reflexivity|].
    assert (Hrv : is_valid r = true) by (unfold is_valid; rewrite Hv; exact Hi).
    refine (conj I1 (conj I2 (conj (Hput r Hrv) (conj _ (conj _ (conj _
              (conj I7 (conj I8 (conj I9' _))))))))).
    + intros k0 H0. rewrite lookup_put_other by (apply Hother, H0).
      apply I4. now right.
    + intros k0 H0. destruct (string_dec k0 k) as [->|Hne].
      * rewrite lookup_put_same by exact Hk. exact Hhere.
      * rewrite lookup_put_other by exact Hne. apply I5, Hrest; assumption.
    + intros k0 r0 H0. apply I6. now right.
    + intros k0 r0 H0 Hv0 Hl. destruct (string_dec k0 k) as [->|Hne].
      * rewrite Hfirst in H0. injection H0 as <-. congruence.
      * apply (I10 k0 r0 H0 Hv0), Hrest; assumption.
  - assert (Hrv : is_valid r = false) by (unfold is_valid; rewrite Hv; exact Hi).
    destruct (repairPromptData_cases r s) as (r' & s1 & Hrun & Hr' & H1).
    rewrite Hrun.
    assert (Hst : stored s1 = stored s).
    { destruct H1 as [Hp _]. unfold stored. rewrite Hp. reflexivity. }
    apply same_store_settings in H1.
    destruct (JS.truthy r') eqn:Ht.
    + rewrite store_set_run. eexists _, _. split; [reflexivity|].
      split; [exact H1|].
      assert (Hv' : is_valid r' = true) by (destruct Hr' as [->|H]; [discriminate|exact H]).
      assert (Hset : stored (mkState (Some (JS.put k r' (stored s1)))
                               (max_prompts s1) (completion_preset s1) (tick s1)) =
                     JS.put k r' (stored s)) by (rewrite <- Hst; reflexivity).
      unfold repairing. rewrite Hset.
      refine (conj (NoDup_put _ _ _ I1) (conj _ (conj (Hput r' Hv')
                (conj _ (conj _ (conj _ (conj _ (conj _ (conj I9' _))))))))).
      * rewrite lookup_put_other by (intros E; apply Hk; symmetry; exact E). exact I2.
      * intros k0 H0. rewrite lookup_put_other by (apply Hother, H0).
        apply I4. now right.
      * intros k0 H0. destruct (string_dec k0 k) as [->|Hne].
        -- rewrite !lookup_put_same by exact Hk. reflexivity.
        -- rewrite !lookup_put_other by exact Hne. apply I5, Hrest; assumption.
      * intros k0 r0 H0.
        rewrite lookup_put_other by (apply Hother, (in_map fst _ _ H0)).
        apply I6. now right.
      * intros k0 r0 H0 Hv0. specialize (I7 k0 r0 H0 Hv0).
        destruct (string_dec k0 k) as [->|Hne]; [congruence|].
        rewrite lookup_put_other by exact Hne. exact I7.
      * intros k0 H0. specialize (I8 k0 H0).
        destruct (string_dec k0 k) as [->|Hne]; [congruence|].
        rewrite lookup_put_other by exact Hne. exact I8.
      * intros k0 r0 H0 Hv0 Hl. destruct (string_dec k0 k) as [->|Hne].
        -- rewrite Hfirst in H0. injection H0 as <-.
           exists s, s1, r'. split; [exact Hrun|].
           rewrite Ht. apply lookup_put_same, Hk.
        -- rewrite lookup_put_other by exact Hne.
           apply (I10 k0 r0 H0 Hv0), Hrest; assumption.
    + rewrite store_delete_run. eexists _, _. split; [reflexivity|].
      split; [exact H1|].
      assert (Hdel : stored (mkState (option_map (JS.delete k) (prompts s1))
                               (max_prompts s1) (completion_preset s1) (tick s1)) =
                     JS.delete k (stored s)).
      { rewrite <- Hst. unfold stored. cbn [prompts].
        destruct (prompts s1); reflexivity. }
      unfold repairing. rewrite Hdel.
      assert (Hlook : forall k0, JS.lookup k0 (JS.delete k (stored s)) =
                                 if (k0 =? k)%string then None else JS.lookup k0 (stored s))
        by (intros k0; apply lookup_delete, I1).
      refine (conj (NoDup_delete _ _ I1) (conj _ (conj I3
                (conj _ (conj _ (conj _ (conj _ (conj _ (conj I9' _))))))))).
      * rewrite Hlook. destruct ("__proto__" =? k)%string; [reflexivity|exact I2].
      * intros k0 H0. apply I4. now right.
      * intros k0 H0. rewrite Hlook. destruct (k0 =? k)%string eqn:E.
        -- apply String.eqb_eq in E. subst k0. symmetry. apply I4. now left.
        -- apply String.eqb_neq in E. apply I5. simpl. intros [H|H]; [congruence|tauto].
      * intros k0 r0 H0. rewrite Hlook.
        pose proof (Hother k0 (in_map fst _ _ H0)) as Hne.
        apply String.eqb_neq in Hne. rewrite Hne. apply I6. now right.
      * intros k0 r0 H0 Hv0. specialize (I7 k0 r0 H0 Hv0). rewrite Hlook.
        destruct (k0 =? k)%string eqn:E; [|exact I7].
        apply String.eqb_eq in E. subst k0. congruence.
      * intros k0 H0. rewrite Hlook. destruct (k0 =? k)%string; [reflexivity|].
        apply I8, H0.
      * intros k0 r0 H0 Hv0 Hl. rewrite Hlook.
        destruct (k0 =? k)%string eqn:E.
        -- apply String.eqb_eq in E. subst k0.
           rewrite Hfirst in H0. injection H0 as <-.
           exists s, s1, r'. split; [exact Hrun|]. rewrite Ht. reflexivity.
        -- apply String.eqb_neq in E.
           apply (I10 k0 r0 H0 Hv0), Hrest; assumption.
Qed.

Lemma repair_loop (store0 l : props) :
  NoDup (keys l) ->
  Forall (fun kv => JS.is_nullish (snd kv) = false) l ->
  ~ In "__proto__" (keys l) ->
  forall acc s,
    repairing store0 l acc s ->
    exists out s',
      foldM visitPrompt l acc s = (Ok out, s') /\
      same_settings s s' /\
      repairing store0 [] out s'.
Proof.
  induction l as [|[k r] l IH]; intros Hnd Hall Hproto acc s Hinv.
  - exists acc, s. split; [reflexivity|]. split; [split; reflexivity|exact Hinv].
  - inversion Hall as [|? ? Hr Hall']; subst. simpl in Hr.
    assert (Hk : k <> "__proto__") by (intros ->; apply Hproto; now left).
    destruct (repair_step store0 l acc k r s Hnd Hr Hk Hinv)
      as (acc' & s1 & Hstep & H1 & Hinv1).
    cbn [foldM]. unfold bind. rewrite Hstep.
    inversion Hnd as [|? ? _ Hnd']; subst.
    destruct (IH Hnd' Hall' (fun H => Hproto (or_intror H)) acc' s1 Hinv1)
      as (out & s2 & -> & H2 & Hinv2).
    exists out, s2. split; [reflexivity|].
    split; [exact (same_settings_trans _ _ _ H1 H2)|exact Hinv2].
Qed.

End Repairs.

(** X24: [getPrompts] repairs the store. Whatever records a store with
    distinct keys holds (none of them [null] or [undefined], no key
    [__proto__]), [getPrompts] returns; afterwards the store is a store of
    valid records and holds exactly what the call returned. A record that
    was valid is still stored as it was; in the place of a record that was
    not, the store holds what [repairPromptData] returned for it, and
    nothing when that is [null]; and no id has been added. *)
Theorem getPrompts_repairs_store {host : Host} (store : props) (s : state) :
  prompts s = Some store ->
  NoDup (keys store) ->
  ~ In "__proto__" (keys store) ->
  Forall (fun kv => JS.is_nullish (snd kv) = false) store ->
  exists out s',
    getPrompts VUndefined s = (Ok (VObj out), s') /\
    valid_store (stored s') /\
    (forall k, JS.lookup k out = JS.lookup k (stored s')) /\
    (forall k r, JS.lookup k store = Some r -> is_valid r = true ->
                 JS.lookup k (stored s') = Some r) /\
    (forall k r, JS.lookup k store = Some r -> is_valid r = false ->
                 exists s0 s1 r',
                   repairPromptData r s0 = (Ok r', s1) /\
                   JS.lookup k (stored s') = if JS.truthy r' then Some r' else None) /\
    (forall k, JS.lookup k store = None -> JS.lookup k (stored s') = None).
Proof.
  intros Hs Hnd Hproto Hall.
  assert (Hst : stored s = store) by (unfold stored; rewrite Hs; reflexivity).
  assert (Hinv : repairing store (JS.literal store) [] s).
  { unfold repairing. rewrite Hst.
    refine (conj Hnd (conj _ (conj (Forall_nil _) (conj _ (conj _ (conj _
              (conj _ (conj _ (conj _ _))))))))).
    - apply lookup_None_keys, Hproto.
    - reflexivity.
    - intros k Hk. simpl. apply lookup_None_keys. intros Hin. apply Hk.
      apply In_keys_lookup. rewrite (lookup_literal k store Hnd).
      apply In_keys_lookup, Hin.
    - intros k r Hin. apply In_lookup; [exact Hnd|].
      apply (In_literal k r store Hnd Hin).
    - intros k r H _. exact H.
    - intros k H. exact H.
    - intros k r Hin. apply In_lookup; [exact Hnd|].
      apply (In_literal k r store Hnd Hin).
    - intros k r H _ Hk. exfalso. apply Hk.
      apply In_keys_lookup. rewrite (lookup_literal k store Hnd), H. discriminate. }
  destruct (repair_loop store (JS.literal store)) with (acc := @nil (string * value)) (s := s)
    as (out & s' & Hloop & _ & (I1 & I2 & I3 & _ & I5 & _ & I7 & I8 & _ & I10)).
  - apply NoDup_literal.
  - apply Forall_forall. intros [k r] Hin. apply (In_literal k r store Hnd) in Hin.
    rewrite Forall_forall in Hall. apply (Hall _ Hin).
  - intros Hin. apply Hproto, (keys_literal _ _ Hnd Hin).
  - exact Hinv.
  - exists out, s'. split.
    + unfold getPrompts, try_catch, bind, get_state. simpl. rewrite Hs.
      change (JS.spread [] (VObj store)) with (JS.literal store).
      rewrite Hloop. reflexivity.
    + split; [|split; [|split; [exact I7|split; [|exact I8]]]].
      * refine (conj I1 (conj _ _)).
        -- apply Forall_forall. intros [k v] Hin. simpl.
           pose proof (In_lookup k v _ I1 Hin) as Hl.
           rewrite (I5 k (fun H => H)) in Hl. apply lookup_Some_In in Hl.
           rewrite Forall_forall in I3. apply (I3 _ Hl).
        -- apply lookup_None_keys, I2.
      * intros k. symmetry. apply I5. intros [].
      * intros k r H Hv. apply (I10 k r H Hv). intros [].
Qed.

(** The theorem at a store of three records, of which the first is valid,
    the second can be repaired and the third cannot. *)
Lemma getPrompts_repairs_store_witness :
  exists out s',
    getPrompts (host := UTC.host) VUndefined Fixture.damaged = (Ok (VObj out), s') /\
    valid_store (host := UTC.host) (stored s') /\
    (forall k, JS.lookup k out = JS.lookup k (stored s')) /\
    (forall k r, JS.lookup k (stored Fixture.damaged) = Some r ->
                 is_valid (host := UTC.host) r = true ->
                 JS.lookup k (stored s') = Some r) /\
    (forall k r, JS.lookup k (stored Fixture.damaged) = Some r ->
                 is_valid (host := UTC.host) r = false ->
                 exists s0 s1 r',
                   repairPromptData (host := UTC.host) r s0 = (Ok r', s1) /\
                   JS.lookup k (stored s') = if JS.truthy r' then Some r' else None) /\
    (forall k, JS.lookup k (stored Fixture.damaged) = None ->
               JS.lookup k (stored s') = None).
Proof.
  apply (getPrompts_repairs_store (host := UTC.host) (stored Fixture.damaged)
           Fixture.damaged eq_refl).
  - repeat constructor; simpl; intuition discriminate.
  - simpl. intuition discriminate.
  - repeat constructor.
Defined.

(** On that store [getPrompts] keeps the valid record, replaces the second
    by its repair and deletes the third. *)
Lemma getPrompts_repairs_damaged :
  is_valid (host := UTC.host) Fixture.miscast = false /\
  (forall s, repairPromptData (host := UTC.host) Fixture.miscast s =
             (Ok Fixture.recast, s)) /\
  exists s',
    getPrompts (host := UTC.host) VUndefined Fixture.damaged =
      (Ok (VObj [("p1", Sample.greeting); ("p5", Fixture.recast)]), s') /\
    stored s' = [("p1", Sample.greeting); ("p5", Fixture.recast)].
Proof.
  split; [vm_compute; reflexivity|].
  split; [intros s; vm_compute; destruct s; reflexivity|].
  eexists. split; vm_compute; reflexivity.
Qed.

(** X25: the filter state of [resetFilters] hides nothing. Given the
    records of an object, [PromptLibraryUI.applyFilters] with that state
    returns all of them, in their order, and [applyFiltersAndSorting]
    returns what [applySorting] by [latest_used] makes of all of them:
    its failure, or its [sortedPrompts] as [processedPrompts]. *)
Theorem resetFilters_hide_nothing {host : Host} (prompts : props) :
  enumeration_order prompts ->
  applyFiltersUI (VObj prompts) resetFilters =
    VObj [("success", VBool true);
          ("filteredPrompts", VObj prompts);
          ("message",
           VStr ("Filtered " ++ Str.of_nat (length prompts) ++ " prompts")%string)] /\
  applyFiltersAndSorting (VObj prompts) resetFilters =
    (let sortResult := applySorting (VObj prompts) (VStr "latest_used") in
     if JS.truthy (JS.prop sortResult "success") then
       VObj [("success", VBool true);
             ("processedPrompts", JS.prop sortResult "sortedPrompts");
             ("message",
              VStr ("Processed " ++
                    Str.of_nat (length (JS.own_props (JS.prop sortResult "sortedPrompts"))) ++
                    " prompts")%string)]
     else sortResult).
Proof.
  intros Hord.
  assert (Hfilter : applyFiltersUI (VObj prompts) resetFilters =
            VObj [("success", VBool true);
                  ("filteredPrompts", VObj prompts);
                  ("message",
                   VStr ("Filtered " ++ Str.of_nat (length prompts) ++ " prompts")%string)]).
  { unfold applyFiltersUI, filterChain.
    change (activeSearch resetFilters) with (@Ok (option string) None).
    change (activeRole resetFilters) with (@None value).
    change (activeFavorite resetFilters) with (@None value).
    change (activeTags resetFilters) with (@None (list value)).
    change (JS.spread [] (VObj prompts)) with (JS.literal prompts).
    rewrite (literal_ordered prompts Hord). reflexivity. }
  split; [exact Hfilter|].
  unfold applyFiltersAndSorting. rewrite Hfilter.
  change (JS.prop (VObj [("success", VBool true); ("filteredPrompts", VObj prompts);
                         ("message",
                          VStr ("Filtered " ++ Str.of_nat (length prompts) ++
                                " prompts")%string)]) "success")
    with (VBool true).
  change (JS.prop (VObj [("success", VBool true); ("filteredPrompts", VObj prompts);
                         ("message",
                          VStr ("Filtered " ++ Str.of_nat (length prompts) ++
                                " prompts")%string)]) "filteredPrompts")
    with (VObj prompts).
  change (get resetFilters "sort") with (Ok (VStr "latest_used")).
  cbn [JS.truthy negb]. cbv beta iota zeta.
  change (JS.or (VStr "latest_used") (VStr "latest_used")) with (VStr "latest_used").
  destruct (JS.truthy (JS.prop (applySorting (VObj prompts) (VStr "latest_used")) "success"));
    reflexivity.
Qed.

Lemma resetFilters_hide_nothing_witness :
  enumeration_order (JS.own_props Sample.library) /\
  applyFiltersUI Sample.library resetFilters =
    VObj [("success", VBool true);
          ("filteredPrompts", Sample.library);
          ("message", VStr "Filtered 3 prompts")] /\
  JS.prop (applyFiltersAndSorting (host := UTC.host) Sample.library resetFilters)
    "processedPrompts" =
    VObj [("p1", Sample.greeting); ("p3", Sample.persona); ("p2", Sample.summary)].
Proof.
  assert (Hord : enumeration_order (JS.own_props Sample.library)).
  { repeat constructor; simpl; discriminate. }
  split; [exact Hord|].
  destruct (resetFilters_hide_nothing (host := UTC.host) (JS.own_props Sample.library) Hord)
    as [Hf Hs].
  split; [exact Hf|].
  change (VObj (JS.own_props Sample.library)) with Sample.library in Hs.
  rewrite Hs. vm_compute. reflexivity.
Defined.

Section ComparisonFacts.

Context {host : Host}.

Variable JSON_stringify : value -> option string.

Lemma same_json_refl (v : value) : same_json JSON_stringify v v = true.
Proof.
  unfold same_json. destruct (JSON_stringify v); [apply String.eqb_refl|reflexivity].
Qed.

Lemma diff_same_unchanged (text : string) :
  Forall (fun e => type e = unchanged) (generateContentDiff text text).
Proof.
  unfold generateContentDiff. apply Forall_flat_map, Forall_forall. intros i _.
  unfold diffLine. rewrite String.eqb_refl.
  destruct (nonempty _); repeat constructor.
Qed.

Lemma comparison_same (metadata : value) (allKeys : list string) :
  forall acc,
    Forall (fun kv => JS.prop (snd kv) "different" = VBool false) acc ->
    Forall (fun kv => JS.prop (snd kv) "different" = VBool false)
      (fold_left
         (fun comparison key =>
            let value1 := JS.prop metadata key in
            let value2 := JS.prop metadata key in
            JS.put key
              (VObj [("value1", value1);
                     ("value2", value2);
                     ("different",
                      VBool (negb (same_json JSON_stringify value1 value2)))])
              comparison)
         allKeys acc).
Proof.
  induction allKeys as [|k allKeys IH]; intros acc Hacc; simpl; [exact Hacc|].
  apply IH. apply Forall_forall. intros [k' v'] Hin.
  destruct (In_put _ _ _ _ _ Hin) as [[= -> ->]|Hin'].
  - simpl. rewrite same_json_refl. reflexivity.
  - rewrite Forall_forall in Hacc. apply (Hacc _ Hin').
Qed.

End ComparisonFacts.

(** X26: [comparePrompts] of a stored prompt with itself finds no
    difference. On a store of valid records and a record with metadata,
    the call succeeds, leaves the state as it was and returns the record
    twice; every entry of [differences] is of type [unchanged], and every
    entry of [metadata_comparison] has [different] false. An id that is not
    in the store makes it fail with ['First prompt not found: '] or
    ['Second prompt not found: '] and the id. *)
Theorem comparePrompts_itself {host : Host} (JSON_stringify : value -> option string)
    (id1 id2 : string) (s : state) :
  valid_store (stored s) -> own_key id1 -> own_key id2 ->
  (JS.lookup id1 (stored s) = None ->
   comparePrompts JSON_stringify (VStr id1) (VStr id2) s =
     (Ok (VObj [("success", VBool false);
                ("error", VStr ("First prompt not found: " ++ id1)%string);
                ("message", VStr "Failed to compare prompts")]), s)) /\
  (JS.lookup id1 (stored s) <> None -> JS.lookup id2 (stored s) = None ->
   comparePrompts JSON_stringify (VStr id1) (VStr id2) s =
     (Ok (VObj [("success", VBool false);
                ("error", VStr ("Second prompt not found: " ++ id2)%string);
                ("message", VStr "Failed to compare prompts")]), s)) /\
  (forall r,
      id2 = id1 -> JS.lookup id1 (stored s) = Some r ->
      JS.is_nullish (JS.prop r "metadata") = false ->
      exists differences comparison,
        comparePrompts JSON_stringify (VStr id1) (VStr id2) s =
          (Ok (VObj [("success", VBool true);
                     ("data", VObj [("prompt1", r);
                                    ("prompt2", r);
                                    ("differences", VArr (map diffValue differences));
                                    ("metadata_comparison", VObj comparison)]);
                     ("message", VStr "Prompts compared successfully")]), s) /\
        Forall (fun e => type e = unchanged) differences /\
        Forall (fun kv => JS.prop (snd kv) "different" = VBool false) comparison).
Proof.
  intros Hstore Hk1 Hk2.
  pose proof (loadPrompt_valid id1 s Hstore Hk1) as H1.
  pose proof (loadPrompt_valid id2 s Hstore Hk2) as H2.
  split; [|split].
  - intros Hno. rewrite Hno in H1.
    unfold comparePrompts, try_catch, bind. rewrite H1, H2. reflexivity.
  - intros Hsome Hno. rewrite Hno in H2.
    destruct (JS.lookup id1 (stored s)) as [r|] eqn:Hr; [|congruence].
    unfold comparePrompts, try_catch, bind. rewrite H1, H2.
    rewrite (is_valid_truthy r (valid_store_truthy _ _ _ Hstore Hr)). reflexivity.
  - intros r -> Hr Hm. rewrite Hr in H1.
    pose proof (valid_store_truthy _ _ _ Hstore Hr) as Hv.
    destruct (is_valid_inv r Hv) as [_ _ _ Hcontent _ _ _ _ _ _ _ _].
    unfold comparePrompts, try_catch, bind. rewrite H1. cbv beta iota. rewrite H1.
    rewrite (is_valid_truthy r Hv). cbn [negb]. unfold lift.
    unfold blank in Hcontent.
    apply orb_false_iff in Hcontent. destruct Hcontent as [Hstr _].
    apply orb_false_iff in Hstr. destruct Hstr as [_ Hstr].
    apply negb_false_iff in Hstr.
    destruct (JS.prop r "content") as [| |b|n| |text|items|ps|] eqn:Hc;
      try discriminate.
    cbn [string_receiver].
    unfold generateMetadataComparison. rewrite Hm. cbn [orb].
    eexists _, _. split; [reflexivity|]. split.
    + apply diff_same_unchanged.
    + apply comparison_same. constructor.
Qed.

Lemma comparePrompts_itself_witness :
  valid_store (host := UTC.host) (stored Sample.full) /\
  comparePrompts (host := UTC.host) Fixture.stringify (VStr "p3") (VStr "p1") Sample.full =
    (Ok (VObj [("success", VBool false);
               ("error", VStr "First prompt not found: p3");
               ("message", VStr "Failed to compare prompts")]), Sample.full) /\
  comparePrompts (host := UTC.host) Fixture.stringify (VStr "p1") (VStr "p3") Sample.full =
    (Ok (VObj [("success", VBool false);
               ("error", VStr "Second prompt not found: p3");
               ("message", VStr "Failed to compare prompts")]), Sample.full) /\
  exists differences comparison,
    comparePrompts (host := UTC.host) Fixture.stringify (VStr "p1") (VStr "p1") Sample.full =
      (Ok (VObj [("success", VBool true);
                 ("data", VObj [("prompt1", Sample.greeting);
                                ("prompt2", Sample.greeting);
                                ("differences", VArr (map diffValue differences));
                                ("metadata_comparison", VObj comparison)]);
                 ("message", VStr "Prompts compared successfully")]), Sample.full) /\
    Forall (fun e => type e = unchanged) differences /\
    Forall (fun kv => JS.prop (snd kv) "different" = VBool false) comparison.
Proof.
  split; [exact Sample_full_valid|]. split; [|split].
  - apply (proj1 (comparePrompts_itself (host := UTC.host) Fixture.stringify "p3" "p1"
                    Sample.full Sample_full_valid eq_refl eq_refl)).
    reflexivity.
  - apply (proj1 (proj2 (comparePrompts_itself (host := UTC.host) Fixture.stringify
                           "p1" "p3" Sample.full Sample_full_valid eq_refl eq_refl))).
    + discriminate.
    + reflexivity.
  - apply (proj2 (proj2 (comparePrompts_itself (host := UTC.host) Fixture.stringify
                           "p1" "p1" Sample.full Sample_full_valid eq_refl eq_refl))
             Sample.greeting eq_refl eq_refl eq_refl).
Defined.

Section SortedByUse.

Context {host : Host}.

Lemma compareLatestUsed_usable (a b : value) :
  usable a -> usable b -> compareLatestUsed a b = Ok (usedTime b - usedTime a)%Z.
Proof.
  intros (Ha & Hma & Hda) (Hb & Hmb & Hdb).
  unfold compareLatestUsed, usedOrEpoch, metadata_of, get, usedTime.
  rewrite Ha, Hb. simpl. rewrite Hma, Hmb. simpl.
  unfold used_on_date, unused in Hda, Hdb. unfold lastUsed in *.
  destruct (JS.truthy (JS.prop (JS.prop a "metadata") "last_used")) eqn:Ta;
    destruct (JS.truthy (JS.prop (JS.prop b "metadata") "last_used")) eqn:Tb; simpl.
  - destruct (Hda eq_refl) as [ta ->]. destruct (Hdb eq_refl) as [tb ->]. reflexivity.
  - destruct (Hda eq_refl) as [ta ->]. reflexivity.
  - destruct (Hdb eq_refl) as [tb ->]. reflexivity.
  - reflexivity.
Qed.

Lemma usable_defined (l : list value) :
  Forall usable l ->
  filter (fun v => negb (JS.is_undefined v)) l = l /\ filter JS.is_undefined l = [].
Proof.
  induction 1 as [|p l (Hp & _) _ [IH1 IH2]]; simpl; [split; reflexivity|].
  assert (Hu : JS.is_undefined p = false) by (destruct p; try reflexivity; discriminate).
  rewrite Hu. simpl. rewrite IH1, IH2. split; reflexivity.
Qed.

Lemma sortedArray_latest_used (l : list value) :
  Forall usable l ->
  exists sorted,
    sortedArray l (VStr "latest_used") = Ok sorted /\
    Permutation l sorted /\ latest_used_first sorted.
Proof.
  intros Hl.
  change (sortedArray l (VStr "latest_used")) with (Array_sort compareLatestUsed l).
  destruct (usable_defined l Hl) as [E1 E2].
  destruct (osort_descending compareLatestUsed usedTime usable compareLatestUsed_usable
              l Hl) as (sorted & Hsort & Hs).
  assert (Hrun : Array_sort compareLatestUsed l = Ok sorted).
  { unfold Array_sort. rewrite E1, E2, Hsort. simpl. rewrite app_nil_r. reflexivity. }
  exists sorted. split; [exact Hrun|].
  split; [apply (Array_sort_Permutation _ _ _ Hrun)|exact Hs].
Qed.

End SortedByUse.

(** X27: sorting by [latest_used] lists the record used last first. For
    records with distinct plain ids whose [last_used], when set, is a
    date, [applySorting] succeeds and its [sortedPrompts] lists the
    records of the input, each under its id, in an order in which no
    record was last used before a record that follows it; a record that
    was never used counts as used at the epoch. *)
Theorem applySorting_latest_used_first {host : Host} (prompts : props) :
  Forall plain_id (map snd prompts) ->
  NoDup (map idOf (map snd prompts)) ->
  Forall usable (map snd prompts) ->
  exists sorted,
    JS.prop (applySorting (VObj prompts) (VStr "latest_used")) "success" = VBool true /\
    JS.prop (applySorting (VObj prompts) (VStr "latest_used")) "sortedPrompts" =
      VObj (map (fun p => (idOf p, p)) sorted) /\
    Permutation (map snd prompts) sorted /\
    latest_used_first sorted.
Proof.
  intros Hplain Hnd Husable.
  destruct (sortedArray_latest_used (map snd prompts) Husable)
    as (sorted & Hsort & Hperm & Hs).
  exists sorted.
  destruct (applySorting_keeps_order prompts (VStr "latest_used") sorted
              Hplain Hnd Hsort Hperm) as [Hok Hout].
  repeat split; assumption.
Qed.

Lemma applySorting_latest_used_first_witness :
  Forall plain_id (map snd (JS.own_props Sample.library)) /\
  NoDup (map idOf (map snd (JS.own_props Sample.library))) /\
  Forall (usable (host := UTC.host)) (map snd (JS.own_props Sample.library)) /\
  exists sorted,
    JS.prop (applySorting (host := UTC.host) Sample.library (VStr "latest_used"))
      "success" = VBool true /\
    JS.prop (applySorting (host := UTC.host) Sample.library (VStr "latest_used"))
      "sortedPrompts" = VObj (map (fun p => (idOf p, p)) sorted) /\
    Permutation (map snd (JS.own_props Sample.library)) sorted /\
    latest_used_first (host := UTC.host) sorted.
Proof.
  assert (Hplain : Forall plain_id (map snd (JS.own_props Sample.library))).
  { simpl.
    constructor; [exists "p1"|constructor; [exists "p2"|constructor; [exists "p3"|constructor]]];
      (split; [reflexivity|split; [reflexivity|discriminate]]). }
  assert (Hnd : NoDup (map idOf (map snd (JS.own_props Sample.library)))).
  { repeat constructor; simpl; intuition discriminate. }
  assert (Husable : Forall (usable (host := UTC.host))
                      (map snd (JS.own_props Sample.library))).
  { simpl. repeat constructor; intros Hu; try discriminate Hu;
      eexists; vm_compute; reflexivity. }
  split; [exact Hplain|]. split; [exact Hnd|]. split; [exact Husable|].
  exact (applySorting_latest_used_first (host := UTC.host) (JS.own_props Sample.library)
           Hplain Hnd Husable).
Defined.
